(** * A shallow embedding of the messaging broker (messaging/broker.go)

    The broker is a replicated, append-only message log segmented into
    topics.  This file embeds the message codec, the segmented topic log, the
    replicas, the broker state machine driven by the raft log, snapshot and
    restore, truncation, opening, loading and closing the broker, and
    streaming to a replica, and proves properties of them.

    Conventions.
    - Go's fixed-width unsigned integers are [Z]; conversions that wrap
      ([uint32(len(m.Data))]) are written out.
    - Byte slices are [list byte]; [encoding/binary]'s big-endian accessors
      are [putBE] and [getBE] over coqutil's byte-list combinators.
    - A Go function that returns an [error] returns an [option error] next to
      its result; a Go panic (also a nil dereference or a failed [assert])
      ends the run with [Panic].
    - Pointers to segments are positions in the topic's segment slice, with
      [None] for the nil pointer.  Pointers to replicas are locations in a
      heap, because a topic's [replicas] map and the broker's [replicas] map
      share the same [*Replica] objects.
    - A segment file [<data dir>/<topicID>/<startIndex>] is named by the pair
      [(topicID, startIndex)]: [filepath.Join] with [strconv.FormatUint] is
      injective in the two numbers.  A topic directory is named by the
      topicID.
    - Ranging over a Go map visits the entries in an unspecified order; the
      model visits them in the order of [map_to_list].
    - The raft log is outside this file: its state is a field of the broker,
      and its [Open] is an argument of the broker's [Open]. *)

From Stdlib Require Import ZArith List Lia String Sorted.
From coqutil Require Import Byte Word.LittleEndianList.
From stdpp Require Import gmap list fin_maps sorting.

Open Scope Z_scope.

(** ** Errors, panics and the state monad *)

Inductive error : Type :=
| ErrClosed
| ErrReplicaNotFound
| ErrReplicaExists
| errReplicaUnavailable
| ErrNotLeader                      (* raft.ErrNotLeader *)
| EOF                               (* io.EOF *)
| ErrUnexpectedEOF                  (* io.ErrUnexpectedEOF *)
| ErrNotExist                       (* an error e with os.IsNotExist(e) *)
| ErrWriterClosed                   (* a write that the attached sink refused *)
| ErrJSON                           (* a json.Unmarshal failure *)
| ErrMessageDataTooShort
| ErrBadFile                        (* a write on a handle opened read-only *)
| Errorf (ctx : string) (e : error). (* fmt.Errorf(ctx + ": %s", e) *)

Inductive panic : Type :=
| NilDereference
| SliceOutOfRange
| AssertFailed (msg : string)
| PanicError (e : error)            (* panic(err.Error()) *)
| PanicURL                          (* newReplica: url.Parse failed *)
| PanicUnmarshal.                   (* mustUnmarshalJSON *)

Inductive res (A : Type) : Type :=
| Ret (a : A)
| Panic (p : panic).
Arguments Ret {A} a.
Arguments Panic {A} p.

(** A computation over a state [S] that returns an [A] or panics. *)
Definition M (S A : Type) : Type := S -> res (A * S).

Definition ret {S A} (a : A) : M S A := fun s => Ret (a, s).
Definition bind {S A B} (c : M S A) (k : A -> M S B) : M S B :=
  fun s => match c s with
           | Ret (a, s') => k a s'
           | Panic p => Panic p
           end.
Definition throw {S A} (p : panic) : M S A := fun _ => Panic p.
Definition get {S} : M S S := fun s => Ret (s, s).
Definition put {S} (s : S) : M S unit := fun _ => Ret (tt, s).
Definition modify {S} (f : S -> S) : M S unit := fun s => Ret (tt, f s).

Declare Scope go_scope.
Delimit Scope go_scope with go.
Notation "x <- c ;; k" := (bind c (fun x => k))
  (at level 63, c at next level, right associativity) : go_scope.
#[warnings="-notation-incompatible-prefix"]
Notation "' p <- c ;; k" := (bind c (fun x => let 'p := x in k))
  (at level 63, p pattern, c at next level, right associativity) : go_scope.
Notation "c ;;; k" := (bind c (fun _ => k))
  (at level 63, right associativity) : go_scope.
Open Scope go_scope.

(** [assert(condition, msg)] *)
Definition assert {S} (condition : bool) (msg : string) : M S unit :=
  if condition then ret tt else throw (AssertFailed msg).

(** ** Constants *)

Definition BroadcastTopicID : Z := 0.
Definition MaxSegmentSize : Z := 10 * 1024 * 1024.

Definition BrokerMessageType : Z := 0x8000.
Definition InternalMessageType : Z := Z.lor BrokerMessageType 0x00.
Definition CreateReplicaMessageType : Z := Z.lor BrokerMessageType 0x10.
Definition DeleteReplicaMessageType : Z := Z.lor BrokerMessageType 0x11.
Definition SubscribeMessageType : Z := Z.lor BrokerMessageType 0x20.
Definition UnsubscribeMessageType : Z := Z.lor BrokerMessageType 0x21.

Definition messageHeaderSize : nat := 2 + 8 + 8 + 4.

(** ** Message codec *)

Definition uint32 (z : Z) : Z := z mod 2 ^ 32.

(** [binary.BigEndian.PutUintN]: the [n] low bytes of [v], most significant
    first. *)
Definition putBE (n : nat) (v : Z) : list byte := rev (le_split n v).
(** [binary.BigEndian.UintN] *)
Definition getBE (bs : list byte) : Z := le_combine (rev bs).

Record Message : Type := mkMessage {
  Typ : Z;            (* Type MessageType (uint16) *)
  TopicID : Z;        (* uint64 *)
  Index : Z;          (* uint64 *)
  Data : list byte
}.

Definition emptyMessage : Message := mkMessage 0 0 0 [].

(** [b[lo:hi]] for [lo <= hi <= len(b)] *)
Definition slice (b : list byte) (lo hi : nat) : list byte :=
  take (hi - lo) (drop lo b).

Definition marshalHeader (m : Message) : list byte :=
  putBE 2 (Typ m) ++ putBE 8 (TopicID m) ++ putBE 8 (Index m)
    ++ putBE 4 (uint32 (Z.of_nat (length (Data m)))).

Definition MarshalBinary (m : Message) : list byte :=
  marshalHeader m ++ Data m.

(** [unmarshalHeader]: slicing [b[18:22]] of a shorter slice panics.  The
    data field is sized (zero bytes) but not filled. *)
Definition unmarshalHeader (b : list byte) : res Message :=
  if (length b <? messageHeaderSize)%nat then Panic SliceOutOfRange
  else Ret (mkMessage (getBE (slice b 0 2)) (getBE (slice b 2 10))
              (getBE (slice b 10 18))
              (replicate (Z.to_nat (getBE (slice b 18 22))) Byte.x00)).

(** [copy(dst, src)]: overwrite the first [min(len dst, len src)] bytes. *)
Definition copy (dst src : list byte) : list byte :=
  take (length dst) src ++ drop (length src) dst.

Definition UnmarshalBinary (b : list byte) : res (Message * option error) :=
  match unmarshalHeader b with
  | Panic p => Panic p
  | Ret m =>
      if (length (drop messageHeaderSize b) <? length (Data m))%nat
      then Ret (m, Some ErrMessageDataTooShort)
      else Ret (mkMessage (Typ m) (TopicID m) (Index m)
                  (copy (Data m) (drop messageHeaderSize b)), None)
  end.

(** A reader is the list of bytes still to be read. *)
Definition Reader : Type := list byte.

(** [io.ReadFull(r, buf)] with [len(buf) = n]: the bytes read and the error.
    No byte at all is [io.EOF], fewer than [n] is [io.ErrUnexpectedEOF]. *)
Definition ReadFull (n : nat) : M Reader (list byte * option error) :=
  fun r =>
    if (n =? 0)%nat then Ret (([], None), r)
    else match r with
         | [] => Ret (([], Some EOF), [])
         | _ => if (length r <? n)%nat
                then Ret ((r, Some ErrUnexpectedEOF), [])
                else Ret ((take n r, None), drop n r)
         end.

(** [MessageDecoder.Decode(m)]: [m] is updated in place; it is returned with
    the error. *)
Definition Decode (m : Message) : M Reader (Message * option error) :=
  '(b, err) <- ReadFull messageHeaderSize ;;
  match err with
  | Some e => ret (m, Some e)
  | None =>
      match unmarshalHeader b with
      | Panic p => throw p
      | Ret m =>
          '(d, err) <- ReadFull (length (Data m)) ;;
          ret (mkMessage (Typ m) (TopicID m) (Index m) (copy (Data m) d), err)
      end
  end.

(** ** External collaborators

    [encoding/json] and [net/url] are not part of the broker; the model takes
    them as an interface.  [url_Parse] is [url.Parse] followed by
    [URL.String]. *)

Record CreateReplicaCommand : Type :=
  mkCreateReplicaCommand { crc_ID : Z; crc_URL : string }.
Record DeleteReplicaCommand : Type :=
  mkDeleteReplicaCommand { drc_ID : Z }.
Record SubscribeCommand : Type :=
  mkSubscribeCommand { sc_ReplicaID : Z; sc_TopicID : Z }.
Record UnsubscribeCommand : Type :=
  mkUnsubscribeCommand { uc_ReplicaID : Z; uc_TopicID : Z }.

Record snapshotTopicSegment : Type := mkSnapshotTopicSegment {
  sts_Index : Z;
  sts_Size : Z;
  sts_path : Z * Z       (* unexported: not part of the JSON encoding *)
}.
Record snapshotTopic : Type := mkSnapshotTopic {
  st_ID : Z;
  st_Segments : list snapshotTopicSegment
}.
Record snapshotReplica : Type := mkSnapshotReplica {
  sr_ID : Z;
  sr_TopicIDs : list Z;
  sr_URL : string
}.
Record snapshotHeader : Type := mkSnapshotHeader {
  sh_Replicas : list snapshotReplica;
  sh_Topics : list snapshotTopic;
  sh_Index : Z
}.

Class External : Type := {
  url_Parse : string -> option string;
  json_Marshal_CreateReplicaCommand : CreateReplicaCommand -> list byte;
  json_CreateReplicaCommand : list byte -> option CreateReplicaCommand;
  json_DeleteReplicaCommand : list byte -> option DeleteReplicaCommand;
  json_SubscribeCommand : list byte -> option SubscribeCommand;
  json_UnsubscribeCommand : list byte -> option UnsubscribeCommand;
  json_Marshal_header : snapshotHeader -> list byte;
  json_Unmarshal_header : list byte -> option snapshotHeader
}.

(** ** Data model *)

(** The byte sink attached to a replica: what it has received so far, and
    how many more writes it accepts before the peer is gone ([None]: it
    never fails). *)
Record Sink : Type := mkSink {
  sink_data : list byte;
  sink_writes_left : option nat
}.

Definition loc : Type := positive.

Record Replica : Type := mkReplica {
  replica_URL : string;
  replica_id : Z;
  replica_index : Z;              (* highest index replicated to the replica *)
  replica_writer : option Sink;   (* currently attached writer; [done] is
                                     closed exactly when it is removed *)
  replica_topics : gset Z         (* set of subscribed topics *)
}.

Record segment : Type := mkSegment {
  seg_index : Z;                  (* starting index of the segment and name *)
  seg_path : Z * Z;               (* path to the segment file *)
  seg_size : Z;                   (* total size of the segment file, in bytes *)
  seg_file : option (Z * Z)       (* handle for writing, [None] is nil *)
}.

Record topic : Type := mkTopic {
  topic_id : Z;
  topic_index : Z;                (* highest index written *)
  topic_path : Z;                 (* on-disk path *)
  topic_segments : list segment;
  topic_replicas : gmap Z loc     (* replicas subscribed to topic *)
}.

(** The disk under the data directory and the heap of replica objects. *)
Record World : Type := mkWorld {
  files : gmap (Z * Z) (list byte);
  dirs : gset Z;
  meta : option (list byte);
  heap : gmap loc Replica
}.

Inductive RaftState : Type := Follower | Candidate | Leader.

Record Broker : Type := mkBroker {
  broker_path : string;           (* data directory *)
  broker_index : Z;               (* highest applied index *)
  broker_state : RaftState;       (* b.log.State() *)
  broker_replicas : gmap Z loc;   (* replica by id *)
  broker_topics : gmap Z topic    (* topics by id *)
}.

Definition set_files (f : gmap (Z * Z) (list byte)) (w : World) : World :=
  mkWorld f (dirs w) (meta w) (heap w).
Definition set_dirs (d : gset Z) (w : World) : World :=
  mkWorld (files w) d (meta w) (heap w).
Definition set_meta (m : option (list byte)) (w : World) : World :=
  mkWorld (files w) (dirs w) m (heap w).
Definition set_heap (h : gmap loc Replica) (w : World) : World :=
  mkWorld (files w) (dirs w) (meta w) h.

Definition set_seg_file (f : option (Z * Z)) (s : segment) : segment :=
  mkSegment (seg_index s) (seg_path s) (seg_size s) f.

Definition set_topic_index (i : Z) (t : topic) : topic :=
  mkTopic (topic_id t) i (topic_path t) (topic_segments t) (topic_replicas t).
Definition set_topic_segments (a : list segment) (t : topic) : topic :=
  mkTopic (topic_id t) (topic_index t) (topic_path t) a (topic_replicas t).
Definition set_topic_replicas (r : gmap Z loc) (t : topic) : topic :=
  mkTopic (topic_id t) (topic_index t) (topic_path t) (topic_segments t) r.

Definition set_replica_index (i : Z) (r : Replica) : Replica :=
  mkReplica (replica_URL r) (replica_id r) i (replica_writer r) (replica_topics r).
Definition set_replica_writer (w : option Sink) (r : Replica) : Replica :=
  mkReplica (replica_URL r) (replica_id r) (replica_index r) w (replica_topics r).
Definition set_replica_topics (ts : gset Z) (r : Replica) : Replica :=
  mkReplica (replica_URL r) (replica_id r) (replica_index r) (replica_writer r) ts.

Definition set_broker_index (i : Z) (b : Broker) : Broker :=
  mkBroker (broker_path b) i (broker_state b) (broker_replicas b) (broker_topics b).
Definition set_broker_replicas (r : gmap Z loc) (b : Broker) : Broker :=
  mkBroker (broker_path b) (broker_index b) (broker_state b) r (broker_topics b).
Definition set_broker_topics (ts : gmap Z topic) (b : Broker) : Broker :=
  mkBroker (broker_path b) (broker_index b) (broker_state b) (broker_replicas b) ts.

(** ** Replicas *)

(** Dereference a replica pointer. *)
Definition load (r : loc) : M World Replica :=
  fun w => match heap w !! r with
           | Some rep => Ret (rep, w)
           | None => Panic NilDereference
           end.
Definition store (r : loc) (rep : Replica) : M World unit :=
  modify (fun w => set_heap (<[r := rep]> (heap w)) w).

(** [closeWriter] removes the writer on the replica. *)
Definition closeWriter (r : loc) : M World unit :=
  rep <- load r ;;
  match replica_writer rep with
  | Some _ => store r (set_replica_writer None rep)
  | None => ret tt
  end.

(** The sink's [Write]. *)
Definition sink_Write (p : list byte) (s : Sink) : Sink * option error :=
  match sink_writes_left s with
  | Some O => (s, Some ErrWriterClosed)
  | Some (S k) => (mkSink (sink_data s ++ p) (Some k), None)
  | None => (mkSink (sink_data s ++ p) None, None)
  end.

(** [Replica.Write]: without a writer the replica is unavailable; a failed
    write removes the writer. *)
Definition Replica_Write (r : loc) (p : list byte) : M World (option error) :=
  rep <- load r ;;
  match replica_writer rep with
  | None => ret (Some errReplicaUnavailable)
  | Some s =>
      match sink_Write p s with
      | (_, Some _) => closeWriter r ;;; ret (Some errReplicaUnavailable)
      | (s', None) => store r (set_replica_writer (Some s') rep) ;;; ret None
      end
  end.

(** [Message.WriteTo(w)] with the replica as the writer. *)
Definition Message_WriteTo (m : Message) (r : loc) : M World (option error) :=
  err <- Replica_Write r (marshalHeader m) ;;
  match err with
  | Some e => ret (Some e)
  | None => Replica_Write r (Data m)
  end.

(** ** Segments *)

(** [segment.open]: [os.OpenFile(path, O_RDWR|O_CREATE|O_APPEND)] creates the
    file when it is absent and fails when the topic directory is. *)
Definition segment_open (s : segment) : M World (segment * option error) :=
  fun w =>
    if decide (fst (seg_path s) ∈ dirs w) then
      let fs := match files w !! seg_path s with
                | Some _ => files w
                | None => <[seg_path s := []]> (files w)
                end in
      Ret ((set_seg_file (Some (seg_path s)) s, None), set_files fs w)
    else Ret ((s, Some ErrNotExist), w).

(** [segment.close] closes the segment's writing file handle. *)
Definition segment_close (s : segment) : segment := set_seg_file None s.

(** [File.Write] on a handle opened for append. *)
Definition file_Write (h : Z * Z) (b : list byte) : M World (option error) :=
  fun w => Ret (None, set_files (<[h := default [] (files w !! h) ++ b]> (files w)) w).

(** [segments.last]: the last segment in the slice, nil if there is none. *)
Definition segments_last (a : list segment) : option nat :=
  match a with
  | [] => None
  | _ => Some (length a - 1)%nat
  end.

(** Reading through a segment pointer; nil panics. *)
Definition deref {S} (t : topic) (s : option nat) : M S segment :=
  match s with
  | None => throw NilDereference
  | Some i => match topic_segments t !! i with
              | Some x => ret x
              | None => throw NilDereference
              end
  end.

(** Writing through a segment pointer. *)
Definition assign (i : nat) (s : segment) (t : topic) : topic :=
  set_topic_segments (<[i := s]> (topic_segments t)) t.

(** ** Topics *)

Definition segmentPath (t : topic) (index : Z) : Z * Z := (topic_path t, index).

Fixpoint for_each {S A} (l : list A) (f : A -> M S unit) : M S unit :=
  match l with
  | [] => ret tt
  | a :: l' => f a ;;; for_each l' f
  end.

(** [topic.encode] writes a message to the end of the topic. *)
Definition encode (m : Message) (t : topic) : M World (topic * option error) :=
  (* Ensure message is in-order. *)
  assert (topic_index t <? Index m) "topic message out of order" ;;;
  (* Retrieve the last segment. *)
  let s := segments_last (topic_segments t) in
  (* Close the segment if it's too large. *)
  s0 <- deref t s ;;
  let '(t, s) :=
    if MaxSegmentSize <? seg_size s0
    then (match s with
          | Some i => assign i (segment_close s0) t
          | None => t
          end, None)
    else (t, s) in
  (* Create and append a new segment if we don't have one. *)
  let t :=
    match s with
    | None => set_topic_segments
                (topic_segments t ++
                   [mkSegment (Index m) (segmentPath t (Index m)) 0 None]) t
    | Some _ => t
    end in
  s1 <- deref t s ;;
  '(t, err) <-
    match seg_file s1, s with
    | None, Some i =>
        '(s1', err) <- segment_open s1 ;;
        ret (assign i s1' t, err)
    | _, _ => ret (t, None)
    end ;;
  match err with
  | Some e => ret (t, Some (Errorf "open segment" e))
  | None =>
      (* Encode message. *)
      let b := MarshalBinary m in
      (* Write to segment. *)
      s2 <- deref t s ;;
      match seg_file s2 with
      | None => throw NilDereference
      | Some h =>
          err <- file_Write h b ;;
          match err with
          | Some e => ret (t, Some (Errorf "write segment" e))
          | None =>
              (* Move up high water mark on the topic. *)
              let t := set_topic_index (Index m) t in
              (* Write message out to all replicas. *)
              for_each (map_to_list (topic_replicas t))
                (fun '(_, r) => _ <- Replica_Write r b ;; ret tt) ;;;
              ret (t, None)
          end
      end
  end.

(** The decode loop of [writeSegmentTo].  Every round that does not stop
    consumes at least the 22 header bytes, so [S (length rd)] rounds are
    enough; the round at fuel [0] is never reached (see
    [writeSegmentTo_loop_fuel]). *)
Fixpoint writeSegmentTo_loop (fuel : nat) (r : loc) (index : Z) (rd : Reader)
  : M World (option error) :=
  match fuel with
  | O => ret None
  | S fuel' =>
      match Decode emptyMessage rd with
      | Panic p => throw p
      | Ret ((_, Some EOF), _) => ret None
      | Ret ((_, Some e), _) => ret (Some (Errorf "decode" e))
      | Ret ((m, None), rd') =>
          (* Ignore message if it's on or before high water mark. *)
          if Index m <=? index then writeSegmentTo_loop fuel' r index rd'
          else
            err <- Message_WriteTo m r ;;
            match err with
            | Some e => ret (Some (Errorf "write to" e))
            | None => writeSegmentTo_loop fuel' r index rd'
            end
      end
  end.

Definition writeSegmentTo (r : loc) (index : Z) (s : segment)
  : M World (option error) :=
  w <- get ;;
  (* Open segment for reading.  If it doesn't exist then just exit. *)
  match files w !! seg_path s with
  | None => ret None
  | Some content => writeSegmentTo_loop (S (length content)) r index content
  end.

(** The loop of [writeTo] over [segments[i:]]; [next] is [segments[i+1]]. *)
Fixpoint writeTo_segments (t : topic) (r : loc) (index : Z) (segs : list segment)
  : M World (option error) :=
  match segs with
  | [] => ret None
  | s :: rest =>
      let next := head rest in
      (* If the index is after the end of the segment then ignore. *)
      if match next with
         | Some n => seg_index n <=? index
         | None => false
         end
      then writeTo_segments t r index rest
      else
        err <- writeSegmentTo r index s ;;
        match err with
        | Some e => ret (Some (Errorf "write segment" e))
        | None => writeTo_segments t r index rest
        end
  end.

(** [topic.writeTo] writes the topic to a replica, only the messages after
    the replica's index. *)
Definition writeTo (t : topic) (r : loc) : M World (option error) :=
  rep <- load r ;;
  writeTo_segments t r (replica_index rep) (topic_segments t).

(** The numeric file names in the topic directory, with the file sizes. *)
Definition readdir (dir : Z) (w : World) : list (Z * Z) :=
  omap (fun '((d, i), c) =>
          if decide (d = dir) then Some (i, Z.of_nat (length c)) else None)
       (map_to_list (files w)).

Definition segment_le (a b : segment) : Prop := seg_index a <= seg_index b.
#[global] Instance segment_le_dec a b : Decision (segment_le a b) :=
  Z_le_dec (seg_index a) (seg_index b).

(** [topic.loadSegments] reads all available segments for the topic.  At
    least one segment will always exist. *)
Definition loadSegments (t : topic) : M World (topic * option error) :=
  w <- get ;;
  if decide (topic_path t ∈ dirs w) then
    let a := merge_sort segment_le
               (map (fun '(index, size) =>
                       mkSegment index (segmentPath t index) size None)
                    (readdir (topic_path t) w)) in
    let a := match a with
             | [] => [mkSegment 0 (segmentPath t 0) 0 None]
             | _ => a
             end in
    ret (set_topic_segments a t, None)
  else ret (t, Some ErrNotExist).

(** [topic.open] opens a topic for writing. *)
Definition topic_open (t : topic) : M World (topic * option error) :=
  assert (length (topic_segments t) =? 0)%nat "topic already open" ;;;
  (* Ensure the parent directory exists. *)
  modify (fun w => set_dirs ({[topic_path t]} ∪ dirs w) w) ;;;
  '(t, err) <- loadSegments t ;;
  match err with
  | Some e => ret (t, Some (Errorf "read segments" e))
  | None => ret (t, None)
  end.

(** [topic.Close] closes the underlying files. *)
Definition topic_Close (t : topic) : topic :=
  set_topic_segments (map segment_close (topic_segments t)) t.

(** The decode loop of [topic.loadIndex]; the fuel is as for
    [writeSegmentTo_loop]. *)
Fixpoint loadIndex_loop (fuel : nat) (t : topic) (rd : Reader)
  : res (topic * option error) :=
  match fuel with
  | O => Ret (t, None)
  | S fuel' =>
      match Decode emptyMessage rd with
      | Panic p => Panic p
      | Ret ((_, Some EOF), _) => Ret (t, None)
      | Ret ((_, Some e), _) => Ret (t, Some (Errorf "decode" e))
      | Ret ((m, None), rd') =>
          (* Update the topic's highest index. *)
          loadIndex_loop fuel' (set_topic_index (Index m) t) rd'
      end
  end.

(** [topic.loadIndex] reads the highest available index for a topic from
    disk. *)
Definition topic_loadIndex (t : topic) : M World (topic * option error) :=
  s <- deref t (segments_last (topic_segments t)) ;;
  w <- get ;;
  (* Open topic file for reading. *)
  match files w !! seg_path s with
  | None => ret (t, None)
  | Some content =>
      match loadIndex_loop (S (length content)) t content with
      | Panic p => throw p
      | Ret r => ret r
      end
  end.

(** ** The broker *)

Section Broker.
Context `{External}.

(** Broker methods run over the broker and the world. *)
Definition BW : Type := Broker * World.

Definition liftW {A} (c : M World A) : M BW A :=
  fun '(b, w) => match c w with
                 | Ret (a, w') => Ret (a, (b, w'))
                 | Panic p => Panic p
                 end.
Definition getB : M BW Broker := fun '(b, w) => Ret (b, (b, w)).
Definition modifyB (f : Broker -> Broker) : M BW unit :=
  fun '(b, w) => Ret (tt, (f b, w)).

(** Reading and writing through a topic pointer; the topics a method holds a
    pointer to are the entries of [b.topics], so the pointer is the id. *)
Definition topic_load (p : option Z) : M BW topic :=
  b <- getB ;;
  match p with
  | None => throw NilDereference
  | Some id => match broker_topics b !! id with
               | Some t => ret t
               | None => throw NilDereference
               end
  end.
Definition topic_store (id : Z) (t : topic) : M BW unit :=
  modifyB (fun b => set_broker_topics (<[id := t]> (broker_topics b)) b).
Definition topic_assign (p : option Z) (t : topic) : M BW unit :=
  match p with
  | None => throw NilDereference
  | Some id => topic_store id t
  end.

(** One round of the segment loop of [createSnapshotHeader]: stat the file
    (a missing file has size 0), append the segment, bump the max index. *)
Definition snapshotSegment (w : World) (s : segment) : snapshotTopicSegment :=
  mkSnapshotTopicSegment (seg_index s)
    (match files w !! seg_path s with
     | Some content => Z.of_nat (length content)
     | None => 0
     end)
    (seg_path s).

Definition headerAddSegment (w : World)
    (acc : list snapshotTopicSegment * Z) (s : segment)
  : list snapshotTopicSegment * Z :=
  (acc.1 ++ [snapshotSegment w s],
   if acc.2 <? seg_index s then seg_index s else acc.2).

Definition headerAddTopic (w : World) (sh : snapshotHeader) (t : topic)
  : snapshotHeader :=
  let '(segs, index) :=
    foldl (headerAddSegment w) ([], sh_Index sh) (topic_segments t) in
  mkSnapshotHeader (sh_Replicas sh)
    (sh_Topics sh ++ [mkSnapshotTopic (topic_id t) segs]) index.

Definition headerAddReplica (w : World) (sh : snapshotHeader) (r : loc)
  : snapshotHeader :=
  match heap w !! r with
  | Some rep =>
      mkSnapshotHeader
        (sh_Replicas sh ++
           [mkSnapshotReplica (replica_id rep) (elements (replica_topics rep))
              (replica_URL rep)])
        (sh_Topics sh) (sh_Index sh)
  | None => sh
  end.

(** [createSnapshotHeader]; [os.Stat] fails only for a missing file here, so
    the error result is always nil and is left out. *)
Definition createSnapshotHeader (b : Broker) (w : World) : snapshotHeader :=
  let sh := mkSnapshotHeader [] [] 0 in
  let sh := foldl (headerAddTopic w) sh (map_to_list (broker_topics b)).*2 in
  foldl (headerAddReplica w) sh (map_to_list (broker_replicas b)).*2.

(** [save] persists the broker metadata to disk.  The data directory itself
    is not part of [World]: [os.Create] of the metadata file and the
    encoder are taken to succeed, as they do once the data directory
    exists.  On a path whose directory was never created [os.Create] fails
    and Go's [save] returns that error; this model does not cover that
    case. *)
Definition save : M BW (option error) :=
  fun '(b, w) =>
    if String.eqb (broker_path b) EmptyString then Ret (Some ErrClosed, (b, w))
    else
      let hdr := createSnapshotHeader b w in
      Ret (None, (b, set_meta (Some (json_Marshal_header hdr)) w)).

Definition mustSave : M BW unit :=
  err <- save ;;
  match err with
  | Some ErrClosed | None => ret tt
  | Some e => throw (PanicError e)
  end.

(** [minReplicaTopicIndex] returns the lowest index replicated for all
    replicas subscribed to a given topic.  [acc] is [(index, updated)]. *)
Definition minStep (h : gmap loc Replica) (topicID : Z)
    (acc : Z * bool) (r : loc) : Z * bool :=
  match h !! r with
  | None => acc
  | Some rep =>
      (* Ignore replicas that are not subscribed. *)
      if decide (topicID ∈ replica_topics rep) then
        (* Move the index down if unset or a lowest index is found. *)
        if negb acc.2 || (replica_index rep <? acc.1)
        then (replica_index rep, true)
        else acc
      else acc
  end.

Definition minReplicaTopicIndex (b : Broker) (w : World) (topicID : Z) : Z :=
  (foldl (minStep (heap w) topicID) (0, false)
     (map_to_list (broker_replicas b)).*2).1.

(** [newTopic] initializes a new topic object. *)
Definition newTopic (id : Z) : M BW topic :=
  let t := mkTopic id 0 id [] ∅ in
  topic_store id t ;;; ret t.

(** [createTopicIfNotExists] creates and opens a topic if it doesn't already
    exist.  The result is the topic pointer and the error. *)
Definition createTopicIfNotExists (id : Z) : M BW (option Z * option error) :=
  b <- getB ;;
  match broker_topics b !! id with
  | Some _ => ret (Some id, None)
  | None =>
      (* Create topic and save metadata. *)
      t <- newTopic id ;;
      err <- save ;;
      match err with
      | Some e => ret (None, Some (Errorf "save" e))
      | None =>
          (* Open topic. *)
          '(t, err) <- liftW (topic_open t) ;;
          topic_store id t ;;;
          match err with
          | Some e => ret (None, Some (Errorf "open topic" e))
          | None => ret (Some id, None)
          end
      end
  end.

Definition mustCreateTopicIfNotExists (id : Z) : M BW (option Z) :=
  '(t, err) <- createTopicIfNotExists id ;;
  match err with
  | Some e => throw (PanicError e)
  | None => ret t
  end.

(** [newReplica] allocates a new Replica; a URL that does not parse panics. *)
Definition newReplica (id : Z) (urlstr : string) : M BW loc :=
  match url_Parse urlstr with
  | None => throw PanicURL
  | Some u =>
      liftW (fun w =>
               let r := fresh (dom (heap w)) in
               Ret (r, set_heap (<[r := mkReplica u id 0 None ∅]> (heap w)) w))
  end.

(** The leader-side check of [CreateReplica]: the error returned before
    anything is published, or the command message handed to [PublishSync]. *)
Definition CreateReplica (id : Z) (connectURL : string) (b : Broker)
  : error + Message :=
  (* Ensure replica doesn't already exist. *)
  match broker_replicas b !! id with
  | Some _ => inl ErrReplicaExists
  | None =>
      (* Add command to create replica. *)
      inr (mkMessage CreateReplicaMessageType 0 0
             (json_Marshal_CreateReplicaCommand
                (mkCreateReplicaCommand id connectURL)))
  end.

Definition mustApplyCreateReplica (m : Message) : M BW unit :=
  match json_CreateReplicaCommand (Data m) with
  | None => throw PanicUnmarshal
  | Some c =>
      (* Create replica. *)
      r <- newReplica (crc_ID c) (crc_URL c) ;;
      (* Automatically subscribe to the config topic. *)
      _ <- createTopicIfNotExists BroadcastTopicID ;;
      rep <- liftW (load r) ;;
      liftW (store r (set_replica_topics
                        ({[BroadcastTopicID]} ∪ replica_topics rep) rep)) ;;;
      (* Add replica to the broker. *)
      modifyB (fun b =>
                 set_broker_replicas (<[crc_ID c := r]> (broker_replicas b)) b) ;;;
      mustSave
  end.

Definition mustApplyDeleteReplica (m : Message) : M BW unit :=
  match json_DeleteReplicaCommand (Data m) with
  | None => throw PanicUnmarshal
  | Some c =>
      b <- getB ;;
      (* Find replica. *)
      match broker_replicas b !! drc_ID c with
      | None => ret tt
      | Some r =>
          rep <- liftW (load r) ;;
          (* Remove replica from all subscribed topics. *)
          for_each (elements (replica_topics rep))
            (fun topicID =>
               b <- getB ;;
               match broker_topics b !! topicID with
               | Some t =>
                   topic_store topicID
                     (set_topic_replicas
                        (delete (replica_id rep) (topic_replicas t)) t)
               | None => ret tt
               end) ;;;
          liftW (store r (set_replica_topics ∅ rep)) ;;;
          (* Close replica's writer. *)
          liftW (closeWriter r) ;;;
          (* Remove replica from broker. *)
          modifyB (fun b =>
                     set_broker_replicas (delete (drc_ID c) (broker_replicas b)) b) ;;;
          mustSave
      end
  end.

Definition mustApplySubscribe (m : Message) : M BW unit :=
  match json_SubscribeCommand (Data m) with
  | None => throw PanicUnmarshal
  | Some c =>
      b <- getB ;;
      (* Retrieve replica. *)
      match broker_replicas b !! sc_ReplicaID c with
      | None => ret tt
      | Some r =>
          (* Save current index on topic. *)
          t <- mustCreateTopicIfNotExists (sc_TopicID c) ;;
          rep <- liftW (load r) ;;
          (* Ensure topic is not already subscribed to. *)
          if decide (sc_TopicID c ∈ replica_topics rep) then ret tt
          else
            (* Add subscription to replica. *)
            liftW (store r (set_replica_topics
                              ({[sc_TopicID c]} ∪ replica_topics rep) rep)) ;;;
            t0 <- topic_load t ;;
            let t0 := set_topic_replicas
                        (<[sc_ReplicaID c := r]> (topic_replicas t0)) t0 in
            topic_assign t t0 ;;;
            (* Catch up replica. *)
            _ <- liftW (writeTo t0 r) ;;
            mustSave
      end
  end.

Definition mustApplyUnsubscribe (m : Message) : M BW unit :=
  match json_UnsubscribeCommand (Data m) with
  | None => throw PanicUnmarshal
  | Some c =>
      b <- getB ;;
      (* Remove topic from replica. *)
      match broker_replicas b !! uc_ReplicaID c with
      | Some r =>
          rep <- liftW (load r) ;;
          liftW (store r (set_replica_topics
                            (replica_topics rep ∖ {[uc_TopicID c]}) rep))
      | None => ret tt
      end ;;;
      (* Remove replica from topic. *)
      match broker_topics b !! uc_TopicID c with
      | Some t =>
          topic_store (uc_TopicID c)
            (set_topic_replicas (delete (uc_ReplicaID c) (topic_replicas t)) t)
      | None => ret tt
      end ;;;
      mustSave
  end.

(** [Heartbeat] records a heartbeat from a replica. *)
Definition Heartbeat (id index : Z) : M BW (option error) :=
  b <- getB ;;
  (* Ignore if the broker is not the leader. *)
  match broker_state b with
  | Leader =>
      (* Find replica. *)
      match broker_replicas b !! id with
      | None => ret (Some ErrReplicaNotFound)
      | Some r =>
          (* Update its highest index received. *)
          rep <- liftW (load r) ;;
          liftW (store r (set_replica_index index rep)) ;;;
          ret None
      end
  | _ => ret (Some ErrNotLeader)
  end.

(** The segment loop of [Truncate] over [t.segments[i:]].  The result is the
    segments as the loop leaves them (a removed segment is closed in place)
    and the [newSegments] slice it builds.  [os.Remove] of a missing file is
    ignored by the loop; no other failure is modelled. *)
Fixpoint Truncate_segments (minReplicaTopicIndex : Z) (segs : list segment)
  : M World (list segment * list segment) :=
  match segs with
  | [] => ret ([], [])
  | s :: rest =>
      (* Find the next segment so we can find the upper index bound. *)
      let next := head rest in
      (* Ignore the last segment or if the next index is less than the
         highest index replicated across all replicas. *)
      if match next with
         | None => true
         | Some n => minReplicaTopicIndex <? seg_index n
         end
      then
        '(segs', newSegments) <- Truncate_segments minReplicaTopicIndex rest ;;
        ret (s :: segs', s :: newSegments)
      else
        (* Remove the segment if the replicated index has moved past all the
           entries inside this segment. *)
        modify (fun w => set_files (delete (seg_path s) (files w)) w) ;;;
        '(segs', newSegments) <- Truncate_segments minReplicaTopicIndex rest ;;
        ret (segment_close s :: segs', newSegments)
  end.

(** The body of the topic loop of [Truncate].  [newSegments] is built and
    never stored. *)
Definition Truncate_topic (idt : Z * topic) : M BW unit :=
  let '(id, t) := idt in
  '(b, w) <- get ;;
  (* Determine the highest index replicated to all subscribed replicas. *)
  let min := minReplicaTopicIndex b w (topic_id t) in
  (* Loop over segments and close as needed. *)
  '(segs, newSegments) <- liftW (Truncate_segments min (topic_segments t)) ;;
  topic_store id (set_topic_segments segs t).

(** [Truncate] removes log segments that have been replicated to all
    subscribed replicas. *)
Definition Truncate : M BW (option error) :=
  b <- getB ;;
  for_each (map_to_list (broker_topics b)) Truncate_topic ;;;
  ret None.

(** ** The raft state machine *)

Inductive LogEntryType : Type :=
| LogEntryCommand
| LogEntryInternal.     (* every other raft.LogEntryType *)

Record LogEntry : Type := mkLogEntry {
  e_Type : LogEntryType;
  e_Index : Z;
  e_Data : list byte
}.

(** [switch m.Type] of [MustApply]: update the broker configuration. *)
Definition applyCommand (m : Message) : M BW unit :=
  if Typ m =? CreateReplicaMessageType then mustApplyCreateReplica m
  else if Typ m =? DeleteReplicaMessageType then mustApplyDeleteReplica m
  else if Typ m =? SubscribeMessageType then mustApplySubscribe m
  else if Typ m =? UnsubscribeMessageType then mustApplyUnsubscribe m
  else ret tt.

(** The first half of [MustApply]: decode commands into messages and apply
    them to the broker configuration; convert internal raft entries to
    no-ops to move the index forward. *)
Definition entryMessage (e : LogEntry) : M BW Message :=
  match e_Type e with
  | LogEntryCommand =>
      (* Decode the message from the raft log. *)
      match UnmarshalBinary (e_Data e) with
      | Panic p => throw p
      | Ret (_, Some _) => throw (AssertFailed "message unmarshal")
      | Ret (m, None) =>
          (* Update the broker configuration. *)
          applyCommand m ;;; ret m
      end
  | LogEntryInternal =>
      (* Internal raft commands should be broadcast out as no-ops. *)
      ret (mkMessage InternalMessageType BroadcastTopicID
             (Index emptyMessage) (Data emptyMessage))
  end.

(** [brokerFSM.MustApply] executes a raft log entry against the broker. *)
Definition MustApply (e : LogEntry) : M BW unit :=
  m <- entryMessage e ;;
  (* Set the raft index. *)
  let m := mkMessage (Typ m) (TopicID m) (e_Index e) (Data m) in
  (* Write to the topic. *)
  t <- mustCreateTopicIfNotExists (TopicID m) ;;
  t0 <- topic_load t ;;
  '(t1, err) <- liftW (encode m t0) ;;
  topic_assign t t1 ;;;
  match err with
  | Some e => throw (PanicError (Errorf "encode" e))
  | None =>
      (* Save highest applied index. *)
      modifyB (set_broker_index (e_Index e))
  end.

(** [copyFileN] copies [n] bytes from a path to a writer: the bytes written
    and the error. *)
Definition copyFileN (w : World) (path : Z * Z) (n : Z)
  : list byte * option error :=
  match files w !! path with
  | None => ([], Some ErrNotExist)
  | Some content =>
      let out := take (Z.to_nat n) content in
      (out, if Z.of_nat (length out) <? n then Some EOF else None)
  end.

(** Stream each segment sequentially; stop at the first error. *)
Fixpoint streamSegments (w : World) (segs : list snapshotTopicSegment)
  : list byte * option error :=
  match segs with
  | [] => ([], None)
  | s :: rest =>
      match copyFileN w (sts_path s) (sts_Size s) with
      | (out, Some e) => (out, Some e)
      | (out, None) =>
          let '(out', err) := streamSegments w rest in (out ++ out', err)
      end
  end.

(** [brokerFSM.Snapshot] streams the current state of the broker and returns
    the index: the bytes written to the writer, the index and the error. *)
Definition Snapshot (b : Broker) (w : World) : list byte * Z * option error :=
  let hdr := createSnapshotHeader b w in
  (* Encode snapshot header. *)
  let buf := json_Marshal_header hdr in
  (* Write header frame. *)
  let frame := putBE 4 (uint32 (Z.of_nat (length buf))) ++ buf in
  (* Stream each topic sequentially. *)
  match streamSegments w (concat (map st_Segments (sh_Topics hdr))) with
  | (out, Some e) => (frame ++ out, 0, Some e)
  | (out, None) =>
      (* Return the snapshot and its last applied index. *)
      (frame ++ out, sh_Index hdr, None)
  end.

(** [closeTopics] closes all topic files and clears the topics map. *)
Definition closeTopics : M BW unit :=
  modifyB (set_broker_topics ∅).

(** [closeReplicas] closes all replica writers and clears the replica map. *)
Definition closeReplicas : M BW unit :=
  b <- getB ;;
  for_each (map_to_list (broker_replicas b)) (fun '(_, r) => liftW (closeWriter r)) ;;;
  modifyB (set_broker_replicas ∅).

(** [os.RemoveAll] of a topic directory. *)
Definition RemoveAll (dir : Z) : M World unit :=
  modify (fun w =>
            set_dirs (dirs w ∖ {[dir]})
              (set_files (filter (fun kv => kv.1.1 ≠ dir) (files w)) w)).

(** [io.CopyN(f, r, n)] into a file [f] that [os.Open] opened read-only:
    nothing to copy succeeds, an exhausted reader is [io.EOF], and the first
    write is refused. *)
Definition copyN_readonly (r : Reader) (n : Z) : Reader * option error :=
  if n <=? 0 then (r, None)
  else match r with
       | [] => (r, Some EOF)
       | _ => (drop (Z.to_nat n) r, Some ErrBadFile)
       end.

(** The segment loop of [Restore] for one topic. *)
Fixpoint Restore_segments (t : topic) (segs : list snapshotTopicSegment)
    (r : Reader) : M World (Reader * option error) :=
  match segs with
  | [] => ret (r, None)
  | ss :: rest =>
      w <- get ;;
      (* os.Open(t.segmentPath(ss.Index)) *)
      match files w !! segmentPath t (sts_Index ss) with
      | None => ret (r, Some (Errorf "open segment" ErrNotExist))
      | Some _ =>
          (* Copy from stream into file. *)
          match copyN_readonly r (sts_Size ss) with
          | (r, Some e) => ret (r, Some (Errorf "copy segment" e))
          | (r, None) => Restore_segments t rest r
          end
      end
  end.

(** Copy topic files from snapshot to local disk. *)
Fixpoint Restore_topics (sts : list snapshotTopic) (r : Reader)
  : M BW (Reader * option error) :=
  match sts with
  | [] => ret (r, None)
  | st :: rest =>
      t <- newTopic (st_ID st) ;;
      (* Remove existing file if it exists. *)
      liftW (RemoveAll (topic_path t)) ;;;
      (* Copy data from snapshot into segment files. *)
      '(r, err) <- liftW (Restore_segments t (st_Segments st) r) ;;
      match err with
      | Some e => ret (r, Some e)
      | None =>
          (* Open new empty topic file. *)
          '(t, err) <- liftW (topic_open t) ;;
          topic_store (st_ID st) t ;;;
          match err with
          | Some e => ret (r, Some (Errorf "open topic" e))
          | None => Restore_topics rest r
          end
      end
  end.

(** Update the replicas. *)
Definition Restore_replica (sr : snapshotReplica) : M BW unit :=
  (* Create replica. *)
  r <- newReplica (sr_ID sr) (sr_URL sr) ;;
  modifyB (fun b => set_broker_replicas (<[sr_ID sr := r]> (broker_replicas b)) b) ;;;
  (* Append replica's topics. *)
  rep <- liftW (load r) ;;
  liftW (store r (set_replica_topics
                    (list_to_set (sr_TopicIDs sr) ∪ replica_topics rep) rep)).

(** [brokerFSM.Restore] reads the broker state. *)
Definition Restore (r : Reader) : M BW (option error) :=
  (* Read header frame. *)
  match ReadFull 4 r with
  | Panic p => throw p
  | Ret ((_, Some e), _) => ret (Some (Errorf "read header size" e))
  | Ret ((szb, None), r) =>
      let sz := getBE szb in
      match ReadFull (Z.to_nat sz) r with
      | Panic p => throw p
      | Ret ((_, Some e), _) => ret (Some (Errorf "read header" e))
      | Ret ((buf, None), r) =>
          (* Decode header. *)
          match json_Unmarshal_header buf with
          | None => ret (Some (Errorf "decode header" ErrJSON))
          | Some sh =>
              (* Close any topics and replicas which might be open and clear
                 them out. *)
              closeTopics ;;;
              closeReplicas ;;;
              '(r, err) <- Restore_topics (sh_Topics sh) r ;;
              match err with
              | Some e => ret (Some e)
              | None =>
                  for_each (sh_Replicas sh) Restore_replica ;;;
                  ret None
              end
          end
      end
  end.

(** The topic loop of [Broker.loadIndex]; it stops at the first topic whose
    file does not decode. *)
Fixpoint loadIndex_topics (l : list (Z * topic)) : M BW (option error) :=
  match l with
  | [] => ret None
  | (id, t) :: rest =>
      '(t, err) <- liftW (topic_loadIndex t) ;;
      topic_store id t ;;;
      match err with
      | Some e => ret (Some (Errorf "topic" e))
      | None =>
          b <- getB ;;
          (if broker_index b <? topic_index t
           then modifyB (set_broker_index (topic_index t))
           else ret tt) ;;;
          loadIndex_topics rest
      end
  end.

(** [Broker.loadIndex] reads through all topics to find the highest known
    index. *)
Definition loadIndex : M BW (option error) :=
  b <- getB ;;
  loadIndex_topics (map_to_list (broker_topics b)).

(** [ReplicaIndex] returns the highest received index of a replica. *)
Definition ReplicaIndex (id : Z) : M BW (Z * option error) :=
  b <- getB ;;
  (* Ensure replica exists. *)
  match broker_replicas b !! id with
  | None => ret (0, Some ErrReplicaNotFound)
  | Some r =>
      rep <- liftW (load r) ;;
      ret (replica_index rep, None)
  end.

(** ** Opening and closing the broker *)

Definition set_broker_path (p : string) (b : Broker) : Broker :=
  mkBroker p (broker_index b) (broker_state b) (broker_replicas b) (broker_topics b).

(** The results of [Open]: nil, the two argument errors, or an error of
    [load] or of the raft log. *)
Inductive OpenResult : Type :=
| OpenOK
| ErrPathRequired
| ErrConnectionAddressRequired
| OpenFailed (e : error).

(** [close] closes the broker and all topics. *)
Definition close : M BW (option error) :=
  b <- getB ;;
  (* Return error if the broker is already closed. *)
  if String.eqb (broker_path b) EmptyString then ret (Some ErrClosed)
  else
    modifyB (set_broker_path EmptyString) ;;;
    (* Close all topics & replicas. *)
    closeTopics ;;;
    closeReplicas ;;;
    (* Close raft log: the result of [b.log.Close()] is dropped. *)
    ret None.

(** The topic loop of [load]: the segment data of the snapshot is ignored,
    opening the topic builds the segments. *)
Fixpoint load_topics (sts : list snapshotTopic) : M BW (option error) :=
  match sts with
  | [] => ret None
  | st :: rest =>
      t <- newTopic (st_ID st) ;;
      '(t, err) <- liftW (topic_open t) ;;
      topic_store (st_ID st) t ;;;
      match err with
      | Some e => ret (Some (Errorf "open topic" e))
      | None => load_topics rest
      end
  end.

(** [Broker.load] reads the broker metadata from disk. *)
Definition Broker_load : M BW (option error) :=
  '(b, w) <- get ;;
  (* Read snapshot header from disk.  Ignore if no snapshot exists. *)
  match (if String.eqb (broker_path b) EmptyString then None else meta w) with
  | None => ret None
  | Some buf =>
      match json_Unmarshal_header buf with
      | None => ret (Some ErrJSON)
      | Some hdr =>
          err <- load_topics (sh_Topics hdr) ;;
          match err with
          | Some e => ret (Some e)
          | None =>
              (* Update the replicas. *)
              for_each (sh_Replicas hdr) Restore_replica ;;;
              (* Read the highest index from each of the topic files. *)
              err <- loadIndex ;;
              match err with
              | Some e => ret (Some (Errorf "load index" e))
              | None => ret None
              end
          end
      end
  end.

(** [Broker.Open] initializes the log.  [u] is the connection URL ([None]
    is nil) and [raft_Open] is the raft log's [Open]. *)
Definition Open (raft_Open : string -> M BW (option error))
    (path : string) (u : option string) : M BW OpenResult :=
  (* Require a non-blank path. *)
  if String.eqb path EmptyString then ret ErrPathRequired
  else
    modifyB (set_broker_path path) ;;;
    (* Require a non-blank connection address. *)
    match u with
    | None => ret ErrConnectionAddressRequired
    | Some _ =>
        (* Read meta data from snapshot. *)
        err <- Broker_load ;;
        match err with
        | Some e => _ <- close ;; ret (OpenFailed e)
        | None =>
            (* Open underlying raft log. *)
            err <- raft_Open (path ++ "/raft")%string ;;
            match err with
            | Some e => _ <- close ;; ret (OpenFailed (Errorf "raft" e))
            | None => ret OpenOK
            end
        end
    end.

(** ** Streaming to a replica *)

(** The loop of [Replica.WriteTo] over the sorted topic ids. *)
Fixpoint WriteTo_topics (r : loc) (ids : list Z) : M BW (option error) :=
  match ids with
  | [] => ret None
  | topicID :: rest =>
      (* Find topic. *)
      b <- getB ;;
      match broker_topics b !! topicID with
      | None => throw (AssertFailed "topic missing")
      | Some t =>
          (* Write topic messages to replica. *)
          err <- liftW (writeTo t r) ;;
          match err with
          | Some e =>
              liftW (closeWriter r) ;;;
              ret (Some (Errorf "add stream writer" e))
          | None =>
              (* Attach replica to topic to tail new messages. *)
              rep <- liftW (load r) ;;
              topic_store topicID
                (set_topic_replicas (<[replica_id rep := r]> (topic_replicas t)) t) ;;;
              WriteTo_topics r rest
          end
      end
  end.

(** [Replica.WriteTo] begins writing messages to a stream, up to the point
    where it waits for the writer to be closed. *)
Definition Replica_WriteTo (r : loc) (sink : Sink) : M BW (option error) :=
  (* Close previous writer, if set. *)
  liftW (closeWriter r) ;;;
  (* Set a new writer on the replica. *)
  rep <- liftW (load r) ;;
  liftW (store r (set_replica_writer (Some sink) rep)) ;;;
  (* Create a topic list with the "config" topic first. *)
  let ids := merge_sort Z.le (elements (replica_topics rep)) in
  (* Catch up and attach replica to all subscribed topics. *)
  WriteTo_topics r ids.

End Broker.

(** ** A length-prefixed stand-in for the external encoders

    Used to run the model on concrete brokers: numbers are 8 big-endian
    bytes, strings and lists carry a 4-byte length.  URLs parse to
    themselves. *)

Module Wire.

Definition P (A : Type) : Type := list byte -> option (A * list byte).

Definition pZ : P Z :=
  fun bs => if (length bs <? 8)%nat then None
            else Some (getBE (take 8 bs), drop 8 bs).
Definition pLen : P nat :=
  fun bs => if (length bs <? 4)%nat then None
            else Some (Z.to_nat (getBE (take 4 bs)), drop 4 bs).
Fixpoint pRepeat {A} (n : nat) (p : P A) : P (list A) :=
  fun bs => match n with
            | O => Some ([], bs)
            | S k => match p bs with
                     | None => None
                     | Some (a, bs) =>
                         match pRepeat k p bs with
                         | None => None
                         | Some (l, bs) => Some (a :: l, bs)
                         end
                     end
            end.
Definition pList {A} (p : P A) : P (list A) :=
  fun bs => match pLen bs with
            | None => None
            | Some (n, bs) => pRepeat n p bs
            end.
Definition pString : P string :=
  fun bs => match pLen bs with
            | None => None
            | Some (n, bs) =>
                if (length bs <? n)%nat then None
                else Some (string_of_list_byte (take n bs), drop n bs)
            end.
Definition pMap {A B} (f : A -> B) (p : P A) : P B :=
  fun bs => match p bs with
            | None => None
            | Some (a, bs) => Some (f a, bs)
            end.
Definition pPair {A B} (p : P A) (q : P B) : P (A * B) :=
  fun bs => match p bs with
            | None => None
            | Some (a, bs) => pMap (pair a) q bs
            end.
Definition run {A} (p : P A) (bs : list byte) : option A :=
  match p bs with
  | Some (a, []) => Some a
  | _ => None
  end.

Definition sZ (z : Z) : list byte := putBE 8 z.
Definition sList {A} (f : A -> list byte) (l : list A) : list byte :=
  putBE 4 (Z.of_nat (length l)) ++ concat (map f l).
Definition sString (s : string) : list byte :=
  putBE 4 (Z.of_nat (String.length s)) ++ list_byte_of_string s.

Definition sSegment (s : snapshotTopicSegment) : list byte :=
  sZ (sts_Index s) ++ sZ (sts_Size s).
Definition sTopic (t : snapshotTopic) : list byte :=
  sZ (st_ID t) ++ sList sSegment (st_Segments t).
Definition sReplica (r : snapshotReplica) : list byte :=
  sZ (sr_ID r) ++ sList sZ (sr_TopicIDs r) ++ sString (sr_URL r).
Definition sHeader (h : snapshotHeader) : list byte :=
  sList sReplica (sh_Replicas h) ++ sList sTopic (sh_Topics h) ++ sZ (sh_Index h).

Definition pSegment : P snapshotTopicSegment :=
  pMap (fun '(i, s) => mkSnapshotTopicSegment i s (0, 0)) (pPair pZ pZ).
Definition pTopic : P snapshotTopic :=
  pMap (fun '(i, l) => mkSnapshotTopic i l) (pPair pZ (pList pSegment)).
Definition pReplica : P snapshotReplica :=
  pMap (fun '(i, (l, u)) => mkSnapshotReplica i l u)
       (pPair pZ (pPair (pList pZ) pString)).
Definition pHeader : P snapshotHeader :=
  pMap (fun '(r, (t, i)) => mkSnapshotHeader r t i)
       (pPair (pList pReplica) (pPair (pList pTopic) pZ)).

#[export] Instance external : External := {|
  url_Parse := Some;
  json_Marshal_CreateReplicaCommand c := sZ (crc_ID c) ++ sString (crc_URL c);
  json_CreateReplicaCommand :=
    run (pMap (fun '(i, u) => mkCreateReplicaCommand i u) (pPair pZ pString));
  json_DeleteReplicaCommand := run (pMap mkDeleteReplicaCommand pZ);
  json_SubscribeCommand :=
    run (pMap (fun '(r, t) => mkSubscribeCommand r t) (pPair pZ pZ));
  json_UnsubscribeCommand :=
    run (pMap (fun '(r, t) => mkUnsubscribeCommand r t) (pPair pZ pZ));
  json_Marshal_header := sHeader;
  json_Unmarshal_header := run pHeader
|}.

End Wire.

(** ** Predicates used in the statements *)

(** A message as the Go types have it: every field within its width. *)
Definition wf_Message (m : Message) : Prop :=
  0 <= Typ m < 2 ^ 16 /\ 0 <= TopicID m < 2 ^ 64 /\ 0 <= Index m < 2 ^ 64
  /\ Z.of_nat (length (Data m)) <= 2 ^ 32 - 1.

(** The disk is the same and no replica object was allocated or lost. *)
Definition same_disk (w w' : World) : Prop :=
  files w' = files w /\ dirs w' = dirs w /\ meta w' = meta w
  /\ dom (heap w') = dom (heap w).

(** Every replica pointer stored in the map points to an object. *)
Definition replicas_live (rs : gmap Z loc) (w : World) : Prop :=
  forall id r, rs !! id = Some r -> is_Some (heap w !! r).

(** The history of one topic: [writes t ms t'] when [t] becomes [t'] by the
    successful appends of [ms], in this order, interleaved with steps that
    leave the topic's index alone (subscriptions, closing, truncation). *)
Inductive writes : topic -> list Message -> topic -> Prop :=
| writes_nil t : writes t [] t
| writes_encode t w m t1 w1 ms t2 :
    encode m t w = Ret ((t1, None), w1) ->
    writes t1 ms t2 ->
    writes t (m :: ms) t2
| writes_other t t1 ms t2 :
    topic_index t1 = topic_index t ->
    writes t1 ms t2 ->
    writes t ms t2.

(** The index of the replica at [r] when it is subscribed to the topic. *)
Definition subscribedIndex (h : gmap loc Replica) (topicID : Z) (r : loc)
  : option Z :=
  match h !! r with
  | Some rep => if decide (topicID ∈ replica_topics rep)
                then Some (replica_index rep) else None
  | None => None
  end.

(** [x] is the index of a replica of the broker that is subscribed to the
    topic. *)
Definition subscribed_index (b : Broker) (w : World) (topicID x : Z) : Prop :=
  exists id r rep,
    broker_replicas b !! id = Some r /\ heap w !! r = Some rep
    /\ topicID ∈ replica_topics rep /\ replica_index rep = x.

(** The start indices of a topic's segments, in order. *)
Definition segment_starts (t : topic) : list Z := map seg_index (topic_segments t).

(** [s] is a segment of a topic of the broker. *)
Definition broker_segment (b : Broker) (s : segment) : Prop :=
  exists id t, broker_topics b !! id = Some t /\ s ∈ topic_segments t.

(** All segments of all topics, in map order. *)
Definition all_segments (b : Broker) : list segment :=
  concat (map topic_segments (map_to_list (broker_topics b)).*2).

(** One round of the max-index computation of [createSnapshotHeader]. *)
Definition bump (acc : Z) (s : segment) : Z :=
  if acc <? seg_index s then seg_index s else acc.

(** A segment as [loadSegments] builds it for the topic directory [id]:
    closed, named after its start index, sized after its file (or the empty
    placeholder). *)
Definition loaded_segment (id : Z) (w : World) (s : segment) : Prop :=
  seg_file s = None /\ seg_path s = (id, seg_index s)
  /\ (seg_size s = 0
      \/ exists c, files w !! seg_path s = Some c /\ seg_size s = Z.of_nat (length c)).

(** The replica the broker has under an id. *)
Definition replica_of (b : Broker) (w : World) (id : Z) : option Replica :=
  r ← broker_replicas b !! id; heap w !! r.

(** The replica [r] has a sink attached that never refuses a write and has
    received [d] so far. *)
Definition attached (w : World) (r : loc) (rep : Replica) (d : list byte) : Prop :=
  heap w !! r = Some rep /\ replica_writer rep = Some (mkSink d None).

(** [w'] is [w] after the sink of [r] received [out] more bytes. *)
Definition sent (w : World) (r : loc) (rep : Replica) (d out : list byte)
    (w' : World) : Prop :=
  files w' = files w /\ dirs w' = dirs w /\ meta w' = meta w
  /\ heap w' = <[r := set_replica_writer (Some (mkSink (d ++ out) None)) rep]> (heap w).

(** The messages a segment file holds; a missing file holds none. *)
Definition segment_holds (w : World) (s : segment) (ms : list Message) : Prop :=
  Forall wf_Message ms
  /\ (files w !! seg_path s = Some (concat (map MarshalBinary ms))
      \/ (files w !! seg_path s = None /\ ms = [])).

(** Every message of a segment that has a next segment is below the next
    segment's start index. *)
Fixpoint segments_bounded (segs : list segment) (mss : list (list Message)) : Prop :=
  match segs, mss with
  | s :: rest, ms :: mss' =>
      match rest with
      | n :: _ => Forall (fun m => Index m < seg_index n) ms
      | [] => True
      end /\ segments_bounded rest mss'
  | _, _ => True
  end.

(** The encoding of the messages above [index], in order. *)
Definition catchup (index : Z) (ms : list Message) : list byte :=
  concat (map MarshalBinary (filter (fun m => index < Index m) ms)).

(** Every topic's index is below [k]. *)
Definition topics_below (k : Z) (b : Broker) : Prop :=
  forall id t, broker_topics b !! id = Some t -> topic_index t < k.

(** [w'] has the files of [w], and at least its directories and replica
    objects. *)
Definition world_le (w w' : World) : Prop :=
  files w' = files w /\ dirs w ⊆ dirs w' /\ dom (heap w) ⊆ dom (heap w').

(** The payload of a command message decodes. *)
Definition command_ok `{External} (m : Message) : Prop :=
  (Typ m = CreateReplicaMessageType ->
     exists c u, json_CreateReplicaCommand (Data m) = Some c
                 /\ url_Parse (crc_URL c) = Some u)
  /\ (Typ m = DeleteReplicaMessageType -> is_Some (json_DeleteReplicaCommand (Data m)))
  /\ (Typ m = SubscribeMessageType -> is_Some (json_SubscribeCommand (Data m)))
  /\ (Typ m = UnsubscribeMessageType -> is_Some (json_UnsubscribeCommand (Data m))).

(** The message [unmarshalHeader] leaves: the header fields of [m] and a
    zeroed data slice of the announced length. *)
Definition headerOnly (m : Message) : Message :=
  mkMessage (Typ m) (TopicID m) (Index m) (replicate (length (Data m)) Byte.x00).

(** The index of the last message of [ms], or [i] when there is none. *)
Definition lastIndex (i : Z) (ms : list Message) : Z :=
  match last ms with
  | Some m => Index m
  | None => i
  end.

(** The segment [loadSegments] builds for the file [(dir, index)] with
    [content]. *)
Definition fileSegment (dir index : Z) (content : list byte) : segment :=
  mkSegment index (dir, index) (Z.of_nat (length content)) None.


(** The segment list [loadSegments] computes. *)
Definition loadedSegments (t : topic) (w : World) : list segment :=
  match merge_sort segment_le
          (map (fun '(index, size) => mkSegment index (segmentPath t index) size None)
               (readdir (topic_path t) w)) with
  | [] => [mkSegment 0 (segmentPath t 0) 0 None]
  | a => a
  end.

(** [replicated floor segs s]: a later segment of [segs] starts at or below
    [floor], so every message of [s] is below the floor. *)
Definition replicated (floor : Z) (segs : list segment) (s : segment) : bool :=
  existsb (fun n => (seg_index s <? seg_index n) && (seg_index n <=? floor)) segs.

(** What the loop of [Truncate] does to a segment it visits. *)
Definition truncated (floor : Z) (segs : list segment) (s : segment) : segment :=
  if replicated floor segs s then segment_close s else s.

Definition segment_lt (a b : segment) : Prop := seg_index a < seg_index b.

(** The bytes of a segment's file. *)
Definition segment_content (w : World) (s : segment) : list byte :=
  default [] (files w !! seg_path s).

(** The header frame [Snapshot] writes first: the length of the encoded
    header in 4 bytes, then the encoded header. *)
Definition snapshot_frame `{External} (b : Broker) (w : World) : list byte :=
  let buf := json_Marshal_header (createSnapshotHeader b w) in
  putBE 4 (uint32 (Z.of_nat (length buf))) ++ buf.

(** The paths of a topic's segments, in order. *)
Definition segment_paths (t : topic) : list (Z * Z) := map seg_path (topic_segments t).

(** [w'] is [w] except for the writer of the replica at [r]. *)
Definition rewired (r : loc) (w w' : World) : Prop :=
  files w' = files w /\ dirs w' = dirs w /\ meta w' = meta w
  /\ exists rep wr,
       heap w !! r = Some rep
       /\ heap w' = <[r := set_replica_writer wr rep]> (heap w).

(** The topics after the replica [rid] was removed from the topics [l]. *)
Definition detached (rid : Z) (l : list Z) (ts : gmap Z topic) : gmap Z topic :=
  foldl (fun ts topicID =>
           match ts !! topicID with
           | Some t => <[topicID := set_topic_replicas (delete rid (topic_replicas t)) t]> ts
           | None => ts
           end) ts l.

(** The replica after [Replica.Write(p)]: without a writer nothing happens,
    a writer that accepts [p] has received it, a writer that refuses it is
    removed. *)
Definition delivered (p : list byte) (rep : Replica) : Replica :=
  match replica_writer rep with
  | None => rep
  | Some s =>
      match sink_Write p s with
      | (_, Some _) => set_replica_writer None rep
      | (s', None) => set_replica_writer (Some s') rep
      end
  end.

(** The replica objects a topic writes to. *)
Definition tailing (t : topic) : list loc := (map_to_list (topic_replicas t)).*2.

(** The topic [load] installs for an id: opened on the files of [w]. *)
Definition openedTopic (id : Z) (w : World) : topic :=
  let t := mkTopic id 0 id [] ∅ in
  set_topic_segments (loadedSegments t w) t.

(** The replica [load] and [Restore] build from a snapshot entry whose URL
    parses to [u]. *)
Definition snapshotReplicaObject (u : string) (sr : snapshotReplica) : Replica :=
  mkReplica u (sr_ID sr) 0 None (list_to_set (sr_TopicIDs sr)).

(** The entries [createSnapshotHeader] writes for a topic and a replica. *)
Definition topicEntry (w : World) (t : topic) : snapshotTopic :=
  mkSnapshotTopic (topic_id t) (map (snapshotSegment w) (topic_segments t)).
Definition replicaEntry (rep : Replica) : snapshotReplica :=
  mkSnapshotReplica (replica_id rep) (elements (replica_topics rep)) (replica_URL rep).

(** The segment files of the topic hold the messages [mss], segment by
    segment, each segment's messages below the next segment's start. *)
Definition topic_holds (w : World) (t : topic) (mss : list (list Message)) : Prop :=
  Forall2 (segment_holds w) (topic_segments t) mss
  /\ segments_bounded (topic_segments t) mss.

(** The topic with the replica object [r] attached under [id]. *)
Definition attach (id : Z) (r : loc) (t : topic) : topic :=
  set_topic_replicas (<[id := r]> (topic_replicas t)) t.

(** The message types the state machine acts on. *)
Definition configuration_type (ty : Z) : Prop :=
  ty = CreateReplicaMessageType \/ ty = DeleteReplicaMessageType
  \/ ty = SubscribeMessageType \/ ty = UnsubscribeMessageType.

(** The stored messages a replica at [index] has not received yet. *)
Definition pending (index : Z) (ms : list Message) : list Message :=
  filter (fun m => index < Index m) ms.

(** A topic that [encode] can reach the active segment of: the topic lists
    a segment, the last one is open or lies in an existing directory, and
    the replicas tailing the topic exist. *)
Definition topic_opened (w : World) (t : topic) : Prop :=
  (exists s, last (topic_segments t) = Some s
             /\ (is_Some (seg_file s) \/ (seg_path s).1 ∈ dirs w))
  /\ replicas_live (topic_replicas t) w.

(** An open broker whose replicas exist.  The path is set; with it the data
    directory is taken to exist, as it does after an [Open] that returned
    nil (see [save]). *)
Definition broker_opened (b : Broker) (w : World) : Prop :=
  broker_path b <> EmptyString /\ replicas_live (broker_replicas b) w.

(** The size [encode] compares with [MaxSegmentSize] when a message for the
    topic [id] arrives: the size recorded in the active segment of the
    topic or, for a topic the broker does not have yet, the size recorded
    when [createTopicIfNotExists] opens it on the files of [w]. *)
Definition active_size (b : Broker) (w : World) (id : Z) : Z :=
  match last (topic_segments (default (openedTopic id w) (broker_topics b !! id))) with
  | Some s => seg_size s
  | None => 0
  end.

(** The topic [id] of [b'] is opened when the broker [b] did not have it or
    had it opened. *)
Definition topic_kept (b : Broker) (w : World) (b' : Broker) (w' : World) (id : Z) : Prop :=
  forall t', broker_topics b' !! id = Some t' ->
    (forall t, broker_topics b !! id = Some t -> topic_opened w t) ->
    topic_opened w' t'.

(** The broker and world after a step of [MustApply] before the append:
    the broker is still open, its replicas exist, no topic index has
    reached [k], the files, the applied index and the active sizes are
    what they were, and opened topics stay opened. *)
Definition kept (k : Z) (b : Broker) (w : World) (b' : Broker) (w' : World) : Prop :=
  broker_opened b' w' /\ topics_below k b' /\ world_le w w'
  /\ broker_index b' = broker_index b
  /\ (forall id, active_size b' w' id = active_size b w id)
  /\ (forall id, topic_kept b w b' w' id).

(** The message [MustApply] appends for the entry [e]: the no-op broadcast
    for an internal entry, the decoded message for a command entry, with
    the entry's index. *)
Definition stamped (e : LogEntry) (m : Message) : Prop :=
  Index m = e_Index e
  /\ (e_Type e = LogEntryInternal ->
        Typ m = InternalMessageType /\ TopicID m = BroadcastTopicID /\ Data m = [])
  /\ (e_Type e = LogEntryCommand ->
        exists m0, UnmarshalBinary (e_Data e) = Ret (m0, None)
                   /\ Typ m = Typ m0 /\ TopicID m = TopicID m0 /\ Data m = Data m0).

(** ** Example values *)

Module Ex.

Definition world0 : World := mkWorld ∅ {[3]} None ∅.

(** A topic reloaded from disk whose active segment file has outgrown
    [MaxSegmentSize] by one byte. *)
Definition topic_full : topic :=
  mkTopic 3 7 3 [mkSegment 0 (3, 0) (MaxSegmentSize + 1) None] ∅.

Definition topic_fresh : topic :=
  mkTopic 3 7 3 [mkSegment 0 (3, 0) 0 None] ∅.

Definition msg8 : Message := mkMessage 1 3 8 [Byte.x68; Byte.x69].

(** Scenario: topic 3 with segments starting at 0, 100 and 200; replicas 1
    and 2 subscribed, with highReceivedIndex 150 and 210. *)
Definition seg (i : Z) : segment := mkSegment i (3, i) 44 None.
Definition topic3 : topic :=
  mkTopic 3 250 3 [seg 0; seg 100; seg 200] (<[1 := 1%positive]> (<[2 := 2%positive]> ∅)).
Definition replicaA : Replica := mkReplica "tcp://a" 1 150 None {[0; 3]}.
Definition replicaB : Replica := mkReplica "tcp://b" 2 210 None {[0; 3]}.
Definition broker5 : Broker :=
  mkBroker "/data" 250 Leader (<[1 := 1%positive]> (<[2 := 2%positive]> ∅))
    (<[3 := topic3]> ∅).
Definition world5 : World :=
  mkWorld (<[(3, 0) := [Byte.x01]]> (<[(3, 100) := [Byte.x02]]> (<[(3, 200) := [Byte.x03]]> ∅)))
    {[3]} None (<[1%positive := replicaA]> (<[2%positive := replicaB]> ∅)).

(** A broker with replica 10 at tcp://a, subscribed to topics 0 and 1, that
    has acknowledged index 5. *)
Definition replica10 : Replica := mkReplica "tcp://a" 10 5 None {[0; 1]}.
Definition topic0 : topic := mkTopic 0 5 0 [mkSegment 0 (0, 0) 0 None] ∅.
Definition topic1 : topic :=
  mkTopic 1 4 1 [mkSegment 0 (1, 0) 0 None] (<[10 := 1%positive]> ∅).
Definition broker3 : Broker :=
  mkBroker "/data" 5 Leader (<[10 := 1%positive]> ∅)
    (<[0 := topic0]> (<[1 := topic1]> ∅)).
Definition world3 : World :=
  mkWorld ∅ {[0; 1]} None (<[1%positive := replica10]> ∅).
(** The command CreateReplica{10, tcp://b}. *)
Definition msg_create : Message :=
  mkMessage CreateReplicaMessageType 0 0
    (@json_Marshal_CreateReplicaCommand Wire.external
       (mkCreateReplicaCommand 10 "tcp://b")).

(** An empty broker and a snapshot header that lists topic 1 with one empty
    segment starting at index 0, framed as [Snapshot] writes it. *)
Definition broker_empty : Broker := mkBroker "/data" 0 Follower ∅ ∅.
Definition world_empty : World := mkWorld ∅ ∅ None ∅.
Definition snapshot_header : snapshotHeader :=
  mkSnapshotHeader [] [mkSnapshotTopic 1 [mkSnapshotTopicSegment 0 0 (0, 0)]] 0.
Definition snapshot_stream : list byte :=
  putBE 4 (Z.of_nat (length (Wire.sHeader snapshot_header)))
    ++ Wire.sHeader snapshot_header ++ [].

(** Topic 7 with segments starting at 0 and 5; the file of segment 0 is
    gone (truncated), segment 5 holds messages 5 and 6.  Replica 30 has a
    sink attached and has received up to index 5. *)
Definition msg5 : Message := mkMessage 1 7 5 [Byte.x61].
Definition msg6 : Message := mkMessage 1 7 6 [Byte.x62].
Definition topic7 : topic :=
  mkTopic 7 6 7 [mkSegment 0 (7, 0) 0 None; mkSegment 5 (7, 5) 0 None] ∅.
Definition replica30 : Replica :=
  mkReplica "tcp://c" 30 5 (Some (mkSink [] None)) {[0; 7]}.
Definition world7 : World :=
  mkWorld (<[(7, 5) := MarshalBinary msg5 ++ MarshalBinary msg6]> ∅) {[7]} None
    (<[3%positive := replica30]> ∅).

(** The raft entry, at index 6, that carries the command CreateReplica{10,
    tcp://b}, and an internal raft entry at index 6. *)
Definition entry_create : LogEntry :=
  mkLogEntry LogEntryCommand 6 (MarshalBinary msg_create).
Definition entry_internal : LogEntry := mkLogEntry LogEntryInternal 6 [].

(** The segment file of topic 7 with 3 stray bytes after message 6. *)
Definition world7_torn : World :=
  mkWorld (<[(7, 5) := (MarshalBinary msg5 ++ MarshalBinary msg6)
                         ++ [Byte.x00; Byte.x01; Byte.x00]]> ∅)
    {[7]} None ∅.
Definition broker7 : Broker := mkBroker "/data" 0 Follower ∅ (<[7 := topic7]> ∅).

(** Topic 7 before it is opened: no segment is listed yet. *)
Definition topic7_closed : topic := mkTopic 7 0 7 [] ∅.

(** A broker that is not open, and the commands DeleteReplica{10},
    Subscribe{10, 2} and Unsubscribe{10, 1}. *)
Definition broker_closed : Broker := mkBroker EmptyString 0 Follower ∅ ∅.
Definition msg_delete : Message :=
  mkMessage DeleteReplicaMessageType 0 0 (Wire.sZ 10).
Definition msg_subscribe : Message :=
  mkMessage SubscribeMessageType 0 0 (Wire.sZ 10 ++ Wire.sZ 2).
Definition msg_unsubscribe : Message :=
  mkMessage UnsubscribeMessageType 0 0 (Wire.sZ 10 ++ Wire.sZ 1).

(** Topic 7 with replica 30 tailing it, and the next message. *)
Definition topic7_tailed : topic :=
  set_topic_replicas (<[30 := 3%positive]> ∅) topic7.
Definition msg7 : Message := mkMessage 1 7 7 [Byte.x63].

(** A metadata header that lists topic 7 and replica 30 at tcp://c,
    subscribed to topics 0 and 7; the disk of [world7] with this header as
    its metadata file and no replica object; an open broker without topics
    and replicas. *)
Definition meta_header : snapshotHeader :=
  mkSnapshotHeader [mkSnapshotReplica 30 [0; 7] "tcp://c"] [mkSnapshotTopic 7 []] 6.
Definition world_meta : World :=
  mkWorld (files world7) {[7]} (Some (Wire.sHeader meta_header)) ∅.
Definition broker_new : Broker := mkBroker "/data" 0 Follower ∅ ∅.

(** A broker with the broadcast topic and topic 7, and replica 30
    registered; the messages its segment files hold. *)
Definition topic0_empty : topic := mkTopic 0 0 0 [mkSegment 0 (0, 0) 0 None] ∅.
Definition broker30 : Broker :=
  mkBroker "/data" 6 Leader (<[30 := 3%positive]> ∅)
    (<[0 := topic0_empty]> (<[7 := topic7]> ∅)).
Definition stored (id : Z) : list (list Message) :=
  if id =? 7 then [[]; [msg5; msg6]] else [[]].

(** A command entry whose data is a single byte. *)
Definition entry_short : LogEntry := mkLogEntry LogEntryCommand 6 [Byte.x00].

(** The disk of [world7] with replica 30 registered without a writer. *)
Definition world7_detached : World :=
  set_heap (<[3%positive := set_replica_writer None replica30]> ∅) world7.

(** A broker restarted on a disk where the segment file of topic 3 had grown
    one byte over [MaxSegmentSize]; the raft entry, at index 8, of a message
    published to topic 3, and an internal raft entry at index 8. *)
Definition broker_full : Broker :=
  mkBroker "/data" 7 Follower ∅ (<[3 := topic_full]> ∅).
Definition entry_publish : LogEntry :=
  mkLogEntry LogEntryCommand 8 (MarshalBinary msg8).
Definition entry_internal8 : LogEntry := mkLogEntry LogEntryInternal 8 [].

End Ex.

(** * Properties *)

(** ** The message codec *)

Lemma length_putBE n v : length (putBE n v) = n.
Proof. unfold putBE. rewrite length_rev. apply length_le_split. Qed.

Lemma getBE_putBE n v : getBE (putBE n v) = v mod 2 ^ (Z.of_nat n * 8).
Proof. unfold getBE, putBE. rewrite rev_involutive. apply le_combine_split. Qed.

Lemma getBE_putBE_small n v :
  0 <= v < 2 ^ (Z.of_nat n * 8) -> getBE (putBE n v) = v.
Proof. intros Hv. rewrite getBE_putBE. apply Z.mod_small, Hv. Qed.

Lemma length_marshalHeader m : length (marshalHeader m) = messageHeaderSize.
Proof. unfold marshalHeader. rewrite !length_app, !length_putBE. reflexivity. Qed.

Lemma unmarshalHeader_marshalHeader m :
  wf_Message m ->
  unmarshalHeader (marshalHeader m) =
    Ret (mkMessage (Typ m) (TopicID m) (Index m)
           (replicate (length (Data m)) Byte.x00)).
Proof.
  intros (Ht & Hi & Hx & Hd). unfold unmarshalHeader.
  rewrite length_marshalHeader.
  replace (messageHeaderSize <? messageHeaderSize)%nat with false
    by (symmetry; apply Nat.ltb_irrefl).
  unfold marshalHeader, slice.
  set (a := putBE 2 _). set (b := putBE 8 (TopicID m)).
  set (c := putBE 8 (Index m)). set (d := putBE 4 _).
  assert (La : length a = 2%nat) by apply length_putBE.
  assert (Lb : length b = 8%nat) by apply length_putBE.
  assert (Lc : length c = 8%nat) by apply length_putBE.
  assert (Ld : length d = 4%nat) by apply length_putBE.
  assert (Ea : take (2 - 0) (drop 0 (a ++ b ++ c ++ d)) = a).
  { rewrite drop_0. apply take_app_length'. exact La. }
  assert (Eb : take (10 - 2) (drop 2 (a ++ b ++ c ++ d)) = b).
  { rewrite drop_app_length' by exact La. apply take_app_length'. exact Lb. }
  assert (Ec : take (18 - 10) (drop 10 (a ++ b ++ c ++ d)) = c).
  { rewrite (app_assoc a b), drop_app_length' by (rewrite length_app; lia).
    apply take_app_length'. exact Lc. }
  assert (Ed : take (22 - 18) (drop 18 (a ++ b ++ c ++ d)) = d).
  { rewrite (app_assoc a b), (app_assoc (a ++ b) c),
      drop_app_length' by (rewrite !length_app; lia).
    apply take_ge. lia. }
  rewrite Ea, Eb, Ec, Ed. subst a b c d.
  rewrite !getBE_putBE_small; try (simpl Z.of_nat; simpl Z.mul; lia).
  - unfold uint32. rewrite Z.mod_small by lia. rewrite Nat2Z.id. reflexivity.
  - unfold uint32. simpl Z.of_nat. simpl Z.mul.
    apply Z.mod_pos_bound. lia.
Qed.

Lemma ReadFull_app (bs rest : list byte) :
  ReadFull (length bs) (bs ++ rest) = Ret ((bs, None), rest).
Proof.
  unfold ReadFull. destruct bs as [|x bs]; [reflexivity|].
  remember (x :: bs) as l eqn:El.
  assert (Hn : (length l =? 0)%nat = false) by (subst l; reflexivity).
  assert (Hl : (length (l ++ rest) <? length l)%nat = false).
  { apply Nat.ltb_ge. rewrite length_app. lia. }
  rewrite Hn, Hl, take_app_length, drop_app_length.
  subst l. reflexivity.
Qed.

Lemma copy_replicate (d : list byte) :
  copy (replicate (length d) Byte.x00) d = d.
Proof.
  unfold copy. rewrite length_replicate, firstn_all, drop_ge.
  - apply app_nil_r.
  - rewrite length_replicate. lia.
Qed.

Lemma Decode_MarshalBinary_app m0 m rest :
  wf_Message m ->
  Decode m0 (MarshalBinary m ++ rest) = Ret ((m, None), rest).
Proof.
  intros Hwf. unfold Decode, MarshalBinary, bind.
  rewrite <- (length_marshalHeader m), <- !app_assoc, ReadFull_app.
  rewrite unmarshalHeader_marshalHeader by exact Hwf.
  cbn [Data Typ TopicID Index]. rewrite length_replicate, ReadFull_app.
  unfold ret. rewrite copy_replicate. destruct m; reflexivity.
Qed.

(** C7. Decoding the byte encoding of a message gives the message back.
    For every message whose fields fit their Go types, with at most
    2^32 - 1 data bytes, [MarshalBinary] produces the 22-byte big-endian
    header [type:u16 | topicID:u64 | index:u64 | dataLen:u32] followed by the
    data, and [MessageDecoder.Decode] on these bytes returns exactly the
    message, without error, and consumes all of them. *)
Theorem C7_decode_encode_roundtrip (m : Message) :
  wf_Message m ->
  MarshalBinary m =
    putBE 2 (Typ m) ++ putBE 8 (TopicID m) ++ putBE 8 (Index m)
      ++ putBE 4 (Z.of_nat (length (Data m))) ++ Data m
  /\ length (MarshalBinary m) = (22 + length (Data m))%nat
  /\ Decode emptyMessage (MarshalBinary m) = Ret ((m, None), []).
Proof.
  intros Hwf. split; [|split].
  - unfold MarshalBinary, marshalHeader, uint32.
    destruct Hwf as (_ & _ & _ & Hd).
    rewrite Z.mod_small by lia. rewrite <- !app_assoc. reflexivity.
  - unfold MarshalBinary. rewrite length_app, length_marshalHeader. reflexivity.
  - rewrite <- (app_nil_r (MarshalBinary m)).
    apply Decode_MarshalBinary_app, Hwf.
Qed.

(** ** Appending to a topic *)

Lemma same_disk_refl w : same_disk w w.
Proof. repeat split. Qed.

Lemma same_disk_trans w1 w2 w3 :
  same_disk w1 w2 -> same_disk w2 w3 -> same_disk w1 w3.
Proof.
  unfold same_disk. intros (Hf & Hd & Hm & Hh) (Hf' & Hd' & Hm' & Hh').
  rewrite Hf', Hd', Hm', Hh'. auto.
Qed.

Lemma same_disk_store w r rep :
  is_Some (heap w !! r) ->
  same_disk w (set_heap (<[r := rep]> (heap w)) w).
Proof.
  intros Hr. repeat split. cbn. rewrite dom_insert_L.
  apply elem_of_dom in Hr. apply subseteq_union_1_L, singleton_subseteq_l. exact Hr.
Qed.

Lemma closeWriter_ok r w :
  is_Some (heap w !! r) ->
  exists w', closeWriter r w = Ret (tt, w') /\ same_disk w w'.
Proof.
  intros Hr. destruct (Hr) as [rep Hrep].
  unfold closeWriter, bind, load. rewrite Hrep.
  destruct (replica_writer rep).
  - eexists. split; [reflexivity|]. by apply same_disk_store.
  - eexists. split; [reflexivity|]. apply same_disk_refl.
Qed.

Lemma Replica_Write_ok r p w :
  is_Some (heap w !! r) ->
  exists err w', Replica_Write r p w = Ret (err, w') /\ same_disk w w'.
Proof.
  intros Hr. destruct (Hr) as [rep Hrep].
  unfold Replica_Write, bind, load. rewrite Hrep.
  destruct (replica_writer rep) as [s|].
  - destruct (sink_Write p s) as [s' [e|]].
    + destruct (closeWriter_ok r w Hr) as (w' & -> & Hw').
      do 2 eexists. split; [reflexivity|]. exact Hw'.
    + do 2 eexists. split; [reflexivity|]. by apply same_disk_store.
  - do 2 eexists. split; [reflexivity|]. apply same_disk_refl.
Qed.

Lemma fanout_ok (l : list (Z * loc)) (b : list byte) w :
  Forall (fun kr => is_Some (heap w !! kr.2)) l ->
  exists w',
    for_each l (fun '(_, r) => _ <- Replica_Write r b ;; ret tt) w = Ret (tt, w')
    /\ same_disk w w'.
Proof.
  revert w. induction l as [|[k r] l IH]; intros w Hl.
  - eexists. split; [reflexivity|]. apply same_disk_refl.
  - inversion Hl as [|? ? Hr Hl']; subst. cbn [for_each]. unfold bind at 1 2.
    destruct (Replica_Write_ok r b w Hr) as (err & w1 & -> & Hw1).
    unfold ret at 1.
    destruct (IH w1) as (w2 & E2 & Hw2).
    + eapply Forall_impl; [exact Hl'|]. intros [k' r'] Hs. cbn in *.
      destruct Hw1 as (_ & _ & _ & Hd).
      apply elem_of_dom. rewrite Hd. by apply elem_of_dom.
    + eexists. split; [exact E2|]. eapply same_disk_trans; eassumption.
Qed.

Lemma list_lookup_last {A} (l : list A) x :
  last l = Some x -> l !! (length l - 1)%nat = Some x.
Proof.
  intros Hl. rewrite last_lookup in Hl.
  replace (length l - 1)%nat with (pred (length l)) by lia. exact Hl.
Qed.

Lemma segments_last_Some a s :
  last a = Some s -> segments_last a = Some (length a - 1)%nat.
Proof. destruct a; [discriminate|reflexivity]. Qed.

Lemma segments_last_deref {S} (t : topic) s (st : S) :
  last (topic_segments t) = Some s ->
  deref t (segments_last (topic_segments t)) st = Ret (s, st).
Proof.
  intros Hl. rewrite (segments_last_Some _ _ Hl). unfold deref.
  rewrite (list_lookup_last _ _ Hl). reflexivity.
Qed.
Lemma encode_ok m t w s :
  topic_index t < Index m ->
  last (topic_segments t) = Some s ->
  seg_size s <= MaxSegmentSize ->
  is_Some (seg_file s) \/ (seg_path s).1 ∈ dirs w ->
  replicas_live (topic_replicas t) w ->
  let h := default (seg_path s) (seg_file s) in
  exists t' w',
    encode m t w = Ret ((t', None), w')
    /\ topic_index t' = Index m
    /\ topic_id t' = topic_id t
    /\ topic_path t' = topic_path t
    /\ topic_replicas t' = topic_replicas t
    /\ topic_segments t' =
         <[(length (topic_segments t) - 1)%nat := set_seg_file (Some h) s]>
           (topic_segments t)
    /\ files w' = <[h := default [] (files w !! h) ++ MarshalBinary m]> (files w)
    /\ dirs w' = dirs w /\ meta w' = meta w
    /\ dom (heap w') = dom (heap w).
Proof.
  intros Hi Hl Hs Hopen Hlive h.
  pose proof (list_lookup_last _ _ Hl) as Hlk.
  unfold encode, bind, assert.
  apply Z.ltb_lt in Hi. rewrite Hi. unfold ret at 1.
  rewrite (segments_last_deref t s w Hl).
  replace (MaxSegmentSize <? seg_size s) with false
    by (symmetry; apply Z.ltb_ge; exact Hs).
  rewrite (segments_last_Some _ _ Hl).
  unfold deref at 1. rewrite Hlk. unfold ret at 1.
  set (i := (length (topic_segments t) - 1)%nat) in *.
  assert (Hfan : forall w0 t0, topic_replicas t0 = topic_replicas t ->
             same_disk w w0 \/ dom (heap w0) = dom (heap w) ->
             exists w',
               for_each (map_to_list (topic_replicas t0))
                 (fun '(_, r) => _ <- Replica_Write r (MarshalBinary m) ;; ret tt) w0
               = Ret (tt, w') /\ same_disk w0 w').
  { intros w0 t0 Ht0 Hd. apply fanout_ok. rewrite Ht0.
    apply Forall_forall. intros [k r] Hin. cbn.
    apply elem_of_map_to_list in Hin. apply Hlive in Hin.
    apply elem_of_dom. apply elem_of_dom in Hin.
    destruct Hd as [(_ & _ & _ & Hd)|Hd]; rewrite Hd; exact Hin. }
  destruct (seg_file s) as [h0|] eqn:Ef.
  - unfold ret at 1. unfold deref. rewrite Hlk. unfold ret at 1. rewrite Ef.
    unfold file_Write.
    edestruct (Hfan (set_files (<[h0 := default [] (files w !! h0) ++ MarshalBinary m]> (files w)) w)
                 (set_topic_index (Index m) t)) as (w' & Ew' & Hw');
      [reflexivity|right; reflexivity|].
    unfold bind in Ew'. rewrite Ew'. unfold ret.
    do 2 eexists. split; [reflexivity|].
    destruct Hw' as (Hf & Hd & Hm & Hh).
    repeat split; try assumption.
    cbn. subst h. cbn. symmetry. apply list_insert_id.
    rewrite Hlk. f_equal. unfold set_seg_file. destruct s; cbn in *; congruence.
  - destruct Hopen as [[? Hx]|Hdir]; [discriminate|].
    unfold segment_open. destruct (decide _) as [_|Hn]; [|contradiction].
    unfold ret at 1. unfold deref. cbn [topic_segments assign set_topic_segments].
    rewrite list_lookup_insert_eq by (eapply lookup_lt_Some; exact Hlk).
    unfold ret at 1. cbn [seg_file set_seg_file]. unfold file_Write.
    match goal with |- context [for_each _ _ ?w0] =>
      edestruct (Hfan w0 (set_topic_index (Index m)
                            (assign i (set_seg_file (Some (seg_path s)) s) t)))
        as (w' & Ew' & Hw'); [reflexivity|right; reflexivity|] end.
    unfold bind in Ew'. rewrite Ew'. unfold ret.
    do 2 eexists. split; [reflexivity|].
    destruct Hw' as (Hf & Hd & Hm & Hh).
    repeat split; try assumption.
    rewrite Hf. cbn. subst h. cbn.
    destruct (files w !! seg_path s) eqn:Efile; cbn.
    + rewrite Efile. reflexivity.
    + rewrite lookup_insert_eq. cbn. apply insert_insert_eq.
Qed.
Lemma encode_rollover m t w s :
  last (topic_segments t) = Some s ->
  MaxSegmentSize < seg_size s ->
  topic_index t < Index m ->
  encode m t w = Panic NilDereference.
Proof.
  intros Hl Hs Hi. unfold encode, bind, assert.
  apply Z.ltb_lt in Hi. rewrite Hi. unfold ret at 1.
  rewrite (segments_last_deref t s w Hl).
  apply Z.ltb_lt in Hs. rewrite Hs. reflexivity.
Qed.

Lemma encode_out_of_order m t w :
  Index m <= topic_index t ->
  encode m t w = Panic (AssertFailed "topic message out of order").
Proof.
  intros Hi. unfold encode, bind, assert.
  replace (topic_index t <? Index m) with false
    by (symmetry; apply Z.ltb_ge; exact Hi).
  reflexivity.
Qed.

Lemma encode_Ret_inv m t w t' err w' :
  encode m t w = Ret ((t', err), w') ->
  topic_index t < Index m
  /\ (err = None -> topic_index t' = Index m)
  /\ (err <> None -> topic_index t' = topic_index t).
Proof.
  unfold encode, bind, assert, ret, throw. intros E.
  destruct (topic_index t <? Index m) eqn:Hi; [|discriminate].
  apply Z.ltb_lt in Hi. split; [exact Hi|].
  repeat (case_match; simplify_eq; try done).
  all: try (split; [done|intros _; reflexivity]).
  all: try (split; [intros _; reflexivity|done]).

Qed.

(** C1. Rollover on append.  The claim is that appending to a topic whose
    active segment is over [MaxSegmentSize] closes it, appends a segment
    starting at the message's index, opens it and writes the message there.
    The code does not: for every topic whose last segment has
    [size > MaxSegmentSize] and every message with [m.Index > highIndex],
    [encode] sets [s] to nil, appends the new segment to [t.segments]
    without pointing [s] at it, and then reads [s.file]: the process panics
    on the nil dereference and nothing is written. *)
Theorem C1_rollover_dereferences_nil (m : Message) (t : topic) (w : World)
    (s : segment) :
  last (topic_segments t) = Some s ->
  MaxSegmentSize < seg_size s ->
  topic_index t < Index m ->
  encode m t w = Panic NilDereference.
Proof. apply encode_rollover. Qed.

Lemma writes_sorted t ms t' :
  writes t ms t' -> Sorted Z.lt (topic_index t :: map Index ms).
Proof.
  induction 1 as [t|t w m t1 w1 ms t2 E _ IH|t t1 ms t2 E _ IH].
  - repeat constructor.
  - apply encode_Ret_inv in E. destruct E as (Hlt & Heq & _).
    rewrite (Heq eq_refl) in IH. cbn [map].
    constructor; [exact IH|constructor; exact Hlt].
  - rewrite <- E. exact IH.
Qed.

(** C8. Order of appends.  [encode] aborts the process when
    [m.Index > highIndex] does not hold; whenever it returns it was called
    with [m.Index > highIndex], and when it returns without error the
    topic's [highIndex] is [m.Index]; with the active segment within
    [MaxSegmentSize] and its file or directory available it does return
    without error, with the encoded message at the end of the segment file.
    Hence in every history of a topic the indices of the messages written,
    starting from the topic's index, are strictly increasing from one write
    to the next. *)
Theorem C8_append_strictly_increasing :
  (forall m t w,
      Index m <= topic_index t ->
      encode m t w = Panic (AssertFailed "topic message out of order"))
  /\ (forall m t w t' err w',
         encode m t w = Ret ((t', err), w') ->
         topic_index t < Index m /\ (err = None -> topic_index t' = Index m))
  /\ (forall m t w s,
         topic_index t < Index m ->
         last (topic_segments t) = Some s ->
         seg_size s <= MaxSegmentSize ->
         is_Some (seg_file s) \/ (seg_path s).1 ∈ dirs w ->
         replicas_live (topic_replicas t) w ->
         exists t' w',
           encode m t w = Ret ((t', None), w')
           /\ topic_index t' = Index m
           /\ files w' !! default (seg_path s) (seg_file s) =
                Some (default [] (files w !! default (seg_path s) (seg_file s))
                        ++ MarshalBinary m))
  /\ (forall t ms t',
         writes t ms t' -> Sorted Z.lt (topic_index t :: map Index ms)).
Proof.
  split; [|split; [|split]].
  - apply encode_out_of_order.
  - intros m t w t' err w' E. apply encode_Ret_inv in E. tauto.
  - intros m t w s Hi Hl Hs Ho Hlive.
    destruct (encode_ok m t w s Hi Hl Hs Ho Hlive)
      as (t' & w' & E & Hidx & _ & _ & _ & _ & Hf & _).
    exists t', w'. split; [exact E|]. split; [exact Hidx|].
    rewrite Hf. apply lookup_insert_eq.
  - apply writes_sorted.
Qed.

(** ** Heartbeats and the truncation floor *)

Lemma minStep_foldl h T acc locs :
  foldl (minStep h T) acc locs =
  foldl (fun (a : Z * bool) x => if negb a.2 || (x <? a.1) then (x, true) else a)
        acc (omap (subscribedIndex h T) locs).
Proof.
  revert acc. induction locs as [|r locs IH]; intros acc; [reflexivity|].
  cbn [foldl omap list_omap]. unfold omap in IH. rewrite IH.
  unfold minStep, subscribedIndex.
  destruct (h !! r) as [rep|]; [|reflexivity].
  destruct (decide _); reflexivity.
Qed.

Lemma min_foldl_updated (x : Z) (xs : list Z) :
  let res := foldl (fun (a : Z * bool) x => if negb a.2 || (x <? a.1) then (x, true) else a)
               (x, true) xs in
  res.2 = true /\ res.1 ∈ x :: xs /\ Forall (fun y => res.1 <= y) (x :: xs).
Proof.
  revert x. induction xs as [|y xs IH]; intros x; cbn.
  - split; [reflexivity|]. split; [apply list_elem_of_here|]. repeat constructor. lia.
  - destruct (Z.ltb_spec y x) as [Hlt|Hge]; cbn.
    + destruct (IH y) as (H1 & H2 & H3). split; [exact H1|]. split.
      * apply list_elem_of_further. exact H2.
      * apply Forall_cons in H3. destruct H3 as [H3 H4].
        constructor; [lia|]. constructor; assumption.
    + destruct (IH x) as (H1 & H2 & H3). split; [exact H1|]. split.
      * apply elem_of_cons in H2. destruct H2 as [H2|H2].
        -- rewrite H2. apply list_elem_of_here.
        -- do 2 apply list_elem_of_further. exact H2.
      * apply Forall_cons in H3. destruct H3 as [H3 H4].
        constructor; [exact H3|]. constructor; [lia|exact H4].
Qed.

Lemma elem_of_subscribed b w T x :
  x ∈ omap (subscribedIndex (heap w) T) (map_to_list (broker_replicas b)).*2
  <-> subscribed_index b w T x.
Proof.
  rewrite list_elem_of_omap. split.
  - intros (r & Hr & Hs). apply list_elem_of_fmap in Hr.
    destruct Hr as ([id r'] & -> & Hin). apply elem_of_map_to_list in Hin.
    unfold subscribedIndex in Hs. cbn in Hs.
    destruct (heap w !! r') as [rep|] eqn:E; [|discriminate].
    destruct (decide _); [|discriminate]. injection Hs as <-.
    exists id, r', rep. auto.
  - intros (id & r & rep & Hb & Hh & HT & <-). exists r. split.
    + apply list_elem_of_fmap. exists (id, r). split; [reflexivity|].
      apply elem_of_map_to_list. exact Hb.
    + unfold subscribedIndex. rewrite Hh. destruct (decide _); [reflexivity|contradiction].
Qed.

(** [minReplicaTopicIndex] is 0 when no replica is subscribed to the topic
    and the least index of the subscribed replicas otherwise. *)
Lemma minReplicaTopicIndex_spec b w T :
  ((forall x, ~ subscribed_index b w T x) /\ minReplicaTopicIndex b w T = 0)
  \/ (subscribed_index b w T (minReplicaTopicIndex b w T)
      /\ forall x, subscribed_index b w T x -> minReplicaTopicIndex b w T <= x).
Proof.
  unfold minReplicaTopicIndex. rewrite minStep_foldl.
  pose proof (elem_of_subscribed b w T) as Hel.
  destruct (omap _ _) as [|x xs].
  - left. split; [|reflexivity]. intros x Hx. apply Hel in Hx. inversion Hx.
  - right. cbn [foldl]. cbn [negb orb snd].
    destruct (min_foldl_updated x xs) as (_ & Hin & Hall). split.
    + apply Hel. exact Hin.
    + intros y Hy. apply Hel in Hy. rewrite Forall_forall in Hall. apply Hall. exact Hy.
Qed.

Lemma Heartbeat_leader b w id index r rep :
  broker_state b = Leader ->
  broker_replicas b !! id = Some r ->
  heap w !! r = Some rep ->
  Heartbeat id index (b, w) =
    Ret (None, (b, set_heap (<[r := set_replica_index index rep]> (heap w)) w)).
Proof.
  intros Hs Hr Hh. unfold Heartbeat, bind, getB. rewrite Hs, Hr.
  unfold liftW, load. rewrite Hh. reflexivity.
Qed.

(** C10. On the leader, [Heartbeat(id, index)] for an existing replica
    sets the replica's [highReceivedIndex] to exactly the given value,
    whatever the current one is: it succeeds and changes nothing else.  It
    is not monotone: when the replica is subscribed to a topic and the given
    index is below the topic's current truncation floor
    [minReplicaTopicIndex], the floor drops to the given index. *)
Theorem C10_heartbeat_sets_index_exactly b w id index r rep :
  broker_state b = Leader ->
  broker_replicas b !! id = Some r ->
  heap w !! r = Some rep ->
  let w' := set_heap (<[r := set_replica_index index rep]> (heap w)) w in
  Heartbeat id index (b, w) = Ret (None, (b, w'))
  /\ (replica_index <$> heap w' !! r) = Some index
  /\ (forall topicID,
         topicID ∈ replica_topics rep ->
         index < minReplicaTopicIndex b w topicID ->
         minReplicaTopicIndex b w' topicID = index).
Proof.
  intros Hs Hr Hh w'. split; [by apply Heartbeat_leader|]. split.
  { subst w'. cbn. rewrite lookup_insert_eq. reflexivity. }
  intros T HT Hlt.
  assert (Hnew : subscribed_index b w' T index).
  { exists id, r, (set_replica_index index rep). subst w'. cbn.
    rewrite lookup_insert_eq. auto. }
  destruct (minReplicaTopicIndex_spec b w' T) as [[Hno _]|[Hin Hle]].
  { exfalso. exact (Hno _ Hnew). }
  pose proof (Hle _ Hnew) as Hle1.
  destruct Hin as (id0 & r0 & rep0 & Hb0 & Hh0 & HT0 & Hi0).
  destruct (decide (r0 = r)) as [->|Hne].
  - subst w'. cbn in Hh0. rewrite lookup_insert_eq in Hh0.
    injection Hh0 as <-. exact (eq_sym Hi0).
  - subst w'. cbn in Hh0. rewrite lookup_insert_ne in Hh0 by congruence.
    assert (Hold : subscribed_index b w T (minReplicaTopicIndex b
              (set_heap (<[r:=set_replica_index index rep]> (heap w)) w) T)).
    { exists id0, r0, rep0. auto. }
    destruct (minReplicaTopicIndex_spec b w T) as [[Hno _]|[_ Hle0]].
    + exfalso. exact (Hno _ Hold).
    + apply Hle0 in Hold. lia.
Qed.

(** ** Truncation *)

Lemma Truncate_segments_keeps_list min segs w :
  exists segs' newSegments w',
    Truncate_segments min segs w = Ret ((segs', newSegments), w')
    /\ map seg_index segs' = map seg_index segs
    /\ map seg_path segs' = map seg_path segs.
Proof.
  revert w. induction segs as [|s rest IH]; intros w.
  - do 3 eexists. split; [reflexivity|]. split; reflexivity.
  - cbn [Truncate_segments]. destruct (match head rest with Some _ => _ | None => _ end).
    + unfold bind. destruct (IH w) as (segs' & new & w' & -> & Hi & Hp).
      do 3 eexists. split; [reflexivity|]. cbn. rewrite Hi, Hp. split; reflexivity.
    + unfold bind, modify.
      destruct (IH (set_files (delete (seg_path s) (files w)) w)) as (segs' & new & w' & -> & Hi & Hp).
      do 3 eexists. split; [reflexivity|]. cbn. rewrite Hi, Hp. split; reflexivity.
Qed.

Lemma bind_run {S A B} (c : M S A) (k : A -> M S B) s a s' :
  c s = Ret (a, s') -> bind c k s = k a s'.
Proof. intros E. unfold bind. rewrite E. reflexivity. Qed.

Lemma Truncate_topic_run id t b w :
  exists segs w',
    Truncate_topic (id, t) (b, w) =
      Ret (tt, (set_broker_topics (<[id := set_topic_segments segs t]> (broker_topics b)) b, w'))
    /\ map seg_index segs = map seg_index (topic_segments t).
Proof.
  unfold Truncate_topic, bind, get, liftW.
  destruct (Truncate_segments_keeps_list (minReplicaTopicIndex b w (topic_id t))
              (topic_segments t) w) as (segs' & new & w1 & -> & Hi & _).
  exists segs', w1. split; [reflexivity|exact Hi].
Qed.

Lemma Truncate_loop_keeps_list (l : list (Z * topic)) b w :
  (forall id t, (id, t) ∈ l ->
     segment_starts <$> broker_topics b !! id = Some (segment_starts t)) ->
  exists b' w',
    for_each l Truncate_topic (b, w) = Ret (tt, (b', w'))
    /\ forall id, segment_starts <$> broker_topics b' !! id
                  = segment_starts <$> broker_topics b !! id.
Proof.
  revert b w. induction l as [|[id t] l IH]; intros b w Hl.
  - do 2 eexists. split; [reflexivity|]. reflexivity.
  - cbn [for_each].
    destruct (Truncate_topic_run id t b w) as (segs' & w1 & E1 & Hi).
    rewrite (bind_run _ _ _ _ _ E1).
    set (b1 := set_broker_topics _ b).
    assert (Hb1 : forall id', segment_starts <$> broker_topics b1 !! id'
                              = segment_starts <$> broker_topics b !! id').
    { intros id'. subst b1. cbn. destruct (decide (id = id')) as [<-|Hne].
      - rewrite lookup_insert_eq, (Hl id t) by apply list_elem_of_here.
        cbn. unfold segment_starts. cbn. rewrite Hi. reflexivity.
      - rewrite lookup_insert_ne by exact Hne. reflexivity. }
    destruct (IH b1 w1) as (b' & w' & E & Hb').
    { intros id' t' Hin. rewrite Hb1. apply Hl. apply list_elem_of_further. exact Hin. }
    rewrite E. do 2 eexists. split; [reflexivity|].
    intros id'. rewrite Hb'. apply Hb1.
Qed.

Lemma Truncate_keeps_list b w :
  exists b' w',
    Truncate (b, w) = Ret (None, (b', w'))
    /\ forall id, segment_starts <$> broker_topics b' !! id
                  = segment_starts <$> broker_topics b !! id.
Proof.
  destruct (Truncate_loop_keeps_list (map_to_list (broker_topics b)) b w)
    as (b' & w' & E & Hb').
  { intros id t Hin. apply elem_of_map_to_list in Hin. rewrite Hin. reflexivity. }
  exists b', w'. split; [|exact Hb'].
  unfold Truncate. rewrite (bind_run _ _ (b, w) b (b, w)) by reflexivity.
  rewrite (bind_run _ _ _ _ _ E). reflexivity.
Qed.

(** C2. Truncation.  The claim is that after [Truncate] the topic's segment
    list holds only the retained segments.  The code deletes the files but
    never stores the [newSegments] slice it builds: for every broker,
    [Truncate] succeeds and leaves every topic with the same segment start
    indices as before.  On the topic of the scenario (segments 0, 100 and
    200; subscribed replicas at 150 and 210) the floor is 150, the file of
    segment 0 is deleted, those of 100 and 200 are kept, and the topic still
    lists the three segments. *)
Theorem C2_truncate_keeps_segment_list :
  (forall b w, exists b' w',
      Truncate (b, w) = Ret (None, (b', w'))
      /\ forall id, segment_starts <$> broker_topics b' !! id
                    = segment_starts <$> broker_topics b !! id)
  /\ minReplicaTopicIndex Ex.broker5 Ex.world5 3 = 150
  /\ match Truncate (Ex.broker5, Ex.world5) with
     | Ret (None, (b', w')) =>
         segment_starts <$> broker_topics b' !! 3 = Some [0; 100; 200]
         /\ files w' !! (3, 0) = None
         /\ files w' !! (3, 100) = Some [Byte.x02]
         /\ files w' !! (3, 200) = Some [Byte.x03]
     | _ => False
     end.
Proof.
  split; [apply Truncate_keeps_list|].
  vm_compute. repeat split; reflexivity.
Qed.

(** ** Snapshot and restore *)

Section SnapshotProperties.
Context `{External}.

Lemma elem_of_all_segments b s : s ∈ all_segments b <-> broker_segment b s.
Proof.
  unfold all_segments, broker_segment.
  rewrite list_elem_of_In, in_concat. split.
  - intros (l & Hl & Hs). apply list_elem_of_In in Hl, Hs.
    apply list_elem_of_fmap in Hl.
    destruct Hl as (t & -> & Ht). apply list_elem_of_fmap in Ht.
    destruct Ht as ([id t'] & -> & Hin). apply elem_of_map_to_list in Hin.
    exists id, t'. auto.
  - intros (id & t & Ht & Hs). exists (topic_segments t).
    rewrite <- !list_elem_of_In. split; [|exact Hs].
    apply list_elem_of_fmap. exists t. split; [reflexivity|].
    apply list_elem_of_fmap. exists (id, t). split; [reflexivity|].
    apply elem_of_map_to_list. exact Ht.
Qed.

Lemma foldl_headerAddSegment w acc segs :
  foldl (headerAddSegment w) acc segs =
    (acc.1 ++ map (snapshotSegment w) segs, foldl bump acc.2 segs).
Proof.
  revert acc. induction segs as [|s segs IH]; intros [l i]; cbn.
  - rewrite app_nil_r. reflexivity.
  - rewrite IH. cbn. rewrite <- app_assoc. reflexivity.
Qed.

Lemma foldl_headerAddTopic w sh ts :
  let sh' := foldl (headerAddTopic w) sh ts in
  sh_Replicas sh' = sh_Replicas sh
  /\ concat (map st_Segments (sh_Topics sh')) =
       concat (map st_Segments (sh_Topics sh))
         ++ map (snapshotSegment w) (concat (map topic_segments ts))
  /\ sh_Index sh' = foldl bump (sh_Index sh) (concat (map topic_segments ts)).
Proof.
  revert sh. induction ts as [|t ts IH]; intros sh; cbn.
  - rewrite app_nil_r. auto.
  - destruct (IH (headerAddTopic w sh t)) as (Hr & Ht & Hi).
    rewrite Hr, Ht, Hi. unfold headerAddTopic.
    rewrite foldl_headerAddSegment. cbn.
    rewrite map_app, concat_app, map_app, foldl_app. cbn.
    rewrite app_nil_r, <- app_assoc. auto.
Qed.

Lemma foldl_headerAddReplica w sh rs :
  let sh' := foldl (headerAddReplica w) sh rs in
  sh_Topics sh' = sh_Topics sh /\ sh_Index sh' = sh_Index sh.
Proof.
  revert sh. induction rs as [|r rs IH]; intros sh; cbn; [auto|].
  destruct (IH (headerAddReplica w sh r)) as (Ht & Hi). rewrite Ht, Hi.
  unfold headerAddReplica. destruct (heap w !! r); auto.
Qed.

Lemma createSnapshotHeader_segments b w :
  concat (map st_Segments (sh_Topics (createSnapshotHeader b w)))
    = map (snapshotSegment w) (all_segments b)
  /\ sh_Index (createSnapshotHeader b w) = foldl bump 0 (all_segments b).
Proof.
  unfold createSnapshotHeader.
  destruct (foldl_headerAddReplica w
              (foldl (headerAddTopic w) (mkSnapshotHeader [] [] 0)
                 (map_to_list (broker_topics b)).*2)
              (map_to_list (broker_replicas b)).*2) as (Ht & Hi).
  rewrite Ht, Hi.
  destruct (foldl_headerAddTopic w (mkSnapshotHeader [] [] 0)
              (map_to_list (broker_topics b)).*2) as (_ & Ht' & Hi').
  rewrite Ht', Hi'. auto.
Qed.

Lemma foldl_bump acc segs :
  acc <= foldl bump acc segs
  /\ Forall (fun s => seg_index s <= foldl bump acc segs) segs
  /\ (foldl bump acc segs = acc \/ exists s, s ∈ segs /\ seg_index s = foldl bump acc segs).
Proof.
  revert acc. induction segs as [|s segs IH]; intros acc; cbn.
  - split; [lia|]. split; [constructor|auto].
  - destruct (IH (bump acc s)) as (H1 & H2 & H3).
    assert (Hb : acc <= bump acc s /\ seg_index s <= bump acc s
                 /\ (bump acc s = acc \/ bump acc s = seg_index s)).
    { unfold bump. destruct (Z.ltb_spec acc (seg_index s)); lia. }
    split; [lia|]. split; [constructor; [lia|exact H2]|].
    destruct H3 as [H3|(s' & Hs' & H3)].
    + destruct Hb as (_ & _ & [Hb|Hb]).
      * left. congruence.
      * right. exists s. split; [apply list_elem_of_here|congruence].
    + right. exists s'. split; [apply list_elem_of_further; exact Hs'|exact H3].
Qed.

Lemma streamSegments_ok w segs :
  Forall (fun s => is_Some (files w !! seg_path s)) segs ->
  exists out, streamSegments w (map (snapshotSegment w) segs) = (out, None).
Proof.
  induction 1 as [|s segs [c Hc] _ [out IH]]; cbn.
  - eexists. reflexivity.
  - unfold copyFileN. rewrite Hc. rewrite Nat2Z.id, firstn_all.
    rewrite Z.ltb_irrefl, IH. eexists. reflexivity.
Qed.

(** C9. The index returned by [Snapshot].  When every segment file is on
    disk, [Snapshot] succeeds and the index it returns is the maximum
    segment start index over all segments of all topics: no segment starts
    above it, and it is the start index of some segment, or 0 when no
    segment starts above 0 (in particular when there is none).  It is not
    the broker's applied index: when the applied index is positive and
    every segment starts below it, the returned index is below it. *)
Theorem C9_snapshot_index_is_max_segment_start (b : Broker) (w : World) :
  (forall s, broker_segment b s -> is_Some (files w !! seg_path s)) ->
  exists out index,
    Snapshot b w = (out, index, None)
    /\ (forall s, broker_segment b s -> seg_index s <= index)
    /\ ((index = 0 /\ forall s, broker_segment b s -> seg_index s <= 0)
        \/ exists s, broker_segment b s /\ seg_index s = index)
    /\ (0 < broker_index b ->
        (forall s, broker_segment b s -> seg_index s < broker_index b) ->
        index < broker_index b).
Proof.
  intros Hfiles. unfold Snapshot.
  destruct (createSnapshotHeader_segments b w) as (Hsegs & Hidx).
  rewrite Hsegs.
  destruct (streamSegments_ok w (all_segments b)) as (out & ->).
  { apply Forall_forall. intros s Hs. apply Hfiles, elem_of_all_segments, Hs. }
  do 2 eexists. split; [reflexivity|]. rewrite Hidx.
  destruct (foldl_bump 0 (all_segments b)) as (H0 & Hall & Hatt).
  rewrite Forall_forall in Hall. split; [|split].
  - intros s Hs. apply Hall, elem_of_all_segments, Hs.
  - destruct Hatt as [Hz|(s & Hs & Hi)].
    + left. split; [exact Hz|]. intros s Hs. rewrite <- Hz.
      apply Hall, elem_of_all_segments, Hs.
    + right. exists s. split; [apply elem_of_all_segments, Hs|exact Hi].
  - intros Hpos Hlt. destruct Hatt as [Hz|(s & Hs & Hi)].
    + rewrite Hz. exact Hpos.
    + rewrite <- Hi. apply Hlt, elem_of_all_segments, Hs.
Qed.


(** *** Restore *)

Lemma liftW_run {A} (c : M World A) w a w' (b : Broker) :
  c w = Ret (a, w') -> liftW c (b, w) = Ret (a, (b, w')).
Proof. intros E. unfold liftW. rewrite E. reflexivity. Qed.

Lemma for_each_closeWriter (l : list (Z * loc)) b w :
  Forall (fun kr => is_Some (heap w !! kr.2)) l ->
  exists w',
    for_each l (fun '(_, r) => liftW (closeWriter r)) (b, w) = Ret (tt, (b, w'))
    /\ same_disk w w'.
Proof.
  revert w. induction l as [|[k r] l IH]; intros w Hl.
  - eexists. split; [reflexivity|apply same_disk_refl].
  - apply Forall_cons in Hl. destruct Hl as [Hr Hl]. cbn [for_each].
    destruct (closeWriter_ok r w Hr) as (w1 & E1 & Hw1).
    erewrite bind_run; [|unfold liftW; rewrite E1; reflexivity].
    destruct (IH w1) as (w2 & E2 & Hw2).
    + eapply Forall_impl; [exact Hl|]. intros [k' r'] Hs. cbn in *.
      destruct Hw1 as (_ & _ & _ & Hd).
      apply elem_of_dom. rewrite Hd. by apply elem_of_dom.
    + eexists. split; [exact E2|]. eapply same_disk_trans; eassumption.
Qed.

Lemma closeReplicas_ok b w :
  replicas_live (broker_replicas b) w ->
  exists w', closeReplicas (b, w) = Ret (tt, (set_broker_replicas ∅ b, w'))
             /\ same_disk w w'.
Proof.
  intros Hlive. unfold closeReplicas.
  rewrite (bind_run _ _ (b, w) b (b, w)) by reflexivity.
  destruct (for_each_closeWriter (map_to_list (broker_replicas b)) b w) as (w' & E & Hw').
  { apply Forall_forall. intros [k r] Hin. apply elem_of_map_to_list in Hin.
    eapply Hlive. exact Hin. }
  rewrite (bind_run _ _ _ _ _ E). eexists. split; [reflexivity|exact Hw'].
Qed.

Lemma topic_open_fresh id w :
  exists t' w', topic_open (mkTopic id 0 id [] ∅) w = Ret ((t', None), w').
Proof.
  unfold topic_open, bind, assert, modify, loadSegments, get. cbn.
  destruct (decide _) as [_|Hn]; [|exfalso; apply Hn; set_solver].
  do 2 eexists. reflexivity.
Qed.

Lemma Restore_segments_removed t ss segs r w :
  let w1 := set_dirs (dirs w ∖ {[topic_path t]})
              (set_files (filter (fun kv => kv.1.1 ≠ topic_path t) (files w)) w) in
  Restore_segments t (ss :: segs) r w1 =
    Ret ((r, Some (Errorf "open segment" ErrNotExist)), w1).
Proof.
  intros w1. cbn [Restore_segments]. unfold bind, get, segmentPath.
  replace (files w1 !! (topic_path t, sts_Index ss)) with (@None (list byte));
    [reflexivity|].
  symmetry. subst w1. cbn. apply map_lookup_filter_None_2.
  right. intros c _ Hn. apply Hn. reflexivity.
Qed.

Lemma Restore_topics_fails (sts : list snapshotTopic) r b w :
  Exists (fun st => st_Segments st <> []) sts ->
  exists r' b' w',
    Restore_topics sts r (b, w) =
      Ret ((r', Some (Errorf "open segment" ErrNotExist)), (b', w')).
Proof.
  intros Hex. revert b w. induction sts as [|st sts IH]; intros b w.
  - inversion Hex.
  - cbn [Restore_topics].
    erewrite bind_run; [|reflexivity]. cbn [topic_path].
    erewrite bind_run; [|reflexivity].
    destruct (st_Segments st) as [|ss segs] eqn:Es.
    + erewrite bind_run; [|reflexivity]. cbn iota.
      match goal with |- context [topic_store _ _ ;;; _] =>
        match goal with |- context [(?b1, ?w1)] =>
          destruct (topic_open_fresh (st_ID st) w1) as (t' & w2 & E2);
          rewrite (bind_run _ _ _ _ _ (liftW_run _ _ _ _ b1 E2))
        end end.
      erewrite bind_run; [|reflexivity].
      apply IH. apply Exists_cons in Hex. destruct Hex as [Hx|Hx]; [|exact Hx].
      rewrite Es in Hx. contradiction.
    + match goal with |- context [liftW (Restore_segments ?t _ _)] =>
        match goal with |- context [(?b1, ?w1)] =>
          rewrite (bind_run _ _ _ _ _
                     (liftW_run _ _ _ _ b1 (Restore_segments_removed t ss segs r w)))
        end end.
      do 3 eexists. reflexivity.
Qed.

(** C5. Restore.  The claim is that [Restore] of a well-formed snapshot
    succeeds and leaves a segment file with the recorded bytes for every
    segment of the header.  The code opens each segment file with [os.Open]
    (read-only, no create) right after removing the topic directory: for
    every stream whose header lists at least one segment, [Restore] returns
    the error "open segment: file does not exist" at the first such topic
    and copies nothing. *)
Theorem C5_restore_fails_on_any_segment (r : Reader) (b : Broker) (w : World)
    (buf rest : list byte) (sh : snapshotHeader) :
  r = putBE 4 (Z.of_nat (length buf)) ++ buf ++ rest ->
  Z.of_nat (length buf) < 2 ^ 32 ->
  json_Unmarshal_header buf = Some sh ->
  Exists (fun st => st_Segments st <> []) (sh_Topics sh) ->
  replicas_live (broker_replicas b) w ->
  exists b' w',
    Restore r (b, w) = Ret (Some (Errorf "open segment" ErrNotExist), (b', w')).
Proof.
  intros -> Hlen Hjson Hex Hlive. unfold Restore.
  pose proof (ReadFull_app (putBE 4 (Z.of_nat (length buf))) (buf ++ rest)) as E4.
  rewrite length_putBE in E4. rewrite E4.
  rewrite getBE_putBE_small by (cbn; lia).
  rewrite Nat2Z.id, ReadFull_app, Hjson.
  unfold closeTopics. erewrite bind_run; [|reflexivity].
  destruct (closeReplicas_ok (set_broker_topics ∅ b) w Hlive) as (w1 & E1 & _).
  rewrite (bind_run _ _ _ _ _ E1).
  destruct (Restore_topics_fails (sh_Topics sh) rest
              (set_broker_replicas ∅ (set_broker_topics ∅ b)) w1 Hex)
    as (r' & b' & w' & E).
  rewrite (bind_run _ _ _ _ _ E). do 2 eexists. reflexivity.
Qed.

End SnapshotProperties.

(** ** Applying commands *)

Section ApplyProperties.
Context `{External}.

Lemma elem_of_readdir id w i sz :
  (i, sz) ∈ readdir id w <->
  exists c, files w !! (id, i) = Some c /\ sz = Z.of_nat (length c).
Proof.
  unfold readdir. rewrite list_elem_of_omap. split.
  - intros ([[d j] c] & Hin & Hf). apply elem_of_map_to_list in Hin.
    destruct (decide (d = id)) as [->|]; [|discriminate].
    injection Hf as <- <-. eauto.
  - intros (c & Hc & ->). exists ((id, i), c). split.
    + apply elem_of_map_to_list. exact Hc.
    + destruct (decide (id = id)); [reflexivity|contradiction].
Qed.

Lemma topic_open_new id w :
  exists segs,
    topic_open (mkTopic id 0 id [] ∅) w =
      Ret ((mkTopic id 0 id segs ∅, None), set_dirs ({[id]} ∪ dirs w) w)
    /\ segs <> [] /\ Forall (loaded_segment id w) segs.
Proof.
  unfold topic_open, bind, assert, modify, loadSegments, get. cbn.
  destruct (decide _) as [_|Hn]; [|exfalso; apply Hn; set_solver].
  match goal with |- context [merge_sort segment_le ?l0] => set (l := l0) end.
  assert (Hl : Forall (loaded_segment id w) l).
  { subst l. apply Forall_forall. intros s Hs.
    apply list_elem_of_In, in_map_iff in Hs.
    destruct Hs as ([i sz] & <- & Hin). apply list_elem_of_In, elem_of_readdir in Hin.
    destruct Hin as (c & Hc & ->). unfold loaded_segment, segmentPath. cbn.
    split; [reflexivity|]. split; [reflexivity|]. right. eauto. }
  assert (Hs : Forall (loaded_segment id w) (merge_sort segment_le l)).
  { rewrite merge_sort_Permutation. exact Hl. }
  destruct (merge_sort segment_le l) as [|s0 a] eqn:Ea.
  - eexists. split; [reflexivity|]. split; [discriminate|].
    constructor; [|constructor]. unfold loaded_segment, segmentPath. cbn. auto.
  - eexists. split; [reflexivity|]. split; [discriminate|exact Hs].
Qed.

Lemma save_closed b w :
  broker_path b = EmptyString -> save (b, w) = Ret (Some ErrClosed, (b, w)).
Proof. intros Hp. unfold save. rewrite Hp. reflexivity. Qed.

Lemma save_open b w :
  broker_path b <> EmptyString ->
  save (b, w) =
    Ret (None, (b, set_meta (Some (json_Marshal_header (createSnapshotHeader b w))) w)).
Proof.
  intros Hp. unfold save.
  destruct (String.eqb_spec (broker_path b) EmptyString); [contradiction|reflexivity].
Qed.

Lemma mustSave_run b w :
  exists m, mustSave (b, w) = Ret (tt, (b, set_meta m w)).
Proof.
  unfold mustSave. destruct (String.eqb_spec (broker_path b) EmptyString) as [Hp|Hp].
  - rewrite (bind_run _ _ _ _ _ (save_closed b w Hp)).
    exists (meta w). destruct w; reflexivity.
  - rewrite (bind_run _ _ _ _ _ (save_open b w Hp)). eexists. reflexivity.
Qed.

(** The three outcomes of [createTopicIfNotExists]. *)
Lemma createTopicIfNotExists_spec id b w :
  (exists t, broker_topics b !! id = Some t
             /\ createTopicIfNotExists id (b, w) = Ret ((Some id, None), (b, w)))
  \/ (broker_topics b !! id = None /\ broker_path b = EmptyString
      /\ createTopicIfNotExists id (b, w) =
           Ret ((None, Some (Errorf "save" ErrClosed)),
                (set_broker_topics (<[id := mkTopic id 0 id [] ∅]> (broker_topics b)) b, w)))
  \/ (broker_topics b !! id = None /\ broker_path b <> EmptyString
      /\ exists segs m,
           createTopicIfNotExists id (b, w) =
             Ret ((Some id, None),
                  (set_broker_topics (<[id := mkTopic id 0 id segs ∅]> (broker_topics b)) b,
                   set_dirs ({[id]} ∪ dirs w) (set_meta m w)))
           /\ segs <> [] /\ Forall (loaded_segment id w) segs).
Proof.
  unfold createTopicIfNotExists.
  rewrite (bind_run _ _ (b, w) b (b, w)) by reflexivity.
  destruct (broker_topics b !! id) as [t|] eqn:Et.
  { left. exists t. split; reflexivity. }
  right. unfold newTopic.
  erewrite bind_run; [|reflexivity].
  set (b1 := set_broker_topics _ b).
  destruct (String.eqb_spec (broker_path b) EmptyString) as [Hp|Hp].
  { left. split; [reflexivity|]. split; [exact Hp|].
    rewrite (bind_run _ _ _ _ _ (save_closed b1 w Hp)). reflexivity. }
  right. split; [reflexivity|]. split; [exact Hp|].
  rewrite (bind_run _ _ _ _ _ (save_open b1 w Hp)).
  set (m := Some (json_Marshal_header _)).
  destruct (topic_open_new id (set_meta m w)) as (segs & E & Hne & Hsegs).
  exists segs, m.
  rewrite (bind_run _ _ _ _ _ (liftW_run _ _ _ _ b1 E)). cbn iota.
  unfold topic_store, modifyB, bind, ret. subst b1. cbn.
  rewrite insert_insert_eq. split; [reflexivity|]. split; [exact Hne|exact Hsegs].
Qed.

Lemma load_run r w rep : heap w !! r = Some rep -> load r w = Ret (rep, w).
Proof. intros E. unfold load. rewrite E. reflexivity. Qed.

Lemma createTopicIfNotExists_frame id b w :
  exists res b' w',
    createTopicIfNotExists id (b, w) = Ret (res, (b', w'))
    /\ heap w' = heap w /\ broker_replicas b' = broker_replicas b
    /\ (forall id' t, broker_topics b !! id' = Some t -> broker_topics b' !! id' = Some t).
Proof.
  destruct (createTopicIfNotExists_spec id b w)
    as [(t & _ & E)|[(Hn & _ & E)|(Hn & _ & segs & m & E & _)]];
    rewrite E; do 3 eexists; (split; [reflexivity|split; [reflexivity|split; [reflexivity|]]]).
  - auto.
  - intros id' t Ht. cbn. rewrite lookup_insert_ne; [exact Ht|congruence].
  - intros id' t Ht. cbn. rewrite lookup_insert_ne; [exact Ht|congruence].
Qed.

Lemma mustApplyCreateReplica_run m c u b w :
  json_CreateReplicaCommand (Data m) = Some c ->
  url_Parse (crc_URL c) = Some u ->
  let r := fresh (dom (heap w)) in
  exists b' w',
    mustApplyCreateReplica m (b, w) = Ret (tt, (b', w'))
    /\ broker_replicas b' = <[crc_ID c := r]> (broker_replicas b)
    /\ heap w' = <[r := mkReplica u (crc_ID c) 0 None {[BroadcastTopicID]}]> (heap w)
    /\ heap w !! r = None
    /\ (forall id t, broker_topics b !! id = Some t -> broker_topics b' !! id = Some t).
Proof.
  intros Hc Hu r. unfold mustApplyCreateReplica. rewrite Hc.
  unfold newReplica. rewrite Hu. fold r.
  erewrite bind_run; [|reflexivity].
  set (w1 := set_heap _ w).
  destruct (createTopicIfNotExists_frame BroadcastTopicID b w1)
    as (res & b2 & w2 & E & Hh & Hr & Ht).
  rewrite (bind_run _ _ _ _ _ E).
  assert (Hl : heap w2 !! r = Some (mkReplica u (crc_ID c) 0 None ∅)).
  { rewrite Hh. subst w1. cbn. apply lookup_insert_eq. }
  rewrite (bind_run _ _ _ _ _ (liftW_run _ _ _ _ b2 (load_run _ _ _ Hl))).
  erewrite bind_run; [|reflexivity].
  erewrite bind_run; [|reflexivity].
  match goal with |- context [mustSave (?b3, ?w3)] =>
    destruct (mustSave_run b3 w3) as (mm & Es); rewrite Es end.
  do 2 eexists. split; [reflexivity|]. cbn.
  split; [rewrite Hr; reflexivity|]. split; [|split].
  - rewrite Hh. subst w1. cbn. rewrite insert_insert_eq.
    unfold set_replica_topics. cbn. rewrite union_empty_r_L. reflexivity.
  - apply not_elem_of_dom. apply is_fresh.
  - exact Ht.
Qed.

Lemma CreateReplica_exists id url b :
  is_Some (broker_replicas b !! id) -> CreateReplica id url b = inl ErrReplicaExists.
Proof. intros [r Hr]. unfold CreateReplica. rewrite Hr. reflexivity. Qed.

(** C3. Applying CreateReplica.  The claim is that applying the command
    for an id that already names a replica is a no-op.  The leader-side
    [CreateReplica] refuses such an id with the replica-exists error, and
    the other appliers check at apply time what their leader-side call
    checked before publishing: [mustApplyDeleteReplica] and
    [mustApplySubscribe] return without a change when the replica is
    missing.  [mustApplyCreateReplica] alone has no such check.  For every
    broker, whether or not the id is taken, it binds the id to a newly
    allocated replica with that id and url, index 0, no sink, subscribed to
    exactly the broadcast topic.  When the id was taken, the replaced
    object is not cleaned up: it stays on the heap as it was, its writer as
    it was, and every topic that listed it under the id still lists it,
    although the broker no longer reaches it under the id. *)
Theorem C3_apply_create_replica_replaces (m : Message)
    (c : CreateReplicaCommand) (u : string) (b : Broker) (w : World) :
  json_CreateReplicaCommand (Data m) = Some c ->
  url_Parse (crc_URL c) = Some u ->
  let r := fresh (dom (heap w)) in
  (exists b' w',
      mustApplyCreateReplica m (b, w) = Ret (tt, (b', w'))
      /\ broker_replicas b' = <[crc_ID c := r]> (broker_replicas b)
      /\ heap w' = <[r := mkReplica u (crc_ID c) 0 None {[BroadcastTopicID]}]> (heap w)
      /\ heap w !! r = None
      /\ (forall old rep,
            broker_replicas b !! crc_ID c = Some old -> heap w !! old = Some rep ->
            broker_replicas b' !! crc_ID c <> Some old
            /\ heap w' !! old = Some rep
            /\ (forall id t,
                  broker_topics b !! id = Some t ->
                  topic_replicas t !! crc_ID c = Some old ->
                  broker_topics b' !! id = Some t)))
  /\ (forall connectURL,
         is_Some (broker_replicas b !! crc_ID c) ->
         CreateReplica (crc_ID c) connectURL b = inl ErrReplicaExists)
  /\ (forall m' c',
         json_DeleteReplicaCommand (Data m') = Some c' ->
         broker_replicas b !! drc_ID c' = None ->
         mustApplyDeleteReplica m' (b, w) = Ret (tt, (b, w)))
  /\ (forall m' c',
         json_SubscribeCommand (Data m') = Some c' ->
         broker_replicas b !! sc_ReplicaID c' = None ->
         mustApplySubscribe m' (b, w) = Ret (tt, (b, w))).
Proof.
  intros Hc Hu r. split; [|split; [|split]].
  - destruct (mustApplyCreateReplica_run m c u b w Hc Hu)
      as (b' & w' & E & Hr & Hh & Hfresh & Ht).
    exists b', w'. split; [exact E|]. split; [exact Hr|]. split; [exact Hh|].
    split; [exact Hfresh|].
    intros old rep Hold Hrep.
    assert (Hne : old <> r) by (intros ->; fold r in Hfresh; congruence).
    split; [|split].
    + rewrite Hr, lookup_insert_eq. congruence.
    + rewrite Hh, lookup_insert_ne by congruence. exact Hrep.
    + intros id t Hid _. apply Ht. exact Hid.
  - intros url. apply CreateReplica_exists.
  - intros m' c' Hj Hnone. unfold mustApplyDeleteReplica. rewrite Hj.
    rewrite (bind_run _ _ (b, w) b (b, w)) by reflexivity.
    rewrite Hnone. reflexivity.
  - intros m' c' Hj Hnone. unfold mustApplySubscribe. rewrite Hj.
    rewrite (bind_run _ _ (b, w) b (b, w)) by reflexivity.
    rewrite Hnone. reflexivity.
Qed.

End ApplyProperties.

(** ** Catch-up *)

Lemma attached_sent_nil w r rep d : attached w r rep d -> sent w r rep d [] w.
Proof.
  intros [Hh Hw]. repeat split. rewrite app_nil_r. symmetry. apply insert_id.
  rewrite Hh. f_equal. destruct rep; cbn in *. subst. reflexivity.
Qed.

Lemma sent_attached w r rep d out w' :
  sent w r rep d out w' ->
  attached w' r (set_replica_writer (Some (mkSink (d ++ out) None)) rep) (d ++ out).
Proof. intros (_ & _ & _ & Hh). split; [rewrite Hh; apply lookup_insert_eq|reflexivity]. Qed.

Lemma sent_trans w r rep d out1 w1 out2 w2 :
  sent w r rep d out1 w1 ->
  sent w1 r (set_replica_writer (Some (mkSink (d ++ out1) None)) rep) (d ++ out1) out2 w2 ->
  sent w r rep d (out1 ++ out2) w2.
Proof.
  intros (Hf & Hd & Hm & Hh) (Hf2 & Hd2 & Hm2 & Hh2).
  repeat split; try congruence.
  rewrite Hh2, Hh, insert_insert_eq, app_assoc. reflexivity.
Qed.

Lemma Replica_Write_attached w r rep d p :
  attached w r rep d ->
  exists w', Replica_Write r p w = Ret (None, w') /\ sent w r rep d p w'.
Proof.
  intros [Hh Hw]. unfold Replica_Write.
  rewrite (bind_run _ _ _ _ _ (load_run _ _ _ Hh)). rewrite Hw. cbn.
  eexists. split; [reflexivity|]. repeat split.
Qed.

Lemma Message_WriteTo_attached w r rep d m :
  attached w r rep d ->
  exists w', Message_WriteTo m r w = Ret (None, w')
             /\ sent w r rep d (MarshalBinary m) w'.
Proof.
  intros Ha. unfold Message_WriteTo.
  destruct (Replica_Write_attached w r rep d (marshalHeader m) Ha) as (w1 & E1 & H1).
  rewrite (bind_run _ _ _ _ _ E1).
  destruct (Replica_Write_attached w1 r _ _ (Data m) (sent_attached _ _ _ _ _ _ H1))
    as (w2 & E2 & H2).
  exists w2. split; [exact E2|]. unfold MarshalBinary.
  eapply sent_trans; eassumption.
Qed.

Lemma Decode_nil m : Decode m [] = Ret ((m, Some EOF), []).
Proof. reflexivity. Qed.

Lemma writeSegmentTo_loop_messages (ms : list Message) fuel r index w rep d :
  Forall wf_Message ms ->
  (length ms < fuel)%nat ->
  attached w r rep d ->
  exists w',
    writeSegmentTo_loop fuel r index (concat (map MarshalBinary ms)) w = Ret (None, w')
    /\ sent w r rep d (catchup index ms) w'.
Proof.
  revert fuel w rep d. induction ms as [|m ms IH]; intros fuel w rep d Hwf Hfuel Ha.
  - destruct fuel as [|fuel]; [cbn in Hfuel; lia|]. cbn.
    exists w. split; [reflexivity|]. by apply attached_sent_nil.
  - destruct fuel as [|fuel]; [cbn in Hfuel; lia|].
    apply Forall_cons in Hwf. destruct Hwf as [Hm Hwf].
    cbn [map concat writeSegmentTo_loop].
    rewrite Decode_MarshalBinary_app by exact Hm.
    unfold catchup. cbn [filter list_filter].
    destruct (Z.leb_spec (Index m) index) as [Hle|Hgt].
    + destruct (decide (index < Index m)) as [Hc|_]; [lia|].
      apply IH; [exact Hwf|cbn in Hfuel; lia|exact Ha].
    + destruct (decide (index < Index m)) as [_|Hc]; [|lia].
      destruct (Message_WriteTo_attached w r rep d m Ha) as (w1 & E1 & H1).
      rewrite (bind_run _ _ _ _ _ E1).
      destruct (IH fuel w1 _ _ Hwf ltac:(cbn in Hfuel; lia) (sent_attached _ _ _ _ _ _ H1))
        as (w2 & E2 & H2).
      exists w2. split; [exact E2|]. cbn [map concat].
      eapply sent_trans; eassumption.
Qed.

Lemma ReadFull_inv n rd bs err rd' :
  ReadFull n rd = Ret ((bs, err), rd') ->
  (length rd' <= length rd)%nat
  /\ (err = None -> length bs = n /\ (length rd' + n = length rd)%nat).
Proof.
  unfold ReadFull. destruct (Nat.eqb_spec n 0) as [->|Hn].
  - intros [= Hb He Hr]. subst. split; [lia|]. intros _. split; [reflexivity|lia].
  - destruct rd as [|x rd].
    + intros [= Hb He Hr]. subst. split; [lia|discriminate].
    + destruct (Nat.ltb_spec (length (x :: rd)) n) as [Hlt|Hge].
      * intros [= Hb He Hr]. subst. split; [cbn; lia|discriminate].
      * intros [= Hb He Hr]. subst. rewrite length_drop, length_take.
        split; [lia|]. intros _. split; lia.
Qed.

Lemma Decode_consumes m rd m' rd' :
  Decode m rd = Ret ((m', None), rd') -> (length rd' + 22 <= length rd)%nat.
Proof.
  unfold Decode, bind.
  destruct (ReadFull messageHeaderSize rd) as [[[b err] rd1]|p] eqn:E1; [|discriminate].
  apply ReadFull_inv in E1. destruct E1 as [_ E1].
  destruct err as [e|]; [intros [=]|].
  destruct (E1 eq_refl) as [Hb Hl].
  destruct (unmarshalHeader b) as [m1|p]; [|intros [=]].
  destruct (ReadFull _ rd1) as [[[dd err] rd2]|p] eqn:E2; [|discriminate].
  apply ReadFull_inv in E2. destruct E2 as [E2 _].
  unfold ret. intros [= Hm He Hr]. subst. change messageHeaderSize with 22%nat in Hl. lia.
Qed.

(** The decode loop does not depend on its fuel once the fuel exceeds the
    number of bytes left: [S (length rd)] rounds never run out. *)
Lemma writeSegmentTo_loop_fuel r index : forall f1 f2 rd w,
  (length rd < f1)%nat -> (length rd < f2)%nat ->
  writeSegmentTo_loop f1 r index rd w = writeSegmentTo_loop f2 r index rd w.
Proof.
  induction f1 as [|f1 IH]; intros f2 rd w H1 H2; [lia|].
  destruct f2 as [|f2]; [lia|]. cbn [writeSegmentTo_loop].
  destruct (Decode emptyMessage rd) as [[[m err] rd']|p] eqn:E; [|reflexivity].
  destruct err as [e|]; [reflexivity|].
  apply Decode_consumes in E.
  destruct (Index m <=? index); [apply IH; lia|].
  unfold bind. destruct (Message_WriteTo m r w) as [[[e|] w1]|p]; try reflexivity.
  apply IH; lia.
Qed.

Lemma length_MarshalBinary m : length (MarshalBinary m) = (22 + length (Data m))%nat.
Proof. unfold MarshalBinary. rewrite length_app, length_marshalHeader. reflexivity. Qed.

Lemma length_messages_le (ms : list Message) :
  (length ms <= length (concat (map MarshalBinary ms)))%nat.
Proof.
  induction ms as [|m ms IH]; cbn; [lia|].
  rewrite length_app, length_MarshalBinary. lia.
Qed.

Lemma writeSegmentTo_missing r index s w :
  files w !! seg_path s = None -> writeSegmentTo r index s w = Ret (None, w).
Proof.
  intros Hf. unfold writeSegmentTo.
  rewrite (bind_run _ _ w w w) by reflexivity. rewrite Hf. reflexivity.
Qed.

Lemma writeSegmentTo_holds r index s ms w rep d :
  segment_holds w s ms ->
  attached w r rep d ->
  exists w', writeSegmentTo r index s w = Ret (None, w')
             /\ sent w r rep d (catchup index ms) w'.
Proof.
  intros [Hwf [Hf|[Hf ->]]] Ha.
  - unfold writeSegmentTo. rewrite (bind_run _ _ w w w) by reflexivity. rewrite Hf.
    apply writeSegmentTo_loop_messages; [exact Hwf| |exact Ha].
    pose proof (length_messages_le ms). lia.
  - rewrite writeSegmentTo_missing by exact Hf.
    exists w. split; [reflexivity|]. by apply attached_sent_nil.
Qed.

Lemma segment_holds_sent w r rep d out w' s ms :
  sent w r rep d out w' -> segment_holds w s ms -> segment_holds w' s ms.
Proof. intros (Hf & _) [Hwf H]. split; [exact Hwf|]. rewrite Hf. exact H. Qed.

Lemma catchup_app index ms1 ms2 :
  catchup index (ms1 ++ ms2) = catchup index ms1 ++ catchup index ms2.
Proof. unfold catchup. rewrite filter_app, map_app, concat_app. reflexivity. Qed.

Lemma catchup_below index ms :
  Forall (fun m => Index m <= index) ms -> catchup index ms = [].
Proof.
  induction 1 as [|m ms Hm _ IH]; [reflexivity|].
  unfold catchup in *. cbn [filter list_filter].
  destruct (decide (index < Index m)); [lia|exact IH].
Qed.

Lemma writeTo_segments_skip t r index s n rest :
  seg_index n <= index ->
  writeTo_segments t r index (s :: n :: rest) = writeTo_segments t r index (n :: rest).
Proof.
  intros Hle. cbn [writeTo_segments head].
  replace (seg_index n <=? index) with true by (symmetry; apply Z.leb_le; exact Hle).
  reflexivity.
Qed.

Lemma writeTo_segments_read t r index s rest :
  match head rest with Some n => index < seg_index n | None => True end ->
  writeTo_segments t r index (s :: rest) =
    (err <- writeSegmentTo r index s ;;
     match err with
     | Some e => ret (Some (Errorf "write segment" e))
     | None => writeTo_segments t r index rest
     end).
Proof.
  intros Hn. cbn [writeTo_segments].
  destruct (head rest) as [n|]; [|reflexivity].
  replace (seg_index n <=? index) with false by (symmetry; apply Z.leb_gt; exact Hn).
  reflexivity.
Qed.

Lemma writeTo_segments_holds t r index segs : forall mss w rep d,
  Forall2 (segment_holds w) segs mss ->
  segments_bounded segs mss ->
  attached w r rep d ->
  exists w',
    writeTo_segments t r index segs w = Ret (None, w')
    /\ sent w r rep d (catchup index (concat mss)) w'.
Proof.
  induction segs as [|s segs IH]; intros mss w rep d Hh Hb Ha.
  - apply Forall2_nil_inv_l in Hh. subst mss.
    exists w. split; [reflexivity|]. by apply attached_sent_nil.
  - apply Forall2_cons_inv_l in Hh. destruct Hh as (ms & mss' & Hs & Hrest & ->).
    cbn [concat]. rewrite catchup_app. destruct Hb as [Hnext Hb].
    assert (Hcase : (exists n segs', segs = n :: segs' /\ seg_index n <= index)
                    \/ match head segs with Some n => index < seg_index n | None => True end).
    { destruct segs as [|n segs']; [right; exact I|]. cbn.
      destruct (Z.leb_spec (seg_index n) index); [left; eauto|right; assumption]. }
    destruct Hcase as [(n & segs' & -> & Hle)|Hread].
    + rewrite writeTo_segments_skip by exact Hle.
      rewrite (catchup_below index ms).
      * apply IH; assumption.
      * eapply Forall_impl; [exact Hnext|]. cbn. intros m Hm. lia.
    + rewrite writeTo_segments_read by exact Hread.
      destruct (writeSegmentTo_holds r index s ms w rep d Hs Ha) as (w1 & E1 & H1).
      rewrite (bind_run _ _ _ _ _ E1).
      assert (Hrest1 : Forall2 (segment_holds w1) segs mss').
      { eapply Forall2_impl; [exact Hrest|]. intros s' ms'.
        apply (segment_holds_sent _ _ _ _ _ _ _ _ H1). }
      destruct (IH mss' w1 _ _ Hrest1 Hb (sent_attached _ _ _ _ _ _ H1))
        as (w2 & E2 & H2).
      exists w2. split; [exact E2|]. eapply sent_trans; eassumption.
Qed.

Lemma filter_Sorted_lt index (ms : list Message) :
  Sorted Z.lt (map Index ms) ->
  Sorted Z.lt (map Index (filter (fun m => index < Index m) ms)).
Proof.
  intros Hs. apply Sorted_StronglySorted in Hs; [|intros x y z; lia].
  apply StronglySorted_Sorted.
  induction ms as [|m ms IH]; [constructor|].
  cbn in Hs. apply StronglySorted_inv in Hs. destruct Hs as [Hs Hm].
  cbn [filter list_filter]. destruct (decide _); [|exact (IH Hs)].
  cbn. constructor; [exact (IH Hs)|].
  apply Forall_forall. intros x Hx. rewrite Forall_forall in Hm. apply Hm.
  apply list_elem_of_In, in_map_iff in Hx. destruct Hx as (m' & <- & Hin).
  apply list_elem_of_In, in_map. apply list_elem_of_In in Hin.
  apply list_elem_of_filter in Hin. apply list_elem_of_In. tauto.
Qed.

(** C6. Catch-up.  Let the replica have a sink attached that accepts every
    write, let every segment file of the topic hold the encodings of a list
    of well-formed messages (a missing file holds none), and let the
    messages of every segment that has a next segment be below the next
    segment's start index.  Then [writeTo] succeeds and the sink receives
    exactly the encodings of the stored messages with
    [index > r.highReceivedIndex], in the order they are stored, which is
    ascending when the stored indices are.  A segment whose next segment
    starts at or below [r.highReceivedIndex] is skipped without being read,
    and a missing segment file is read as empty: the loop goes on. *)
Theorem C6_catchup_writes_messages_after_index (t : topic) (r : loc) (w : World)
    (rep : Replica) (d : list byte) (mss : list (list Message)) :
  attached w r rep d ->
  Forall2 (segment_holds w) (topic_segments t) mss ->
  segments_bounded (topic_segments t) mss ->
  let out := filter (fun m => replica_index rep < Index m) (concat mss) in
  (exists w',
      writeTo t r w = Ret (None, w')
      /\ sent w r rep d (concat (map MarshalBinary out)) w')
  /\ (Sorted Z.lt (map Index (concat mss)) -> Sorted Z.lt (map Index out))
  /\ (forall s n rest,
         seg_index n <= replica_index rep ->
         writeTo_segments t r (replica_index rep) (s :: n :: rest) =
           writeTo_segments t r (replica_index rep) (n :: rest))
  /\ (forall s w0, files w0 !! seg_path s = None ->
         writeSegmentTo r (replica_index rep) s w0 = Ret (None, w0)).
Proof.
  intros Ha Hh Hb out. split; [|split; [|split]].
  - unfold writeTo. destruct (Ha) as [Hload _].
    rewrite (bind_run _ _ _ _ _ (load_run _ _ _ Hload)).
    apply writeTo_segments_holds; assumption.
  - apply filter_Sorted_lt.
  - intros s n rest. apply writeTo_segments_skip.
  - intros s w0. apply writeSegmentTo_missing.
Qed.

(** ** The state machine: worlds and catch-up *)

Section FSMProperties.
Context `{External}.

Lemma world_le_refl w : world_le w w.
Proof. repeat split; set_solver. Qed.

Lemma world_le_trans w1 w2 w3 : world_le w1 w2 -> world_le w2 w3 -> world_le w1 w3.
Proof.
  intros (Ha & Hb & Hc) (Hd & He & Hf).
  repeat split; [congruence|set_solver..].
Qed.

Lemma same_disk_world_le w w' : same_disk w w' -> world_le w w'.
Proof.
  intros (Hf & Hd & _ & Hh). split; [exact Hf|]. rewrite Hd, Hh. split; reflexivity.
Qed.

Lemma replicas_live_le rs w w' :
  replicas_live rs w -> world_le w w' -> replicas_live rs w'.
Proof.
  intros Hl (_ & _ & Hd) id r Hr. apply Hl in Hr.
  apply elem_of_dom. apply Hd. apply elem_of_dom. exact Hr.
Qed.

Lemma topics_below_insert k b id t :
  topics_below k b -> topic_index t < k ->
  topics_below k (set_broker_topics (<[id := t]> (broker_topics b)) b).
Proof.
  intros Hb Ht id' t' Hid. cbn in Hid. destruct (decide (id = id')) as [<-|Hne].
  - rewrite lookup_insert_eq in Hid. injection Hid as <-. exact Ht.
  - rewrite lookup_insert_ne in Hid by exact Hne. eapply Hb. exact Hid.
Qed.

(** *** Catch-up never panics *)

Lemma same_disk_live w w' r :
  same_disk w w' -> is_Some (heap w !! r) -> is_Some (heap w' !! r).
Proof.
  intros (_ & _ & _ & Hd) Hr. apply elem_of_dom. rewrite Hd. apply elem_of_dom. exact Hr.
Qed.

Lemma Decode_total m rd : exists m' err rd', Decode m rd = Ret ((m', err), rd').
Proof.
  unfold Decode, bind.
  destruct (ReadFull messageHeaderSize rd) as [[[b err] rd1]|p] eqn:E1.
  2:{ unfold ReadFull in E1. repeat case_match; discriminate. }
  pose proof (ReadFull_inv _ _ _ _ _ E1) as [_ Hb].
  destruct err as [e|]; [do 3 eexists; reflexivity|].
  destruct (Hb eq_refl) as [Hlen _].
  unfold unmarshalHeader. rewrite Hlen, Nat.ltb_irrefl.
  match goal with |- context [ReadFull ?n rd1] =>
    destruct (ReadFull n rd1) as [[[dd err] rd2]|p] eqn:E2 end.
  - do 3 eexists. reflexivity.
  - unfold ReadFull in E2. repeat case_match; discriminate.
Qed.

Lemma Message_WriteTo_total m r w :
  is_Some (heap w !! r) ->
  exists err w', Message_WriteTo m r w = Ret (err, w') /\ same_disk w w'.
Proof.
  intros Hr. unfold Message_WriteTo.
  destruct (Replica_Write_ok r (marshalHeader m) w Hr) as (err & w1 & E1 & H1).
  rewrite (bind_run _ _ _ _ _ E1). destruct err as [e|].
  - do 2 eexists. split; [reflexivity|exact H1].
  - destruct (Replica_Write_ok r (Data m) w1 (same_disk_live _ _ _ H1 Hr))
      as (err & w2 & E2 & H2).
    exists err, w2. split; [exact E2|]. eapply same_disk_trans; eassumption.
Qed.

Lemma writeSegmentTo_loop_total r index : forall fuel rd w,
  is_Some (heap w !! r) ->
  exists err w', writeSegmentTo_loop fuel r index rd w = Ret (err, w') /\ same_disk w w'.
Proof.
  induction fuel as [|fuel IH]; intros rd w Hr.
  - do 2 eexists. split; [reflexivity|apply same_disk_refl].
  - cbn [writeSegmentTo_loop].
    destruct (Decode_total emptyMessage rd) as (m & err & rd' & ->).
    destruct err as [e|].
    + destruct e; do 2 eexists; (split; [reflexivity|apply same_disk_refl]).
    + destruct (Index m <=? index); [apply IH; exact Hr|].
      destruct (Message_WriteTo_total m r w Hr) as (err & w1 & E1 & H1).
      rewrite (bind_run _ _ _ _ _ E1). destruct err as [e|].
      * do 2 eexists. split; [reflexivity|exact H1].
      * destruct (IH rd' w1 (same_disk_live _ _ _ H1 Hr)) as (err & w2 & E2 & H2).
        exists err, w2. split; [exact E2|]. eapply same_disk_trans; eassumption.
Qed.

Lemma writeSegmentTo_total r index s w :
  is_Some (heap w !! r) ->
  exists err w', writeSegmentTo r index s w = Ret (err, w') /\ same_disk w w'.
Proof.
  intros Hr. unfold writeSegmentTo. rewrite (bind_run _ _ w w w) by reflexivity.
  destruct (files w !! seg_path s).
  - apply writeSegmentTo_loop_total. exact Hr.
  - do 2 eexists. split; [reflexivity|apply same_disk_refl].
Qed.

Lemma writeTo_segments_total t r index : forall segs w,
  is_Some (heap w !! r) ->
  exists err w', writeTo_segments t r index segs w = Ret (err, w') /\ same_disk w w'.
Proof.
  induction segs as [|s segs IH]; intros w Hr.
  - do 2 eexists. split; [reflexivity|apply same_disk_refl].
  - cbn [writeTo_segments].
    destruct (match head segs with Some n => seg_index n <=? index | None => false end).
    + apply IH. exact Hr.
    + destruct (writeSegmentTo_total r index s w Hr) as (err & w1 & E1 & H1).
      rewrite (bind_run _ _ _ _ _ E1). destruct err as [e|].
      * do 2 eexists. split; [reflexivity|exact H1].
      * destruct (IH w1 (same_disk_live _ _ _ H1 Hr)) as (err & w2 & E2 & H2).
        exists err, w2. split; [exact E2|]. eapply same_disk_trans; eassumption.
Qed.

Lemma writeTo_total t r w :
  is_Some (heap w !! r) ->
  exists err w', writeTo t r w = Ret (err, w') /\ same_disk w w'.
Proof.
  intros Hr. destruct (Hr) as [rep Hrep]. unfold writeTo.
  rewrite (bind_run _ _ _ _ _ (load_run _ _ _ Hrep)).
  apply writeTo_segments_total. exact Hr.
Qed.

(** *** Worlds that only grow *)

Lemma world_le_set_meta w m : world_le w (set_meta m w).
Proof. repeat split; cbn; set_solver. Qed.

Lemma world_le_store w r rep :
  is_Some (heap w !! r) -> world_le w (set_heap (<[r := rep]> (heap w)) w).
Proof. intros Hr. apply same_disk_world_le, same_disk_store, Hr. Qed.

Lemma world_le_alloc w r rep : world_le w (set_heap (<[r := rep]> (heap w)) w).
Proof. repeat split; cbn; [set_solver|]. rewrite dom_insert_L. set_solver. Qed.

Lemma replicas_live_insert rs w id r :
  replicas_live rs w -> is_Some (heap w !! r) -> replicas_live (<[id := r]> rs) w.
Proof.
  intros Hl Hr id' r' Hid. destruct (decide (id = id')) as [<-|Hne].
  - rewrite lookup_insert_eq in Hid. injection Hid as <-. exact Hr.
  - rewrite lookup_insert_ne in Hid by exact Hne. eapply Hl. exact Hid.
Qed.

Lemma replicas_live_delete rs w id :
  replicas_live rs w -> replicas_live (delete id rs) w.
Proof.
  intros Hl id' r' Hid. apply lookup_delete_Some in Hid. eapply Hl. apply Hid.
Qed.

End FSMProperties.

(** An internal raft entry at index 6 applied to the broker with applied
    index 5: the encoding of the message {Internal, topic 0, index 6, no
    data} is appended to the segment file of topic 0. *)
Example MustApply_internal_entry :
  match @MustApply Wire.external Ex.entry_internal (Ex.broker3, Ex.world3) with
  | Ret (_, (b', w')) =>
      broker_index b' = 6
      /\ files w' !! (0, 0) =
           Some (MarshalBinary (mkMessage InternalMessageType BroadcastTopicID 6 []))
  | Panic _ => False
  end.
Proof. vm_compute. split; reflexivity. Qed.

(** ** More on the message codec *)

Lemma ReadFull_nil n : n <> 0%nat -> ReadFull n [] = Ret (([], Some EOF), []).
Proof. intros Hn. unfold ReadFull. destruct n; [contradiction|reflexivity]. Qed.

Lemma ReadFull_short n (rd : Reader) :
  rd <> [] -> (length rd < n)%nat ->
  ReadFull n rd = Ret ((rd, Some ErrUnexpectedEOF), []).
Proof.
  intros Hne Hlt. unfold ReadFull. destruct n; [lia|].
  destruct rd as [|x rd]; [contradiction|].
  replace (length (x :: rd) <? S n)%nat with true
    by (symmetry; apply Nat.ltb_lt; exact Hlt).
  reflexivity.
Qed.

Lemma copy_short (n : nat) (d : list byte) :
  (length d <= n)%nat ->
  copy (replicate n Byte.x00) d = d ++ replicate (n - length d) Byte.x00.
Proof.
  intros Hle. unfold copy. rewrite length_replicate.
  rewrite take_ge by lia. f_equal.
  rewrite drop_replicate. reflexivity.
Qed.

Lemma Decode_short_header m0 (rd : Reader) :
  rd <> [] -> (length rd < 22)%nat ->
  Decode m0 rd = Ret ((m0, Some ErrUnexpectedEOF), []).
Proof.
  intros Hne Hlt. unfold Decode, bind.
  rewrite ReadFull_short by assumption. reflexivity.
Qed.

(** X1. Short reads of [Decode].  An exhausted reader is [io.EOF]; 1 to 21
    bytes are [io.ErrUnexpectedEOF] and the message is untouched.  When the
    header is complete and announces data but no data byte follows, the
    error is [io.EOF] again (the loops that read a segment take it for the
    end of the file); when only part of the data follows it is
    [io.ErrUnexpectedEOF], with the bytes read so far in the data slice. *)
Theorem X1_Decode_short_reads (m0 : Message) :
  Decode m0 [] = Ret ((m0, Some EOF), [])
  /\ (forall rd, rd <> [] -> (length rd < 22)%nat ->
        Decode m0 rd = Ret ((m0, Some ErrUnexpectedEOF), []))
  /\ (forall m, wf_Message m -> Data m <> [] ->
        Decode m0 (marshalHeader m) = Ret ((headerOnly m, Some EOF), []))
  /\ (forall m d, wf_Message m -> d <> [] -> (length d < length (Data m))%nat ->
        Decode m0 (marshalHeader m ++ d) =
          Ret ((mkMessage (Typ m) (TopicID m) (Index m)
                  (d ++ replicate (length (Data m) - length d) Byte.x00),
                Some ErrUnexpectedEOF), [])).
Proof.
  split; [reflexivity|]. split; [|split].
  - intros rd. apply Decode_short_header.
  - intros m Hwf Hd. unfold Decode, bind.
    rewrite <- (app_nil_r (marshalHeader m)) at 1.
    rewrite <- (length_marshalHeader m), ReadFull_app.
    rewrite unmarshalHeader_marshalHeader by exact Hwf. cbn [Data Typ TopicID Index].
    rewrite length_replicate, ReadFull_nil by (destruct (Data m); [contradiction|discriminate]).
    unfold ret, headerOnly. rewrite copy_short by (cbn; lia).
    cbn [length app]. rewrite Nat.sub_0_r. reflexivity.
  - intros m d Hwf Hd Hlt. unfold Decode, bind.
    rewrite <- (length_marshalHeader m), ReadFull_app.
    rewrite unmarshalHeader_marshalHeader by exact Hwf. cbn [Data Typ TopicID Index].
    rewrite length_replicate, ReadFull_short by assumption.
    unfold ret. rewrite copy_short by lia. reflexivity.
Qed.

(** X2. [UnmarshalBinary].  It reads back what [MarshalBinary] wrote and
    ignores bytes after the announced data; a slice shorter than the
    22-byte header panics on the slice bounds; a slice with fewer data
    bytes than announced returns the data-too-short error.  Hence
    [MarshalBinary] is injective on well-formed messages. *)
Theorem X2_UnmarshalBinary_roundtrip :
  (forall m rest, wf_Message m ->
      UnmarshalBinary (MarshalBinary m ++ rest) = Ret (m, None))
  /\ (forall b, (length b < 22)%nat -> UnmarshalBinary b = Panic SliceOutOfRange)
  /\ (forall m d, wf_Message m -> (length d < length (Data m))%nat ->
        UnmarshalBinary (marshalHeader m ++ d) =
          Ret (headerOnly m, Some ErrMessageDataTooShort))
  /\ (forall m1 m2, wf_Message m1 -> wf_Message m2 ->
        MarshalBinary m1 = MarshalBinary m2 -> m1 = m2).
Proof.
  assert (Hhdr : forall m tl, wf_Message m ->
            unmarshalHeader (marshalHeader m ++ tl) = Ret (headerOnly m)).
  { intros m tl Hwf. pose proof (unmarshalHeader_marshalHeader m Hwf) as E.
    unfold unmarshalHeader in *. rewrite length_marshalHeader in E.
    rewrite length_app, length_marshalHeader.
    rewrite Nat.ltb_irrefl in E.
    replace (messageHeaderSize + length tl <? messageHeaderSize)%nat with false
      by (symmetry; apply Nat.ltb_ge; lia).
    unfold slice in *.
    assert (Hs : forall lo hi, (hi <= messageHeaderSize)%nat ->
               take (hi - lo) (drop lo (marshalHeader m ++ tl))
               = take (hi - lo) (drop lo (marshalHeader m))).
    { intros lo hi Hhi. rewrite drop_app, take_app.
      rewrite length_drop, length_marshalHeader.
      replace (hi - lo - (messageHeaderSize - lo))%nat with 0%nat by lia.
      rewrite take_0, app_nil_r. reflexivity. }
    rewrite !Hs by (cbn; lia). exact E. }
  assert (Hrt : forall m rest, wf_Message m ->
            UnmarshalBinary (MarshalBinary m ++ rest) = Ret (m, None)).
  { intros m rest Hwf. unfold UnmarshalBinary, MarshalBinary.
    rewrite <- app_assoc, Hhdr by exact Hwf.
    rewrite <- (length_marshalHeader m), drop_app_length.
    unfold headerOnly. cbn [Data Typ TopicID Index].
    rewrite length_replicate, length_app.
    replace (length (Data m) + length rest <? length (Data m))%nat with false
      by (symmetry; apply Nat.ltb_ge; lia).
    unfold copy. rewrite length_replicate, take_app_length.
    rewrite drop_ge by (rewrite length_replicate, length_app; lia).
    rewrite app_nil_r. destruct m; reflexivity. }
  split; [exact Hrt|]. split; [|split].
  - intros b Hb. unfold UnmarshalBinary, unmarshalHeader.
    replace (length b <? messageHeaderSize)%nat with true
      by (symmetry; apply Nat.ltb_lt; exact Hb).
    reflexivity.
  - intros m d Hwf Hlt. unfold UnmarshalBinary. rewrite Hhdr by exact Hwf.
    rewrite <- (length_marshalHeader m), drop_app_length.
    unfold headerOnly at 1. cbn [Data]. rewrite length_replicate.
    replace (length d <? length (Data m))%nat with true
      by (symmetry; apply Nat.ltb_lt; exact Hlt).
    reflexivity.
  - intros m1 m2 H1 H2 E.
    pose proof (Hrt m1 [] H1) as E1. pose proof (Hrt m2 [] H2) as E2.
    rewrite E in E1. rewrite E1 in E2. congruence.
Qed.

(** ** Loading the index *)

Lemma lastIndex_cons i m ms : lastIndex i (m :: ms) = lastIndex (Index m) ms.
Proof.
  unfold lastIndex. destruct ms as [|m' ms]; [reflexivity|].
  rewrite last_cons. destruct (last (m' :: ms)) eqn:E; [reflexivity|].
  apply last_None in E. discriminate.
Qed.

Lemma loadIndex_loop_messages (ms : list Message) : forall fuel t tl,
  Forall wf_Message ms ->
  (length ms < fuel)%nat ->
  loadIndex_loop fuel t (concat (map MarshalBinary ms) ++ tl) =
    loadIndex_loop (fuel - length ms) (set_topic_index (lastIndex (topic_index t) ms) t) tl.
Proof.
  induction ms as [|m ms IH]; intros fuel t tl Hwf Hfuel.
  - cbn. rewrite Nat.sub_0_r. unfold lastIndex. cbn. destruct t; reflexivity.
  - destruct fuel as [|fuel]; [cbn in Hfuel; lia|].
    apply Forall_cons in Hwf. destruct Hwf as [Hm Hwf].
    cbn [map concat loadIndex_loop]. rewrite <- app_assoc.
    rewrite Decode_MarshalBinary_app by exact Hm.
    rewrite IH by (try assumption; cbn in Hfuel; lia).
    rewrite lastIndex_cons. cbn [length Nat.sub topic_index set_topic_index].
    reflexivity.
Qed.

Lemma topic_loadIndex_file t s w content :
  last (topic_segments t) = Some s ->
  files w !! seg_path s = Some content ->
  topic_loadIndex t w =
    match loadIndex_loop (S (length content)) t content with
    | Panic p => Panic p
    | Ret r => Ret (r, w)
    end.
Proof.
  intros Hl Hf. unfold topic_loadIndex.
  rewrite (bind_run _ _ _ _ _ (segments_last_deref t s w Hl)).
  rewrite (bind_run _ _ w w w) by reflexivity. rewrite Hf.
  destruct (loadIndex_loop _ t content); reflexivity.
Qed.

(** X3. [topic.loadIndex] reads only the last segment's file.  A missing
    file leaves the topic's index alone; a file that holds encoded messages
    sets the index to the index of the last message (and leaves it alone
    when there is none); a file that ends in 1 to 21 stray bytes returns the
    decode error, with the index of the last complete message already
    stored. *)
Theorem X3_topic_loadIndex_last_message (t : topic) (s : segment) (w : World) :
  last (topic_segments t) = Some s ->
  (files w !! seg_path s = None -> topic_loadIndex t w = Ret ((t, None), w))
  /\ (forall ms,
        Forall wf_Message ms ->
        files w !! seg_path s = Some (concat (map MarshalBinary ms)) ->
        topic_loadIndex t w =
          Ret ((set_topic_index (lastIndex (topic_index t) ms) t, None), w))
  /\ (forall ms tl,
        Forall wf_Message ms -> tl <> [] -> (length tl < 22)%nat ->
        files w !! seg_path s = Some (concat (map MarshalBinary ms) ++ tl) ->
        topic_loadIndex t w =
          Ret ((set_topic_index (lastIndex (topic_index t) ms) t,
                Some (Errorf "decode" ErrUnexpectedEOF)), w)).
Proof.
  intros Hl. split; [|split].
  - intros Hf. unfold topic_loadIndex.
    rewrite (bind_run _ _ _ _ _ (segments_last_deref t s w Hl)).
    rewrite (bind_run _ _ w w w) by reflexivity. rewrite Hf. reflexivity.
  - intros ms Hwf Hf. rewrite (topic_loadIndex_file t s w _ Hl Hf).
    rewrite <- (app_nil_r (concat _)) at 2.
    pose proof (length_messages_le ms) as Hlen.
    rewrite loadIndex_loop_messages by (try assumption; lia).
    destruct (S _ - length ms)%nat as [|k] eqn:Ek; [lia|]. reflexivity.
  - intros ms tl Hwf Hne Hshort Hf. rewrite (topic_loadIndex_file t s w _ Hl Hf).
    pose proof (length_messages_le ms) as Hlen.
    rewrite loadIndex_loop_messages by (try assumption; rewrite length_app; lia).
    destruct (S _ - length ms)%nat as [|k] eqn:Ek; [rewrite length_app in Ek; lia|].
    cbn [loadIndex_loop].
    rewrite Decode_short_header by assumption. reflexivity.
Qed.

Lemma topic_store_run id t b (w : World) :
  topic_store id t (b, w) =
    Ret (tt, (set_broker_topics (<[id := t]> (broker_topics b)) b, w)).
Proof. reflexivity. Qed.

Lemma loadIndex_loop_total fuel : forall t rd,
  exists i err, loadIndex_loop fuel t rd = Ret (set_topic_index i t, err).
Proof.
  induction fuel as [|fuel IH]; intros t rd.
  - exists (topic_index t), None. cbn. destruct t; reflexivity.
  - cbn [loadIndex_loop].
    destruct (Decode_total emptyMessage rd) as (m & err & rd' & ->).
    destruct err as [e|].
    + exists (topic_index t). destruct e; eexists; destruct t; reflexivity.
    + destruct (IH (set_topic_index (Index m) t) rd') as (i & err & ->).
      exists i, err. reflexivity.
Qed.

Lemma topic_loadIndex_total t w :
  topic_segments t <> [] ->
  exists i err, topic_loadIndex t w = Ret ((set_topic_index i t, err), w).
Proof.
  intros Hne. destruct (last (topic_segments t)) as [s|] eqn:Hl.
  2:{ apply last_None in Hl. contradiction. }
  unfold topic_loadIndex.
  rewrite (bind_run _ _ _ _ _ (segments_last_deref t s w Hl)).
  rewrite (bind_run _ _ w w w) by reflexivity.
  destruct (files w !! seg_path s) as [c|].
  - destruct (loadIndex_loop_total (S (length c)) t c) as (i & err & ->).
    exists i, err. reflexivity.
  - exists (topic_index t), None. destruct t; reflexivity.
Qed.

Lemma loadIndex_topics_spec (l : list (Z * topic)) : forall b w,
  NoDup l.*1 ->
  (forall id t, (id, t) ∈ l ->
     broker_topics b !! id = Some t /\ topic_segments t <> []) ->
  exists err b',
    loadIndex_topics l (b, w) = Ret (err, (b', w))
    /\ broker_index b <= broker_index b'
    /\ (forall id, id ∉ l.*1 -> broker_topics b' !! id = broker_topics b !! id)
    /\ (err = None ->
        (forall id t, (id, t) ∈ l ->
           exists i, broker_topics b' !! id = Some (set_topic_index i t)
                     /\ i <= broker_index b')
        /\ (broker_index b' = broker_index b
            \/ exists id t', id ∈ l.*1 /\ broker_topics b' !! id = Some t'
                             /\ topic_index t' = broker_index b')).
Proof.
  induction l as [|[id t] l IH]; intros b w Hnd Hl.
  - exists None, b. split; [reflexivity|]. split; [lia|]. split; [reflexivity|].
    intros _. split; [|left; reflexivity]. intros id t Hin. inversion Hin.
  - cbn [fmap list_fmap fst] in Hnd. apply NoDup_cons in Hnd. destruct Hnd as [Hid Hnd].
    destruct (Hl id t (list_elem_of_here _ _)) as [Ht Hne].
    destruct (topic_loadIndex_total t w Hne) as (i & err & E).
    cbn [loadIndex_topics].
    rewrite (bind_run _ _ _ _ _ (liftW_run _ _ _ _ b E)). cbv iota beta.
    rewrite (bind_run _ _ _ _ _ (topic_store_run id (set_topic_index i t) b w)).
    set (b1 := set_broker_topics _ b).
    destruct err as [e|].
    { exists (Some (Errorf "topic" e)), b1. split; [reflexivity|].
      split; [cbn; lia|]. split; [|discriminate].
      intros id' Hid'. subst b1. cbn. apply lookup_insert_ne.
      intros ->. apply Hid'. cbn. apply list_elem_of_here. }
    rewrite (bind_run _ _ (b1, w) b1 (b1, w)) by reflexivity.
    set (b2 := if broker_index b1 <? topic_index (set_topic_index i t)
               then set_broker_index (topic_index (set_topic_index i t)) b1 else b1).
    assert (E2 : (if broker_index b1 <? topic_index (set_topic_index i t)
                  then modifyB (set_broker_index (topic_index (set_topic_index i t)))
                  else ret tt) (b1, w) = Ret (tt, (b2, w))).
    { subst b2. destruct (_ <? _); reflexivity. }
    rewrite (bind_run _ _ _ _ _ E2).
    assert (Hb2 : broker_topics b2 = <[id := set_topic_index i t]> (broker_topics b)
                  /\ broker_index b <= broker_index b2 /\ i <= broker_index b2
                  /\ (broker_index b2 = broker_index b \/ broker_index b2 = i)).
    { subst b2 b1. cbn. destruct (Z.ltb_spec (broker_index b) i); cbn; repeat split; lia. }
    destruct Hb2 as (Ht2 & Hle2 & Hi2 & Hor2).
    destruct (IH b2 w Hnd) as (err & b' & E' & Hle' & Hout & Hok).
    { intros id' t' Hin. destruct (Hl id' t' (list_elem_of_further _ _ _ Hin)) as [Ht' Hne'].
      split; [|exact Hne']. rewrite Ht2, lookup_insert_ne; [exact Ht'|].
      intros ->. apply Hid. apply list_elem_of_fmap. exists (id', t'). auto. }
    exists err, b'. split; [exact E'|]. split; [lia|]. split.
    { intros id' Hid'. rewrite Hout.
      - rewrite Ht2. apply lookup_insert_ne. intros ->. apply Hid'. cbn. apply list_elem_of_here.
      - intros Hin. apply Hid'. cbn. apply list_elem_of_further. exact Hin. }
    intros Herr. destruct (Hok Herr) as [Hall Hatt]. split.
    { intros id' t' Hin. apply elem_of_cons in Hin. destruct Hin as [[= -> ->]|Hin].
      - exists i. rewrite (Hout _ Hid), Ht2, lookup_insert_eq. split; [reflexivity|lia].
      - apply Hall. exact Hin. }
    destruct Hatt as [Heq|(id' & t' & Hin & Ht' & Hi')].
    + destruct Hor2 as [Hb|Hb].
      * left. lia.
      * right. exists id, (set_topic_index i t). split; [cbn; apply list_elem_of_here|].
        rewrite (Hout _ Hid), Ht2, lookup_insert_eq. split; [reflexivity|]. cbn. lia.
    + right. exists id', t'. split; [cbn; apply list_elem_of_further; exact Hin|]. auto.
Qed.

(** X4. [Broker.loadIndex].  When every topic has a segment it returns, and
    leaves the disk alone.  When it returns no error the broker's index has
    not gone down, no topic's index is above it, and it is the old index or
    the index of some topic: the highest of the old index and the topics'
    loaded indices. *)
Theorem X4_loadIndex_highest_topic_index (b : Broker) (w : World) :
  (forall id t, broker_topics b !! id = Some t -> topic_segments t <> []) ->
  exists err b',
    loadIndex (b, w) = Ret (err, (b', w))
    /\ (err = None ->
        broker_index b <= broker_index b'
        /\ (forall id t', broker_topics b' !! id = Some t' ->
              topic_index t' <= broker_index b')
        /\ (broker_index b' = broker_index b
            \/ exists id t', broker_topics b' !! id = Some t'
                             /\ topic_index t' = broker_index b')).
Proof.
  intros Hne. unfold loadIndex. rewrite (bind_run _ _ (b, w) b (b, w)) by reflexivity.
  destruct (loadIndex_topics_spec (map_to_list (broker_topics b)) b w)
    as (err & b' & E & Hle & Hout & Hok).
  { apply NoDup_fst_map_to_list. }
  { intros id t Hin. apply elem_of_map_to_list in Hin. split; [exact Hin|eauto]. }
  exists err, b'. split; [exact E|]. intros Herr.
  destruct (Hok Herr) as [Hall Hatt]. split; [exact Hle|]. split.
  - intros id t' Ht'.
    destruct (broker_topics b !! id) as [t|] eqn:Ht.
    + destruct (Hall id t) as (i & Hi & Hle'); [apply elem_of_map_to_list; exact Ht|].
      rewrite Hi in Ht'. injection Ht' as <-. exact Hle'.
    + rewrite Hout in Ht'; [congruence|].
      intros Hin. apply list_elem_of_fmap in Hin. destruct Hin as ([id' t0] & -> & Hin).
      apply elem_of_map_to_list in Hin. cbn in Ht. congruence.
  - destruct Hatt as [Heq|(id & t' & _ & Ht' & Hi)]; [left; exact Heq|right; eauto].
Qed.

(** ** Opening a topic *)

#[global] Instance segment_le_total : Total segment_le.
Proof. intros a b. unfold segment_le. lia. Qed.
#[global] Instance segment_le_trans : Transitive segment_le.
Proof. intros a b c. unfold segment_le. lia. Qed.

Lemma NoDup_readdir dir w : NoDup (readdir dir w).*1.
Proof.
  unfold readdir. pose proof (NoDup_fst_map_to_list (files w)) as Hnd.
  induction (map_to_list (files w)) as [|[[d i] c] l IH]; [constructor|].
  cbn [fmap list_fmap fst] in Hnd. apply NoDup_cons in Hnd. destruct Hnd as [Hni Hnd].
  cbn [omap list_omap]. destruct (decide (d = dir)) as [->|Hne]; [|exact (IH Hnd)].
  cbn [fmap list_fmap fst]. apply NoDup_cons. split; [|exact (IH Hnd)].
  intros Hin. apply Hni. apply list_elem_of_fmap in Hin.
  destruct Hin as ([i' sz] & Hi & Hin). cbn in Hi. subst i'.
  apply list_elem_of_omap in Hin. destruct Hin as ([[d' i'] c'] & Hin & Hs).
  destruct (decide (d' = dir)) as [->|]; [|discriminate]. injection Hs as -> _.
  apply list_elem_of_fmap. exists ((dir, i), c'). auto.
Qed.

Lemma loadSegments_run t w :
  topic_path t ∈ dirs w ->
  loadSegments t w = Ret ((set_topic_segments (loadedSegments t w) t, None), w).
Proof.
  intros Hd. unfold loadSegments. rewrite (bind_run _ _ w w w) by reflexivity.
  destruct (decide (topic_path t ∈ dirs w)); [|contradiction].
  unfold loadedSegments. destruct (merge_sort _ _); reflexivity.
Qed.

Lemma topic_open_run t w :
  topic_segments t = [] ->
  topic_open t w =
    Ret ((set_topic_segments (loadedSegments t w) t, None),
         set_dirs ({[topic_path t]} ∪ dirs w) w).
Proof.
  intros Hnil. unfold topic_open. rewrite Hnil.
  rewrite (bind_run _ _ w tt w) by reflexivity.
  erewrite bind_run; [|reflexivity]. cbv beta.
  erewrite bind_run; [|apply loadSegments_run; cbn; set_solver].
  reflexivity.
Qed.

(** X5.  [topic.open] refuses a topic that already lists segments (the
    assertion panics).  On a topic without segments it creates the
    directory and lists one segment per file of the directory, sorted by
    starting index without repetition, each closed and sized as its file;
    a directory without files yields the single empty segment 0. *)
Theorem X5_open_lists_files_in_order (t : topic) (w : World) :
  (topic_segments t <> [] ->
     topic_open t w = Panic (AssertFailed "topic already open"))
  /\ (topic_segments t = [] ->
      exists segs,
        topic_open t w =
          Ret ((set_topic_segments segs t, None),
               set_dirs ({[topic_path t]} ∪ dirs w) w)
        /\ segs <> []
        /\ StronglySorted segment_le segs
        /\ NoDup (map seg_index segs)
        /\ ((forall i, files w !! (topic_path t, i) = None) ->
              segs = [mkSegment 0 (topic_path t, 0) 0 None])
        /\ ((exists i, files w !! (topic_path t, i) <> None) ->
              forall s, s ∈ segs <->
                exists c, files w !! (topic_path t, seg_index s) = Some c
                          /\ s = fileSegment (topic_path t) (seg_index s) c)).
Proof.
  split.
  - intros Hne. unfold topic_open, bind, assert.
    destruct (topic_segments t); [contradiction|reflexivity].
  - intros Hnil. rewrite (topic_open_run t w Hnil). unfold loadedSegments, segmentPath.
    match goal with |- context [merge_sort segment_le ?l0] => set (l := l0) end.
    assert (Hl : forall s, s ∈ l <->
              exists c, files w !! (topic_path t, seg_index s) = Some c
                        /\ s = fileSegment (topic_path t) (seg_index s) c).
    { intros s. subst l. rewrite list_elem_of_In, in_map_iff. split.
      - intros ([i sz] & <- & Hin). apply list_elem_of_In, elem_of_readdir in Hin.
        destruct Hin as (c & Hc & ->). exists c. cbn. auto.
      - intros (c & Hc & Hs). exists (seg_index s, Z.of_nat (length c)). split.
        + rewrite Hs. reflexivity.
        + apply list_elem_of_In, elem_of_readdir. eauto. }
    assert (Hnd : NoDup (map seg_index l)).
    { subst l. rewrite map_map.
      pose proof (NoDup_readdir (topic_path t) w) as Hr.
      erewrite map_ext; [exact Hr|]. intros [i sz]. reflexivity. }
    pose proof (merge_sort_Permutation segment_le l) as Hperm.
    pose proof (StronglySorted_merge_sort segment_le l) as Hsort.
    destruct (merge_sort segment_le l) as [|s0 a] eqn:Ea.
    + eexists. split; [reflexivity|]. split; [discriminate|].
      split; [repeat constructor|]. split; [repeat constructor; set_solver|].
      split; [reflexivity|]. intros (i & Hi). exfalso.
      destruct (files w !! (topic_path t, i)) as [c|] eqn:Ec; [|contradiction].
      assert (Hin : fileSegment (topic_path t) i c ∈ l) by (apply Hl; exists c; auto).
      rewrite <- Hperm in Hin. inversion Hin.
    + eexists. split; [reflexivity|]. split; [discriminate|].
      split; [exact Hsort|]. split.
      { rewrite Hperm. exact Hnd. }
      split.
      * intros Hnone. exfalso.
        assert (Hin : s0 ∈ l) by (rewrite <- Hperm; apply list_elem_of_here).
        apply Hl in Hin. destruct Hin as (c & Hc & _). rewrite Hnone in Hc. discriminate.
      * intros _ s. rewrite Hperm. apply Hl.
Qed.

(** ** What truncation removes *)

Lemma StronglySorted_segment_lt segs :
  StronglySorted segment_le segs -> NoDup (map seg_index segs) ->
  StronglySorted segment_lt segs.
Proof.
  induction 1 as [|s segs Hs IH Hall]; intros Hnd; [constructor|].
  cbn in Hnd. apply NoDup_cons in Hnd. destruct Hnd as [Hni Hnd].
  constructor; [exact (IH Hnd)|].
  rewrite Forall_forall in Hall |- *. intros x Hx.
  pose proof (Hall x Hx) as Hle. unfold segment_le in Hle. unfold segment_lt.
  assert (seg_index s <> seg_index x); [|lia].
  intros Heq. apply Hni. rewrite Heq. apply list_elem_of_In, in_map, list_elem_of_In, Hx.
Qed.

Lemma list_filter_ext_in {A} (P Q : A -> Prop)
    `{!forall x, Decision (P x)} `{!forall x, Decision (Q x)} (l : list A) :
  (forall x, x ∈ l -> P x <-> Q x) -> filter P l = filter Q l.
Proof.
  induction l as [|a l IH]; intros Hl; [reflexivity|].
  rewrite !filter_cons, IH by (intros x Hx; apply Hl, list_elem_of_further, Hx).
  destruct (decide (P a)) as [Hp|Hp]; destruct (decide (Q a)) as [Hq|Hq]; try reflexivity;
    exfalso; apply (Hl a (list_elem_of_here _ _)) in Hp || apply (Hl a (list_elem_of_here _ _)) in Hq;
    contradiction.
Qed.

Lemma replicated_head floor s rest :
  StronglySorted segment_lt (s :: rest) ->
  replicated floor (s :: rest) s =
    match head rest with
    | None => false
    | Some n => negb (floor <? seg_index n)
    end.
Proof.
  intros Hs. apply StronglySorted_inv in Hs. destruct Hs as [Hrest Hall].
  unfold replicated. cbn [existsb]. rewrite Z.ltb_irrefl. cbn [andb orb].
  destruct rest as [|n rest]; [reflexivity|]. cbn [head existsb].
  apply Forall_cons in Hall. destruct Hall as [Hn Hall]. unfold segment_lt in Hn.
  apply StronglySorted_inv in Hrest. destruct Hrest as [_ Hn'].
  destruct (Z.ltb_spec floor (seg_index n)) as [Hlt|Hge]; cbn [negb].
  - replace (seg_index n <=? floor) with false by (symmetry; apply Z.leb_gt; lia).
    rewrite andb_false_r. cbn [orb].
    apply not_true_is_false. intros Hex. apply existsb_exists in Hex.
    destruct Hex as (x & Hx & Hc). apply andb_true_iff in Hc. destruct Hc as [_ Hc].
    apply Z.leb_le in Hc. rewrite Forall_forall in Hn'.
    apply list_elem_of_In in Hx. specialize (Hn' x Hx). unfold segment_lt in Hn'. lia.
  - replace (seg_index s <? seg_index n) with true by (symmetry; apply Z.ltb_lt; lia).
    replace (seg_index n <=? floor) with true by (symmetry; apply Z.leb_le; lia).
    reflexivity.
Qed.

Lemma replicated_tail floor s rest x :
  StronglySorted segment_lt (s :: rest) -> x ∈ rest ->
  replicated floor (s :: rest) x = replicated floor rest x.
Proof.
  intros Hs Hx. apply StronglySorted_inv in Hs. destruct Hs as [_ Hall].
  rewrite Forall_forall in Hall. specialize (Hall x Hx). unfold segment_lt in Hall.
  unfold replicated. cbn [existsb].
  replace (seg_index x <? seg_index s) with false by (symmetry; apply Z.ltb_ge; lia).
  reflexivity.
Qed.

Lemma Truncate_segments_run floor : forall segs w,
  StronglySorted segment_lt segs ->
  Truncate_segments floor segs w =
    Ret ((map (truncated floor segs) segs,
          filter (fun s => ¬ replicated floor segs s) segs),
         set_files (foldl (fun f s => delete (seg_path s) f) (files w)
                      (filter (fun s => Is_true (replicated floor segs s)) segs)) w).
Proof.
  induction segs as [|s rest IH]; intros w Hs.
  - destruct w. reflexivity.
  - assert (Hrest : StronglySorted segment_lt rest) by (apply StronglySorted_inv in Hs; tauto).
    assert (Hmap : map (truncated floor (s :: rest)) rest = map (truncated floor rest) rest).
    { apply map_ext_in. intros x Hx. unfold truncated.
      rewrite (replicated_tail floor s rest x Hs) by (apply list_elem_of_In, Hx). reflexivity. }
    assert (Hf1 : filter (fun x => ¬ replicated floor (s :: rest) x) rest
                  = filter (fun x => ¬ replicated floor rest x) rest).
    { apply list_filter_ext_in. intros x Hx.
      rewrite (replicated_tail floor s rest x Hs Hx). reflexivity. }
    assert (Hf2 : filter (fun x => Is_true (replicated floor (s :: rest) x)) rest
                  = filter (fun x => Is_true (replicated floor rest x)) rest).
    { apply list_filter_ext_in. intros x Hx.
      rewrite (replicated_tail floor s rest x Hs Hx). reflexivity. }
    cbn [Truncate_segments map]. rewrite !filter_cons.
    unfold truncated at 1. rewrite (replicated_head floor s rest Hs), Hmap, Hf1, Hf2.
    destruct (head rest) as [n|] eqn:Hh.
    + destruct (floor <? seg_index n); cbn [negb].
      * rewrite (bind_run _ _ _ _ _ (IH w Hrest)).
        rewrite decide_True by (cbn; tauto). rewrite decide_False by (cbn; tauto).
        reflexivity.
      * erewrite bind_run; [|reflexivity]. cbv beta.
        rewrite (bind_run _ _ _ _ _ (IH _ Hrest)).
        rewrite decide_False by (cbn; tauto). rewrite decide_True by (cbn; tauto).
        reflexivity.
    + rewrite (bind_run _ _ _ _ _ (IH w Hrest)).
      rewrite decide_True by (cbn; tauto). rewrite decide_False by (cbn; tauto).
      reflexivity.
Qed.

Lemma lookup_foldl_delete (l : list segment) (f : gmap (Z * Z) (list byte)) p :
  foldl (fun f s => delete (seg_path s) f) f l !! p =
    if decide (p ∈ map seg_path l) then None else f !! p.
Proof.
  revert f. induction l as [|s l IH]; intros f; cbn [foldl map].
  - rewrite decide_False by (intros Hin; inversion Hin). reflexivity.
  - rewrite IH. destruct (decide (p = seg_path s)) as [->|Hne].
    + rewrite lookup_delete_eq. rewrite (decide_True (P := _ ∈ _ :: _)) by apply list_elem_of_here.
      destruct (decide _); reflexivity.
    + rewrite lookup_delete_ne by congruence.
      destruct (decide (p ∈ map seg_path l)) as [Hin|Hni].
      * rewrite decide_True by (apply list_elem_of_further, Hin). reflexivity.
      * rewrite decide_False; [reflexivity|]. intros Hin. apply elem_of_cons in Hin.
        destruct Hin; [congruence|contradiction].
Qed.

Lemma replicated_last floor segs s :
  StronglySorted segment_lt segs -> last segs = Some s ->
  replicated floor segs s = false.
Proof.
  intros Hs Hl. apply not_true_is_false. intros Hex.
  apply existsb_exists in Hex. destruct Hex as (n & Hn & Hc).
  apply andb_true_iff in Hc. destruct Hc as [Hc _]. apply Z.ltb_lt in Hc.
  apply last_Some in Hl. destruct Hl as (pre & ->).
  apply in_app_or in Hn. destruct Hn as [Hn|[<-|[]]]; [|lia].
  clear -Hs Hn Hc. induction pre as [|a pre IH]; [destruct Hn|].
  cbn in Hs. apply StronglySorted_inv in Hs. destruct Hs as [Hs Hall].
  destruct Hn as [<-|Hn]; [|exact (IH Hs Hn)].
  rewrite Forall_forall in Hall. specialize (Hall s).
  unfold segment_lt in Hall. assert (s ∈ pre ++ [s]) by set_solver. specialize (Hall ltac:(assumption)). lia.
Qed.

(** X6.  One round of the topic loop of [Truncate], on a topic whose
    segments are sorted by starting index without repetition (as
    [topic.open] lists them).  With the floor [minReplicaTopicIndex], the
    round removes the file of exactly the segments that have a later
    segment starting at or below the floor, and closes them in place; it
    touches no other file, no directory, no replica and not the metadata,
    and it leaves the last segment as it is. *)
Theorem X6_truncate_removes_replicated_segments
    (id : Z) (t : topic) (b : Broker) (w : World) :
  StronglySorted segment_le (topic_segments t) ->
  NoDup (map seg_index (topic_segments t)) ->
  let segs := topic_segments t in
  let floor := minReplicaTopicIndex b w (topic_id t) in
  exists w',
    Truncate_topic (id, t) (b, w) =
      Ret (tt, (set_broker_topics
                  (<[id := set_topic_segments (map (truncated floor segs) segs) t]>
                     (broker_topics b)) b, w'))
    /\ heap w' = heap w /\ dirs w' = dirs w /\ meta w' = meta w
    /\ (forall s, s ∈ segs -> replicated floor segs s = true ->
          files w' !! seg_path s = None)
    /\ (forall p,
          (forall s, s ∈ segs -> replicated floor segs s = true -> seg_path s <> p) ->
          files w' !! p = files w !! p)
    /\ (forall s, last segs = Some s -> truncated floor segs s = s).
Proof.
  intros Hle Hnd segs floor.
  pose proof (StronglySorted_segment_lt segs Hle Hnd) as Hs.
  eexists. split; [|split; [|split; [|split; [|split; [|split]]]]].
  - unfold Truncate_topic. rewrite (bind_run _ _ (b, w) (b, w) (b, w)) by reflexivity.
    erewrite bind_run; [|apply liftW_run, (Truncate_segments_run _ _ _ Hs)].
    reflexivity.
  - reflexivity.
  - reflexivity.
  - reflexivity.
  - intros s Hin Hr. cbn [files set_files]. rewrite lookup_foldl_delete.
    rewrite decide_True; [reflexivity|].
    apply list_elem_of_In, in_map, list_elem_of_In, list_elem_of_filter.
    split; [apply Is_true_true, Hr|exact Hin].
  - intros p Hp. cbn [files set_files]. rewrite lookup_foldl_delete.
    rewrite decide_False; [reflexivity|]. intros Hin.
    apply list_elem_of_In, in_map_iff in Hin. destruct Hin as (s & Hsp & Hin).
    apply list_elem_of_In, list_elem_of_filter in Hin. destruct Hin as [Hr Hin].
    exact (Hp s Hin (proj1 (Is_true_true _) Hr) Hsp).
  - intros s Hl. unfold truncated. rewrite (replicated_last floor segs s Hs Hl). reflexivity.
Qed.

(** ** The snapshot stream *)

Section SnapshotStream.
Context `{External}.

Lemma copyFileN_snapshotSegment w s c :
  files w !! seg_path s = Some c ->
  copyFileN w (sts_path (snapshotSegment w s)) (sts_Size (snapshotSegment w s)) = (c, None).
Proof.
  intros Hc. unfold copyFileN, snapshotSegment. cbn [sts_path sts_Size]. rewrite Hc.
  rewrite Nat2Z.id, firstn_all, Z.ltb_irrefl. reflexivity.
Qed.

Lemma copyFileN_missing w s :
  files w !! seg_path s = None ->
  copyFileN w (sts_path (snapshotSegment w s)) (sts_Size (snapshotSegment w s))
    = ([], Some ErrNotExist).
Proof.
  intros Hc. unfold copyFileN, snapshotSegment. cbn [sts_path sts_Size]. rewrite Hc.
  reflexivity.
Qed.

Lemma streamSegments_all w segs :
  Forall (fun s => is_Some (files w !! seg_path s)) segs ->
  streamSegments w (map (snapshotSegment w) segs) =
    (concat (map (segment_content w) segs), None).
Proof.
  induction 1 as [|s segs [c Hc] _ IH]; [reflexivity|].
  cbn [map streamSegments concat]. rewrite (copyFileN_snapshotSegment w s c Hc), IH.
  unfold segment_content. rewrite Hc. reflexivity.
Qed.

Lemma streamSegments_missing w pre s post :
  Forall (fun s => is_Some (files w !! seg_path s)) pre ->
  files w !! seg_path s = None ->
  streamSegments w (map (snapshotSegment w) (pre ++ s :: post)) =
    (concat (map (segment_content w) pre), Some ErrNotExist).
Proof.
  intros Hpre Hs. induction Hpre as [|a pre [c Hc] _ IH].
  - cbn [app map streamSegments concat]. rewrite (copyFileN_missing w s Hs). reflexivity.
  - cbn [app map streamSegments concat]. rewrite (copyFileN_snapshotSegment w a c Hc), IH.
    unfold segment_content. rewrite Hc. reflexivity.
Qed.

Lemma first_missing w (segs : list segment) s :
  s ∈ segs -> files w !! seg_path s = None ->
  exists pre s' post,
    segs = pre ++ s' :: post
    /\ Forall (fun s => is_Some (files w !! seg_path s)) pre
    /\ files w !! seg_path s' = None.
Proof.
  induction segs as [|a segs IH]; intros Hin Hs; [inversion Hin|].
  destruct (files w !! seg_path a) as [c|] eqn:Ha.
  - apply elem_of_cons in Hin. destruct Hin as [->|Hin]; [congruence|].
    destruct (IH Hin Hs) as (pre & s' & post & -> & Hpre & Hs').
    exists (a :: pre), s', post. split; [reflexivity|]. split; [|exact Hs'].
    constructor; [rewrite Ha; eauto|exact Hpre].
  - exists [], a, segs. split; [reflexivity|]. split; [constructor|exact Ha].
Qed.

Lemma Snapshot_missing b w s :
  broker_segment b s -> files w !! seg_path s = None ->
  exists out, Snapshot b w = (snapshot_frame b w ++ out, 0, Some ErrNotExist).
Proof.
  intros Hb Hs. apply elem_of_all_segments in Hb.
  destruct (first_missing w _ s Hb Hs) as (pre & s' & post & Hsegs & Hpre & Hs').
  unfold Snapshot. destruct (createSnapshotHeader_segments b w) as (-> & _).
  rewrite Hsegs, (streamSegments_missing w pre s' post Hpre Hs').
  eexists. reflexivity.
Qed.

(** X7.  When every segment file is on disk, [Snapshot] writes the header
    frame (the length of the encoded header in 4 big-endian bytes, then the
    encoded header) followed by the whole content of every segment file, in
    the order the header lists the segments, and returns no error. *)
Theorem X7_snapshot_streams_header_then_files (b : Broker) (w : World) :
  (forall s, broker_segment b s -> is_Some (files w !! seg_path s)) ->
  exists index,
    Snapshot b w =
      (snapshot_frame b w ++ concat (map (segment_content w) (all_segments b)),
       index, None).
Proof.
  intros Hfiles. unfold Snapshot.
  destruct (createSnapshotHeader_segments b w) as (-> & _).
  rewrite streamSegments_all.
  - eexists. reflexivity.
  - apply Forall_forall. intros s Hs. apply Hfiles, elem_of_all_segments, Hs.
Qed.

(** X8.  When the file of a segment is missing, [Snapshot] has written the
    header frame and the files of the segments before it, and returns index
    0 with the not-exist error of [os.Open]; the header it wrote lists the
    missing segment with size 0, and [save] on an open broker succeeds in
    the same state. *)
Theorem X8_snapshot_fails_on_missing_file (b : Broker) (w : World)
    (pre post : list segment) (s : segment) :
  all_segments b = pre ++ s :: post ->
  Forall (fun s => is_Some (files w !! seg_path s)) pre ->
  files w !! seg_path s = None ->
  Snapshot b w =
    (snapshot_frame b w ++ concat (map (segment_content w) pre), 0, Some ErrNotExist)
  /\ mkSnapshotTopicSegment (seg_index s) 0 (seg_path s)
       ∈ concat (map st_Segments (sh_Topics (createSnapshotHeader b w)))
  /\ (broker_path b <> EmptyString ->
      save (b, w) =
        Ret (None, (b, set_meta (Some (json_Marshal_header (createSnapshotHeader b w))) w))).
Proof.
  intros Hsegs Hpre Hs. split; [|split].
  - unfold Snapshot. destruct (createSnapshotHeader_segments b w) as (-> & _).
    rewrite Hsegs, (streamSegments_missing w pre s post Hpre Hs). reflexivity.
  - destruct (createSnapshotHeader_segments b w) as (-> & _). rewrite Hsegs.
    apply list_elem_of_In, in_map_iff. exists s. split.
    + unfold snapshotSegment. rewrite Hs. reflexivity.
    + apply in_or_app. right. left. reflexivity.
  - intros Hp. unfold save. destruct (String.eqb_spec (broker_path b) EmptyString); [contradiction|].
    reflexivity.
Qed.

(** *** A snapshot after a truncation *)

Lemma Truncate_segments_files floor : forall segs w,
  exists segs' new w',
    Truncate_segments floor segs w = Ret ((segs', new), w')
    /\ map seg_path segs' = map seg_path segs
    /\ heap w' = heap w
    /\ (forall p, files w !! p = None -> files w' !! p = None)
    /\ (forall i s n, segs !! i = Some s -> segs !! S i = Some n ->
          seg_index n <= floor -> files w' !! seg_path s = None).
Proof.
  induction segs as [|s rest IH]; intros w.
  - do 3 eexists. split; [reflexivity|]. split; [reflexivity|]. split; [reflexivity|].
    split; [auto|]. intros i s n Hs. rewrite lookup_nil in Hs. discriminate.
  - cbn [Truncate_segments].
    destruct (head rest) as [n0|] eqn:Hh.
    + destruct (Z.ltb_spec floor (seg_index n0)) as [Hlt|Hge].
      * destruct (IH w) as (segs' & new & w' & E & Hp & Hhp & Hmono & Hdel).
        rewrite (bind_run _ _ _ _ _ E). do 3 eexists. split; [reflexivity|].
        split; [cbn; rewrite Hp; reflexivity|]. split; [exact Hhp|]. split; [exact Hmono|].
        intros [|i] s' n Hs' Hn Hle.
        -- cbn in Hs', Hn. destruct rest; [discriminate|]. cbn in Hh, Hn.
           injection Hh as <-. injection Hn as <-. lia.
        -- cbn in Hs', Hn. eapply Hdel; eauto.
      * erewrite bind_run; [|reflexivity]. cbv beta.
        destruct (IH (set_files (delete (seg_path s) (files w)) w))
          as (segs' & new & w' & E & Hp & Hhp & Hmono & Hdel).
        rewrite (bind_run _ _ _ _ _ E). do 3 eexists. split; [reflexivity|].
        split; [cbn; rewrite Hp; reflexivity|]. split; [exact Hhp|]. split.
        -- intros p Hnone. apply Hmono. cbn. destruct (decide (p = seg_path s)) as [->|Hne].
           ++ apply lookup_delete_eq.
           ++ rewrite lookup_delete_ne by congruence. exact Hnone.
        -- intros [|i] s' n Hs' Hn Hle.
           ++ cbn in Hs'. injection Hs' as <-. apply Hmono. cbn. apply lookup_delete_eq.
           ++ cbn in Hs', Hn. eapply Hdel; eauto.
    + destruct (IH w) as (segs' & new & w' & E & Hp & Hhp & Hmono & Hdel).
      rewrite (bind_run _ _ _ _ _ E). do 3 eexists. split; [reflexivity|].
      split; [cbn; rewrite Hp; reflexivity|]. split; [exact Hhp|]. split; [exact Hmono|].
      intros [|i] s' n Hs' Hn Hle.
      * cbn in Hn. destruct rest; discriminate.
      * cbn in Hs', Hn. eapply Hdel; eauto.
Qed.

Lemma minReplicaTopicIndex_ext b w b' w' T :
  broker_replicas b' = broker_replicas b -> heap w' = heap w ->
  minReplicaTopicIndex b' w' T = minReplicaTopicIndex b w T.
Proof. intros Hb Hw. unfold minReplicaTopicIndex. rewrite Hb, Hw. reflexivity. Qed.

Lemma Truncate_loop_files (l : list (Z * topic)) : forall b w,
  (forall id t, (id, t) ∈ l ->
     segment_paths <$> broker_topics b !! id = Some (segment_paths t)) ->
  exists b' w',
    for_each l Truncate_topic (b, w) = Ret (tt, (b', w'))
    /\ broker_replicas b' = broker_replicas b /\ heap w' = heap w
    /\ (forall id, segment_paths <$> broker_topics b' !! id
                   = segment_paths <$> broker_topics b !! id)
    /\ (forall p, files w !! p = None -> files w' !! p = None)
    /\ (forall id t i s n, (id, t) ∈ l ->
          topic_segments t !! i = Some s -> topic_segments t !! S i = Some n ->
          seg_index n <= minReplicaTopicIndex b w (topic_id t) ->
          files w' !! seg_path s = None).
Proof.
  induction l as [|[id t] l IH]; intros b w Hl.
  - do 2 eexists. split; [reflexivity|]. repeat split; auto.
    intros id t i s n Hin. inversion Hin.
  - cbn [for_each].
    destruct (Truncate_segments_files (minReplicaTopicIndex b w (topic_id t))
                (topic_segments t) w) as (segs' & new & w1 & E1 & Hp1 & Hh1 & Hmono1 & Hdel1).
    assert (Et : Truncate_topic (id, t) (b, w) =
                 Ret (tt, (set_broker_topics
                             (<[id := set_topic_segments segs' t]> (broker_topics b)) b, w1))).
    { unfold Truncate_topic. rewrite (bind_run _ _ (b, w) (b, w) (b, w)) by reflexivity.
      erewrite bind_run; [|apply liftW_run, E1]. reflexivity. }
    rewrite (bind_run _ _ _ _ _ Et).
    set (b1 := set_broker_topics _ b).
    assert (Hb1 : forall id', segment_paths <$> broker_topics b1 !! id'
                              = segment_paths <$> broker_topics b !! id').
    { intros id'. subst b1. cbn. destruct (decide (id = id')) as [<-|Hne].
      - rewrite lookup_insert_eq, (Hl id t) by apply list_elem_of_here.
        cbn. unfold segment_paths. cbn. rewrite Hp1. reflexivity.
      - rewrite lookup_insert_ne by exact Hne. reflexivity. }
    destruct (IH b1 w1) as (b' & w' & E & Hr & Hh & Hb' & Hmono & Hdel).
    { intros id' t' Hin. rewrite Hb1. apply Hl, list_elem_of_further, Hin. }
    rewrite E. do 2 eexists. split; [reflexivity|].
    split; [rewrite Hr; reflexivity|]. split; [congruence|].
    split; [intros id'; rewrite Hb'; apply Hb1|].
    split; [intros p Hp; apply Hmono, Hmono1, Hp|].
    intros id' t' i s n Hin Hs Hn Hle. apply elem_of_cons in Hin.
    destruct Hin as [[= -> ->]|Hin].
    + apply Hmono. eapply Hdel1; eauto.
    + eapply Hdel; eauto.
      rewrite (minReplicaTopicIndex_ext b w b1 w1) by (subst b1; auto). exact Hle.
Qed.

(** X9.  [Truncate] followed by [Snapshot].  If some segment of a topic is
    followed by a segment that starts at or below the topic's
    [minReplicaTopicIndex], then [Truncate] succeeds and removes the
    segment's file, and a [Snapshot] taken afterwards fails with the
    not-exist error: the topic still lists the segment. *)
Theorem X9_snapshot_after_truncation_fails (b : Broker) (w : World)
    (id : Z) (t : topic) (i : nat) (s n : segment) :
  broker_topics b !! id = Some t ->
  topic_segments t !! i = Some s ->
  topic_segments t !! S i = Some n ->
  seg_index n <= minReplicaTopicIndex b w (topic_id t) ->
  exists b' w' out,
    Truncate (b, w) = Ret (None, (b', w'))
    /\ files w' !! seg_path s = None
    /\ Snapshot b' w' = (snapshot_frame b' w' ++ out, 0, Some ErrNotExist).
Proof.
  intros Ht Hs Hn Hle.
  destruct (Truncate_loop_files (map_to_list (broker_topics b)) b w)
    as (b' & w' & E & _ & _ & Hb' & _ & Hdel).
  { intros id' t' Hin. apply elem_of_map_to_list in Hin. rewrite Hin. reflexivity. }
  assert (Hgone : files w' !! seg_path s = None).
  { eapply (Hdel id t i s n); eauto. apply elem_of_map_to_list, Ht. }
  specialize (Hb' id). rewrite Ht in Hb'. cbn in Hb'.
  destruct (broker_topics b' !! id) as [t'|] eqn:Ht'; [|discriminate].
  cbn in Hb'. injection Hb' as Hpaths. unfold segment_paths in Hpaths.
  assert (Hs' : exists s', topic_segments t' !! i = Some s' /\ seg_path s' = seg_path s).
  { assert (Hl : map seg_path (topic_segments t') !! i = Some (seg_path s)).
    { rewrite Hpaths. change (map seg_path) with (fmap (M := list) seg_path).
      rewrite list_lookup_fmap, Hs. reflexivity. }
    change (map seg_path) with (fmap (M := list) seg_path) in Hl.
    rewrite list_lookup_fmap in Hl.
    destruct (topic_segments t' !! i) as [s'|]; [|discriminate].
    exists s'. split; [reflexivity|]. cbn in Hl. congruence. }
  destruct Hs' as (s' & Hs' & Hp').
  destruct (Snapshot_missing b' w' s') as (out & Eo).
  { exists id, t'. split; [exact Ht'|]. eapply list_elem_of_lookup_2, Hs'. }
  { rewrite Hp'. exact Hgone. }
  exists b', w', out. split; [|split; [exact Hgone|exact Eo]].
  unfold Truncate. rewrite (bind_run _ _ (b, w) b (b, w)) by reflexivity.
  rewrite (bind_run _ _ _ _ _ E). reflexivity.
Qed.

End SnapshotStream.

(** ** Configuration commands *)

Lemma set_replica_writer_id rep : set_replica_writer (replica_writer rep) rep = rep.
Proof. destruct rep; reflexivity. Qed.

Lemma rewired_refl r w rep : heap w !! r = Some rep -> rewired r w w.
Proof.
  intros Hr. split; [reflexivity|]. split; [reflexivity|]. split; [reflexivity|].
  exists rep, (replica_writer rep). split; [exact Hr|].
  rewrite set_replica_writer_id, insert_id by exact Hr. reflexivity.
Qed.

Lemma rewired_trans r w1 w2 w3 : rewired r w1 w2 -> rewired r w2 w3 -> rewired r w1 w3.
Proof.
  intros (Hf & Hd & Hm & rep & wr & Hr & Hh) (Hf' & Hd' & Hm' & rep' & wr' & Hr' & Hh').
  split; [congruence|]. split; [congruence|]. split; [congruence|].
  exists rep, wr'. split; [exact Hr|]. rewrite Hh', Hh, insert_insert_eq.
  rewrite Hh, lookup_insert_eq in Hr'. injection Hr' as <-. reflexivity.
Qed.

Lemma rewired_store r w rep wr :
  heap w !! r = Some rep ->
  rewired r w (set_heap (<[r := set_replica_writer wr rep]> (heap w)) w).
Proof.
  intros Hr. split; [reflexivity|]. split; [reflexivity|]. split; [reflexivity|].
  exists rep, wr. auto.
Qed.

Lemma rewired_live r w w' : rewired r w w' -> is_Some (heap w' !! r).
Proof. intros (_ & _ & _ & rep & wr & _ & ->). rewrite lookup_insert_eq. eauto. Qed.

Lemma closeWriter_rewired r w :
  is_Some (heap w !! r) ->
  exists w', closeWriter r w = Ret (tt, w') /\ rewired r w w'
             /\ replica_writer <$> heap w' !! r = Some None.
Proof.
  intros [rep Hrep]. unfold closeWriter.
  rewrite (bind_run _ _ _ _ _ (load_run _ _ _ Hrep)).
  destruct (replica_writer rep) eqn:Ew.
  - eexists. split; [reflexivity|]. split; [apply rewired_store, Hrep|].
    cbn. rewrite lookup_insert_eq. reflexivity.
  - eexists. split; [reflexivity|]. split; [eapply rewired_refl, Hrep|].
    rewrite Hrep. cbn. rewrite Ew. reflexivity.
Qed.

Lemma Replica_Write_rewired r p w :
  is_Some (heap w !! r) ->
  exists err w', Replica_Write r p w = Ret (err, w') /\ rewired r w w'.
Proof.
  intros Hr. destruct (Hr) as [rep Hrep]. unfold Replica_Write.
  rewrite (bind_run _ _ _ _ _ (load_run _ _ _ Hrep)).
  destruct (replica_writer rep) as [s|].
  - destruct (sink_Write p s) as [s' [e|]].
    + destruct (closeWriter_rewired r w Hr) as (w' & E & Hw' & _).
      rewrite (bind_run _ _ _ _ _ E). do 2 eexists. split; [reflexivity|exact Hw'].
    + erewrite bind_run; [|reflexivity]. do 2 eexists. split; [reflexivity|].
      apply rewired_store, Hrep.
  - do 2 eexists. split; [reflexivity|]. eapply rewired_refl, Hrep.
Qed.

Lemma Message_WriteTo_rewired m r w :
  is_Some (heap w !! r) ->
  exists err w', Message_WriteTo m r w = Ret (err, w') /\ rewired r w w'.
Proof.
  intros Hr. unfold Message_WriteTo.
  destruct (Replica_Write_rewired r (marshalHeader m) w Hr) as (err & w1 & E1 & H1).
  rewrite (bind_run _ _ _ _ _ E1). destruct err as [e|].
  - do 2 eexists. split; [reflexivity|exact H1].
  - destruct (Replica_Write_rewired r (Data m) w1 (rewired_live _ _ _ H1))
      as (err & w2 & E2 & H2).
    exists err, w2. split; [exact E2|]. eapply rewired_trans; eassumption.
Qed.

Lemma writeSegmentTo_loop_rewired r index : forall fuel rd w,
  is_Some (heap w !! r) ->
  exists err w', writeSegmentTo_loop fuel r index rd w = Ret (err, w') /\ rewired r w w'.
Proof.
  induction fuel as [|fuel IH]; intros rd w Hr.
  - destruct (Hr) as [rep Hrep].
    do 2 eexists. split; [reflexivity|eapply rewired_refl, Hrep].
  - cbn [writeSegmentTo_loop]. destruct (Hr) as [rep Hrep].
    destruct (Decode_total emptyMessage rd) as (m & err & rd' & ->).
    destruct err as [e|].
    + destruct e; do 2 eexists; (split; [reflexivity|eapply rewired_refl, Hrep]).
    + destruct (Index m <=? index); [apply IH; exact Hr|].
      destruct (Message_WriteTo_rewired m r w Hr) as (err & w1 & E1 & H1).
      rewrite (bind_run _ _ _ _ _ E1). destruct err as [e|].
      * do 2 eexists. split; [reflexivity|exact H1].
      * destruct (IH rd' w1 (rewired_live _ _ _ H1)) as (err & w2 & E2 & H2).
        exists err, w2. split; [exact E2|]. eapply rewired_trans; eassumption.
Qed.

Lemma writeSegmentTo_rewired r index s w :
  is_Some (heap w !! r) ->
  exists err w', writeSegmentTo r index s w = Ret (err, w') /\ rewired r w w'.
Proof.
  intros Hr. unfold writeSegmentTo. rewrite (bind_run _ _ w w w) by reflexivity.
  destruct (files w !! seg_path s).
  - apply writeSegmentTo_loop_rewired. exact Hr.
  - destruct Hr as [rep Hrep]. do 2 eexists. split; [reflexivity|eapply rewired_refl, Hrep].
Qed.

Lemma writeTo_segments_rewired t r index : forall segs w,
  is_Some (heap w !! r) ->
  exists err w', writeTo_segments t r index segs w = Ret (err, w') /\ rewired r w w'.
Proof.
  induction segs as [|s segs IH]; intros w Hr.
  - destruct Hr as [rep Hrep]. do 2 eexists. split; [reflexivity|eapply rewired_refl, Hrep].
  - cbn [writeTo_segments].
    destruct (match head segs with Some n => seg_index n <=? index | None => false end).
    + apply IH. exact Hr.
    + destruct (writeSegmentTo_rewired r index s w Hr) as (err & w1 & E1 & H1).
      rewrite (bind_run _ _ _ _ _ E1). destruct err as [e|].
      * do 2 eexists. split; [reflexivity|exact H1].
      * destruct (IH w1 (rewired_live _ _ _ H1)) as (err & w2 & E2 & H2).
        exists err, w2. split; [exact E2|]. eapply rewired_trans; eassumption.
Qed.

Lemma writeTo_rewired t r w :
  is_Some (heap w !! r) ->
  exists err w', writeTo t r w = Ret (err, w') /\ rewired r w w'.
Proof.
  intros Hr. destruct (Hr) as [rep Hrep]. unfold writeTo.
  rewrite (bind_run _ _ _ _ _ (load_run _ _ _ Hrep)).
  apply writeTo_segments_rewired. exact Hr.
Qed.

Lemma load_Ret_inv r w rep w' : load r w = Ret (rep, w') -> heap w !! r = Some rep /\ w' = w.
Proof. unfold load. destruct (heap w !! r); [|discriminate]. intros [= -> ->]. auto. Qed.

Section CommandProperties.
Context `{External}.

(** X10.  [createTopicIfNotExists] on a broker that is not open, for a topic
    it does not have: it returns the save error but leaves the new topic
    registered without segments ([mustCreateTopicIfNotExists] panics).  A
    second call finds the topic and returns it with no error although it
    was never opened; appending to it or loading its index dereferences
    nil. *)
Theorem X10_failed_create_leaves_unopened_topic
    (id : Z) (b : Broker) (w : World) (m : Message) :
  broker_path b = EmptyString ->
  broker_topics b !! id = None ->
  let t0 := mkTopic id 0 id [] ∅ in
  let b1 := set_broker_topics (<[id := t0]> (broker_topics b)) b in
  createTopicIfNotExists id (b, w) =
    Ret ((None, Some (Errorf "save" ErrClosed)), (b1, w))
  /\ mustCreateTopicIfNotExists id (b, w) = Panic (PanicError (Errorf "save" ErrClosed))
  /\ createTopicIfNotExists id (b1, w) = Ret ((Some id, None), (b1, w))
  /\ (0 < Index m -> encode m t0 w = Panic NilDereference)
  /\ topic_loadIndex t0 w = Panic NilDereference.
Proof.
  intros Hp Hn t0 b1.
  assert (E : createTopicIfNotExists id (b, w) =
              Ret ((None, Some (Errorf "save" ErrClosed)), (b1, w))).
  { destruct (createTopicIfNotExists_spec id b w)
      as [(t & Ht & _)|[(_ & _ & E)|(_ & Hp' & _)]]; [congruence|exact E|contradiction]. }
  split; [exact E|]. split; [|split; [|split]].
  - unfold mustCreateTopicIfNotExists. rewrite (bind_run _ _ _ _ _ E). reflexivity.
  - destruct (createTopicIfNotExists_spec id b1 w)
      as [(t & Ht & E1)|[(Hn1 & _)|(Hn1 & _)]]; [exact E1| |];
      subst b1; cbn in Hn1; rewrite lookup_insert_eq in Hn1; discriminate.
  - intros Hi. unfold encode, assert. cbn [topic_index t0].
    replace (0 <? Index m) with true by (symmetry; apply Z.ltb_lt; exact Hi).
    reflexivity.
  - reflexivity.
Qed.

Lemma mustSave_meta b w :
  exists m, mustSave (b, w) = Ret (tt, (b, set_meta m w))
            /\ (broker_path b <> EmptyString ->
                m = Some (json_Marshal_header (createSnapshotHeader b w))).
Proof.
  unfold mustSave. destruct (String.eqb_spec (broker_path b) EmptyString) as [Hp|Hp].
  - rewrite (bind_run _ _ _ _ _ (save_closed b w Hp)).
    exists (meta w). split; [destruct w; reflexivity|]. intros Hn. contradiction.
  - rewrite (bind_run _ _ _ _ _ (save_open b w Hp)). eexists. split; reflexivity.
Qed.

Lemma mustCreateTopicIfNotExists_exists id b w t :
  broker_topics b !! id = Some t ->
  mustCreateTopicIfNotExists id (b, w) = Ret (Some id, (b, w)).
Proof.
  intros Ht. unfold mustCreateTopicIfNotExists.
  destruct (createTopicIfNotExists_spec id b w)
    as [(t' & _ & E)|[(Hn & _)|(Hn & _)]]; [|congruence..].
  rewrite (bind_run _ _ _ _ _ E). reflexivity.
Qed.

Lemma mustCreateTopicIfNotExists_inv id b w p b' w' :
  mustCreateTopicIfNotExists id (b, w) = Ret (p, (b', w')) ->
  p = Some id /\ is_Some (broker_topics b' !! id)
  /\ heap w' = heap w /\ broker_replicas b' = broker_replicas b.
Proof.
  unfold mustCreateTopicIfNotExists.
  destruct (createTopicIfNotExists_spec id b w)
    as [(t & Ht & E)|[(_ & _ & E)|(_ & _ & segs & m & E & _)]];
    rewrite (bind_run _ _ _ _ _ E); cbn iota.
  - intros [= <- <- <-]. rewrite Ht. eauto.
  - discriminate.
  - intros [= <- <- <-]. cbn. rewrite lookup_insert_eq. eauto.
Qed.

(** X13.  Applying a Subscribe command is idempotent: whenever it returns,
    applying the same command again changes nothing (no second catch-up is
    written and the metadata is not saved again).  After it returned, the
    broker has the same replicas, and if the replica of the command is
    known, the topic exists and the replica lists it. *)
Theorem X13_apply_subscribe_is_idempotent (m : Message) (b b' : Broker) (w w' : World) :
  mustApplySubscribe m (b, w) = Ret (tt, (b', w')) ->
  mustApplySubscribe m (b', w') = Ret (tt, (b', w'))
  /\ exists c,
       json_SubscribeCommand (Data m) = Some c
       /\ broker_replicas b' = broker_replicas b
       /\ forall r, broker_replicas b !! sc_ReplicaID c = Some r ->
            is_Some (broker_topics b' !! sc_TopicID c)
            /\ exists rep', heap w' !! r = Some rep'
                            /\ sc_TopicID c ∈ replica_topics rep'.
Proof.
  unfold mustApplySubscribe.
  destruct (json_SubscribeCommand (Data m)) as [c|] eqn:Hc; [|discriminate].
  rewrite (bind_run _ _ (b, w) b (b, w)) by reflexivity.
  rewrite (bind_run _ _ (b', w') b' (b', w')) by reflexivity.
  destruct (broker_replicas b !! sc_ReplicaID c) as [r|] eqn:Er.
  2:{ intros [= <- <-]. rewrite Er. split; [reflexivity|].
      exists c. split; [reflexivity|]. split; [reflexivity|].
      intros r' Hr'. congruence. }
  destruct (mustCreateTopicIfNotExists (sc_TopicID c) (b, w)) as [[p [b2 w2]]|] eqn:E2;
    [|unfold bind at 1; rewrite E2; discriminate].
  destruct (mustCreateTopicIfNotExists_inv _ _ _ _ _ _ E2) as (-> & [t2 Ht2] & Hh2 & Hr2).
  rewrite (bind_run _ _ _ _ _ E2).
  destruct (heap w2 !! r) as [rep|] eqn:Hrep.
  2:{ assert (Ep : liftW (load r) (b2, w2) = Panic NilDereference)
        by (unfold liftW, load; rewrite Hrep; reflexivity).
      unfold bind at 1. rewrite Ep. discriminate. }
  rewrite (bind_run _ _ _ _ _ (liftW_run _ _ _ _ b2 (load_run _ _ _ Hrep))).
  assert (Hsecond : forall b3 w3 rep3,
            broker_replicas b3 = broker_replicas b ->
            is_Some (broker_topics b3 !! sc_TopicID c) ->
            heap w3 !! r = Some rep3 -> sc_TopicID c ∈ replica_topics rep3 ->
            match broker_replicas b3 !! sc_ReplicaID c with
            | Some r =>
                t <- mustCreateTopicIfNotExists (sc_TopicID c) ;;
                rep <- liftW (load r) ;;
                if decide (sc_TopicID c ∈ replica_topics rep) then ret tt
                else
                  liftW (store r (set_replica_topics
                                    ({[sc_TopicID c]} ∪ replica_topics rep) rep)) ;;;
                  t0 <- topic_load t ;;
                  let t0 := set_topic_replicas
                              (<[sc_ReplicaID c := r]> (topic_replicas t0)) t0 in
                  topic_assign t t0 ;;;
                  _ <- liftW (writeTo t0 r) ;;
                  mustSave
            | None => ret tt
            end (b3, w3) = Ret (tt, (b3, w3))).
  { intros b3 w3 rep3 Hb3 [t3 Ht3] Hl3 Hin3. rewrite Hb3, Er.
    rewrite (bind_run _ _ _ _ _ (mustCreateTopicIfNotExists_exists _ b3 w3 t3 Ht3)).
    rewrite (bind_run _ _ _ _ _ (liftW_run _ _ _ _ b3 (load_run _ _ _ Hl3))).
    rewrite decide_True by exact Hin3. reflexivity. }
  destruct (decide (sc_TopicID c ∈ replica_topics rep)) as [Hin|Hnin].
  { intros [= <- <-]. split.
    - apply (Hsecond b2 w2 rep Hr2); eauto.
    - exists c. split; [reflexivity|]. split; [exact Hr2|].
      intros r' Hr'. assert (r' = r) as -> by congruence. split; [eauto|]. exists rep. auto. }
  erewrite bind_run; [|reflexivity]. cbv beta.
  match goal with |- context [set_heap ?h w2] => set (w3 := set_heap h w2) end.
  assert (Hl3 : heap w3 !! r = Some (set_replica_topics
                                       ({[sc_TopicID c]} ∪ replica_topics rep) rep)).
  { subst w3. cbn. apply lookup_insert_eq. }
  assert (El : topic_load (Some (sc_TopicID c)) (b2, w3) = Ret (t2, (b2, w3))).
  { unfold topic_load. rewrite (bind_run _ _ (b2, w3) b2 (b2, w3)) by reflexivity.
    rewrite Ht2. reflexivity. }
  rewrite (bind_run _ _ _ _ _ El).
  erewrite bind_run; [|reflexivity].
  match goal with |- context [writeTo ?t0 r] =>
    destruct (writeTo_rewired t0 r w3 (ex_intro _ _ Hl3)) as (err & w5 & E5 & H5);
    rewrite (bind_run _ _ _ _ _ (liftW_run _ _ _ _ _ E5)) end.
  match goal with |- context [mustSave (?b0, w5)] =>
    destruct (mustSave_meta b0 w5) as (mm & E6 & _); rewrite E6 end.
  intros [= <- <-].
  destruct H5 as (_ & _ & _ & rep5 & wr & Hr5 & Hh5).
  rewrite Hl3 in Hr5. injection Hr5 as <-.
  assert (Hl6 : heap (set_meta mm w5) !! r =
                Some (set_replica_writer wr
                        (set_replica_topics ({[sc_TopicID c]} ∪ replica_topics rep) rep))).
  { cbn. rewrite Hh5. apply lookup_insert_eq. }
  split.
  - eapply Hsecond; [exact Hr2| |exact Hl6|cbn; set_solver].
    cbn. rewrite lookup_insert_eq. eauto.
  - exists c. split; [reflexivity|]. split; [exact Hr2|].
    intros r' Hr'. assert (r' = r) as -> by congruence. split; [cbn; rewrite lookup_insert_eq; eauto|].
    eexists. split; [exact Hl6|]. cbn. set_solver.
Qed.

(** X14.  Applying an Unsubscribe command removes both sides of the
    subscription independently: the topic from the replica's set when the
    replica is known, and the replica id from the topic's map when the
    topic is known (also when the replica is not).  Nothing else of the
    broker changes, and no file or directory is touched. *)
Theorem X14_apply_unsubscribe_removes_both_sides
    (m : Message) (c : UnsubscribeCommand) (b : Broker) (w : World) :
  json_UnsubscribeCommand (Data m) = Some c ->
  (forall r, broker_replicas b !! uc_ReplicaID c = Some r -> is_Some (heap w !! r)) ->
  exists b' w',
    mustApplyUnsubscribe m (b, w) = Ret (tt, (b', w'))
    /\ broker_replicas b' = broker_replicas b
    /\ files w' = files w /\ dirs w' = dirs w
    /\ (forall r rep,
          broker_replicas b !! uc_ReplicaID c = Some r -> heap w !! r = Some rep ->
          heap w' = <[r := set_replica_topics (replica_topics rep ∖ {[uc_TopicID c]}) rep]>
                      (heap w))
    /\ (broker_replicas b !! uc_ReplicaID c = None -> heap w' = heap w)
    /\ (forall t, broker_topics b !! uc_TopicID c = Some t ->
          broker_topics b' =
            <[uc_TopicID c := set_topic_replicas
                                (delete (uc_ReplicaID c) (topic_replicas t)) t]>
              (broker_topics b))
    /\ (broker_topics b !! uc_TopicID c = None -> broker_topics b' = broker_topics b).
Proof.
  intros Hc Hlive. unfold mustApplyUnsubscribe. rewrite Hc.
  rewrite (bind_run _ _ (b, w) b (b, w)) by reflexivity.
  assert (H1 : exists w1,
             match broker_replicas b !! uc_ReplicaID c with
             | Some r =>
                 rep <- liftW (load r) ;;
                 liftW (store r (set_replica_topics
                                   (replica_topics rep ∖ {[uc_TopicID c]}) rep))
             | None => ret tt
             end (b, w) = Ret (tt, (b, w1))
             /\ files w1 = files w /\ dirs w1 = dirs w
             /\ (forall r rep,
                   broker_replicas b !! uc_ReplicaID c = Some r -> heap w !! r = Some rep ->
                   heap w1 = <[r := set_replica_topics
                                      (replica_topics rep ∖ {[uc_TopicID c]}) rep]> (heap w))
             /\ (broker_replicas b !! uc_ReplicaID c = None -> heap w1 = heap w)).
  { destruct (broker_replicas b !! uc_ReplicaID c) as [r|] eqn:Er.
    - destruct (Hlive r eq_refl) as [rep Hrep].
      rewrite (bind_run _ _ _ _ _ (liftW_run _ _ _ _ b (load_run _ _ _ Hrep))).
      eexists. split; [reflexivity|]. split; [reflexivity|]. split; [reflexivity|].
      split; [|discriminate]. intros r' rep' [= <-] Hrep'.
      rewrite Hrep in Hrep'. injection Hrep' as <-. reflexivity.
    - exists w. split; [reflexivity|]. split; [reflexivity|]. split; [reflexivity|].
      split; [discriminate|reflexivity]. }
  destruct H1 as (w1 & E1 & Hf1 & Hd1 & Hh1 & Hh1'). rewrite (bind_run _ _ _ _ _ E1).
  assert (H2 : exists b2,
             match broker_topics b !! uc_TopicID c with
             | Some t =>
                 topic_store (uc_TopicID c)
                   (set_topic_replicas (delete (uc_ReplicaID c) (topic_replicas t)) t)
             | None => ret tt
             end (b, w1) = Ret (tt, (b2, w1))
             /\ broker_replicas b2 = broker_replicas b
             /\ (forall t, broker_topics b !! uc_TopicID c = Some t ->
                   broker_topics b2 =
                     <[uc_TopicID c := set_topic_replicas
                                         (delete (uc_ReplicaID c) (topic_replicas t)) t]>
                       (broker_topics b))
             /\ (broker_topics b !! uc_TopicID c = None ->
                   broker_topics b2 = broker_topics b)).
  { destruct (broker_topics b !! uc_TopicID c) as [t|] eqn:Et.
    - eexists. split; [reflexivity|]. split; [reflexivity|].
      split; [|discriminate]. intros t' [= <-]. reflexivity.
    - exists b. split; [reflexivity|]. split; [reflexivity|].
      split; [discriminate|reflexivity]. }
  destruct H2 as (b2 & E2 & Hr2 & Ht2 & Ht2'). rewrite (bind_run _ _ _ _ _ E2).
  destruct (mustSave_meta b2 w1) as (mm & E3 & _). rewrite E3.
  exists b2, (set_meta mm w1). split; [reflexivity|]. cbn.
  repeat (split; [assumption|]). assumption.
Qed.

Lemma closeWriter_run r w rep :
  heap w !! r = Some rep ->
  closeWriter r w = Ret (tt, set_heap (<[r := set_replica_writer None rep]> (heap w)) w).
Proof.
  intros Hrep. unfold closeWriter. rewrite (bind_run _ _ _ _ _ (load_run _ _ _ Hrep)).
  destruct (replica_writer rep) eqn:Ew; [reflexivity|].
  rewrite <- Ew, set_replica_writer_id, insert_id by exact Hrep.
  destruct w; reflexivity.
Qed.

Lemma detached_cons rid a l ts :
  detached rid (a :: l) ts =
    detached rid l
      (match ts !! a with
       | Some t => <[a := set_topic_replicas (delete rid (topic_replicas t)) t]> ts
       | None => ts
       end).
Proof. reflexivity. Qed.

Lemma lookup_detached rid (l : list Z) : forall ts T,
  detached rid l ts !! T =
    (fun t => if decide (T ∈ l)
              then set_topic_replicas (delete rid (topic_replicas t)) t else t)
      <$> ts !! T.
Proof.
  induction l as [|a l IH]; intros ts T.
  - cbn [detached foldl]. destruct (ts !! T); reflexivity.
  - rewrite detached_cons, IH.
    destruct (decide (T = a)) as [->|Hne].
    + destruct (ts !! a) as [t|] eqn:Et.
      * rewrite lookup_insert_eq. cbn. f_equal.
        rewrite (decide_True (P := a ∈ a :: l)) by apply list_elem_of_here.
        destruct (decide (a ∈ l)); [|reflexivity].
        unfold set_topic_replicas. cbn. f_equal. apply delete_delete_eq.
      * rewrite Et. reflexivity.
    + assert (Hts : match ts !! a with
                    | Some t => <[a := set_topic_replicas (delete rid (topic_replicas t)) t]> ts
                    | None => ts
                    end !! T = ts !! T).
      { destruct (ts !! a); [apply lookup_insert_ne; congruence|reflexivity]. }
      rewrite Hts. destruct (ts !! T) as [t|]; [|reflexivity]. cbn. f_equal.
      destruct (decide (T ∈ l)) as [Hin|Hni].
      * rewrite decide_True by (apply list_elem_of_further, Hin). reflexivity.
      * rewrite decide_False; [reflexivity|]. intros Hin. apply elem_of_cons in Hin.
        destruct Hin; [congruence|contradiction].
Qed.

Lemma detach_loop_run rid (l : list Z) : forall b (w : World),
  for_each l
    (fun topicID =>
       b <- getB ;;
       match broker_topics b !! topicID with
       | Some t =>
           topic_store topicID
             (set_topic_replicas (delete rid (topic_replicas t)) t)
       | None => ret tt
       end) (b, w)
  = Ret (tt, (set_broker_topics (detached rid l (broker_topics b)) b, w)).
Proof.
  induction l as [|a l IH]; intros b w.
  - destruct b; reflexivity.
  - cbn [for_each]. rewrite detached_cons.
    assert (E : (b0 <- getB ;;
                 match broker_topics b0 !! a with
                 | Some t => topic_store a
                               (set_topic_replicas (delete rid (topic_replicas t)) t)
                 | None => ret tt
                 end) (b, w)
                = Ret (tt, (set_broker_topics
                              (match broker_topics b !! a with
                               | Some t => <[a := set_topic_replicas
                                                    (delete rid (topic_replicas t)) t]>
                                             (broker_topics b)
                               | None => broker_topics b
                               end) b, w))).
    { rewrite (bind_run _ _ (b, w) b (b, w)) by reflexivity.
      destruct (broker_topics b !! a); [reflexivity|]. destruct b; reflexivity. }
    rewrite (bind_run _ _ _ _ _ E), IH. reflexivity.
Qed.

(** X12.  Applying a DeleteReplica command.  For an unknown id it changes
    nothing and does not save.  For a known replica it removes the id from
    the broker, empties the replica's subscriptions, removes its writer,
    and removes the replica (under the replica's own id) from exactly the
    topics the replica was subscribed to; the index and the path of the
    broker are unchanged. *)
Theorem X12_apply_delete_replica
    (m : Message) (c : DeleteReplicaCommand) (b : Broker) (w : World) :
  json_DeleteReplicaCommand (Data m) = Some c ->
  (broker_replicas b !! drc_ID c = None ->
     mustApplyDeleteReplica m (b, w) = Ret (tt, (b, w)))
  /\ (forall r rep,
        broker_replicas b !! drc_ID c = Some r -> heap w !! r = Some rep ->
        exists b' mt,
          mustApplyDeleteReplica m (b, w) =
            Ret (tt, (b', set_meta mt
                            (set_heap (<[r := set_replica_writer None
                                                (set_replica_topics ∅ rep)]> (heap w)) w)))
          /\ broker_replicas b' = delete (drc_ID c) (broker_replicas b)
          /\ broker_index b' = broker_index b
          /\ broker_path b' = broker_path b
          /\ (forall T,
                broker_topics b' !! T =
                  (fun t => if decide (T ∈ replica_topics rep)
                            then set_topic_replicas
                                   (delete (replica_id rep) (topic_replicas t)) t
                            else t) <$> broker_topics b !! T)).
Proof.
  intros Hc. split.
  - intros Hn. unfold mustApplyDeleteReplica. rewrite Hc.
    rewrite (bind_run _ _ (b, w) b (b, w)) by reflexivity. rewrite Hn. reflexivity.
  - intros r rep Hr Hrep. unfold mustApplyDeleteReplica. rewrite Hc.
    rewrite (bind_run _ _ (b, w) b (b, w)) by reflexivity. rewrite Hr.
    rewrite (bind_run _ _ _ _ _ (liftW_run _ _ _ _ b (load_run _ _ _ Hrep))).
    rewrite (bind_run _ _ _ _ _ (detach_loop_run (replica_id rep)
                                    (elements (replica_topics rep)) b w)).
    erewrite bind_run; [|reflexivity].
    erewrite bind_run; [|apply liftW_run, closeWriter_run; cbn; apply lookup_insert_eq].
    erewrite bind_run; [|reflexivity].
    match goal with |- context [mustSave (?b0, ?w0)] =>
      destruct (mustSave_meta b0 w0) as (mm & E & _); rewrite E end.
    do 2 eexists. split.
    + cbn. rewrite insert_insert_eq. reflexivity.
    + cbn. split; [reflexivity|]. split; [reflexivity|]. split; [reflexivity|].
      intros T. rewrite lookup_detached.
      destruct (broker_topics b !! T) as [t|]; [|reflexivity]. cbn. f_equal.
      destruct (decide (T ∈ elements (replica_topics rep))) as [Hin|Hni].
      * rewrite decide_True by (apply elem_of_elements, Hin). reflexivity.
      * rewrite decide_False; [reflexivity|]. intros Hin. apply Hni, elem_of_elements, Hin.
Qed.

End CommandProperties.

(** X11.  [Heartbeat] checks leadership before it looks up the replica: on
    a broker that is not the leader it returns the not-leader error, on the
    leader an unknown id gives the replica-not-found error; both leave the
    state alone.  [ReplicaIndex] answers on any broker: 0 and
    replica-not-found for an unknown id, the replica's index otherwise.  It
    returns the index of the last heartbeat, and of two heartbeats in a row
    only the second counts. *)
Theorem X11_heartbeat_errors_and_replica_index
    (b : Broker) (w : World) (id index : Z) :
  (broker_state b <> Leader ->
     Heartbeat id index (b, w) = Ret (Some ErrNotLeader, (b, w)))
  /\ (broker_replicas b !! id = None ->
        ReplicaIndex id (b, w) = Ret ((0, Some ErrReplicaNotFound), (b, w))
        /\ (broker_state b = Leader ->
              Heartbeat id index (b, w) = Ret (Some ErrReplicaNotFound, (b, w))))
  /\ (forall r rep,
        broker_replicas b !! id = Some r -> heap w !! r = Some rep ->
        ReplicaIndex id (b, w) = Ret ((replica_index rep, None), (b, w))
        /\ (broker_state b = Leader ->
            exists w',
              Heartbeat id index (b, w) = Ret (None, (b, w'))
              /\ ReplicaIndex id (b, w') = Ret ((index, None), (b, w'))
              /\ forall index2,
                   (Heartbeat id index ;;; Heartbeat id index2) (b, w)
                   = Heartbeat id index2 (b, w))).
Proof.
  split; [|split].
  - intros Hs. unfold Heartbeat. rewrite (bind_run _ _ (b, w) b (b, w)) by reflexivity.
    destruct (broker_state b); [reflexivity..|contradiction].
  - intros Hn. split.
    + unfold ReplicaIndex. rewrite (bind_run _ _ (b, w) b (b, w)) by reflexivity.
      rewrite Hn. reflexivity.
    + intros Hs. unfold Heartbeat. rewrite (bind_run _ _ (b, w) b (b, w)) by reflexivity.
      rewrite Hs, Hn. reflexivity.
  - intros r rep Hr Hrep. split.
    + unfold ReplicaIndex. rewrite (bind_run _ _ (b, w) b (b, w)) by reflexivity.
      rewrite Hr. rewrite (bind_run _ _ _ _ _ (liftW_run _ _ _ _ b (load_run _ _ _ Hrep))).
      reflexivity.
    + intros Hs. eexists. split; [apply (Heartbeat_leader b w id index r rep Hs Hr Hrep)|].
      split.
      * unfold ReplicaIndex. erewrite bind_run; [|reflexivity]. rewrite Hr.
        erewrite bind_run; [|apply liftW_run, load_run; cbn; apply lookup_insert_eq].
        reflexivity.
      * intros index2.
        rewrite (bind_run _ _ _ _ _ (Heartbeat_leader b w id index r rep Hs Hr Hrep)).
        rewrite (Heartbeat_leader b w id index2 r rep Hs Hr Hrep).
        erewrite Heartbeat_leader; [|exact Hs|exact Hr|cbn; apply lookup_insert_eq].
        cbn. rewrite insert_insert_eq. reflexivity.
Qed.

(** ** More on appending *)

Lemma Replica_Write_run r p w rep :
  heap w !! r = Some rep ->
  exists err,
    Replica_Write r p w = Ret (err, set_heap (<[r := delivered p rep]> (heap w)) w).
Proof.
  intros Hrep. unfold Replica_Write, delivered.
  rewrite (bind_run _ _ _ _ _ (load_run _ _ _ Hrep)).
  destruct (replica_writer rep) as [s|] eqn:Ew.
  - destruct (sink_Write p s) as [s' [e|]].
    + rewrite (bind_run _ _ _ _ _ (closeWriter_run r w rep Hrep)). eexists. reflexivity.
    + erewrite bind_run; [|reflexivity]. eexists. reflexivity.
  - eexists. unfold ret. f_equal. f_equal. rewrite insert_id by exact Hrep.
    destruct w; reflexivity.
Qed.

Lemma fanout_delivered p (l : list (Z * loc)) : forall w,
  NoDup l.*2 ->
  Forall (fun kr => is_Some (heap w !! kr.2)) l ->
  exists w',
    for_each l (fun '(_, r) => _ <- Replica_Write r p ;; ret tt) w = Ret (tt, w')
    /\ files w' = files w /\ dirs w' = dirs w /\ meta w' = meta w
    /\ (forall r, r ∈ l.*2 -> heap w' !! r = delivered p <$> heap w !! r)
    /\ (forall r, r ∉ l.*2 -> heap w' !! r = heap w !! r).
Proof.
  induction l as [|[k r] l IH]; intros w Hnd Hl.
  - eexists. split; [reflexivity|]. repeat split; auto. intros r Hr. inversion Hr.
  - cbn in Hnd. apply NoDup_cons in Hnd. destruct Hnd as [Hni Hnd].
    apply Forall_cons in Hl. destruct Hl as [[rep Hrep] Hl]. cbn in Hrep.
    cbn [for_each].
    destruct (Replica_Write_run r p w rep Hrep) as (err & E).
    erewrite bind_run; [|erewrite bind_run; [reflexivity|exact E]].
    set (w1 := set_heap _ w).
    destruct (IH w1 Hnd) as (w' & E' & Hf & Hd & Hm & Hin & Hout).
    { eapply Forall_impl; [exact Hl|]. intros [k' r'] [x Hx]. cbn in *.
      destruct (decide (r' = r)) as [->|Hne].
      - rewrite lookup_insert_eq. eauto.
      - rewrite lookup_insert_ne by congruence. eauto. }
    exists w'. split; [exact E'|]. split; [exact Hf|]. split; [exact Hd|].
    split; [exact Hm|]. split.
    + intros r' Hr'. cbn in Hr'. apply elem_of_cons in Hr'.
      destruct Hr' as [->|Hr'].
      * rewrite (Hout r Hni). subst w1. cbn. rewrite lookup_insert_eq, Hrep. reflexivity.
      * rewrite (Hin r' Hr'). subst w1. cbn.
        rewrite lookup_insert_ne; [reflexivity|]. intros ->. contradiction.
    + intros r' Hr'. cbn in Hr'. apply not_elem_of_cons in Hr'. destruct Hr' as [Hne Hr'].
      rewrite (Hout r' Hr'). subst w1. cbn. apply lookup_insert_ne. congruence.
Qed.

(** [encode] up to the fan-out: the world with the message appended to the
    active segment file, and the topic it returns. *)
Lemma encode_run m t w s :
  topic_index t < Index m ->
  last (topic_segments t) = Some s ->
  seg_size s <= MaxSegmentSize ->
  is_Some (seg_file s) \/ (seg_path s).1 ∈ dirs w ->
  let h := default (seg_path s) (seg_file s) in
  let t' := set_topic_index (Index m)
              (assign (length (topic_segments t) - 1) (set_seg_file (Some h) s) t) in
  let w0 := set_files (<[h := default [] (files w !! h) ++ MarshalBinary m]> (files w)) w in
  encode m t w =
    (for_each (map_to_list (topic_replicas t))
       (fun '(_, r) => _ <- Replica_Write r (MarshalBinary m) ;; ret tt) ;;;
     ret (t', None)) w0.
Proof.
  intros Hi Hl Hs Hopen h t' w0.
  pose proof (list_lookup_last _ _ Hl) as Hlk.
  unfold encode. unfold assert.
  apply Z.ltb_lt in Hi. rewrite Hi.
  rewrite (bind_run _ _ w tt w) by reflexivity.
  rewrite (bind_run _ _ _ _ _ (segments_last_deref t s w Hl)).
  replace (MaxSegmentSize <? seg_size s) with false
    by (symmetry; apply Z.ltb_ge; exact Hs).
  rewrite (segments_last_Some _ _ Hl).
  set (i := (length (topic_segments t) - 1)%nat) in *.
  assert (Ed : forall (w1 : World), deref t (Some i) w1 = Ret (s, w1)).
  { intros w1. unfold deref. rewrite Hlk. reflexivity. }
  rewrite (bind_run _ _ _ _ _ (Ed w)).
  destruct (seg_file s) as [h0|] eqn:Ef.
  - rewrite (bind_run _ _ w (t, None) w) by reflexivity. cbn iota.
    rewrite (bind_run _ _ _ _ _ (Ed w)). rewrite Ef.
    erewrite (bind_run (file_Write h0 _) _ w None); [|reflexivity].
    subst t' w0 h. cbn [default]. unfold id.
    replace (assign i (set_seg_file (Some h0) s) t) with t; [reflexivity|].
    unfold assign. rewrite list_insert_id.
    + destruct t; reflexivity.
    + rewrite Hlk. f_equal. unfold set_seg_file. destruct s; cbn in *; congruence.
  - destruct Hopen as [[? Hx]|Hdir]; [discriminate|].
    assert (Eo : segment_open s w =
                 Ret ((set_seg_file (Some (seg_path s)) s, None),
                      set_files (match files w !! seg_path s with
                                 | Some _ => files w
                                 | None => <[seg_path s := []]> (files w)
                                 end) w)).
    { unfold segment_open. rewrite decide_True by exact Hdir. reflexivity. }
    erewrite (bind_run _ _ w (assign i (set_seg_file (Some (seg_path s)) s) t, None));
      [|rewrite (bind_run _ _ _ _ _ Eo); reflexivity].
    cbn iota.
    assert (Ed2 : forall (w1 : World),
              deref (assign i (set_seg_file (Some (seg_path s)) s) t) (Some i) w1
              = Ret (set_seg_file (Some (seg_path s)) s, w1)).
    { intros w1. unfold deref, assign. cbn [topic_segments set_topic_segments].
      rewrite list_lookup_insert_eq by (eapply lookup_lt_Some; exact Hlk). reflexivity. }
    rewrite (bind_run _ _ _ _ _ (Ed2 _)). cbn [seg_file set_seg_file].
    erewrite (bind_run (file_Write _ _) _ _ None); [|reflexivity].
    subst t' w0 h. cbn [default]. unfold id.
    match goal with |- _ ?wa = _ ?wb => replace wa with wb; [reflexivity|] end.
    unfold set_files. cbn [files dirs meta heap]. f_equal.
    destruct (files w !! seg_path s) eqn:Efile.
    + rewrite Efile. reflexivity.
    + rewrite lookup_insert_eq. cbn. symmetry. apply insert_insert_eq.
Qed.

Lemma topic_loadIndex_messages t s w ms :
  last (topic_segments t) = Some s ->
  Forall wf_Message ms ->
  files w !! seg_path s = Some (concat (map MarshalBinary ms)) ->
  topic_loadIndex t w =
    Ret ((set_topic_index (lastIndex (topic_index t) ms) t, None), w).
Proof.
  intros Hl Hwf Hf. rewrite (topic_loadIndex_file t s w _ Hl Hf).
  rewrite <- (app_nil_r (concat _)) at 2.
  pose proof (length_messages_le ms) as Hlen.
  rewrite loadIndex_loop_messages by (try assumption; lia).
  destruct (S _ - length ms)%nat as [|k] eqn:Ek; [lia|]. reflexivity.
Qed.

Lemma last_insert_last {A} (l : list A) x y :
  last l = Some x -> last (<[(length l - 1)%nat := y]> l) = Some y.
Proof.
  intros Hl. apply last_Some in Hl. destruct Hl as (pre & ->).
  rewrite length_app. cbn. replace (length pre + 1 - 1)%nat with (length pre + 0)%nat by lia.
  rewrite insert_app_r. cbn. apply last_snoc.
Qed.

(** X15.  The fan-out of [encode].  When the append succeeds, every replica
    tailing the topic has been handed the encoded message exactly once: a
    replica without writer is unchanged, a writer that accepts has received
    the bytes, a writer that refuses is removed, and none of this fails the
    append.  No other replica object changes. *)
Theorem X15_append_reaches_tailing_replicas
    (m : Message) (t : topic) (w : World) (s : segment) :
  topic_index t < Index m ->
  last (topic_segments t) = Some s ->
  seg_size s <= MaxSegmentSize ->
  is_Some (seg_file s) \/ (seg_path s).1 ∈ dirs w ->
  replicas_live (topic_replicas t) w ->
  NoDup (tailing t) ->
  exists t' w',
    encode m t w = Ret ((t', None), w')
    /\ (forall r, r ∈ tailing t ->
          heap w' !! r = delivered (MarshalBinary m) <$> heap w !! r)
    /\ (forall r, r ∉ tailing t -> heap w' !! r = heap w !! r).
Proof.
  intros Hi Hl Hs Hopen Hlive Hnd.
  rewrite (encode_run m t w s Hi Hl Hs Hopen).
  match goal with |- context [bind _ _ ?w1] => set (w0 := w1) end.
  destruct (fanout_delivered (MarshalBinary m) (map_to_list (topic_replicas t)) w0 Hnd)
    as (w' & E & _ & _ & _ & Hin & Hout).
  { apply Forall_forall. intros [k r] Hkr. apply elem_of_map_to_list in Hkr.
    apply (Hlive k r Hkr). }
  rewrite (bind_run _ _ _ _ _ E). do 2 eexists. split; [reflexivity|].
  split; [exact Hin|exact Hout].
Qed.

(** X16.  What [encode] writes, [loadIndex] reads back.  If the active
    segment's file holds the messages [ms], then after appending [m] it
    holds [ms ++ [m]], and [topic.loadIndex] on the returned topic, started
    from any index, restores exactly the returned topic: its index is the
    index of [m]. *)
Theorem X16_append_then_loadIndex
    (m : Message) (t : topic) (w : World) (s : segment) (ms : list Message) :
  topic_index t < Index m ->
  last (topic_segments t) = Some s ->
  seg_size s <= MaxSegmentSize ->
  seg_file s = Some (seg_path s) \/ (seg_file s = None /\ (seg_path s).1 ∈ dirs w) ->
  replicas_live (topic_replicas t) w ->
  wf_Message m ->
  segment_holds w s ms ->
  exists t' w' s',
    encode m t w = Ret ((t', None), w')
    /\ topic_index t' = Index m
    /\ last (topic_segments t') = Some s'
    /\ segment_holds w' s' (ms ++ [m])
    /\ forall i, topic_loadIndex (set_topic_index i t') w' = Ret ((t', None), w').
Proof.
  intros Hi Hl Hs Hopen Hlive Hm (Hwf & Hfile).
  assert (Hopen' : is_Some (seg_file s) \/ (seg_path s).1 ∈ dirs w).
  { destruct Hopen as [Ho|[_ Ho]]; [left; rewrite Ho; eauto|right; exact Ho]. }
  assert (Hh : default (seg_path s) (seg_file s) = seg_path s).
  { destruct Hopen as [->|[-> _]]; reflexivity. }
  destruct (encode_ok m t w s Hi Hl Hs Hopen' Hlive)
    as (t' & w' & E & Hidx & Hid & Hpath & Hrep & Hsegs & Hf & _).
  rewrite Hh in Hsegs, Hf.
  set (s' := set_seg_file (Some (seg_path s)) s) in *.
  assert (Hl' : last (topic_segments t') = Some s').
  { rewrite Hsegs. eapply last_insert_last, Hl. }
  assert (Hfile' : files w' !! seg_path s' = Some (concat (map MarshalBinary (ms ++ [m])))).
  { subst s'. cbn [seg_path set_seg_file]. rewrite Hf, lookup_insert_eq. f_equal.
    rewrite map_app, concat_app. cbn [map concat]. rewrite app_nil_r. f_equal.
    destruct Hfile as [->|[-> ->]]; reflexivity. }
  assert (Hwf' : Forall wf_Message (ms ++ [m])).
  { apply Forall_app. split; [exact Hwf|]. constructor; [exact Hm|constructor]. }
  exists t', w', s'. split; [exact E|]. split; [exact Hidx|]. split; [exact Hl'|].
  split; [split; [exact Hwf'|left; exact Hfile']|].
  intros i.
  rewrite (topic_loadIndex_messages (set_topic_index i t') s' w' (ms ++ [m]) Hl' Hwf' Hfile').
  unfold lastIndex. rewrite last_snoc. rewrite <- Hidx.
  destruct t'; reflexivity.
Qed.

(** X17.  [encode] never updates the size recorded for a segment.  After a
    successful append the topic has the same segments with the same
    recorded sizes, the active segment is open, and its file is longer by
    the 22 header bytes and the data; whatever the file's length is by
    then, the next append succeeds as well without starting a new
    segment. *)
Theorem X17_append_never_updates_segment_size
    (m : Message) (t : topic) (w : World) (s : segment) :
  topic_index t < Index m ->
  last (topic_segments t) = Some s ->
  seg_size s <= MaxSegmentSize ->
  is_Some (seg_file s) \/ (seg_path s).1 ∈ dirs w ->
  replicas_live (topic_replicas t) w ->
  let h := default (seg_path s) (seg_file s) in
  exists t' w',
    encode m t w = Ret ((t', None), w')
    /\ last (topic_segments t') = Some (set_seg_file (Some h) s)
    /\ segment_starts t' = segment_starts t
    /\ map seg_size (topic_segments t') = map seg_size (topic_segments t)
    /\ (length <$> files w' !! h) =
         Some (length (default [] (files w !! h)) + 22 + length (Data m))%nat
    /\ forall m2, Index m < Index m2 ->
         exists t2 w2,
           encode m2 t' w' = Ret ((t2, None), w2)
           /\ segment_starts t2 = segment_starts t.
Proof.
  intros Hi Hl Hs Hopen Hlive h.
  destruct (encode_ok m t w s Hi Hl Hs Hopen Hlive)
    as (t' & w' & E & Hidx & Hid & Hpath & Hrep & Hsegs & Hf & Hd & _ & Hdom).
  fold h in Hsegs, Hf.
  assert (Hl' : last (topic_segments t') = Some (set_seg_file (Some h) s)).
  { rewrite Hsegs. eapply last_insert_last, Hl. }
  assert (Hkeep : forall (f : segment -> Z),
            f (set_seg_file (Some h) s) = f s ->
            map f (topic_segments t') = map f (topic_segments t)).
  { intros f Hfs. rewrite Hsegs.
    change (map f) with (fmap (M := list) f). rewrite list_fmap_insert, Hfs.
    apply list_insert_id. rewrite list_lookup_fmap, (list_lookup_last _ _ Hl). reflexivity. }
  exists t', w'. split; [exact E|]. split; [exact Hl'|].
  split; [apply (Hkeep seg_index); reflexivity|].
  split; [apply (Hkeep seg_size); reflexivity|]. split.
  - rewrite Hf, lookup_insert_eq. cbn. rewrite length_app, length_MarshalBinary. f_equal. lia.
  - intros m2 Hi2.
    destruct (encode_ok m2 t' w' (set_seg_file (Some h) s)) as (t2 & w2 & E2 & _ & _ & _ & _ & Hsegs2 & _).
    + rewrite Hidx. exact Hi2.
    + exact Hl'.
    + exact Hs.
    + left. cbn. eauto.
    + rewrite Hrep. intros id r Hr. specialize (Hlive id r Hr).
      apply elem_of_dom. rewrite Hdom. apply elem_of_dom. exact Hlive.
    + exists t2, w2. split; [exact E2|].
      unfold segment_starts. rewrite Hsegs2.
      change (map seg_index) with (fmap (M := list) seg_index). rewrite list_fmap_insert.
      cbn [seg_index set_seg_file default].
      rewrite list_insert_id.
      * apply (Hkeep seg_index). reflexivity.
      * rewrite list_lookup_fmap, (list_lookup_last _ _ Hl'). reflexivity.
Qed.

(** ** The life cycle of the broker *)

Section LifecycleProperties.
Context `{External}.

Lemma for_each_closeWriter_run (l : list (Z * loc)) b : forall w,
  Forall (fun kr => is_Some (heap w !! kr.2)) l ->
  exists w',
    for_each l (fun '(_, r) => liftW (closeWriter r)) (b, w) = Ret (tt, (b, w'))
    /\ files w' = files w /\ dirs w' = dirs w /\ meta w' = meta w
    /\ (forall r, heap w' !! r =
                  if decide (r ∈ l.*2) then set_replica_writer None <$> heap w !! r
                  else heap w !! r).
Proof.
  induction l as [|[k r] l IH]; intros w Hl.
  - eexists. split; [reflexivity|]. repeat split; auto.
  - apply Forall_cons in Hl. destruct Hl as [[rep Hrep] Hl]. cbn in Hrep.
    cbn [for_each].
    erewrite bind_run; [|apply liftW_run, (closeWriter_run r w rep Hrep)].
    set (w1 := set_heap _ w).
    destruct (IH w1) as (w' & E & Hf & Hd & Hm & Hh).
    { eapply Forall_impl; [exact Hl|]. intros [k' r'] [x Hx]. cbn in *.
      destruct (decide (r' = r)) as [->|Hne].
      - rewrite lookup_insert_eq. eauto.
      - rewrite lookup_insert_ne by congruence. eauto. }
    exists w'. split; [exact E|]. split; [exact Hf|]. split; [exact Hd|].
    split; [exact Hm|]. intros r'. rewrite Hh. subst w1. cbn.
    destruct (decide (r' = r)) as [->|Hne].
    + rewrite lookup_insert_eq, Hrep.
      rewrite (decide_True (P := r ∈ r :: _)) by apply list_elem_of_here.
      destruct (decide _); reflexivity.
    + rewrite lookup_insert_ne by congruence.
      destruct (decide (r' ∈ l.*2)) as [Hin|Hni].
      * rewrite decide_True by (apply list_elem_of_further, Hin). reflexivity.
      * rewrite decide_False; [reflexivity|]. intros Hin. apply elem_of_cons in Hin.
        destruct Hin; [congruence|contradiction].
Qed.

Lemma close_run b w :
  broker_path b <> EmptyString ->
  replicas_live (broker_replicas b) w ->
  exists w',
    close (b, w) =
      Ret (None, (set_broker_replicas ∅ (set_broker_topics ∅ (set_broker_path EmptyString b)),
                  w'))
    /\ files w' = files w /\ dirs w' = dirs w /\ meta w' = meta w
    /\ (forall r, heap w' !! r =
                  if decide (r ∈ (map_to_list (broker_replicas b)).*2)
                  then set_replica_writer None <$> heap w !! r
                  else heap w !! r).
Proof.
  intros Hp Hlive.
  destruct (for_each_closeWriter_run (map_to_list (broker_replicas b))
              (set_broker_topics ∅ (set_broker_path EmptyString b)) w)
    as (w' & E & Hf & Hd & Hm & Hh).
  { apply Forall_forall. intros [k r] Hin. apply elem_of_map_to_list in Hin.
    eapply Hlive. exact Hin. }
  exists w'. split; [|auto].
  unfold close. rewrite (bind_run _ _ (b, w) b (b, w)) by reflexivity.
  destruct (String.eqb_spec (broker_path b) EmptyString); [contradiction|].
  erewrite bind_run; [|reflexivity].
  unfold closeTopics. erewrite bind_run; [|reflexivity].
  unfold closeReplicas. erewrite bind_run; [|erewrite bind_run; [|reflexivity]].
  2:{ cbn [broker_replicas set_broker_topics set_broker_path].
      rewrite (bind_run _ _ _ _ _ E). reflexivity. }
  reflexivity.
Qed.

(** X18.  [close] on a broker that is not open returns the closed error and
    changes nothing.  On an open broker it succeeds: the path, the topics
    and the replicas are cleared, the writer of every replica that was
    registered is removed, no other replica object and nothing on disk
    changes, and the applied index is kept.  Afterwards a second [close]
    and [save] return the closed error and [mustSave] does nothing. *)
Theorem X18_close_clears_the_broker (b : Broker) (w : World) :
  (broker_path b = EmptyString -> close (b, w) = Ret (Some ErrClosed, (b, w)))
  /\ (broker_path b <> EmptyString ->
      replicas_live (broker_replicas b) w ->
      exists b' w',
        close (b, w) = Ret (None, (b', w'))
        /\ broker_path b' = EmptyString
        /\ broker_topics b' = ∅ /\ broker_replicas b' = ∅
        /\ broker_index b' = broker_index b
        /\ files w' = files w /\ dirs w' = dirs w /\ meta w' = meta w
        /\ (forall id r, broker_replicas b !! id = Some r ->
              heap w' !! r = set_replica_writer None <$> heap w !! r)
        /\ (forall r, (forall id, broker_replicas b !! id <> Some r) ->
              heap w' !! r = heap w !! r)
        /\ close (b', w') = Ret (Some ErrClosed, (b', w'))
        /\ save (b', w') = Ret (Some ErrClosed, (b', w'))
        /\ mustSave (b', w') = Ret (tt, (b', w'))).
Proof.
  split.
  - intros Hp. unfold close. rewrite (bind_run _ _ (b, w) b (b, w)) by reflexivity.
    rewrite Hp. reflexivity.
  - intros Hp Hlive.
    destruct (close_run b w Hp Hlive) as (w' & E & Hf & Hd & Hm & Hh).
    eexists _, w'. split; [exact E|].
    split; [reflexivity|]. split; [reflexivity|]. split; [reflexivity|].
    split; [reflexivity|]. split; [exact Hf|]. split; [exact Hd|]. split; [exact Hm|].
    split; [|split; [|split; [|split]]].
    + intros id r Hr. rewrite Hh. rewrite decide_True; [reflexivity|].
      apply list_elem_of_fmap. exists (id, r). split; [reflexivity|].
      apply elem_of_map_to_list. exact Hr.
    + intros r Hr. rewrite Hh. rewrite decide_False; [reflexivity|].
      intros Hin. apply list_elem_of_fmap in Hin. destruct Hin as ([id r'] & -> & Hin).
      apply elem_of_map_to_list in Hin. exact (Hr id Hin).
    + reflexivity.
    + reflexivity.
    + reflexivity.
Qed.

(** X19.  [Open] checks its arguments in order.  An empty path returns the
    path-required error and changes nothing.  With a path and a nil URL it
    returns the connection-address-required error after the path has been
    stored, and nothing else has happened: nothing was loaded and nothing
    on disk was read or written.  The broker then counts as opened, so a
    following [close] returns nil instead of the closed error and clears
    the path again.  With both arguments, a metadata file that does not
    decode makes [Open] return the decode error and closes the broker
    again, leaving the disk as it was. *)
Theorem X19_open_checks_its_arguments
    (raft_Open : string -> M BW (option error))
    (path : string) (u : option string) (b : Broker) (w : World) :
  (path = EmptyString -> Open raft_Open path u (b, w) = Ret (ErrPathRequired, (b, w)))
  /\ (path <> EmptyString -> u = None ->
      Open raft_Open path u (b, w) =
        Ret (ErrConnectionAddressRequired, (set_broker_path path b, w))
      /\ (replicas_live (broker_replicas b) w ->
          exists b' w',
            close (set_broker_path path b, w) = Ret (None, (b', w'))
            /\ broker_path b' = EmptyString
            /\ broker_topics b' = ∅ /\ broker_replicas b' = ∅
            /\ files w' = files w /\ dirs w' = dirs w /\ meta w' = meta w))
  /\ (forall url buf,
        path <> EmptyString -> u = Some url ->
        meta w = Some buf -> json_Unmarshal_header buf = None ->
        replicas_live (broker_replicas b) w ->
        exists b' w',
          Open raft_Open path u (b, w) = Ret (OpenFailed ErrJSON, (b', w'))
          /\ broker_path b' = EmptyString
          /\ broker_topics b' = ∅ /\ broker_replicas b' = ∅
          /\ files w' = files w /\ dirs w' = dirs w /\ meta w' = meta w).
Proof.
  split; [|split].
  - intros ->. reflexivity.
  - intros Hp ->. split.
    + unfold Open. destruct (String.eqb_spec path EmptyString); [contradiction|]. reflexivity.
    + intros Hlive.
      destruct (close_run (set_broker_path path b) w Hp Hlive)
        as (w' & Ec & Hf & Hd & Hm & _).
      eexists _, w'. split; [exact Ec|].
      split; [reflexivity|]. split; [reflexivity|]. split; [reflexivity|].
      split; [exact Hf|]. split; [exact Hd|exact Hm].
  - intros url buf Hp -> Hmeta Hjson Hlive.
    destruct (close_run (set_broker_path path b) w Hp Hlive)
      as (w' & Ec & Hf & Hd & Hm & _).
    assert (El : Broker_load (set_broker_path path b, w)
                 = Ret (Some ErrJSON, (set_broker_path path b, w))).
    { unfold Broker_load.
      rewrite (bind_run _ _ _ (set_broker_path path b, w) (set_broker_path path b, w))
        by reflexivity.
      cbn [broker_path set_broker_path].
      destruct (String.eqb_spec path EmptyString); [contradiction|].
      rewrite Hmeta, Hjson. reflexivity. }
    eexists _, w'. split.
    { unfold Open. destruct (String.eqb_spec path EmptyString); [contradiction|].
      erewrite bind_run; [|reflexivity].
      rewrite (bind_run _ _ _ _ _ El). cbn iota.
      rewrite (bind_run _ _ _ _ _ Ec). reflexivity. }
    split; [reflexivity|]. split; [reflexivity|]. split; [reflexivity|].
    split; [exact Hf|]. split; [exact Hd|exact Hm].
Qed.

End LifecycleProperties.

(** ** Loading the metadata and restoring a snapshot *)

Section LoadProperties.
Context `{External}.

Lemma loadedSegments_ext t w w' :
  files w' = files w -> loadedSegments t w' = loadedSegments t w.
Proof. intros Hf. unfold loadedSegments, readdir. rewrite Hf. reflexivity. Qed.

Lemma loadedSegments_nonempty t w : loadedSegments t w <> [].
Proof. unfold loadedSegments. destruct (merge_sort _ _); discriminate. Qed.

Lemma openedTopic_ext id w w' : files w' = files w -> openedTopic id w' = openedTopic id w.
Proof. intros Hf. unfold openedTopic. cbv zeta. rewrite (loadedSegments_ext _ _ _ Hf). reflexivity. Qed.

Lemma load_topics_run (sts : list snapshotTopic) (w0 : World) : forall b w,
  files w = files w0 ->
  exists b' w',
    load_topics sts (b, w) = Ret (None, (b', w'))
    /\ files w' = files w /\ meta w' = meta w /\ heap w' = heap w
    /\ broker_replicas b' = broker_replicas b
    /\ broker_path b' = broker_path b /\ broker_index b' = broker_index b
    /\ (forall id, id ∈ map st_ID sts ->
          broker_topics b' !! id = Some (openedTopic id w0))
    /\ (forall id, id ∉ map st_ID sts -> broker_topics b' !! id = broker_topics b !! id).
Proof.
  induction sts as [|st sts IH]; intros b w Hf.
  - exists b, w. split; [reflexivity|]. do 6 (split; [reflexivity|]).
    split; [|reflexivity]. intros id Hin. inversion Hin.
  - cbn [load_topics]. unfold newTopic.
    erewrite bind_run; [|erewrite bind_run; [|reflexivity]; reflexivity].
    erewrite bind_run; [|apply liftW_run, topic_open_run; reflexivity].
    cbn iota. rewrite (bind_run _ _ _ _ _ (topic_store_run _ _ _ _)).
    match goal with |- context [load_topics sts (?b0, ?w1)] =>
      destruct (IH b0 w1) as (b' & w' & E & Hf' & Hm' & Hh' & Hr' & Hp' & Hi' & Hin & Hout);
        [exact Hf|] end.
    exists b', w'. split; [exact E|].
    split; [rewrite Hf'; reflexivity|]. split; [rewrite Hm'; reflexivity|].
    split; [rewrite Hh'; reflexivity|]. split; [rewrite Hr'; reflexivity|].
    split; [rewrite Hp'; reflexivity|]. split; [rewrite Hi'; reflexivity|]. split.
    + intros id Hid. destruct (decide (id ∈ map st_ID sts)) as [Hi|Hni].
      * apply Hin, Hi.
      * cbn in Hid. apply elem_of_cons in Hid. destruct Hid as [->|Hid]; [|contradiction].
        rewrite (Hout _ Hni). cbn. rewrite lookup_insert_eq. f_equal.
        unfold openedTopic. cbv zeta. cbn [topic_path].
        rewrite (loadedSegments_ext _ w0 w Hf). reflexivity.
    + intros id Hid. cbn in Hid. apply not_elem_of_cons in Hid. destruct Hid as [Hne Hid].
      rewrite (Hout _ Hid). cbn. rewrite !lookup_insert_ne by congruence. reflexivity.
Qed.

Lemma Restore_replica_run sr u b w :
  url_Parse (sr_URL sr) = Some u ->
  let r := fresh (dom (heap w)) in
  Restore_replica sr (b, w) =
    Ret (tt, (set_broker_replicas (<[sr_ID sr := r]> (broker_replicas b)) b,
              set_heap (<[r := snapshotReplicaObject u sr]> (heap w)) w))
  /\ heap w !! r = None.
Proof.
  intros Hu r. split; [|apply not_elem_of_dom, is_fresh].
  unfold Restore_replica, newReplica. rewrite Hu. fold r.
  erewrite bind_run; [|reflexivity].
  erewrite bind_run; [|reflexivity].
  erewrite bind_run; [|apply liftW_run, load_run; cbn; apply lookup_insert_eq].
  unfold liftW, store, modify. cbn. rewrite insert_insert_eq.
  unfold snapshotReplicaObject, set_replica_topics. cbn. rewrite union_empty_r_L. reflexivity.
Qed.

Lemma Restore_replicas_run (srs : list snapshotReplica) : forall b w,
  NoDup (map sr_ID srs) ->
  Forall (fun sr => is_Some (url_Parse (sr_URL sr))) srs ->
  exists b' w',
    for_each srs Restore_replica (b, w) = Ret (tt, (b', w'))
    /\ files w' = files w /\ dirs w' = dirs w /\ meta w' = meta w
    /\ broker_topics b' = broker_topics b
    /\ broker_path b' = broker_path b /\ broker_index b' = broker_index b
    /\ (forall r, is_Some (heap w !! r) -> heap w' !! r = heap w !! r)
    /\ (forall id, id ∉ map sr_ID srs -> broker_replicas b' !! id = broker_replicas b !! id)
    /\ (forall sr, sr ∈ srs ->
          exists r u,
            url_Parse (sr_URL sr) = Some u
            /\ broker_replicas b' !! sr_ID sr = Some r
            /\ heap w !! r = None
            /\ heap w' !! r = Some (snapshotReplicaObject u sr)).
Proof.
  induction srs as [|sr srs IH]; intros b w Hnd Hu.
  - exists b, w. split; [reflexivity|]. do 6 (split; [reflexivity|]).
    split; [auto|]. split; [auto|]. intros sr Hin. inversion Hin.
  - cbn in Hnd. apply NoDup_cons in Hnd. destruct Hnd as [Hni Hnd].
    apply Forall_cons in Hu. destruct Hu as [[u Hu] Hus].
    destruct (Restore_replica_run sr u b w Hu) as [E1 Hfresh].
    cbn [for_each]. rewrite (bind_run _ _ _ _ _ E1).
    set (r := fresh (dom (heap w))) in *.
    match goal with |- context [for_each srs Restore_replica (?b0, ?w0)] =>
      destruct (IH b0 w0 Hnd Hus)
        as (b' & w' & E & Hf & Hd & Hm & Ht & Hp & Hi & Hold & Hout & Hin) end.
    exists b', w'. split; [exact E|].
    split; [exact Hf|]. split; [exact Hd|]. split; [exact Hm|].
    split; [exact Ht|]. split; [exact Hp|]. split; [exact Hi|]. split; [|split].
    + intros r' [x Hx]. rewrite Hold.
      * cbn. apply lookup_insert_ne. intros <-. congruence.
      * cbn. rewrite lookup_insert_ne by (intros <-; congruence). eauto.
    + intros id Hid. cbn in Hid. apply not_elem_of_cons in Hid. destruct Hid as [Hne Hid].
      rewrite (Hout _ Hid). cbn. apply lookup_insert_ne. congruence.
    + intros sr' Hsr'. apply elem_of_cons in Hsr'. destruct Hsr' as [->|Hsr'].
      * exists r, u. split; [exact Hu|]. split; [|split; [exact Hfresh|]].
        -- rewrite (Hout _ Hni). cbn. apply lookup_insert_eq.
        -- rewrite Hold; cbn; rewrite lookup_insert_eq; eauto.
      * destruct (Hin sr' Hsr') as (r' & u' & Hu' & Hr' & Hn' & Hh').
        exists r', u'. split; [exact Hu'|]. split; [exact Hr'|]. split; [|exact Hh'].
        cbn in Hn'. destruct (decide (r' = r)) as [->|Hne].
        -- rewrite lookup_insert_eq in Hn'. discriminate.
        -- rewrite lookup_insert_ne in Hn' by congruence. exact Hn'.
Qed.

Lemma loadIndex_topics_frame (l : list (Z * topic)) : forall b w,
  (forall id t, (id, t) ∈ l -> topic_segments t <> []) ->
  exists err b',
    loadIndex_topics l (b, w) = Ret (err, (b', w))
    /\ broker_replicas b' = broker_replicas b
    /\ broker_path b' = broker_path b
    /\ (forall id,
          broker_topics b' !! id = broker_topics b !! id
          \/ exists t i, (id, t) ∈ l /\ broker_topics b' !! id = Some (set_topic_index i t)).
Proof.
  induction l as [|[id t] l IH]; intros b w Hl.
  - exists None, b. split; [reflexivity|]. split; [reflexivity|]. split; [reflexivity|].
    intros id. left. reflexivity.
  - destruct (topic_loadIndex_total t w (Hl id t (list_elem_of_here _ _))) as (i & err & E).
    cbn [loadIndex_topics].
    rewrite (bind_run _ _ _ _ _ (liftW_run _ _ _ _ b E)). cbn iota.
    rewrite (bind_run _ _ _ _ _ (topic_store_run _ _ _ _)).
    set (b1 := set_broker_topics _ b).
    assert (Hb1 : forall id',
              broker_topics b1 !! id' = broker_topics b !! id'
              \/ exists t0 i0, (id', t0) ∈ (id, t) :: l
                               /\ broker_topics b1 !! id' = Some (set_topic_index i0 t0)).
    { intros id'. subst b1. cbn. destruct (decide (id' = id)) as [->|Hne].
      - right. exists t, i. split; [apply list_elem_of_here|apply lookup_insert_eq].
      - left. apply lookup_insert_ne. congruence. }
    destruct err as [e|].
    { exists (Some (Errorf "topic" e)), b1. split; [reflexivity|].
      split; [reflexivity|]. split; [reflexivity|]. exact Hb1. }
    rewrite (bind_run _ _ (b1, w) b1 (b1, w)) by reflexivity.
    assert (E2 : exists b2,
               (if broker_index b1 <? topic_index (set_topic_index i t)
                then modifyB (set_broker_index (topic_index (set_topic_index i t)))
                else ret tt) (b1, w) = Ret (tt, (b2, w))
               /\ broker_replicas b2 = broker_replicas b1
               /\ broker_path b2 = broker_path b1
               /\ broker_topics b2 = broker_topics b1).
    { destruct (_ <? _); eexists; (split; [reflexivity|auto]). }
    destruct E2 as (b2 & E2 & Hr2 & Hp2 & Ht2). rewrite (bind_run _ _ _ _ _ E2).
    destruct (IH b2 w) as (err & b' & E' & Hr' & Hp' & Ht').
    { intros id' t' Hin. apply (Hl id' t'), list_elem_of_further, Hin. }
    exists err, b'. split; [exact E'|]. split; [rewrite Hr', Hr2; reflexivity|].
    split; [rewrite Hp', Hp2; reflexivity|].
    intros id'. destruct (Ht' id') as [Heq|(t0 & i0 & Hin & Heq)].
    + rewrite Heq, Ht2. apply Hb1.
    + right. exists t0, i0. split; [apply list_elem_of_further, Hin|exact Heq].
Qed.

Lemma loadIndex_run b w :
  (forall id t, broker_topics b !! id = Some t -> topic_segments t <> []) ->
  exists err b',
    loadIndex (b, w) = Ret (err, (b', w))
    /\ broker_replicas b' = broker_replicas b
    /\ (forall id,
          broker_topics b' !! id = broker_topics b !! id
          \/ exists t i, (id, t) ∈ map_to_list (broker_topics b)
                         /\ broker_topics b' !! id = Some (set_topic_index i t))
    /\ (err = None ->
        broker_index b <= broker_index b'
        /\ forall id t', broker_topics b' !! id = Some t' ->
              topic_index t' <= broker_index b').
Proof.
  intros Hne. unfold loadIndex. rewrite (bind_run _ _ (b, w) b (b, w)) by reflexivity.
  destruct (loadIndex_topics_frame (map_to_list (broker_topics b)) b w)
    as (err & b' & E & Hr & _ & Ht).
  { intros id t Hin. apply elem_of_map_to_list in Hin. eapply Hne, Hin. }
  destruct (loadIndex_topics_spec (map_to_list (broker_topics b)) b w)
    as (err2 & b2 & E2 & Hle & Hout & Hok).
  { apply NoDup_fst_map_to_list. }
  { intros id t Hin. apply elem_of_map_to_list in Hin. split; [exact Hin|eauto]. }
  rewrite E in E2. injection E2 as <- <-.
  exists err, b'. split; [exact E|]. split; [exact Hr|]. split; [exact Ht|].
  intros Herr. destruct (Hok Herr) as [Hall _]. split; [exact Hle|].
  intros id t' Ht'.
  destruct (broker_topics b !! id) as [t|] eqn:Hbt.
  - destruct (Hall id t) as (i & Hi & Hle'); [apply elem_of_map_to_list; exact Hbt|].
    rewrite Hi in Ht'. injection Ht' as <-. exact Hle'.
  - rewrite Hout in Ht'; [congruence|].
    intros Hin. apply list_elem_of_fmap in Hin. destruct Hin as ([id' t0] & -> & Hin).
    apply elem_of_map_to_list in Hin. cbn in Hbt. congruence.
Qed.

(** X20.  [Broker.load].  Without a metadata file it does nothing.  With a
    metadata file that decodes, on an open broker whose topics are open, it
    returns (possibly with a load-index error) without touching the files:
    every topic of the header is registered, opened on the files of its
    directory (the segments the header lists are ignored) and with no
    replica attached; every replica of the header is registered as a new
    object with the header's URL and topics, index 0 and no writer.  When
    no error is returned the broker's index has not decreased and bounds
    every topic's index. *)
Theorem X20_load_rebuilds_topics_and_replicas (b : Broker) (w : World) :
  (meta w = None -> Broker_load (b, w) = Ret (None, (b, w)))
  /\ (forall buf hdr,
        broker_path b <> EmptyString ->
        meta w = Some buf -> json_Unmarshal_header buf = Some hdr ->
        (forall id t, broker_topics b !! id = Some t -> topic_segments t <> []) ->
        NoDup (map sr_ID (sh_Replicas hdr)) ->
        Forall (fun sr => is_Some (url_Parse (sr_URL sr))) (sh_Replicas hdr) ->
        exists err b' w',
          Broker_load (b, w) = Ret (err, (b', w'))
          /\ files w' = files w /\ meta w' = meta w
          /\ (forall st, st ∈ sh_Topics hdr ->
                exists i, broker_topics b' !! st_ID st
                          = Some (set_topic_index i (openedTopic (st_ID st) w)))
          /\ (forall sr, sr ∈ sh_Replicas hdr ->
                exists r u,
                  url_Parse (sr_URL sr) = Some u
                  /\ broker_replicas b' !! sr_ID sr = Some r
                  /\ heap w' !! r = Some (snapshotReplicaObject u sr))
          /\ (err = None ->
              broker_index b <= broker_index b'
              /\ forall id t, broker_topics b' !! id = Some t ->
                   topic_index t <= broker_index b')).
Proof.
  split.
  - intros Hm. unfold Broker_load. rewrite (bind_run _ _ (b, w) (b, w) (b, w)) by reflexivity.
    rewrite Hm. destruct (String.eqb _ _); reflexivity.
  - intros buf hdr Hp Hm Hj Hopen Hnd Hurl.
    unfold Broker_load. rewrite (bind_run _ _ (b, w) (b, w) (b, w)) by reflexivity.
    destruct (String.eqb_spec (broker_path b) EmptyString); [contradiction|].
    rewrite Hm, Hj.
    destruct (load_topics_run (sh_Topics hdr) w b w eq_refl)
      as (b1 & w1 & E1 & Hf1 & Hm1 & Hh1 & Hr1 & Hp1 & Hi1 & Hin1 & Hout1).
    rewrite (bind_run _ _ _ _ _ E1). cbn iota.
    destruct (Restore_replicas_run (sh_Replicas hdr) b1 w1 Hnd Hurl)
      as (b2 & w2 & E2 & Hf2 & Hd2 & Hm2 & Ht2 & Hp2 & Hi2 & Hold2 & Hout2 & Hin2).
    rewrite (bind_run _ _ _ _ _ E2).
    assert (Hopen2 : forall id t, broker_topics b2 !! id = Some t -> topic_segments t <> []).
    { intros id t Ht. rewrite Ht2 in Ht.
      destruct (decide (id ∈ map st_ID (sh_Topics hdr))) as [Hi|Hni].
      - rewrite (Hin1 _ Hi) in Ht. injection Ht as <-. apply loadedSegments_nonempty.
      - rewrite (Hout1 _ Hni) in Ht. eapply Hopen, Ht. }
    destruct (loadIndex_run b2 w2 Hopen2) as (err & b3 & E3 & Hr3 & Ht3 & Hok3).
    rewrite (bind_run _ _ _ _ _ E3).
    exists (match err with Some e => Some (Errorf "load index" e) | None => None end), b3, w2.
    split; [destruct err; reflexivity|].
    split; [congruence|]. split; [congruence|]. split; [|split].
    + intros st Hst.
      assert (Hid : st_ID st ∈ map st_ID (sh_Topics hdr)).
      { apply list_elem_of_In, in_map, list_elem_of_In, Hst. }
      destruct (Ht3 (st_ID st)) as [Heq|(t & i & Hin & Heq)].
      * exists 0. rewrite Heq, Ht2, (Hin1 _ Hid). f_equal.
      * exists i. rewrite Heq. f_equal. f_equal.
        apply elem_of_map_to_list in Hin. rewrite Ht2, (Hin1 _ Hid) in Hin. congruence.
    + intros sr Hsr. destruct (Hin2 sr Hsr) as (r & u & Hu & Hr & _ & Hh).
      exists r, u. split; [exact Hu|]. split; [rewrite Hr3; exact Hr|exact Hh].
    + intros Herr. destruct err; [discriminate|].
      destruct (Hok3 eq_refl) as (Hle & Hall). split; [|exact Hall].
      rewrite <- Hi1, <- Hi2. exact Hle.
Qed.

(** *** Restoring a snapshot without segments *)

Lemma lookup_RemoveAll (dir : Z) (fs : gmap (Z * Z) (list byte)) (p : Z * Z) :
  filter (fun kv : Z * Z * list byte => kv.1.1 ≠ dir) fs !! p =
    if decide (p.1 = dir) then None else fs !! p.
Proof.
  destruct (decide (p.1 = dir)) as [Hd|Hd].
  - apply map_lookup_filter_None. right. intros x _ HP. cbn in HP. contradiction.
  - destruct (fs !! p) as [c|] eqn:Hc.
    + apply map_lookup_filter_Some. split; [exact Hc|exact Hd].
    + apply map_lookup_filter_None. left. exact Hc.
Qed.

Lemma loadedSegments_empty_dir id w :
  (forall i, files w !! (id, i) = None) ->
  loadedSegments (mkTopic id 0 id [] ∅) w = [mkSegment 0 (id, 0) 0 None].
Proof.
  intros Hnone. unfold loadedSegments. cbn [topic_path].
  destruct (readdir id w) as [|[i sz] l] eqn:Er; [reflexivity|].
  exfalso. assert (Hin : (i, sz) ∈ readdir id w) by (rewrite Er; apply list_elem_of_here).
  apply elem_of_readdir in Hin. destruct Hin as (c & Hc & _). rewrite Hnone in Hc. discriminate.
Qed.

Lemma Restore_topics_run (sts : list snapshotTopic) (rd : Reader) : forall b w,
  Forall (fun st => st_Segments st = []) sts ->
  exists b' w',
    Restore_topics sts rd (b, w) = Ret ((rd, None), (b', w'))
    /\ meta w' = meta w /\ heap w' = heap w
    /\ broker_replicas b' = broker_replicas b
    /\ broker_path b' = broker_path b /\ broker_index b' = broker_index b
    /\ (forall p, files w' !! p =
                  if decide (p.1 ∈ map st_ID sts) then None else files w !! p)
    /\ (forall id, id ∈ map st_ID sts ->
          broker_topics b' !! id = Some (mkTopic id 0 id [mkSegment 0 (id, 0) 0 None] ∅))
    /\ (forall id, id ∉ map st_ID sts -> broker_topics b' !! id = broker_topics b !! id).
Proof.
  induction sts as [|st sts IH]; intros b w Hsegs.
  - exists b, w. split; [reflexivity|]. do 5 (split; [reflexivity|]).
    split; [|split; [|reflexivity]].
    + intros p. rewrite decide_False; [reflexivity|]. intros Hin. inversion Hin.
    + intros id Hin. inversion Hin.
  - apply Forall_cons in Hsegs. destruct Hsegs as [Hst Hsegs].
    cbn [Restore_topics]. unfold newTopic.
    erewrite bind_run; [|erewrite bind_run; [|reflexivity]; reflexivity].
    cbn [topic_path].
    erewrite bind_run; [|reflexivity].
    rewrite Hst. cbn [Restore_segments].
    erewrite bind_run; [|reflexivity]. cbn iota.
    erewrite bind_run; [|apply liftW_run, topic_open_run; reflexivity].
    cbn iota. rewrite (bind_run _ _ _ _ _ (topic_store_run _ _ _ _)).
    rewrite loadedSegments_empty_dir.
    2:{ intros i. cbn. rewrite lookup_RemoveAll. rewrite decide_True by reflexivity. reflexivity. }
    match goal with |- context [Restore_topics sts rd (?b0, ?w1)] =>
      destruct (IH b0 w1 Hsegs)
        as (b' & w' & E & Hm' & Hh' & Hr' & Hp' & Hi' & Hf' & Hin & Hout) end.
    exists b', w'. split; [exact E|].
    split; [rewrite Hm'; reflexivity|]. split; [rewrite Hh'; reflexivity|].
    split; [rewrite Hr'; reflexivity|]. split; [rewrite Hp'; reflexivity|].
    split; [rewrite Hi'; reflexivity|]. split; [|split].
    + intros p. rewrite Hf'. cbn [files set_dirs set_files map].
      rewrite lookup_RemoveAll.
      destruct (decide (p.1 ∈ map st_ID sts)) as [Hi|Hni].
      * rewrite decide_True by (apply list_elem_of_further, Hi). reflexivity.
      * destruct (decide (p.1 = st_ID st)) as [He|Hne].
        -- rewrite decide_True by (rewrite He; apply list_elem_of_here). reflexivity.
        -- rewrite decide_False; [reflexivity|]. intros Hin'. apply elem_of_cons in Hin'.
           destruct Hin'; contradiction.
    + intros id Hid. destruct (decide (id ∈ map st_ID sts)) as [Hi|Hni].
      * apply Hin, Hi.
      * cbn in Hid. apply elem_of_cons in Hid. destruct Hid as [->|Hid]; [|contradiction].
        rewrite (Hout _ Hni). cbn. rewrite lookup_insert_eq. reflexivity.
    + intros id Hid. cbn in Hid. apply not_elem_of_cons in Hid. destruct Hid as [Hne Hid].
      rewrite (Hout _ Hid). cbn. rewrite !lookup_insert_ne by congruence. reflexivity.
Qed.

(** X21.  [Restore] of a snapshot whose topics list no segment succeeds
    (the rest of the stream is not read).  Afterwards the broker has
    exactly the topics of the header, each with the single empty segment 0
    and no replica attached, every file in the directories of these topics
    is gone and no other file is touched; it has exactly the replicas of
    the header, as new objects with index 0 and no writer; and its applied
    index is what it was before: the index stored in the header is not
    used. *)
Theorem X21_restore_without_segments (r : Reader) (b : Broker) (w : World)
    (buf rest : list byte) (sh : snapshotHeader) :
  r = putBE 4 (Z.of_nat (length buf)) ++ buf ++ rest ->
  Z.of_nat (length buf) < 2 ^ 32 ->
  json_Unmarshal_header buf = Some sh ->
  Forall (fun st => st_Segments st = []) (sh_Topics sh) ->
  replicas_live (broker_replicas b) w ->
  NoDup (map sr_ID (sh_Replicas sh)) ->
  Forall (fun sr => is_Some (url_Parse (sr_URL sr))) (sh_Replicas sh) ->
  exists b' w',
    Restore r (b, w) = Ret (None, (b', w'))
    /\ broker_index b' = broker_index b
    /\ (forall id,
          broker_topics b' !! id =
            if decide (id ∈ map st_ID (sh_Topics sh))
            then Some (mkTopic id 0 id [mkSegment 0 (id, 0) 0 None] ∅) else None)
    /\ (forall p,
          files w' !! p =
            if decide (p.1 ∈ map st_ID (sh_Topics sh)) then None else files w !! p)
    /\ (forall id, id ∉ map sr_ID (sh_Replicas sh) -> broker_replicas b' !! id = None)
    /\ (forall sr, sr ∈ sh_Replicas sh ->
          exists r u,
            url_Parse (sr_URL sr) = Some u
            /\ broker_replicas b' !! sr_ID sr = Some r
            /\ heap w' !! r = Some (snapshotReplicaObject u sr)).
Proof.
  intros -> Hlen Hjson Hsegs Hlive Hnd Hurl. unfold Restore.
  pose proof (ReadFull_app (putBE 4 (Z.of_nat (length buf))) (buf ++ rest)) as E4.
  rewrite length_putBE in E4. rewrite E4.
  rewrite getBE_putBE_small by (cbn; lia).
  rewrite Nat2Z.id, ReadFull_app, Hjson.
  unfold closeTopics. erewrite bind_run; [|reflexivity].
  destruct (closeReplicas_ok (set_broker_topics ∅ b) w Hlive) as (w1 & E1 & Hd1).
  rewrite (bind_run _ _ _ _ _ E1).
  destruct (Restore_topics_run (sh_Topics sh) rest
              (set_broker_replicas ∅ (set_broker_topics ∅ b)) w1 Hsegs)
    as (b2 & w2 & E2 & Hm2 & Hh2 & Hr2 & Hp2 & Hi2 & Hf2 & Hin2 & Hout2).
  rewrite (bind_run _ _ _ _ _ E2). cbn iota.
  destruct (Restore_replicas_run (sh_Replicas sh) b2 w2 Hnd Hurl)
    as (b3 & w3 & E3 & Hf3 & Hd3 & Hm3 & Ht3 & Hp3 & Hi3 & Hold3 & Hout3 & Hin3).
  rewrite (bind_run _ _ _ _ _ E3).
  exists b3, w3. split; [reflexivity|].
  split; [rewrite Hi3, Hi2; reflexivity|]. split; [|split; [|split]].
  - intros id. rewrite Ht3. destruct (decide (id ∈ map st_ID (sh_Topics sh))) as [Hi|Hni].
    + apply Hin2, Hi.
    + rewrite (Hout2 _ Hni). reflexivity.
  - intros p. rewrite Hf3, Hf2. destruct Hd1 as (-> & _). reflexivity.
  - intros id Hid. rewrite (Hout3 _ Hid), Hr2. reflexivity.
  - intros sr Hsr. destruct (Hin3 sr Hsr) as (r & u & Hu & Hr & _ & Hh). eauto.
Qed.

End LoadProperties.

(** ** Saving and loading the metadata *)

Section SaveLoadProperties.
Context `{External}.

Lemma foldl_headerAddTopic_entries w sh ts :
  sh_Topics (foldl (headerAddTopic w) sh ts) = sh_Topics sh ++ map (topicEntry w) ts
  /\ sh_Replicas (foldl (headerAddTopic w) sh ts) = sh_Replicas sh.
Proof.
  revert sh. induction ts as [|t ts IH]; intros sh; cbn [foldl map].
  - rewrite app_nil_r. auto.
  - destruct (IH (headerAddTopic w sh t)) as [-> ->].
    unfold headerAddTopic. rewrite foldl_headerAddSegment. cbn.
    rewrite <- app_assoc. auto.
Qed.

Lemma foldl_headerAddReplica_entries w sh rs :
  sh_Replicas (foldl (headerAddReplica w) sh rs) =
    sh_Replicas sh ++ omap (fun r => replicaEntry <$> heap w !! r) rs.
Proof.
  revert sh. induction rs as [|r rs IH]; intros sh; cbn [foldl omap list_omap].
  - rewrite app_nil_r. reflexivity.
  - rewrite IH. unfold headerAddReplica. destruct (heap w !! r) as [rep|]; cbn.
    + rewrite <- app_assoc. reflexivity.
    + reflexivity.
Qed.

Lemma createSnapshotHeader_entries b w :
  sh_Topics (createSnapshotHeader b w) =
    map (topicEntry w) (map_to_list (broker_topics b)).*2
  /\ sh_Replicas (createSnapshotHeader b w) =
       omap (fun r => replicaEntry <$> heap w !! r) (map_to_list (broker_replicas b)).*2.
Proof.
  unfold createSnapshotHeader. split.
  - destruct (foldl_headerAddReplica w
                (foldl (headerAddTopic w) (mkSnapshotHeader [] [] 0)
                   (map_to_list (broker_topics b)).*2)
                (map_to_list (broker_replicas b)).*2) as (-> & _).
    destruct (foldl_headerAddTopic_entries w (mkSnapshotHeader [] [] 0)
                (map_to_list (broker_topics b)).*2) as (-> & _). reflexivity.
  - rewrite foldl_headerAddReplica_entries.
    destruct (foldl_headerAddTopic_entries w (mkSnapshotHeader [] [] 0)
                (map_to_list (broker_topics b)).*2) as (_ & ->). reflexivity.
Qed.

Lemma replica_entries (h : gmap loc Replica) (l : list (Z * loc)) :
  Forall (fun kr => exists rep, h !! kr.2 = Some rep /\ replica_id rep = kr.1
                                /\ is_Some (url_Parse (replica_URL rep))) l ->
  let srs := omap (fun r => replicaEntry <$> h !! r) l.*2 in
  map sr_ID srs = l.*1
  /\ Forall (fun sr => is_Some (url_Parse (sr_URL sr))) srs
  /\ (forall id r rep, (id, r) ∈ l -> h !! r = Some rep -> replicaEntry rep ∈ srs).
Proof.
  induction 1 as [|[id r] l (rep & Hrep & Hid & Hu) Hl (IH1 & IH2 & IH3)]; cbv zeta.
  - split; [reflexivity|]. split; [constructor|]. intros id r rep Hin. inversion Hin.
  - cbn [fmap list_fmap snd fst omap list_omap] in *. rewrite Hrep. cbn [fmap option_fmap option_map map].
    split; [|split].
    + cbn. rewrite Hid. f_equal. exact IH1.
    + constructor; [exact Hu|exact IH2].
    + intros id' r' rep' Hin Hrep'. apply elem_of_cons in Hin.
      destruct Hin as [[= -> ->]|Hin].
      * rewrite Hrep in Hrep'. injection Hrep' as <-. apply list_elem_of_here.
      * apply list_elem_of_further. eapply IH3; eauto.
Qed.

(** X22.  [save] then [load].  Let the broker be open, its topics and
    replicas be registered under their own ids, the replica URLs parse, and
    let the decoder return the header that [save] encoded (up to the
    unexported segment paths).  Then [save] succeeds, and [load] on a new
    broker over the same directory registers exactly the topics and
    exactly the replicas the broker had; each replica comes back with its
    URL and its subscriptions, but with index 0 and no writer. *)
Theorem X22_save_then_load (b : Broker) (w : World) (hdr' : snapshotHeader) :
  broker_path b <> EmptyString ->
  (forall id t, broker_topics b !! id = Some t -> topic_id t = id) ->
  (forall id r, broker_replicas b !! id = Some r ->
     exists rep, heap w !! r = Some rep /\ replica_id rep = id
                 /\ is_Some (url_Parse (replica_URL rep))) ->
  json_Unmarshal_header (json_Marshal_header (createSnapshotHeader b w)) = Some hdr' ->
  map st_ID (sh_Topics hdr') = map st_ID (sh_Topics (createSnapshotHeader b w)) ->
  sh_Replicas hdr' = sh_Replicas (createSnapshotHeader b w) ->
  exists w1 err b' w',
    save (b, w) = Ret (None, (b, w1))
    /\ Broker_load (mkBroker (broker_path b) 0 (broker_state b) ∅ ∅, w1)
       = Ret (err, (b', w'))
    /\ files w' = files w
    /\ (forall id, is_Some (broker_topics b' !! id) <-> is_Some (broker_topics b !! id))
    /\ (forall id, is_Some (broker_replicas b' !! id) <-> is_Some (broker_replicas b !! id))
    /\ (forall id r rep,
          broker_replicas b !! id = Some r -> heap w !! r = Some rep ->
          exists r' u,
            url_Parse (replica_URL rep) = Some u
            /\ broker_replicas b' !! id = Some r'
            /\ heap w' !! r' = Some (mkReplica u id 0 None (replica_topics rep))).
Proof.
  intros Hp Htid Hreps Hjson Htopics Hreplicas.
  destruct (createSnapshotHeader_entries b w) as (Hts & Hrs).
  destruct (replica_entries (heap w) (map_to_list (broker_replicas b)))
    as (Hids & Hurls & Hmem).
  { apply Forall_forall. intros [id r] Hin. apply elem_of_map_to_list in Hin.
    exact (Hreps id r Hin). }
  cbv zeta in Hids, Hurls, Hmem. rewrite <- Hrs, <- Hreplicas in Hids, Hurls, Hmem.
  assert (Hkeys : map st_ID (sh_Topics hdr') = (map_to_list (broker_topics b)).*1).
  { rewrite Htopics, Hts, map_map.
    change (map (fun x => st_ID (topicEntry w x))) with (fmap (M := list) (fun x => st_ID (topicEntry w x))).
    rewrite <- list_fmap_compose. apply list_fmap_ext. intros i [id t] Hin.
    apply list_elem_of_lookup_2, elem_of_map_to_list in Hin. cbn. apply (Htid id t Hin). }
  set (b0 := mkBroker (broker_path b) 0 (broker_state b) ∅ ∅).
  set (w1 := set_meta (Some (json_Marshal_header (createSnapshotHeader b w))) w).
  exists w1.
  assert (Hload : exists err b' w',
            Broker_load (b0, w1) = Ret (err, (b', w'))
            /\ files w' = files w
            /\ (forall id, is_Some (broker_topics b' !! id)
                           <-> id ∈ map st_ID (sh_Topics hdr'))
            /\ (forall id, id ∉ map sr_ID (sh_Replicas hdr') -> broker_replicas b' !! id = None)
            /\ (forall sr, sr ∈ sh_Replicas hdr' ->
                  exists r u,
                    url_Parse (sr_URL sr) = Some u
                    /\ broker_replicas b' !! sr_ID sr = Some r
                    /\ heap w' !! r = Some (snapshotReplicaObject u sr))).
  { unfold Broker_load. rewrite (bind_run _ _ (b0, w1) (b0, w1) (b0, w1)) by reflexivity.
    cbn [broker_path b0].
    destruct (String.eqb_spec (broker_path b) EmptyString); [contradiction|].
    cbn [meta w1 set_meta]. rewrite Hjson.
    destruct (load_topics_run (sh_Topics hdr') w1 b0 w1 eq_refl)
      as (b1 & w2 & E1 & Hf1 & Hm1 & Hh1 & Hr1 & Hp1 & Hi1 & Hin1 & Hout1).
    rewrite (bind_run _ _ _ _ _ E1). cbn iota.
    destruct (Restore_replicas_run (sh_Replicas hdr') b1 w2) as
      (b2 & w3 & E2 & Hf2 & Hd2 & Hm2 & Ht2 & Hp2 & Hi2 & Hold2 & Hout2 & Hin2).
    { rewrite Hids. apply NoDup_fst_map_to_list. }
    { exact Hurls. }
    rewrite (bind_run _ _ _ _ _ E2).
    destruct (loadIndex_run b2 w3) as (err & b3 & E3 & Hr3 & Ht3 & _).
    { intros id t Ht. rewrite Ht2 in Ht.
      destruct (decide (id ∈ map st_ID (sh_Topics hdr'))) as [Hi|Hni].
      - rewrite (Hin1 _ Hi) in Ht. injection Ht as <-. apply loadedSegments_nonempty.
      - rewrite (Hout1 _ Hni) in Ht. cbn in Ht. rewrite lookup_empty in Ht. discriminate. }
    rewrite (bind_run _ _ _ _ _ E3).
    exists (match err with Some e => Some (Errorf "load index" e) | None => None end), b3, w3.
    split; [destruct err; reflexivity|]. split; [rewrite Hf2, Hf1; reflexivity|].
    split; [|split].
    - intros id.
      assert (H2 : is_Some (broker_topics b2 !! id) <-> id ∈ map st_ID (sh_Topics hdr')).
      { rewrite Ht2. destruct (decide (id ∈ map st_ID (sh_Topics hdr'))) as [Hi|Hni].
        - rewrite (Hin1 _ Hi). split; eauto.
        - rewrite (Hout1 _ Hni). cbn. rewrite lookup_empty. split; [intros [? ?]; discriminate|contradiction]. }
      rewrite <- H2. destruct (Ht3 id) as [->|(t & i & Hin & Heq)]; [reflexivity|].
      apply elem_of_map_to_list in Hin. rewrite Heq, Hin. split; eauto.
    - intros id Hid. rewrite Hr3, (Hout2 _ Hid), Hr1. reflexivity.
    - intros sr Hsr. destruct (Hin2 sr Hsr) as (r & u & Hu & Hr & _ & Hh).
      exists r, u. split; [exact Hu|]. split; [rewrite Hr3; exact Hr|exact Hh]. }
  destruct Hload as (err & b' & w' & E & Hf & Htop & Hnone & Hrep).
  exists err, b', w'. split; [apply save_open, Hp|]. split; [exact E|]. split; [exact Hf|].
  split; [|split].
  - intros id. rewrite Htop, Hkeys. rewrite <- elem_of_dom.
    split.
    + intros Hin. apply list_elem_of_fmap in Hin. destruct Hin as ([id' t] & -> & Hin).
      apply elem_of_map_to_list in Hin. apply elem_of_dom. eauto.
    + intros Hin. apply elem_of_dom in Hin. destruct Hin as [t Ht].
      apply list_elem_of_fmap. exists (id, t). split; [reflexivity|].
      apply elem_of_map_to_list, Ht.
  - intros id. split.
    + intros [r' Hr']. destruct (decide (id ∈ map sr_ID (sh_Replicas hdr'))) as [Hi|Hni].
      * rewrite Hids in Hi. apply list_elem_of_fmap in Hi. destruct Hi as ([id' r] & -> & Hin).
        apply elem_of_map_to_list in Hin. eauto.
      * rewrite (Hnone _ Hni) in Hr'. discriminate.
    + intros [r Hr]. destruct (Hreps id r Hr) as (rep & Hh & Hid & _).
      destruct (Hrep (replicaEntry rep)) as (r' & u & _ & Hr' & _).
      { eapply Hmem; [apply elem_of_map_to_list, Hr|exact Hh]. }
      cbn in Hr'. rewrite Hid in Hr'. eauto.
  - intros id r rep Hr Hh. destruct (Hreps id r Hr) as (rep' & Hh' & Hid & _).
    rewrite Hh in Hh'. injection Hh' as <-.
    destruct (Hrep (replicaEntry rep)) as (r' & u & Hu & Hr' & Hobj).
    { eapply Hmem; [apply elem_of_map_to_list, Hr|exact Hh]. }
    cbn in Hu, Hr'. rewrite Hid in Hr'. exists r', u. split; [exact Hu|]. split; [exact Hr'|].
    rewrite Hobj. unfold snapshotReplicaObject, replicaEntry. cbn.
    rewrite Hid, list_to_set_elements_L. reflexivity.
Qed.

End SaveLoadProperties.

(** ** Streaming to a replica *)

Lemma topic_holds_sent w r rep d out w' t mss :
  sent w r rep d out w' -> topic_holds w t mss -> topic_holds w' t mss.
Proof.
  intros Hs [Hh Hb]. split; [|exact Hb].
  eapply Forall2_impl; [exact Hh|]. intros s ms. apply (segment_holds_sent _ _ _ _ _ _ _ _ Hs).
Qed.

Lemma writeTo_attached t r w rep d mss :
  attached w r rep d -> topic_holds w t mss ->
  exists w',
    writeTo t r w = Ret (None, w')
    /\ sent w r rep d (catchup (replica_index rep) (concat mss)) w'.
Proof.
  intros Ha [Hh Hb]. unfold writeTo. destruct (Ha) as [Hload _].
  rewrite (bind_run _ _ _ _ _ (load_run _ _ _ Hload)).
  apply writeTo_segments_holds; assumption.
Qed.

Lemma attach_attach id r t : attach id r (attach id r t) = attach id r t.
Proof. unfold attach, set_topic_replicas. cbn. rewrite insert_insert_eq. reflexivity. Qed.

Lemma WriteTo_topics_attached r (mss : Z -> list (list Message)) (ids : list Z) :
  forall b w rep d,
  attached w r rep d ->
  (forall id, id ∈ ids ->
     exists t, broker_topics b !! id = Some t /\ topic_holds w t (mss id)) ->
  exists b' w',
    WriteTo_topics r ids (b, w) = Ret (None, (b', w'))
    /\ sent w r rep d
         (concat (map (fun id => catchup (replica_index rep) (concat (mss id))) ids)) w'
    /\ broker_replicas b' = broker_replicas b
    /\ broker_index b' = broker_index b /\ broker_path b' = broker_path b
    /\ (forall id,
          broker_topics b' !! id =
            (if decide (id ∈ ids) then attach (replica_id rep) r else fun t => t)
              <$> broker_topics b !! id).
Proof.
  induction ids as [|id ids IH]; intros b w rep d Ha Hts.
  - exists b, w. split; [reflexivity|]. split; [apply attached_sent_nil, Ha|].
    do 3 (split; [reflexivity|]). intros id.
    rewrite decide_False by (intros Hin; inversion Hin).
    destruct (broker_topics b !! id); reflexivity.
  - destruct (Hts id (list_elem_of_here _ _)) as (t & Ht & Hholds).
    cbn [WriteTo_topics]. rewrite (bind_run _ _ (b, w) b (b, w)) by reflexivity.
    rewrite Ht.
    destruct (writeTo_attached t r w rep d (mss id) Ha Hholds) as (w1 & E1 & Hs1).
    rewrite (bind_run _ _ _ _ _ (liftW_run _ _ _ _ b E1)). cbn iota.
    pose proof (sent_attached _ _ _ _ _ _ Hs1) as Ha1.
    destruct (Ha1) as [Hload1 _].
    rewrite (bind_run _ _ _ _ _ (liftW_run _ _ _ _ b (load_run _ _ _ Hload1))).
    rewrite (bind_run _ _ _ _ _ (topic_store_run _ _ _ _)).
    cbn [replica_id set_replica_writer]. fold (attach (replica_id rep) r t).
    set (b1 := set_broker_topics _ b).
    destruct (IH b1 w1 _ _ Ha1) as (b' & w' & E & Hs & Hr & Hi & Hp & Htop).
    { intros id' Hin. destruct (decide (id' = id)) as [->|Hne].
      - exists (attach (replica_id rep) r t). split; [subst b1; cbn; apply lookup_insert_eq|].
        apply (topic_holds_sent _ _ _ _ _ _ _ _ Hs1). exact Hholds.
      - destruct (Hts id' (list_elem_of_further _ _ _ Hin)) as (t' & Ht' & Hh').
        exists t'. split; [subst b1; cbn; rewrite lookup_insert_ne by congruence; exact Ht'|].
        apply (topic_holds_sent _ _ _ _ _ _ _ _ Hs1). exact Hh'. }
    exists b', w'. split; [exact E|]. split.
    { cbn [map concat]. eapply sent_trans; [exact Hs1|exact Hs]. }
    split; [rewrite Hr; reflexivity|]. split; [rewrite Hi; reflexivity|].
    split; [rewrite Hp; reflexivity|].
    intros id'. rewrite Htop. cbn [replica_id set_replica_writer]. subst b1. cbn.
    destruct (decide (id' = id)) as [->|Hne].
    + rewrite lookup_insert_eq, Ht. cbn.
      rewrite (decide_True (P := id ∈ id :: ids)) by apply list_elem_of_here.
      destruct (decide (id ∈ ids)); [rewrite attach_attach|]; reflexivity.
    + rewrite lookup_insert_ne by congruence.
      destruct (decide (id' ∈ ids)) as [Hin|Hni].
      * rewrite decide_True by (apply list_elem_of_further, Hin). reflexivity.
      * rewrite decide_False; [reflexivity|]. intros Hin. apply elem_of_cons in Hin.
        destruct Hin; [congruence|contradiction].
Qed.

(** X23.  [Replica.WriteTo], up to the point where it waits.  The topics
    are visited in ascending id order (the broadcast topic 0 first), each
    subscribed topic once.  If the first topic is not registered the
    assertion panics.  If every subscribed topic is registered and its
    segment files hold well-formed messages, then with a writer that
    accepts every write the call replaces the previous writer, sends for
    each topic in turn the stored messages above the replica's index, and
    attaches the replica to exactly the subscribed topics under its own id;
    nothing on disk changes. *)
Theorem X23_WriteTo_catches_up_in_topic_order
    (r : loc) (d : list byte) (b : Broker) (w : World) (rep : Replica) :
  heap w !! r = Some rep ->
  let ids := merge_sort Z.le (elements (replica_topics rep)) in
  StronglySorted Z.le ids
  /\ (forall id, id ∈ ids <-> id ∈ replica_topics rep)
  /\ (forall id,
        head ids = Some id -> broker_topics b !! id = None ->
        Replica_WriteTo r (mkSink d None) (b, w) = Panic (AssertFailed "topic missing"))
  /\ (forall mss : Z -> list (list Message),
        (forall id, id ∈ replica_topics rep ->
           exists t, broker_topics b !! id = Some t /\ topic_holds w t (mss id)) ->
        let out :=
          concat (map (fun id => catchup (replica_index rep) (concat (mss id))) ids) in
        exists b' w',
          Replica_WriteTo r (mkSink d None) (b, w) = Ret (None, (b', w'))
          /\ files w' = files w /\ dirs w' = dirs w /\ meta w' = meta w
          /\ heap w' =
               <[r := set_replica_writer (Some (mkSink (d ++ out) None)) rep]> (heap w)
          /\ broker_replicas b' = broker_replicas b
          /\ (forall id,
                broker_topics b' !! id =
                  (if decide (id ∈ replica_topics rep) then attach (replica_id rep) r
                   else fun t => t) <$> broker_topics b !! id)).
Proof.
  intros Hrep ids.
  assert (Hids : forall id, id ∈ ids <-> id ∈ replica_topics rep).
  { intros id. subst ids. rewrite merge_sort_Permutation. apply elem_of_elements. }
  split; [apply (StronglySorted_merge_sort Z.le)|]. split; [exact Hids|].
  set (rep1 := set_replica_writer (Some (mkSink d None)) (set_replica_writer None rep)).
  set (w1 := set_heap (<[r := rep1]> (heap (set_heap (<[r := set_replica_writer None rep]> (heap w)) w)))
               (set_heap (<[r := set_replica_writer None rep]> (heap w)) w)).
  assert (Erun : Replica_WriteTo r (mkSink d None) (b, w) = WriteTo_topics r ids (b, w1)).
  { unfold Replica_WriteTo.
    erewrite bind_run; [|apply liftW_run, (closeWriter_run r w rep Hrep)].
    erewrite bind_run; [|apply liftW_run, load_run; cbn; apply lookup_insert_eq].
    erewrite bind_run; [|reflexivity]. reflexivity. }
  rewrite Erun. split.
  - intros id Hhead Hnone. destruct ids as [|id' rest]; [discriminate|].
    injection Hhead as ->. cbn [WriteTo_topics].
    rewrite (bind_run _ _ (b, w1) b (b, w1)) by reflexivity. rewrite Hnone. reflexivity.
  - intros mss Hts out.
    assert (Ha : attached w1 r rep1 d).
    { split; [subst w1; cbn; apply lookup_insert_eq|reflexivity]. }
    destruct (WriteTo_topics_attached r mss ids b w1 rep1 d Ha)
      as (b' & w' & E & (Hf & Hd & Hm & Hh) & Hr & _ & _ & Htop).
    { intros id Hin. apply Hids in Hin. destruct (Hts id Hin) as (t & Ht & [Hh Hb]).
      exists t. split; [exact Ht|]. split; [|exact Hb].
      eapply Forall2_impl; [exact Hh|]. intros s ms [Hwf Hfile]. split; [exact Hwf|exact Hfile]. }
    exists b', w'. split; [exact E|]. split; [rewrite Hf; reflexivity|].
    split; [rewrite Hd; reflexivity|]. split; [rewrite Hm; reflexivity|]. split; [|split].
    + rewrite Hh. subst w1 rep1. cbn. rewrite !insert_insert_eq. reflexivity.
    + exact Hr.
    + intros id. rewrite Htop. destruct (broker_topics b !! id) as [t|]; [|reflexivity].
      cbn. f_equal. destruct (decide (id ∈ ids)) as [Hin|Hni].
      * rewrite decide_True by (apply Hids, Hin). reflexivity.
      * rewrite decide_False; [reflexivity|]. intros Hin. apply Hni, Hids, Hin.
Qed.

(** ** Malformed input *)

Section MalformedInput.
Context `{External}.

Lemma ReadFull_exact (bs rest : list byte) n :
  length bs = n -> ReadFull n (bs ++ rest) = Ret ((bs, None), rest).
Proof. intros <-. apply ReadFull_app. Qed.

(** X24.  [Restore] on a stream that does not start with a header it can
    decode: an empty stream and a stream of 1 to 3 bytes fail reading the
    header size (end of file, unexpected end of file), a stream that ends
    before the announced header length fails reading the header (end of
    file when nothing follows the size, unexpected end of file otherwise),
    and a header that does not decode fails decoding.  In each case the
    broker and the disk are exactly as before: nothing has been closed or
    removed yet. *)
Theorem X24_restore_rejects_bad_header (r : Reader) (b : Broker) (w : World) :
  (r = [] -> Restore r (b, w) = Ret (Some (Errorf "read header size" EOF), (b, w)))
  /\ (r <> [] -> (length r < 4)%nat ->
      Restore r (b, w) = Ret (Some (Errorf "read header size" ErrUnexpectedEOF), (b, w)))
  /\ (forall hd rest,
        r = hd ++ rest -> length hd = 4%nat ->
        let sz := Z.to_nat (getBE hd) in
        (rest = [] -> (0 < sz)%nat ->
           Restore r (b, w) = Ret (Some (Errorf "read header" EOF), (b, w)))
        /\ (rest <> [] -> (length rest < sz)%nat ->
            Restore r (b, w) = Ret (Some (Errorf "read header" ErrUnexpectedEOF), (b, w)))
        /\ (forall buf tl,
              rest = buf ++ tl -> length buf = sz -> json_Unmarshal_header buf = None ->
              Restore r (b, w) = Ret (Some (Errorf "decode header" ErrJSON), (b, w)))).
Proof.
  split; [|split].
  - intros ->. reflexivity.
  - intros Hne Hlen. unfold Restore, ReadFull. cbn [Nat.eqb].
    destruct r as [|x r]; [contradiction|].
    replace (length (x :: r) <? 4)%nat with true by (symmetry; apply Nat.ltb_lt; exact Hlen).
    reflexivity.
  - intros hd rest -> Hhd sz.
    assert (E4 : ReadFull 4 (hd ++ rest) = Ret ((hd, None), rest))
      by (apply ReadFull_exact, Hhd).
    split; [|split].
    + intros -> Hsz. unfold Restore. rewrite E4. fold sz.
      rewrite ReadFull_nil by lia. reflexivity.
    + intros Hne Hlen. unfold Restore. rewrite E4. fold sz.
      rewrite ReadFull_short by (try assumption; lia). reflexivity.
    + intros buf tl -> Hbuf Hjson. unfold Restore. rewrite E4. fold sz.
      rewrite (ReadFull_exact buf tl sz Hbuf), Hjson. reflexivity.
Qed.

Lemma UnmarshalBinary_short (d : list byte) :
  (length d < 22)%nat -> UnmarshalBinary d = Panic SliceOutOfRange.
Proof.
  intros Hlen. unfold UnmarshalBinary, unmarshalHeader.
  replace (length d <? messageHeaderSize)%nat with true
    by (symmetry; apply Nat.ltb_lt; exact Hlen).
  reflexivity.
Qed.

Lemma MustApply_panics e b w p :
  entryMessage e (b, w) = Panic p -> MustApply e (b, w) = Panic p.
Proof. intros E. unfold MustApply, bind. rewrite E. reflexivity. Qed.

Lemma entryMessage_command e m b w :
  e_Type e = LogEntryCommand ->
  UnmarshalBinary (e_Data e) = Ret (m, None) ->
  entryMessage e (b, w) = (applyCommand m ;;; ret m) (b, w).
Proof. intros Ht Hu. unfold entryMessage. rewrite Ht, Hu. reflexivity. Qed.

(** X25.  [MustApply] on a command entry that is not a well-formed command.
    Data shorter than the 22-byte header panics on the slice bounds; data
    that [UnmarshalBinary] rejects fails the assertion; a configuration
    command whose payload does not decode panics in [mustUnmarshalJSON].
    A message of any other type changes no configuration: it is only
    appended to its topic. *)
Theorem X25_apply_rejects_malformed_entries (e : LogEntry) (b : Broker) (w : World) :
  e_Type e = LogEntryCommand ->
  ((length (e_Data e) < 22)%nat -> MustApply e (b, w) = Panic SliceOutOfRange)
  /\ (forall m err,
        UnmarshalBinary (e_Data e) = Ret (m, Some err) ->
        MustApply e (b, w) = Panic (AssertFailed "message unmarshal"))
  /\ (forall m,
        UnmarshalBinary (e_Data e) = Ret (m, None) ->
        (Typ m = CreateReplicaMessageType -> json_CreateReplicaCommand (Data m) = None ->
           MustApply e (b, w) = Panic PanicUnmarshal)
        /\ (Typ m = DeleteReplicaMessageType -> json_DeleteReplicaCommand (Data m) = None ->
            MustApply e (b, w) = Panic PanicUnmarshal)
        /\ (Typ m = SubscribeMessageType -> json_SubscribeCommand (Data m) = None ->
            MustApply e (b, w) = Panic PanicUnmarshal)
        /\ (Typ m = UnsubscribeMessageType -> json_UnsubscribeCommand (Data m) = None ->
            MustApply e (b, w) = Panic PanicUnmarshal)
        /\ (~ configuration_type (Typ m) -> entryMessage e (b, w) = Ret (m, (b, w)))).
Proof.
  intros Ht. split; [|split].
  - intros Hlen. apply MustApply_panics. unfold entryMessage.
    rewrite Ht, (UnmarshalBinary_short _ Hlen). reflexivity.
  - intros m err Hu. apply MustApply_panics. unfold entryMessage. rewrite Ht, Hu. reflexivity.
  - intros m Hu. rewrite (entryMessage_command e m b w Ht Hu).
    split; [|split; [|split; [|split]]].
    + intros Hty Hj. apply MustApply_panics. rewrite (entryMessage_command e m b w Ht Hu).
      unfold applyCommand, mustApplyCreateReplica, bind. rewrite Hty, Hj. reflexivity.
    + intros Hty Hj. apply MustApply_panics. rewrite (entryMessage_command e m b w Ht Hu).
      unfold applyCommand, mustApplyDeleteReplica, bind. rewrite Hty, Hj. reflexivity.
    + intros Hty Hj. apply MustApply_panics. rewrite (entryMessage_command e m b w Ht Hu).
      unfold applyCommand, mustApplySubscribe, bind. rewrite Hty, Hj. reflexivity.
    + intros Hty Hj. apply MustApply_panics. rewrite (entryMessage_command e m b w Ht Hu).
      unfold applyCommand, mustApplyUnsubscribe, bind. rewrite Hty, Hj. reflexivity.
    + intros Hnot. unfold applyCommand, configuration_type in *.
      destruct (Z.eqb_spec (Typ m) CreateReplicaMessageType); [tauto|].
      destruct (Z.eqb_spec (Typ m) DeleteReplicaMessageType); [tauto|].
      destruct (Z.eqb_spec (Typ m) SubscribeMessageType); [tauto|].
      destruct (Z.eqb_spec (Typ m) UnsubscribeMessageType); [tauto|].
      reflexivity.
Qed.

End MalformedInput.

(** ** The truncation floor *)

(** X26.  [minReplicaTopicIndex] is 0 when no replica of the broker is
    subscribed to the topic; otherwise it is the index of a subscribed
    replica and no subscribed replica has a lower index. *)
Theorem X26_minReplicaTopicIndex_is_lowest_subscribed_index
    (b : Broker) (w : World) (topicID : Z) :
  ((forall x, ~ subscribed_index b w topicID x)
   /\ minReplicaTopicIndex b w topicID = 0)
  \/ (subscribed_index b w topicID (minReplicaTopicIndex b w topicID)
      /\ forall x, subscribed_index b w topicID x ->
           minReplicaTopicIndex b w topicID <= x).
Proof.
  unfold minReplicaTopicIndex. rewrite minStep_foldl.
  pose proof (elem_of_subscribed b w topicID) as Hel.
  destruct (omap _ _) as [|x xs].
  - left. split; [|reflexivity]. intros x Hx. apply Hel in Hx. inversion Hx.
  - right. cbn [foldl]. cbn [negb orb snd].
    destruct (min_foldl_updated x xs) as (_ & Hin & Hall). split.
    + apply Hel. exact Hin.
    + intros y Hy. apply Hel in Hy. rewrite Forall_forall in Hall. apply Hall. exact Hy.
Qed.

(** ** Catch-up without a writer *)

Lemma pending_app index ms1 ms2 :
  pending index (ms1 ++ ms2) = pending index ms1 ++ pending index ms2.
Proof. unfold pending. apply filter_app. Qed.

Lemma pending_below index ms :
  Forall (fun m => Index m <= index) ms -> pending index ms = [].
Proof.
  induction 1 as [|m ms Hm _ IH]; [reflexivity|].
  unfold pending in *. cbn [filter list_filter].
  destruct (decide (index < Index m)); [lia|exact IH].
Qed.

Lemma Message_WriteTo_detached m r w rep :
  heap w !! r = Some rep -> replica_writer rep = None ->
  Message_WriteTo m r w = Ret (Some errReplicaUnavailable, w).
Proof.
  intros Hrep Hw. unfold Message_WriteTo.
  assert (E : Replica_Write r (marshalHeader m) w = Ret (Some errReplicaUnavailable, w)).
  { unfold Replica_Write. rewrite (bind_run _ _ _ _ _ (load_run _ _ _ Hrep)), Hw. reflexivity. }
  rewrite (bind_run _ _ _ _ _ E). reflexivity.
Qed.

Lemma writeSegmentTo_loop_detached (ms : list Message) r index w rep : forall fuel,
  Forall wf_Message ms ->
  (length ms < fuel)%nat ->
  heap w !! r = Some rep -> replica_writer rep = None ->
  writeSegmentTo_loop fuel r index (concat (map MarshalBinary ms)) w =
    Ret (match pending index ms with
         | [] => None
         | _ => Some (Errorf "write to" errReplicaUnavailable)
         end, w).
Proof.
  induction ms as [|m ms IH]; intros fuel Hwf Hfuel Hrep Hw.
  - destruct fuel as [|fuel]; [cbn in Hfuel; lia|]. reflexivity.
  - destruct fuel as [|fuel]; [cbn in Hfuel; lia|].
    apply Forall_cons in Hwf. destruct Hwf as [Hm Hwf].
    cbn [map concat writeSegmentTo_loop].
    rewrite Decode_MarshalBinary_app by exact Hm.
    unfold pending. cbn [filter list_filter].
    destruct (Z.leb_spec (Index m) index) as [Hle|Hgt].
    + destruct (decide (index < Index m)) as [Hc|_]; [lia|].
      apply IH; [exact Hwf|cbn in Hfuel; lia|exact Hrep|exact Hw].
    + destruct (decide (index < Index m)) as [_|Hc]; [|lia].
      rewrite (bind_run _ _ _ _ _ (Message_WriteTo_detached m r w rep Hrep Hw)).
      reflexivity.
Qed.

Lemma writeSegmentTo_detached r index s ms w rep :
  segment_holds w s ms ->
  heap w !! r = Some rep -> replica_writer rep = None ->
  writeSegmentTo r index s w =
    Ret (match pending index ms with
         | [] => None
         | _ => Some (Errorf "write to" errReplicaUnavailable)
         end, w).
Proof.
  intros [Hwf [Hf|[Hf ->]]] Hrep Hw.
  - unfold writeSegmentTo. rewrite (bind_run _ _ w w w) by reflexivity. rewrite Hf.
    apply (writeSegmentTo_loop_detached ms r index w rep); try assumption.
    pose proof (length_messages_le ms). lia.
  - rewrite writeSegmentTo_missing by exact Hf. reflexivity.
Qed.

Lemma writeTo_segments_detached t r index w rep segs : forall mss,
  Forall2 (segment_holds w) segs mss ->
  segments_bounded segs mss ->
  heap w !! r = Some rep -> replica_writer rep = None ->
  writeTo_segments t r index segs w =
    Ret (match pending index (concat mss) with
         | [] => None
         | _ => Some (Errorf "write segment" (Errorf "write to" errReplicaUnavailable))
         end, w).
Proof.
  induction segs as [|s segs IH]; intros mss Hh Hb Hrep Hw.
  - apply Forall2_nil_inv_l in Hh. subst mss. reflexivity.
  - apply Forall2_cons_inv_l in Hh. destruct Hh as (ms & mss' & Hs & Hrest & ->).
    cbn [concat]. rewrite pending_app. destruct Hb as [Hnext Hb].
    assert (Hcase : (exists n segs', segs = n :: segs' /\ seg_index n <= index)
                    \/ match head segs with Some n => index < seg_index n | None => True end).
    { destruct segs as [|n segs']; [right; exact I|]. cbn.
      destruct (Z.leb_spec (seg_index n) index); [left; eauto|right; assumption]. }
    destruct Hcase as [(n & segs' & -> & Hle)|Hread].
    + rewrite writeTo_segments_skip by exact Hle.
      rewrite (pending_below index ms).
      * apply IH; assumption.
      * eapply Forall_impl; [exact Hnext|]. cbn. intros m Hm. lia.
    + rewrite writeTo_segments_read by exact Hread.
      rewrite (bind_run _ _ _ _ _ (writeSegmentTo_detached r index s ms w rep Hs Hrep Hw)).
      destruct (pending index ms) as [|m0 l0]; [|reflexivity].
      cbn [app]. apply IH; assumption.
Qed.

(** X27.  Catch-up to a replica that has no writer.  When the segment
    files hold well-formed messages, [writeTo] changes nothing; it returns
    nil when no stored message is above the replica's index, and otherwise
    stops at the first such message with the replica-unavailable error,
    wrapped by [writeSegmentTo] and by [writeTo]. *)
Theorem X27_catch_up_without_writer
    (t : topic) (r : loc) (w : World) (rep : Replica) (mss : list (list Message)) :
  heap w !! r = Some rep ->
  replica_writer rep = None ->
  topic_holds w t mss ->
  writeTo t r w =
    Ret (match pending (replica_index rep) (concat mss) with
         | [] => None
         | _ => Some (Errorf "write segment" (Errorf "write to" errReplicaUnavailable))
         end, w).
Proof.
  intros Hrep Hw [Hh Hb]. unfold writeTo.
  rewrite (bind_run _ _ _ _ _ (load_run _ _ _ Hrep)).
  apply (writeTo_segments_detached t r (replica_index rep) w rep); assumption.
Qed.

(** ** Appending without the topic directory *)

Lemma encode_open_fails m t w s :
  topic_index t < Index m ->
  last (topic_segments t) = Some s ->
  seg_size s <= MaxSegmentSize ->
  seg_file s = None ->
  (seg_path s).1 ∉ dirs w ->
  encode m t w = Ret ((t, Some (Errorf "open segment" ErrNotExist)), w).
Proof.
  intros Hi Hl Hs Hf Hdir.
  pose proof (list_lookup_last _ _ Hl) as Hlk.
  unfold encode. unfold assert.
  apply Z.ltb_lt in Hi. rewrite Hi.
  rewrite (bind_run _ _ w tt w) by reflexivity.
  rewrite (bind_run _ _ _ _ _ (segments_last_deref t s w Hl)).
  replace (MaxSegmentSize <? seg_size s) with false
    by (symmetry; apply Z.ltb_ge; exact Hs).
  rewrite (segments_last_Some _ _ Hl).
  set (i := (length (topic_segments t) - 1)%nat) in *.
  assert (Ed : deref t (Some i) w = Ret (s, w)).
  { unfold deref. rewrite Hlk. reflexivity. }
  rewrite (bind_run _ _ _ _ _ Ed). rewrite Hf.
  assert (Eo : segment_open s w = Ret ((s, Some ErrNotExist), w)).
  { unfold segment_open. rewrite decide_False by exact Hdir. reflexivity. }
  erewrite (bind_run _ _ w (assign i s t, Some ErrNotExist));
    [|rewrite (bind_run _ _ _ _ _ Eo); reflexivity].
  cbn iota. unfold assign. rewrite list_insert_id by exact Hlk.
  destruct t; reflexivity.
Qed.

Section AppendFailure.
Context `{External}.

(** X28.  Appending when the topic directory is gone.  If the active
    segment is closed and its directory does not exist, [encode] returns
    the open-segment error and leaves the topic, the disk and the replicas
    as they were: nothing is written and no replica is sent anything.
    [MustApply] turns this error into a panic. *)
Theorem X28_append_fails_without_directory
    (m : Message) (t : topic) (w : World) (s : segment) :
  topic_index t < Index m ->
  last (topic_segments t) = Some s ->
  seg_size s <= MaxSegmentSize ->
  seg_file s = None ->
  (seg_path s).1 ∉ dirs w ->
  encode m t w = Ret ((t, Some (Errorf "open segment" ErrNotExist)), w)
  /\ (forall e b,
        e_Type e = LogEntryInternal ->
        Index m = e_Index e ->
        broker_topics b !! BroadcastTopicID = Some t ->
        MustApply e (b, w) =
          Panic (PanicError (Errorf "encode" (Errorf "open segment" ErrNotExist)))).
Proof.
  intros Hi Hl Hs Hf Hdir. split; [apply (encode_open_fails m t w s); assumption|].
  intros e b Hty Hidx Ht.
  unfold MustApply.
  assert (Ee : entryMessage e (b, w) =
               Ret (mkMessage InternalMessageType BroadcastTopicID 0 [], (b, w))).
  { unfold entryMessage. rewrite Hty. reflexivity. }
  rewrite (bind_run _ _ _ _ _ Ee). cbv zeta. cbn [Typ TopicID Data].
  rewrite (bind_run _ _ _ _ _ (mustCreateTopicIfNotExists_exists _ b w t Ht)).
  assert (El : topic_load (Some BroadcastTopicID) (b, w) = Ret (t, (b, w))).
  { unfold topic_load. rewrite (bind_run _ _ (b, w) b (b, w)) by reflexivity.
    rewrite Ht. reflexivity. }
  rewrite (bind_run _ _ _ _ _ El).
  erewrite bind_run;
    [|apply liftW_run, (encode_open_fails _ t w s); try assumption;
      cbn [Index]; rewrite <- Hidx; exact Hi].
  cbn iota. erewrite bind_run; [|reflexivity]. reflexivity.
Qed.

End AppendFailure.

(** ** Applying a log entry *)

Section ApplyEntry.
Context `{External}.

Lemma topic_opened_mono w w' t :
  dirs w ⊆ dirs w' -> dom (heap w) ⊆ dom (heap w') ->
  topic_opened w t -> topic_opened w' t.
Proof.
  intros Hd Hh [(s & Hl & Ho) Hr]. split.
  - exists s. split; [exact Hl|].
    destruct Ho as [Ho|Ho]; [left; exact Ho|right; set_solver].
  - intros id r Hid. apply Hr in Hid.
    apply elem_of_dom. apply Hh. apply elem_of_dom. exact Hid.
Qed.

Lemma topic_opened_le w w' t : topic_opened w t -> world_le w w' -> topic_opened w' t.
Proof. intros Ht (_ & Hd & Hh). eapply topic_opened_mono; eassumption. Qed.

Lemma broker_opened_le b w w' : broker_opened b w -> world_le w w' -> broker_opened b w'.
Proof.
  intros (Hp & Hr) Hle. split; [exact Hp|]. eapply replicas_live_le; eassumption.
Qed.

Lemma topic_opened_set_replicas w t rs :
  topic_opened w t -> replicas_live rs w -> topic_opened w (set_topic_replicas rs t).
Proof. intros [Hs _] Hr. split; [exact Hs|exact Hr]. Qed.

Lemma active_size_registered b w id t :
  broker_topics b !! id = Some t ->
  active_size b w id = match last (topic_segments t) with
                       | Some s => seg_size s
                       | None => 0
                       end.
Proof. intros Ht. unfold active_size. rewrite Ht. reflexivity. Qed.

Lemma active_size_le b w w' id : world_le w w' -> active_size b w' id = active_size b w id.
Proof.
  intros (Hf & _). unfold active_size. rewrite (openedTopic_ext id w w' Hf). reflexivity.
Qed.

Lemma active_size_set_topic_replicas b w id0 t rs id :
  broker_topics b !! id0 = Some t ->
  active_size (set_broker_topics (<[id0 := set_topic_replicas rs t]> (broker_topics b)) b) w id
  = active_size b w id.
Proof.
  intros Ht. unfold active_size. cbn [broker_topics set_broker_topics].
  destruct (decide (id0 = id)) as [<-|Hne].
  - rewrite lookup_insert_eq, Ht. reflexivity.
  - rewrite lookup_insert_ne by exact Hne. reflexivity.
Qed.

Lemma active_size_new_topic b w id0 id :
  broker_topics b !! id0 = None ->
  active_size (set_broker_topics (<[id0 := openedTopic id0 w]> (broker_topics b)) b) w id
  = active_size b w id.
Proof.
  intros Ht. unfold active_size. cbn [broker_topics set_broker_topics].
  destruct (decide (id0 = id)) as [<-|Hne].
  - rewrite lookup_insert_eq, Ht. reflexivity.
  - rewrite lookup_insert_ne by exact Hne. reflexivity.
Qed.

Lemma loadedSegments_paths t w :
  Forall (fun s => seg_file s = None /\ (seg_path s).1 = topic_path t) (loadedSegments t w).
Proof.
  unfold loadedSegments.
  match goal with |- context [merge_sort segment_le ?l0] => set (l := l0) end.
  assert (Hl : Forall (fun s => seg_file s = None /\ (seg_path s).1 = topic_path t)
                 (merge_sort segment_le l)).
  { rewrite merge_sort_Permutation. subst l. apply Forall_forall. intros s Hs.
    apply list_elem_of_In, in_map_iff in Hs. destruct Hs as ([i sz] & <- & _).
    split; reflexivity. }
  destruct (merge_sort segment_le l); [|exact Hl].
  constructor; [split; reflexivity|constructor].
Qed.

Lemma openedTopic_opened id w : id ∈ dirs w -> topic_opened w (openedTopic id w).
Proof.
  intros Hd. split.
  - unfold openedTopic. cbn [topic_segments set_topic_segments].
    pose proof (loadedSegments_paths (mkTopic id 0 id [] ∅) w) as Hall.
    pose proof (loadedSegments_nonempty (mkTopic id 0 id [] ∅) w) as Hne.
    destruct (last (loadedSegments (mkTopic id 0 id [] ∅) w)) as [s|] eqn:El.
    + exists s. split; [reflexivity|]. right.
      rewrite Forall_forall in Hall. destruct (Hall s) as [_ Hp].
      { apply last_Some in El. destruct El as [l' ->].
        apply elem_of_app. right. apply list_elem_of_here. }
      rewrite Hp. exact Hd.
    + apply last_None in El. contradiction.
  - intros id' r Hr. cbn in Hr. rewrite lookup_empty in Hr. discriminate.
Qed.

(** The topic [createTopicIfNotExists] installs on an open broker. *)
Lemma createTopicIfNotExists_new id b w :
  broker_topics b !! id = None -> broker_path b <> EmptyString ->
  exists m,
    createTopicIfNotExists id (b, w) =
      Ret ((Some id, None),
           (set_broker_topics (<[id := openedTopic id w]> (broker_topics b)) b,
            set_dirs ({[id]} ∪ dirs w) (set_meta m w))).
Proof.
  intros Hnone Hp. unfold createTopicIfNotExists.
  rewrite (bind_run _ _ (b, w) b (b, w)) by reflexivity. rewrite Hnone.
  unfold newTopic. erewrite bind_run; [|reflexivity]. cbv beta.
  set (b1 := set_broker_topics (<[id := mkTopic id 0 id [] ∅]> (broker_topics b)) b).
  rewrite (bind_run _ _ _ _ _ (save_open b1 w Hp)).
  set (m := Some (json_Marshal_header _)). exists m.
  rewrite (bind_run _ _ _ _ _
             (liftW_run _ _ _ _ b1 (topic_open_run (mkTopic id 0 id [] ∅) (set_meta m w) eq_refl))).
  cbn iota. unfold topic_store, modifyB, bind, ret. subst b1. cbn.
  rewrite insert_insert_eq.
  rewrite (loadedSegments_ext (mkTopic id 0 id [] ∅) w (set_meta m w) eq_refl).
  reflexivity.
Qed.

Lemma kept_refl k b w : broker_opened b w -> topics_below k b -> kept k b w b w.
Proof.
  intros Hr Hb. split; [exact Hr|]. split; [exact Hb|]. split; [apply world_le_refl|].
  split; [reflexivity|]. split; [reflexivity|].
  intros id t' Ht' Hold. apply (Hold _ Ht').
Qed.

Lemma kept_trans k b0 w0 b1 w1 b2 w2 :
  kept k b0 w0 b1 w1 -> kept k b1 w1 b2 w2 -> kept k b0 w0 b2 w2.
Proof.
  intros (_ & _ & Hle1 & Hi1 & Hs1 & Ht1) (Hr & Hb & Hle2 & Hi2 & Hs2 & Ht2).
  split; [exact Hr|]. split; [exact Hb|].
  split; [eapply world_le_trans; eassumption|]. split; [congruence|]. split.
  - intros id. rewrite Hs2. apply Hs1.
  - intros id t2 Hid Hold. apply (Ht2 id t2 Hid).
    intros t1 Hid1. apply (Ht1 id t1 Hid1 Hold).
Qed.

Lemma kept_world k b w w' :
  broker_opened b w -> topics_below k b -> world_le w w' -> kept k b w b w'.
Proof.
  intros Hr Hb Hle.
  split; [eapply broker_opened_le; eassumption|].
  split; [exact Hb|]. split; [exact Hle|]. split; [reflexivity|]. split.
  - intros id. apply active_size_le. exact Hle.
  - intros id t' Ht' Hold. eapply topic_opened_le; [apply (Hold _ Ht')|exact Hle].
Qed.

Lemma kept_replicas k b w rs :
  broker_opened b w -> topics_below k b -> replicas_live rs w ->
  kept k b w (set_broker_replicas rs b) w.
Proof.
  intros (Hp & Hr) Hb Hrs.
  split; [split; [exact Hp|exact Hrs]|].
  split; [exact Hb|]. split; [apply world_le_refl|]. split; [reflexivity|].
  split; [reflexivity|].
  intros id t' Ht' Hold. apply (Hold _ Ht').
Qed.

Lemma kept_set_topic_replicas k b w id t rs :
  broker_opened b w -> topics_below k b ->
  broker_topics b !! id = Some t ->
  (replicas_live (topic_replicas t) w -> replicas_live rs w) ->
  kept k b w (set_broker_topics (<[id := set_topic_replicas rs t]> (broker_topics b)) b) w.
Proof.
  intros Hr Hb Ht Hrs.
  split; [exact Hr|]. split; [|split; [apply world_le_refl|split; [reflexivity|split]]].
  - apply topics_below_insert; [exact Hb|]. cbn. eapply Hb. exact Ht.
  - intros id'. apply active_size_set_topic_replicas. exact Ht.
  - intros id' t' Ht' Hold. cbn [broker_topics set_broker_topics] in Ht'.
    destruct (decide (id = id')) as [<-|Hne].
    + rewrite lookup_insert_eq in Ht'. injection Ht' as <-.
      pose proof (Hold _ Ht) as Hop.
      apply topic_opened_set_replicas; [exact Hop|]. apply Hrs. apply Hop.
    + rewrite lookup_insert_ne in Ht' by exact Hne. apply (Hold _ Ht').
Qed.

(** On an open broker [createTopicIfNotExists] returns the topic. *)
Lemma createTopicIfNotExists_opened k id b w :
  broker_opened b w -> topics_below k b -> 0 < k ->
  exists b' w',
    createTopicIfNotExists id (b, w) = Ret ((Some id, None), (b', w'))
    /\ kept k b w b' w'
    /\ is_Some (broker_topics b' !! id)
    /\ broker_replicas b' = broker_replicas b
    /\ heap w' = heap w.
Proof.
  intros Hr Hb Hk.
  destruct (broker_topics b !! id) as [t|] eqn:Et.
  - exists b, w. split.
    + unfold createTopicIfNotExists.
      rewrite (bind_run _ _ (b, w) b (b, w)) by reflexivity. rewrite Et. reflexivity.
    + split; [apply kept_refl; assumption|]. rewrite Et. eauto.
  - pose proof Hr as (Hp & Hlive).
    destruct (createTopicIfNotExists_new id b w Et Hp) as (m & E).
    rewrite E. do 2 eexists. split; [reflexivity|].
    set (w' := set_dirs _ _).
    assert (Hle : world_le w w') by (repeat split; cbn; set_solver).
    split; [|split; [|split; reflexivity]].
    + split; [apply (broker_opened_le b w w' Hr Hle)|].
      split; [apply topics_below_insert; [exact Hb|exact Hk]|].
      split; [exact Hle|]. split; [reflexivity|]. split.
      * intros id'. rewrite (active_size_le _ w w' id' Hle).
        apply active_size_new_topic. exact Et.
      * intros id' t' Ht' Hold. cbn [broker_topics set_broker_topics] in Ht'.
        destruct (decide (id = id')) as [<-|Hne].
        -- rewrite lookup_insert_eq in Ht'. injection Ht' as <-.
           rewrite <- (openedTopic_ext id w w') by reflexivity.
           apply openedTopic_opened. subst w'. cbn. set_solver.
        -- rewrite lookup_insert_ne in Ht' by exact Hne.
           eapply topic_opened_le; [apply (Hold _ Ht')|exact Hle].
    + cbn. rewrite lookup_insert_eq. eauto.
Qed.

Lemma mustCreateTopicIfNotExists_opened k id b w :
  broker_opened b w -> topics_below k b -> 0 < k ->
  exists b' w' t,
    mustCreateTopicIfNotExists id (b, w) = Ret (Some id, (b', w'))
    /\ kept k b w b' w'
    /\ broker_topics b' !! id = Some t
    /\ heap w' = heap w
    /\ broker_replicas b' = broker_replicas b.
Proof.
  intros Hr Hb Hk.
  destruct (createTopicIfNotExists_opened k id b w Hr Hb Hk)
    as (b' & w' & E & Hkept & [t Ht] & Hrep & Hh).
  exists b', w', t. unfold mustCreateTopicIfNotExists.
  rewrite (bind_run _ _ _ _ _ E). auto.
Qed.

Lemma mustSave_kept k b0 w0 b w :
  kept k b0 w0 b w ->
  exists w', mustSave (b, w) = Ret (tt, (b, w')) /\ kept k b0 w0 b w'.
Proof.
  intros Hkept. destruct (mustSave_run b w) as (m & E).
  eexists. split; [exact E|].
  eapply kept_trans; [exact Hkept|].
  destruct Hkept as (Hr & Hb & _).
  apply kept_world; [exact Hr|exact Hb|apply world_le_set_meta].
Qed.

Lemma mustApplyCreateReplica_kept k m c u b w :
  json_CreateReplicaCommand (Data m) = Some c ->
  url_Parse (crc_URL c) = Some u ->
  broker_opened b w -> topics_below k b -> 0 < k ->
  exists b' w', mustApplyCreateReplica m (b, w) = Ret (tt, (b', w')) /\ kept k b w b' w'.
Proof.
  intros Hc Hu Hr Hb Hk. unfold mustApplyCreateReplica. rewrite Hc.
  unfold newReplica. rewrite Hu.
  erewrite bind_run; [|reflexivity].
  set (r := fresh (dom (heap w))). set (w1 := set_heap _ w).
  assert (Hle1 : world_le w w1) by apply world_le_alloc.
  pose proof (kept_world k b w w1 Hr Hb Hle1) as Hk1.
  destruct (createTopicIfNotExists_opened k BroadcastTopicID b w1
              (broker_opened_le _ _ _ Hr Hle1) Hb Hk)
    as (b2 & w2 & E & Hk2 & _ & Hrep2 & Hh2).
  rewrite (bind_run _ _ _ _ _ E).
  assert (Hl : heap w2 !! r = Some (mkReplica u (crc_ID c) 0 None ∅)).
  { rewrite Hh2. subst w1. cbn. apply lookup_insert_eq. }
  rewrite (bind_run _ _ _ _ _ (liftW_run _ _ _ _ b2 (load_run _ _ _ Hl))).
  erewrite bind_run; [|reflexivity].
  erewrite bind_run; [|reflexivity].
  match goal with |- context [mustSave (?b0, ?w0)] =>
    set (w3 := w0); set (b3 := b0) end.
  assert (Hle3 : world_le w2 w3) by (apply world_le_store; rewrite Hl; eauto).
  assert (Hk3 : kept k b w b3 w3).
  { eapply kept_trans; [exact Hk1|]. eapply kept_trans; [exact Hk2|].
    destruct Hk2 as (Hr2 & Hb2 & _).
    eapply kept_trans; [apply (kept_world k b2 w2 w3 Hr2 Hb2 Hle3)|].
    apply kept_replicas; [eapply broker_opened_le; eassumption|exact Hb2|].
    apply replicas_live_insert.
    - eapply replicas_live_le; [apply Hr2|exact Hle3].
    - subst w3. cbn. rewrite lookup_insert_eq. eauto. }
  destruct (mustSave_kept k b w b3 w3 Hk3) as (w4 & E4 & Hk4).
  rewrite E4. eauto.
Qed.

Lemma mustApplyUnsubscribe_kept k m b w :
  is_Some (json_UnsubscribeCommand (Data m)) ->
  broker_opened b w -> topics_below k b ->
  exists b' w', mustApplyUnsubscribe m (b, w) = Ret (tt, (b', w')) /\ kept k b w b' w'.
Proof.
  intros [c Hc] Hr Hb. unfold mustApplyUnsubscribe. rewrite Hc.
  rewrite (bind_run _ _ (b, w) b (b, w)) by reflexivity.
  assert (H1 : exists w1,
             match broker_replicas b !! uc_ReplicaID c with
             | Some r =>
                 rep <- liftW (load r) ;;
                 liftW (store r (set_replica_topics
                                   (replica_topics rep ∖ {[uc_TopicID c]}) rep))
             | None => ret tt
             end (b, w) = Ret (tt, (b, w1)) /\ world_le w w1).
  { destruct (broker_replicas b !! uc_ReplicaID c) as [r|] eqn:Er.
    - destruct Hr as (_ & Hlive). destruct (Hlive _ _ Er) as [rep Hrep].
      rewrite (bind_run _ _ _ _ _ (liftW_run _ _ _ _ b (load_run _ _ _ Hrep))).
      eexists. split; [reflexivity|]. apply world_le_store. rewrite Hrep. eauto.
    - exists w. split; [reflexivity|apply world_le_refl]. }
  destruct H1 as (w1 & E1 & Hle1). rewrite (bind_run _ _ _ _ _ E1).
  pose proof (broker_opened_le _ _ _ Hr Hle1) as Hr1.
  assert (H2 : exists b2,
             match broker_topics b !! uc_TopicID c with
             | Some t =>
                 topic_store (uc_TopicID c)
                   (set_topic_replicas (delete (uc_ReplicaID c) (topic_replicas t)) t)
             | None => ret tt
             end (b, w1) = Ret (tt, (b2, w1)) /\ kept k b w1 b2 w1).
  { destruct (broker_topics b !! uc_TopicID c) as [t|] eqn:Et.
    - eexists. split; [reflexivity|].
      apply kept_set_topic_replicas; [exact Hr1|exact Hb|exact Et|].
      apply replicas_live_delete.
    - exists b. split; [reflexivity|]. apply kept_refl; assumption. }
  destruct H2 as (b2 & E2 & Hk2). rewrite (bind_run _ _ _ _ _ E2).
  assert (Hk2' : kept k b w b2 w1).
  { eapply kept_trans; [apply (kept_world k b w w1 Hr Hb Hle1)|exact Hk2]. }
  destruct (mustSave_kept k b w b2 w1 Hk2') as (w3 & E3 & Hk3). rewrite E3.
  do 2 eexists. split; [reflexivity|exact Hk3].
Qed.

Lemma mustApplySubscribe_kept k m b w :
  is_Some (json_SubscribeCommand (Data m)) ->
  broker_opened b w -> topics_below k b -> 0 < k ->
  exists b' w', mustApplySubscribe m (b, w) = Ret (tt, (b', w')) /\ kept k b w b' w'.
Proof.
  intros [c Hc] Hr Hb Hk. unfold mustApplySubscribe. rewrite Hc.
  rewrite (bind_run _ _ (b, w) b (b, w)) by reflexivity.
  destruct (broker_replicas b !! sc_ReplicaID c) as [r|] eqn:Er.
  2:{ exists b, w. split; [reflexivity|]. apply kept_refl; assumption. }
  destruct (mustCreateTopicIfNotExists_opened k (sc_TopicID c) b w Hr Hb Hk)
    as (b2 & w2 & t & E2 & Hk2 & Ht & Hh2 & Hrep2).
  rewrite (bind_run _ _ _ _ _ E2).
  destruct Hr as (Hp & Hlive).
  destruct (Hlive _ _ Er) as [rep Hrep]. rewrite <- Hh2 in Hrep.
  rewrite (bind_run _ _ _ _ _ (liftW_run _ _ _ _ b2 (load_run _ _ _ Hrep))).
  destruct (decide (sc_TopicID c ∈ replica_topics rep)) as [Hin|Hnin].
  { exists b2, w2. split; [reflexivity|exact Hk2]. }
  erewrite bind_run; [|reflexivity]. cbv beta.
  match goal with |- context [set_heap ?h w2] => set (w3 := set_heap h w2) end.
  assert (Hle3 : world_le w2 w3) by (apply world_le_store; rewrite Hrep; eauto).
  assert (Hr3 : is_Some (heap w3 !! r)).
  { subst w3. cbn. rewrite lookup_insert_eq. eauto. }
  assert (El : topic_load (Some (sc_TopicID c)) (b2, w3) = Ret (t, (b2, w3))).
  { unfold topic_load. rewrite (bind_run _ _ (b2, w3) b2 (b2, w3)) by reflexivity.
    rewrite Ht. reflexivity. }
  rewrite (bind_run _ _ _ _ _ El).
  erewrite bind_run; [|reflexivity].
  match goal with |- context [writeTo ?t0 r] =>
    destruct (writeTo_total t0 r w3 Hr3) as (err & w5 & E5 & H5);
    rewrite (bind_run _ _ _ _ _ (liftW_run _ _ _ _ _ E5)) end.
  pose proof Hk2 as (Hr2 & Hb2 & _).
  pose proof (broker_opened_le _ _ _ Hr2 Hle3) as Hr23.
  match goal with |- context [mustSave (?b0, w5)] => set (b4 := b0) end.
  assert (Hk4 : kept k b2 w3 b4 w3).
  { apply kept_set_topic_replicas; [exact Hr23|exact Hb2|exact Ht|].
    intros Hl. apply replicas_live_insert; [exact Hl|exact Hr3]. }
  assert (Hk5 : kept k b w b4 w5).
  { eapply kept_trans; [exact Hk2|].
    eapply kept_trans; [apply (kept_world k b2 w2 w3 Hr2 Hb2 Hle3)|].
    eapply kept_trans; [exact Hk4|].
    destruct Hk4 as (Hr4 & Hb4 & _).
    apply kept_world; [exact Hr4|exact Hb4|apply same_disk_world_le; exact H5]. }
  destruct (mustSave_kept k b w b4 w5 Hk5) as (w6 & E6 & Hk6). rewrite E6. eauto.
Qed.

Lemma detach_loop_kept k rid (l : list Z) : forall b w,
  broker_opened b w -> topics_below k b ->
  exists b',
    for_each l
      (fun topicID =>
         b <- getB ;;
         match broker_topics b !! topicID with
         | Some t =>
             topic_store topicID
               (set_topic_replicas (delete rid (topic_replicas t)) t)
         | None => ret tt
         end) (b, w) = Ret (tt, (b', w))
    /\ kept k b w b' w.
Proof.
  induction l as [|tid l IH]; intros b w Hr Hb.
  - exists b. split; [reflexivity|]. apply kept_refl; assumption.
  - cbn [for_each].
    assert (H1 : exists b1,
               (b <- getB ;;
                match broker_topics b !! tid with
                | Some t =>
                    topic_store tid
                      (set_topic_replicas (delete rid (topic_replicas t)) t)
                | None => ret tt
                end) (b, w) = Ret (tt, (b1, w)) /\ kept k b w b1 w).
    { rewrite (bind_run _ _ (b, w) b (b, w)) by reflexivity.
      destruct (broker_topics b !! tid) as [t|] eqn:Et.
      - eexists. split; [reflexivity|].
        apply kept_set_topic_replicas; [exact Hr|exact Hb|exact Et|].
        apply replicas_live_delete.
      - exists b. split; [reflexivity|]. apply kept_refl; assumption. }
    destruct H1 as (b1 & E1 & Hk1). rewrite (bind_run _ _ _ _ _ E1).
    pose proof Hk1 as (Hr1 & Hb1 & _).
    destruct (IH b1 w Hr1 Hb1) as (b2 & E2 & Hk2).
    exists b2. split; [exact E2|].
    eapply kept_trans; eassumption.
Qed.

Lemma mustApplyDeleteReplica_kept k m b w :
  is_Some (json_DeleteReplicaCommand (Data m)) ->
  broker_opened b w -> topics_below k b ->
  exists b' w', mustApplyDeleteReplica m (b, w) = Ret (tt, (b', w')) /\ kept k b w b' w'.
Proof.
  intros [c Hc] Hr Hb. unfold mustApplyDeleteReplica. rewrite Hc.
  rewrite (bind_run _ _ (b, w) b (b, w)) by reflexivity.
  destruct (broker_replicas b !! drc_ID c) as [r|] eqn:Er.
  2:{ exists b, w. split; [reflexivity|]. apply kept_refl; assumption. }
  pose proof Hr as (_ & Hlive).
  destruct (Hlive _ _ Er) as [rep Hrep].
  rewrite (bind_run _ _ _ _ _ (liftW_run _ _ _ _ b (load_run _ _ _ Hrep))).
  destruct (detach_loop_kept k (replica_id rep) (elements (replica_topics rep)) b w Hr Hb)
    as (b1 & E1 & Hk1).
  rewrite (bind_run _ _ _ _ _ E1).
  erewrite bind_run; [|reflexivity]. cbv beta.
  match goal with |- context [set_heap ?h w] => set (w2 := set_heap h w) end.
  assert (Hle2 : world_le w w2) by (apply world_le_store; rewrite Hrep; eauto).
  assert (Hr2 : is_Some (heap w2 !! r)).
  { subst w2. cbn. rewrite lookup_insert_eq. eauto. }
  destruct (closeWriter_ok r w2 Hr2) as (w3 & E3 & H3).
  rewrite (bind_run _ _ _ _ _ (liftW_run _ _ _ _ b1 E3)).
  erewrite bind_run; [|reflexivity]. cbv beta.
  match goal with |- context [mustSave (?b0, w3)] => set (b4 := b0) end.
  pose proof Hk1 as (Hr1 & Hb1 & _).
  assert (Hle3 : world_le w w3).
  { eapply world_le_trans; [exact Hle2|apply same_disk_world_le; exact H3]. }
  assert (Hk4 : kept k b w b4 w3).
  { eapply kept_trans; [exact Hk1|].
    eapply kept_trans; [apply (kept_world k b1 w w3 Hr1 Hb1 Hle3)|].
    apply kept_replicas; [eapply broker_opened_le; eassumption|exact Hb1|].
    apply replicas_live_delete. eapply replicas_live_le; [apply Hr1|exact Hle3]. }
  destruct (mustSave_kept k b w b4 w3 Hk4) as (w5 & E5 & Hk5). rewrite E5. eauto.
Qed.

Lemma applyCommand_kept k m b w :
  command_ok m -> broker_opened b w -> topics_below k b -> 0 < k ->
  exists b' w', applyCommand m (b, w) = Ret (tt, (b', w')) /\ kept k b w b' w'.
Proof.
  intros (Hc & Hd & Hs & Hu) Hr Hb Hk. unfold applyCommand.
  destruct (Z.eqb_spec (Typ m) CreateReplicaMessageType) as [E|_].
  { destruct (Hc E) as (c & u & Hjc & Hju).
    eapply mustApplyCreateReplica_kept; eassumption. }
  destruct (Z.eqb_spec (Typ m) DeleteReplicaMessageType) as [E|_].
  { apply mustApplyDeleteReplica_kept; auto. }
  destruct (Z.eqb_spec (Typ m) SubscribeMessageType) as [E|_].
  { apply mustApplySubscribe_kept; auto. }
  destruct (Z.eqb_spec (Typ m) UnsubscribeMessageType) as [E|_].
  { apply mustApplyUnsubscribe_kept; auto. }
  exists b, w. split; [reflexivity|]. apply kept_refl; assumption.
Qed.

Lemma entryMessage_kept k e b w :
  (e_Type e = LogEntryCommand ->
     exists m0, UnmarshalBinary (e_Data e) = Ret (m0, None) /\ command_ok m0) ->
  broker_opened b w -> topics_below k b -> 0 < k ->
  exists m b' w',
    entryMessage e (b, w) = Ret (m, (b', w')) /\ kept k b w b' w'
    /\ (e_Type e = LogEntryInternal ->
          Typ m = InternalMessageType /\ TopicID m = BroadcastTopicID /\ Data m = [])
    /\ (e_Type e = LogEntryCommand -> UnmarshalBinary (e_Data e) = Ret (m, None)).
Proof.
  intros He Hr Hb Hk. unfold entryMessage. destruct (e_Type e).
  - destruct (He eq_refl) as (m0 & Hm0 & Hok). rewrite Hm0.
    destruct (applyCommand_kept k m0 b w Hok Hr Hb Hk) as (b' & w' & E & Hkept).
    rewrite (bind_run _ _ _ _ _ E).
    exists m0, b', w'. split; [reflexivity|]. split; [exact Hkept|].
    split; [discriminate|reflexivity].
  - do 3 eexists. split; [reflexivity|]. split; [apply kept_refl; assumption|].
    split; [intros _; repeat split|discriminate].
Qed.

Lemma replicas_live_dom rs w w' :
  dom (heap w) ⊆ dom (heap w') -> replicas_live rs w -> replicas_live rs w'.
Proof.
  intros Hd Hl id r Hr. apply Hl in Hr.
  apply elem_of_dom. apply Hd. apply elem_of_dom. exact Hr.
Qed.

(** *** What a returning [encode] has done *)

Lemma Replica_Write_files r p w err w' :
  Replica_Write r p w = Ret (err, w') -> files w' = files w.
Proof.
  intros E. destruct (heap w !! r) as [rep|] eqn:Hr.
  - destruct (Replica_Write_ok r p w) as (err0 & w0 & E0 & Hd); [eauto|].
    rewrite E0 in E. injection E as <- <-. apply Hd.
  - unfold Replica_Write, bind, load in E. rewrite Hr in E. discriminate.
Qed.

Lemma fanout_files (l : list (Z * loc)) p : forall w w',
  for_each l (fun '(_, r) => _ <- Replica_Write r p ;; ret tt) w = Ret (tt, w') ->
  files w' = files w.
Proof.
  induction l as [|[k r] l IH]; intros w w' E.
  - injection E as <-. reflexivity.
  - cbn [for_each] in E. unfold bind at 1 2 in E.
    destruct (Replica_Write r p w) as [[err w1]|] eqn:E1; [|discriminate].
    unfold ret at 1 in E. apply IH in E. rewrite E.
    eapply Replica_Write_files. exact E1.
Qed.

Lemma encode_no_segment m t w :
  topic_segments t = [] -> exists p, encode m t w = Panic p.
Proof.
  intros Hnil. unfold encode, bind, assert. rewrite Hnil.
  destruct (topic_index t <? Index m); eexists; reflexivity.
Qed.

Lemma encode_Ret_appends m t w t' w' :
  encode m t w = Ret ((t', None), w') ->
  exists s h,
    last (topic_segments t') = Some s /\ seg_file s = Some h
    /\ topic_index t' = Index m
    /\ files w' !! h = Some (default [] (files w !! h) ++ MarshalBinary m).
Proof.
  intros E. pose proof (encode_Ret_inv _ _ _ _ _ _ E) as (Hi & Hti & _).
  destruct (last (topic_segments t)) as [s|] eqn:Hl.
  2:{ apply last_None in Hl. destruct (encode_no_segment m t w Hl) as [p Hp]. congruence. }
  destruct (Z.ltb_spec MaxSegmentSize (seg_size s)) as [Hbig|Hs].
  { rewrite (encode_rollover m t w s Hl Hbig Hi) in E. discriminate. }
  assert (Hopen : is_Some (seg_file s) \/ (seg_path s).1 ∈ dirs w).
  { destruct (seg_file s) as [h|] eqn:Hf; [left; eauto|].
    destruct (decide ((seg_path s).1 ∈ dirs w)) as [Hd|Hd]; [right; exact Hd|].
    rewrite (encode_open_fails m t w s Hi Hl Hs Hf Hd) in E. discriminate. }
  rewrite (encode_run m t w s Hi Hl Hs Hopen) in E. cbv zeta in E.
  set (h := default (seg_path s) (seg_file s)) in *.
  unfold bind at 1 in E.
  match type of E with
  | match ?c with _ => _ end = _ => destruct c as [[[] w1]|] eqn:Ef; [|discriminate]
  end.
  injection E as <- <-.
  exists (set_seg_file (Some h) s), h.
  split; [|split; [reflexivity|split; [reflexivity|]]].
  - cbn [topic_segments set_topic_index assign set_topic_segments].
    rewrite last_lookup, length_insert.
    replace (pred (length (topic_segments t))) with (length (topic_segments t) - 1)%nat by lia.
    apply list_lookup_insert_eq. apply list_lookup_last in Hl.
    eapply lookup_lt_Some. exact Hl.
  - rewrite (fanout_files _ _ _ _ Ef). cbn [files set_files].
    apply lookup_insert_eq.
Qed.

Lemma entryMessage_Ret_inv e s m s' :
  entryMessage e s = Ret (m, s') ->
  (e_Type e = LogEntryInternal ->
     Typ m = InternalMessageType /\ TopicID m = BroadcastTopicID /\ Data m = [])
  /\ (e_Type e = LogEntryCommand -> UnmarshalBinary (e_Data e) = Ret (m, None)).
Proof.
  unfold entryMessage. destruct (e_Type e).
  - destruct (UnmarshalBinary (e_Data e)) as [[m0 [err|]]|p]; try discriminate.
    unfold bind. destruct (applyCommand m0 s) as [[[] s1]|]; [|discriminate].
    intros [= <- <-]. split; [discriminate|reflexivity].
  - intros [= <- <-]. split; [intros _; repeat split|discriminate].
Qed.

(** Whatever the broker and the disk, a [MustApply] that returns has
    appended the message. *)
Lemma MustApply_Ret_inv e b w b' w' :
  MustApply e (b, w) = Ret (tt, (b', w')) ->
  exists m t' s h c,
    stamped e m
    /\ broker_topics b' !! TopicID m = Some t'
    /\ topic_index t' = e_Index e
    /\ last (topic_segments t') = Some s /\ seg_file s = Some h
    /\ files w' !! h = Some (c ++ MarshalBinary m)
    /\ broker_index b' = e_Index e.
Proof.
  intros E.
  destruct (entryMessage e (b, w)) as [[m1 [b1 w1]]|p] eqn:E1.
  2:{ rewrite (MustApply_panics _ _ _ _ E1) in E. discriminate. }
  pose proof (entryMessage_Ret_inv _ _ _ _ E1) as (Hint & Hcmd).
  unfold MustApply in E. rewrite (bind_run _ _ _ _ _ E1) in E. cbv zeta in E.
  set (m := mkMessage (Typ m1) (TopicID m1) (e_Index e) (Data m1)) in *.
  cbn [TopicID m] in E.
  destruct (mustCreateTopicIfNotExists (TopicID m1) (b1, w1)) as [[ot [b2 w2]]|p] eqn:E2.
  2:{ unfold bind at 1 in E. rewrite E2 in E. discriminate. }
  rewrite (bind_run _ _ _ _ _ E2) in E.
  rewrite (proj1 (mustCreateTopicIfNotExists_inv _ _ _ _ _ _ E2)) in E.
  destruct (broker_topics b2 !! TopicID m1) as [t0|] eqn:Ht0.
  2:{ assert (Ep : topic_load (Some (TopicID m1)) (b2, w2) = Panic NilDereference).
      { unfold topic_load. rewrite (bind_run _ _ (b2, w2) b2 (b2, w2)) by reflexivity.
        rewrite Ht0. reflexivity. }
      unfold bind at 1 in E. rewrite Ep in E. discriminate. }
  assert (El : topic_load (Some (TopicID m1)) (b2, w2) = Ret (t0, (b2, w2))).
  { unfold topic_load. rewrite (bind_run _ _ (b2, w2) b2 (b2, w2)) by reflexivity.
    rewrite Ht0. reflexivity. }
  rewrite (bind_run _ _ _ _ _ El) in E.
  unfold bind at 1 in E. unfold liftW at 1 in E.
  destruct (encode m t0 w2) as [[[t1 err] w3]|p] eqn:E3; [|discriminate].
  destruct err as [err|]; [discriminate|].
  injection E as <- <-.
  destruct (encode_Ret_appends _ _ _ _ _ E3) as (s & h & Hl & Hf & Hti & Hfiles).
  exists m, t1, s, h, (default [] (files w2 !! h)).
  split.
  { split; [reflexivity|]. split; [exact Hint|].
    intros Hc. exists m1. split; [exact (Hcmd Hc)|]. repeat split. }
  cbn [broker_topics set_broker_index set_broker_topics broker_index TopicID m].
  split; [apply lookup_insert_eq|]. split; [exact Hti|].
  split; [exact Hl|]. split; [exact Hf|]. split; [exact Hfiles|reflexivity].
Qed.

(** *** Topic indices over a returning [MustApply] *)

Lemma bind_Ret_inv {S A B} (c : M S A) (k : A -> M S B) s r :
  bind c k s = Ret r -> exists a s', c s = Ret (a, s') /\ k a s' = Ret r.
Proof.
  unfold bind. destruct (c s) as [[a s']|p]; [eauto|discriminate].
Qed.

Lemma liftW_Ret_inv {A} (c : M World A) b w a b' w' :
  liftW c (b, w) = Ret (a, (b', w')) -> b' = b /\ c w = Ret (a, w').
Proof.
  unfold liftW. destruct (c w) as [[a0 w0]|p]; [|discriminate].
  intros [= <- <- <-]. auto.
Qed.

Lemma topics_below_set_replicas k b id t rs :
  topics_below k b -> broker_topics b !! id = Some t ->
  topics_below k (set_broker_topics (<[id := set_topic_replicas rs t]> (broker_topics b)) b).
Proof.
  intros Hb Ht. apply topics_below_insert; [exact Hb|]. cbn. apply (Hb _ _ Ht).
Qed.

Lemma createTopicIfNotExists_below k id b w r b' w' :
  createTopicIfNotExists id (b, w) = Ret (r, (b', w')) ->
  0 < k -> topics_below k b -> topics_below k b'.
Proof.
  intros E Hk Hb.
  destruct (createTopicIfNotExists_spec id b w)
    as [(t & _ & E0)|[(_ & _ & E0)|(_ & _ & segs & m & E0 & _)]];
    rewrite E0 in E; injection E as <- <- <-; [exact Hb|..];
    (apply topics_below_insert; [exact Hb|exact Hk]).
Qed.

Lemma mustCreateTopicIfNotExists_below k id b w r b' w' :
  mustCreateTopicIfNotExists id (b, w) = Ret (r, (b', w')) ->
  0 < k -> topics_below k b -> topics_below k b'.
Proof.
  unfold mustCreateTopicIfNotExists. intros E Hk Hb.
  apply bind_Ret_inv in E. destruct E as ([ot err] & [b1 w1] & E0 & E).
  destruct err; [discriminate|]. injection E as <- <- <-.
  eapply createTopicIfNotExists_below; eassumption.
Qed.

Lemma mustSave_Ret_inv b w b' w' : mustSave (b, w) = Ret (tt, (b', w')) -> b' = b.
Proof. destruct (mustSave_run b w) as (m & ->). intros [= <- <-]. reflexivity. Qed.

Lemma mustApplyCreateReplica_below k m b w b' w' :
  mustApplyCreateReplica m (b, w) = Ret (tt, (b', w')) ->
  0 < k -> topics_below k b -> topics_below k b'.
Proof.
  unfold mustApplyCreateReplica. intros E Hk Hb.
  destruct (json_CreateReplicaCommand (Data m)) as [c|]; [|discriminate].
  apply bind_Ret_inv in E. destruct E as (r & [b1 w1] & E1 & E).
  unfold newReplica in E1. destruct (url_Parse (crc_URL c)); [|discriminate].
  injection E1 as <- <- <-.
  apply bind_Ret_inv in E. destruct E as (res & [b2 w2] & E2 & E).
  pose proof (createTopicIfNotExists_below k _ _ _ _ _ _ E2 Hk Hb) as Hb2.
  apply bind_Ret_inv in E. destruct E as (rep & [b3 w3] & E3 & E).
  apply liftW_Ret_inv in E3. destruct E3 as [-> _].
  apply bind_Ret_inv in E. destruct E as ([] & [b4 w4] & E4 & E).
  apply liftW_Ret_inv in E4. destruct E4 as [-> _].
  apply bind_Ret_inv in E. destruct E as ([] & [b5 w5] & E5 & E).
  injection E5 as <- <-.
  apply mustSave_Ret_inv in E. subst b'. exact Hb2.
Qed.

Lemma mustApplyDeleteReplica_below k m b w b' w' :
  mustApplyDeleteReplica m (b, w) = Ret (tt, (b', w')) ->
  topics_below k b -> topics_below k b'.
Proof.
  unfold mustApplyDeleteReplica. intros E Hb.
  destruct (json_DeleteReplicaCommand (Data m)) as [c|]; [|discriminate].
  rewrite (bind_run _ _ (b, w) b (b, w)) in E by reflexivity.
  destruct (broker_replicas b !! drc_ID c) as [r|]; [|injection E as <- <-; exact Hb].
  apply bind_Ret_inv in E. destruct E as (rep & [b1 w1] & E1 & E).
  apply liftW_Ret_inv in E1. destruct E1 as [-> _].
  rewrite (bind_run _ _ _ _ _ (detach_loop_run _ _ b w1)) in E.
  apply bind_Ret_inv in E. destruct E as ([] & [b2 w2] & E2 & E).
  apply liftW_Ret_inv in E2. destruct E2 as [-> _].
  apply bind_Ret_inv in E. destruct E as ([] & [b3 w3] & E3 & E).
  apply liftW_Ret_inv in E3. destruct E3 as [-> _].
  apply bind_Ret_inv in E. destruct E as ([] & [b4 w4] & E4 & E).
  injection E4 as <- <-.
  apply mustSave_Ret_inv in E. subst b'.
  intros id t' Ht'. cbn [broker_topics set_broker_replicas set_broker_topics] in Ht'.
  rewrite lookup_detached in Ht'.
  destruct (broker_topics b !! id) as [t|] eqn:Ht; [|discriminate].
  cbn in Ht'. injection Ht' as <-.
  destruct (decide _); cbn; apply (Hb _ _ Ht).
Qed.

Lemma mustApplySubscribe_below k m b w b' w' :
  mustApplySubscribe m (b, w) = Ret (tt, (b', w')) ->
  0 < k -> topics_below k b -> topics_below k b'.
Proof.
  unfold mustApplySubscribe. intros E Hk Hb.
  destruct (json_SubscribeCommand (Data m)) as [c|]; [|discriminate].
  rewrite (bind_run _ _ (b, w) b (b, w)) in E by reflexivity.
  destruct (broker_replicas b !! sc_ReplicaID c) as [r|]; [|injection E as <- <-; exact Hb].
  apply bind_Ret_inv in E. destruct E as (ot & [b1 w1] & E1 & E).
  pose proof (mustCreateTopicIfNotExists_below k _ _ _ _ _ _ E1 Hk Hb) as Hb1.
  apply mustCreateTopicIfNotExists_inv in E1. destruct E1 as (-> & _).
  apply bind_Ret_inv in E. destruct E as (rep & [b2 w2] & E2 & E).
  apply liftW_Ret_inv in E2. destruct E2 as [-> _].
  destruct (decide (sc_TopicID c ∈ replica_topics rep)); [injection E as <- <-; exact Hb1|].
  apply bind_Ret_inv in E. destruct E as ([] & [b3 w3] & E3 & E).
  apply liftW_Ret_inv in E3. destruct E3 as [-> _].
  apply bind_Ret_inv in E. destruct E as (t0 & [b4 w4] & E4 & E).
  unfold topic_load in E4. rewrite (bind_run _ _ (b1, w3) b1 (b1, w3)) in E4 by reflexivity.
  destruct (broker_topics b1 !! sc_TopicID c) as [t|] eqn:Ht; [|discriminate].
  injection E4 as <- <- <-.
  cbv zeta in E.
  apply bind_Ret_inv in E. destruct E as ([] & [b4 w4] & E4 & E).
  unfold topic_assign, topic_store, modifyB in E4. injection E4 as <- <-.
  apply bind_Ret_inv in E. destruct E as (err & [b5 w5] & E5 & E).
  apply liftW_Ret_inv in E5. destruct E5 as [-> _].
  apply mustSave_Ret_inv in E. subst b'.
  apply topics_below_set_replicas; assumption.
Qed.

Lemma mustApplyUnsubscribe_below k m b w b' w' :
  mustApplyUnsubscribe m (b, w) = Ret (tt, (b', w')) ->
  topics_below k b -> topics_below k b'.
Proof.
  unfold mustApplyUnsubscribe. intros E Hb.
  destruct (json_UnsubscribeCommand (Data m)) as [c|]; [|discriminate].
  rewrite (bind_run _ _ (b, w) b (b, w)) in E by reflexivity.
  apply bind_Ret_inv in E. destruct E as ([] & [b1 w1] & E1 & E).
  assert (b1 = b) as ->.
  { destruct (broker_replicas b !! uc_ReplicaID c) as [r|].
    - apply bind_Ret_inv in E1. destruct E1 as (rep & [b2 w2] & E2 & E1).
      apply liftW_Ret_inv in E2. destruct E2 as [-> _].
      apply liftW_Ret_inv in E1. apply E1.
    - injection E1 as <- <-. reflexivity. }
  apply bind_Ret_inv in E. destruct E as ([] & [b2 w2] & E2 & E).
  apply mustSave_Ret_inv in E. subst b'.
  destruct (broker_topics b !! uc_TopicID c) as [t|] eqn:Ht.
  - rewrite topic_store_run in E2. injection E2 as <- <-.
    apply topics_below_set_replicas; assumption.
  - injection E2 as <- <-. exact Hb.
Qed.

Lemma applyCommand_below k m b w b' w' :
  applyCommand m (b, w) = Ret (tt, (b', w')) ->
  0 < k -> topics_below k b -> topics_below k b'.
Proof.
  unfold applyCommand. intros E Hk Hb.
  destruct (Typ m =? CreateReplicaMessageType);
    [eapply mustApplyCreateReplica_below; eassumption|].
  destruct (Typ m =? DeleteReplicaMessageType);
    [eapply mustApplyDeleteReplica_below; eassumption|].
  destruct (Typ m =? SubscribeMessageType);
    [eapply mustApplySubscribe_below; eassumption|].
  destruct (Typ m =? UnsubscribeMessageType);
    [eapply mustApplyUnsubscribe_below; eassumption|].
  injection E as <- <-. exact Hb.
Qed.

Lemma entryMessage_below k e b w m b' w' :
  entryMessage e (b, w) = Ret (m, (b', w')) ->
  0 < k -> topics_below k b -> topics_below k b'.
Proof.
  unfold entryMessage. intros E Hk Hb. destruct (e_Type e).
  - destruct (UnmarshalBinary (e_Data e)) as [[m0 [err|]]|p]; try discriminate.
    apply bind_Ret_inv in E. destruct E as ([] & [b1 w1] & E1 & E).
    injection E as <- <- <-. eapply applyCommand_below; eassumption.
  - injection E as <- <- <-. exact Hb.
Qed.

(** After a [MustApply] that returns no topic is ahead of the entry, if none
    was before. *)
Lemma MustApply_below e b w b' w' :
  MustApply e (b, w) = Ret (tt, (b', w')) ->
  0 <= e_Index e ->
  (forall id t, broker_topics b !! id = Some t -> topic_index t <= e_Index e) ->
  forall id t, broker_topics b' !! id = Some t -> topic_index t <= e_Index e.
Proof.
  intros E H0 Hidx.
  assert (Hb : topics_below (e_Index e + 1) b).
  { intros id t Ht. specialize (Hidx _ _ Ht). lia. }
  assert (Hk : 0 < e_Index e + 1) by lia.
  unfold MustApply in E.
  apply bind_Ret_inv in E. destruct E as (m1 & [b1 w1] & E1 & E).
  pose proof (entryMessage_below _ _ _ _ _ _ _ E1 Hk Hb) as Hb1.
  cbv zeta in E. cbn [TopicID] in E.
  apply bind_Ret_inv in E. destruct E as (ot & [b2 w2] & E2 & E).
  pose proof (mustCreateTopicIfNotExists_below _ _ _ _ _ _ _ E2 Hk Hb1) as Hb2.
  apply mustCreateTopicIfNotExists_inv in E2. destruct E2 as (-> & _).
  apply bind_Ret_inv in E. destruct E as (t0 & [b3 w3] & E3 & E).
  unfold topic_load in E3. rewrite (bind_run _ _ (b2, w2) b2 (b2, w2)) in E3 by reflexivity.
  destruct (broker_topics b2 !! TopicID m1) as [t|] eqn:Ht; [|discriminate].
  injection E3 as <- <- <-.
  apply bind_Ret_inv in E. destruct E as ([t1 err] & [b4 w4] & E4 & E).
  apply liftW_Ret_inv in E4. destruct E4 as [-> E4].
  apply bind_Ret_inv in E. destruct E as ([] & [b5 w5] & E5 & E).
  unfold topic_assign, topic_store, modifyB in E5. injection E5 as <- <-.
  destruct err as [err|]; [discriminate|]. injection E as <- <-.
  apply encode_Ret_inv in E4. destruct E4 as (_ & Hti & _).
  intros id t' Ht'. cbn [broker_topics set_broker_index set_broker_topics] in Ht'.
  destruct (decide (TopicID m1 = id)) as [<-|Hne].
  - rewrite lookup_insert_eq in Ht'. injection Ht' as <-. rewrite (Hti eq_refl). cbn. lia.
  - rewrite lookup_insert_ne in Ht' by exact Hne. specialize (Hb2 _ _ Ht'). lia.
Qed.

(** *** A restart on a segment file over the limit *)

Lemma readdir_singleton id i c w :
  files w = {[(id, i) := c]} -> readdir id w = [(i, Z.of_nat (length c))].
Proof.
  intros Hf. unfold readdir. rewrite Hf, map_to_list_singleton. cbn.
  rewrite decide_True by reflexivity. reflexivity.
Qed.

Lemma openedTopic_singleton id c w :
  files w = {[(id, 0) := c]} ->
  openedTopic id w = mkTopic id 0 id [mkSegment 0 (id, 0) (Z.of_nat (length c)) None] ∅.
Proof.
  intros Hf. unfold openedTopic, loadedSegments. cbn [topic_path].
  rewrite (readdir_singleton id 0 c w Hf). reflexivity.
Qed.

Lemma lastIndex_nonneg i ms : 0 <= i -> Forall wf_Message ms -> 0 <= lastIndex i ms.
Proof.
  intros Hi Hwf. unfold lastIndex. destruct (last ms) as [m|] eqn:El; [|exact Hi].
  rewrite Forall_forall in Hwf. destruct (Hwf m) as (_ & _ & Hm & _); [|lia].
  apply last_Some in El. destruct El as [l' ->]. apply elem_of_app. right.
  apply list_elem_of_here.
Qed.

Lemma applyCommand_other m s : ~ configuration_type (Typ m) -> applyCommand m s = Ret (tt, s).
Proof.
  intros Hnot. unfold applyCommand, configuration_type in *.
  destruct (Z.eqb_spec (Typ m) CreateReplicaMessageType); [tauto|].
  destruct (Z.eqb_spec (Typ m) DeleteReplicaMessageType); [tauto|].
  destruct (Z.eqb_spec (Typ m) SubscribeMessageType); [tauto|].
  destruct (Z.eqb_spec (Typ m) UnsubscribeMessageType); [tauto|].
  reflexivity.
Qed.

(** A message for a topic whose active segment is over the limit. *)
Lemma MustApply_rollover e m0 b w t s :
  e_Type e = LogEntryCommand ->
  UnmarshalBinary (e_Data e) = Ret (m0, None) ->
  ~ configuration_type (Typ m0) ->
  broker_topics b !! TopicID m0 = Some t ->
  last (topic_segments t) = Some s ->
  MaxSegmentSize < seg_size s ->
  topic_index t < e_Index e ->
  MustApply e (b, w) = Panic NilDereference.
Proof.
  intros Hty Hu Hnot Ht Hl Hs Hi. unfold MustApply.
  rewrite (bind_run _ _ _ m0 (b, w)).
  2:{ rewrite (entryMessage_command e m0 b w Hty Hu).
      rewrite (bind_run _ _ _ _ _ (applyCommand_other m0 (b, w) Hnot)). reflexivity. }
  cbv zeta. cbn [TopicID].
  rewrite (bind_run _ _ _ _ _ (mustCreateTopicIfNotExists_exists _ b w t Ht)).
  assert (El : topic_load (Some (TopicID m0)) (b, w) = Ret (t, (b, w))).
  { unfold topic_load. rewrite (bind_run _ _ (b, w) b (b, w)) by reflexivity.
    rewrite Ht. reflexivity. }
  rewrite (bind_run _ _ _ _ _ El).
  unfold bind at 1. unfold liftW at 1.
  rewrite (encode_rollover _ t w s Hl Hs); [reflexivity|exact Hi].
Qed.

(** The restart that leads there.  The data directory holds the metadata of
    a broker with topic [id] and no replica, and the topic's directory
    holds one segment file, made of the encodings of [ms] and longer than
    [MaxSegmentSize].  [Open] on a new broker succeeds, the topic comes
    back with the length of the file as the recorded size of its active
    segment, and the entry of the next message for the topic panics. *)
Lemma MustApply_after_restart (raft_Open : string -> M BW (option error))
    (path url : string) (buf : list byte) (hdr : snapshotHeader)
    (id : Z) (segs : list snapshotTopicSegment) (ms : list Message)
    (w : World) (e : LogEntry) (m0 : Message) :
  path <> EmptyString ->
  (forall p s, raft_Open p s = Ret (None, s)) ->
  meta w = Some buf -> json_Unmarshal_header buf = Some hdr ->
  sh_Topics hdr = [mkSnapshotTopic id segs] -> sh_Replicas hdr = [] ->
  files w = {[(id, 0) := concat (map MarshalBinary ms)]} ->
  Forall wf_Message ms ->
  MaxSegmentSize < Z.of_nat (length (concat (map MarshalBinary ms))) ->
  e_Type e = LogEntryCommand ->
  UnmarshalBinary (e_Data e) = Ret (m0, None) ->
  ~ configuration_type (Typ m0) -> TopicID m0 = id ->
  lastIndex 0 ms < e_Index e ->
  exists b1 w1,
    Open raft_Open path (Some url) (mkBroker EmptyString 0 Follower ∅ ∅, w)
      = Ret (OpenOK, (b1, w1))
    /\ broker_index b1 = lastIndex 0 ms
    /\ active_size b1 w1 id = Z.of_nat (length (concat (map MarshalBinary ms)))
    /\ MustApply e (b1, w1) = Panic NilDereference.
Proof.
  intros Hp Hraft Hmeta Hj Htopics Hreps Hfiles Hwf Hbig Hty Hu Hnot Htid Hidx.
  set (c := concat (map MarshalBinary ms)) in *.
  set (b0 := set_broker_path path (mkBroker EmptyString 0 Follower ∅ ∅)).
  set (t0 := mkTopic id 0 id [mkSegment 0 (id, 0) (Z.of_nat (length c)) None] ∅).
  pose proof (openedTopic_singleton id c w Hfiles) as Hopened. fold t0 in Hopened.
  destruct (load_topics_run (sh_Topics hdr) w b0 w eq_refl)
    as (b1 & w1 & E1 & Hf1 & Hm1 & Hh1 & Hr1 & Hp1 & Hi1 & Hin1 & Hout1).
  assert (Htop : broker_topics b1 = {[id := t0]}).
  { apply map_eq. intros i. destruct (decide (i = id)) as [->|Hne].
    - rewrite lookup_singleton_eq, Hin1, Hopened; [reflexivity|].
      rewrite Htopics. cbn. apply list_elem_of_here.
    - rewrite lookup_singleton_ne by congruence. rewrite Hout1; [reflexivity|].
      rewrite Htopics. cbn. intros Hin. apply list_elem_of_singleton in Hin. contradiction. }
  set (t1 := set_topic_index (lastIndex 0 ms) t0).
  assert (Eli : topic_loadIndex t0 w1 = Ret ((t1, None), w1)).
  { apply (topic_loadIndex_messages t0 (mkSegment 0 (id, 0) (Z.of_nat (length c)) None) w1 ms);
      [reflexivity|exact Hwf|].
    cbn [seg_path]. rewrite Hf1, Hfiles. apply lookup_singleton_eq. }
  pose proof (lastIndex_nonneg 0 ms (Z.le_refl 0) Hwf) as Hnn.
  set (b2 := set_broker_topics (<[id := t1]> (broker_topics b1)) b1).
  assert (Eld : exists b3,
             loadIndex (b1, w1) = Ret (None, (b3, w1))
             /\ broker_topics b3 = broker_topics b2
             /\ broker_index b3 = lastIndex 0 ms).
  { unfold loadIndex. rewrite (bind_run _ _ (b1, w1) b1 (b1, w1)) by reflexivity.
    rewrite Htop, map_to_list_singleton. cbn [loadIndex_topics].
    rewrite (bind_run _ _ _ _ _ (liftW_run _ _ _ _ b1 Eli)). cbv iota beta.
    rewrite (bind_run _ _ _ _ _ (topic_store_run id t1 b1 w1)). fold b2.
    rewrite (bind_run _ _ (b2, w1) b2 (b2, w1)) by reflexivity.
    assert (Hi2 : broker_index b2 = 0) by (subst b2; cbn; rewrite Hi1; reflexivity).
    rewrite Hi2. cbn [topic_index t1 set_topic_index].
    destruct (Z.ltb_spec 0 (lastIndex 0 ms)) as [Hlt|Hge].
    - eexists. split; [reflexivity|]. split; reflexivity.
    - exists b2. split; [reflexivity|]. split; [reflexivity|]. lia. }
  destruct Eld as (b3 & E3 & Ht3 & Hi3).
  assert (Eload : Broker_load (b0, w) = Ret (None, (b3, w1))).
  { unfold Broker_load. rewrite (bind_run _ _ (b0, w) (b0, w) (b0, w)) by reflexivity.
    cbn [broker_path b0 set_broker_path].
    destruct (String.eqb_spec path EmptyString); [contradiction|].
    rewrite Hmeta, Hj. rewrite (bind_run _ _ _ _ _ E1). cbv iota.
    rewrite Hreps. cbn [for_each]. rewrite (bind_run _ _ (b1, w1) tt (b1, w1)) by reflexivity.
    rewrite (bind_run _ _ _ _ _ E3). reflexivity. }
  assert (Hlook : broker_topics b3 !! id = Some t1).
  { rewrite Ht3. subst b2. cbn. apply lookup_insert_eq. }
  exists b3, w1. split; [|split; [exact Hi3|split]].
  - unfold Open. destruct (String.eqb_spec path EmptyString); [contradiction|].
    erewrite bind_run; [|reflexivity]. fold b0.
    rewrite (bind_run _ _ _ _ _ Eload). cbv iota.
    rewrite (bind_run _ _ _ _ _ (Hraft _ _)). reflexivity.
  - rewrite (active_size_registered _ _ _ _ Hlook). reflexivity.
  - apply (MustApply_rollover e m0 b3 w1 t1 (mkSegment 0 (id, 0) (Z.of_nat (length c)) None));
      try assumption.
    + rewrite Htid. exact Hlook.
    + reflexivity.
Qed.

(** C4. Applying a log entry.  The claim is that every committed entry is
    appended to the addressed topic and advances the applied index.

    Whatever the broker and the disk, a [MustApply] that returns has done
    that: the message of the entry (the no-op broadcast on topic 0 for an
    internal entry, the decoded message for a command entry), stamped with
    the entry's index, is the last thing in the active segment file of the
    addressed topic, which exists, and the topic's index and the applied
    index are the entry's index; and if no topic was ahead of the entry's
    index before, none is afterwards.

    Whether it returns is decided by the size recorded in the active
    segment of the addressed topic.  Let the broker be open (its data
    directory in place) with its replicas in place, let the addressed
    topic, if the broker has it, be opened, let no topic be ahead of the
    applied index and the entry's index be above it (entries are applied
    in index order), and let a command payload decode.  If the recorded
    size is within
    [MaxSegmentSize], [MustApply] returns with the append made; no topic is
    ahead of the entry's index, the broker is open as before, every topic
    that was opened still is, a created topic is opened, and the recorded
    size of every topic the broker has is what it was (for a created topic,
    what [open] found on disk): an open broker whose topics are opened
    stays one, and a topic that takes one entry takes the next.  If the
    recorded size is over [MaxSegmentSize], which is the case after a
    restart on a segment file that has outgrown the limit (see
    [MustApply_after_restart]), [MustApply] panics on the nil dereference
    of [encode] and the entry is never applied. *)
Theorem C4_apply_appends_or_dereferences_nil (e : LogEntry) (b : Broker) (w : World) :
  (forall b' w',
      MustApply e (b, w) = Ret (tt, (b', w')) ->
      (exists m t' s h c,
          stamped e m
          /\ broker_topics b' !! TopicID m = Some t'
          /\ topic_index t' = e_Index e
          /\ last (topic_segments t') = Some s /\ seg_file s = Some h
          /\ files w' !! h = Some (c ++ MarshalBinary m)
          /\ broker_index b' = e_Index e)
      /\ (0 <= e_Index e ->
          (forall id t, broker_topics b !! id = Some t -> topic_index t <= e_Index e) ->
          forall id t, broker_topics b' !! id = Some t -> topic_index t <= e_Index e))
  /\ (forall m,
        stamped e m ->
        broker_opened b w ->
        (forall t, broker_topics b !! TopicID m = Some t -> topic_opened w t) ->
        (forall id t, broker_topics b !! id = Some t -> topic_index t <= broker_index b) ->
        0 <= broker_index b < e_Index e ->
        (e_Type e = LogEntryCommand ->
           forall m0, UnmarshalBinary (e_Data e) = Ret (m0, None) -> command_ok m0) ->
        (active_size b w (TopicID m) <= MaxSegmentSize ->
           exists b' w' t' s h,
             MustApply e (b, w) = Ret (tt, (b', w'))
             /\ broker_topics b' !! TopicID m = Some t'
             /\ topic_index t' = e_Index e
             /\ last (topic_segments t') = Some s /\ seg_file s = Some h
             /\ files w' !! h = Some (default [] (files w !! h) ++ MarshalBinary m)
             /\ broker_index b' = e_Index e
             /\ (forall id t, broker_topics b' !! id = Some t -> topic_index t <= e_Index e)
             /\ broker_opened b' w'
             /\ (forall id, topic_kept b w b' w' id)
             /\ (forall id, is_Some (broker_topics b' !! id) ->
                   active_size b' w' id = active_size b w id))
        /\ (MaxSegmentSize < active_size b w (TopicID m) ->
            MustApply e (b, w) = Panic NilDereference)).
Proof.
  split.
  { intros b' w' E. split; [apply (MustApply_Ret_inv _ _ _ _ _ E)|].
    apply (MustApply_below _ _ _ _ _ E). }
  intros m (Hmi & Hmint & Hmcmd) Hr Haddr Hidx [H0 Hlt] He.
  assert (Hb : topics_below (e_Index e) b).
  { intros id t Ht. specialize (Hidx _ _ Ht). lia. }
  assert (Hk : 0 < e_Index e) by lia.
  assert (He' : e_Type e = LogEntryCommand ->
                exists m0, UnmarshalBinary (e_Data e) = Ret (m0, None) /\ command_ok m0).
  { intros Hc. destruct (Hmcmd Hc) as (m0 & Hm0 & _). exists m0. split; [exact Hm0|].
    apply (He Hc m0 Hm0). }
  destruct (entryMessage_kept (e_Index e) e b w He' Hr Hb Hk)
    as (m1 & b1 & w1 & E1 & Hk1 & Hint & Hcmd).
  assert (Hm : m = mkMessage (Typ m1) (TopicID m1) (e_Index e) (Data m1)).
  { destruct m as [ty tid idx dat]. cbn in Hmi, Hmint, Hmcmd. subst idx.
    destruct (e_Type e) eqn:Hty.
    - destruct (Hmcmd eq_refl) as (m0 & Hm0 & -> & -> & ->).
      rewrite (Hcmd eq_refl) in Hm0. injection Hm0 as <-. reflexivity.
    - destruct (Hmint eq_refl) as (-> & -> & ->).
      destruct (Hint eq_refl) as (-> & -> & ->). reflexivity. }
  subst m. set (m := mkMessage (Typ m1) (TopicID m1) (e_Index e) (Data m1)).
  cbn [TopicID m] in *. clear Hmi Hmint Hmcmd.
  destruct Hk1 as (Hr1 & Hb1 & Hk1').
  destruct (mustCreateTopicIfNotExists_opened (e_Index e) (TopicID m1) b1 w1 Hr1 Hb1 Hk)
    as (b2 & w2 & t0 & E2 & Hk2 & Ht0 & Hh2 & _).
  assert (Hk02 : kept (e_Index e) b w b2 w2).
  { eapply kept_trans; [|exact Hk2]. split; [exact Hr1|split; [exact Hb1|exact Hk1']]. }
  destruct Hk02 as ((Hp2 & Hlive2) & Hb2 & (Hf2 & _ & _) & Hi2 & Hs2 & Hkept2).
  assert (El : topic_load (Some (TopicID m1)) (b2, w2) = Ret (t0, (b2, w2))).
  { unfold topic_load. rewrite (bind_run _ _ (b2, w2) b2 (b2, w2)) by reflexivity.
    rewrite Ht0. reflexivity. }
  destruct (Hkept2 _ _ Ht0 Haddr) as [(s0 & Hl0 & Ho0) Hlive0].
  assert (Hsize : active_size b w (TopicID m1) = seg_size s0).
  { rewrite <- Hs2. rewrite (active_size_registered _ _ _ _ Ht0), Hl0. reflexivity. }
  rewrite Hsize.
  unfold MustApply. rewrite (bind_run _ _ _ _ _ E1). cbv zeta. fold m.
  cbn [TopicID m].
  rewrite (bind_run _ _ _ _ _ E2). rewrite (bind_run _ _ _ _ _ El).
  split.
  - intros Hs0.
    destruct (encode_ok m t0 w2 s0 (Hb2 _ _ Ht0) Hl0 Hs0 Ho0 Hlive0)
      as (t' & w' & E3 & Hti & _ & _ & Hreps & Hsegs & Hfiles & Hdirs & _ & Hdom).
    rewrite (bind_run _ _ _ _ _ (liftW_run _ _ _ _ b2 E3)). cbv iota beta.
    erewrite bind_run; [|reflexivity].
    set (h := default (seg_path s0) (seg_file s0)) in *.
    assert (Hlast : last (topic_segments t') = Some (set_seg_file (Some h) s0)).
    { rewrite Hsegs. rewrite last_lookup, length_insert.
      replace (pred (length (topic_segments t0)))
        with (length (topic_segments t0) - 1)%nat by lia.
      apply list_lookup_insert_eq. apply list_lookup_last in Hl0.
      eapply lookup_lt_Some. exact Hl0. }
    do 2 eexists. exists t', (set_seg_file (Some h) s0), h.
    split; [reflexivity|].
    cbn [broker_topics set_broker_index set_broker_topics broker_index broker_path
         broker_replicas].
    split; [apply lookup_insert_eq|]. split; [exact Hti|]. split; [exact Hlast|].
    split; [reflexivity|]. split.
    { rewrite Hfiles, lookup_insert_eq. rewrite Hf2. reflexivity. }
    split; [reflexivity|]. split.
    { intros id t Ht. destruct (decide (TopicID m1 = id)) as [<-|Hne].
      - rewrite lookup_insert_eq in Ht. injection Ht as <-. rewrite Hti. cbn. lia.
      - rewrite lookup_insert_ne in Ht by exact Hne. specialize (Hb2 _ _ Ht). lia. }
    assert (Hdd : dirs w2 ⊆ dirs w') by (rewrite Hdirs; reflexivity).
    assert (Hhh : dom (heap w2) ⊆ dom (heap w')) by (rewrite Hdom; reflexivity).
    split; [split; [exact Hp2|eapply replicas_live_dom; eassumption]|].
    split.
    { intros id t Ht Hold. cbn [broker_topics set_broker_index set_broker_topics] in Ht.
      destruct (decide (TopicID m1 = id)) as [<-|Hne].
      - rewrite lookup_insert_eq in Ht. injection Ht as <-. split.
        + exists (set_seg_file (Some h) s0). split; [exact Hlast|]. left. cbn. eauto.
        + rewrite Hreps. eapply replicas_live_dom; eassumption.
      - rewrite lookup_insert_ne in Ht by exact Hne.
        eapply topic_opened_mono; [exact Hdd|exact Hhh|].
        apply (Hkept2 _ _ Ht Hold). }
    intros id [t Ht]. rewrite <- Hs2.
    destruct (decide (TopicID m1 = id)) as [<-|Hne].
    + rewrite (active_size_registered _ w' (TopicID m1) t')
        by (cbn; apply lookup_insert_eq).
      rewrite (active_size_registered _ _ _ _ Ht0), Hl0, Hlast. reflexivity.
    + rewrite lookup_insert_ne in Ht by exact Hne.
      rewrite (active_size_registered _ w' id t)
        by (cbn; rewrite lookup_insert_ne by exact Hne; exact Ht).
      rewrite (active_size_registered _ _ _ _ Ht). reflexivity.
  - intros Hs0. unfold bind at 1. unfold liftW at 1.
    rewrite (encode_rollover m t0 w2 s0 Hl0 Hs0 (Hb2 _ _ Ht0)). reflexivity.
Qed.

End ApplyEntry.

(** * Instances on concrete brokers *)

Lemma C1_rollover_witness :
  encode Ex.msg8 Ex.topic_full Ex.world0 = Panic NilDereference.
Proof.
  apply (C1_rollover_dereferences_nil Ex.msg8 Ex.topic_full Ex.world0
           (mkSegment 0 (3, 0) (MaxSegmentSize + 1) None)).
  - reflexivity.
  - vm_compute. reflexivity.
  - vm_compute. reflexivity.
Defined.

Lemma C7_roundtrip_witness :
  Decode emptyMessage (MarshalBinary Ex.msg8) = Ret ((Ex.msg8, None), []).
Proof.
  apply (C7_decode_encode_roundtrip Ex.msg8).
  unfold wf_Message. cbn. lia.
Defined.

Lemma C8_append_witness :
  exists t' w',
    encode Ex.msg8 Ex.topic_fresh Ex.world0 = Ret ((t', None), w')
    /\ topic_index t' = 8
    /\ files w' !! (3, 0) = Some (MarshalBinary Ex.msg8).
Proof.
  apply (proj1 (proj2 (proj2 C8_append_strictly_increasing))
           Ex.msg8 Ex.topic_fresh Ex.world0 (mkSegment 0 (3, 0) 0 None)).
  - vm_compute. reflexivity.
  - reflexivity.
  - vm_compute. discriminate.
  - right. cbn. set_solver.
  - intros id r Hr. vm_compute in Hr. discriminate.
Defined.

Lemma C10_heartbeat_witness :
  Heartbeat 1 10 (Ex.broker5, Ex.world5) =
    Ret (None, (Ex.broker5,
                set_heap (<[1%positive := set_replica_index 10 Ex.replicaA]>
                            (heap Ex.world5)) Ex.world5))
  /\ minReplicaTopicIndex Ex.broker5 Ex.world5 3 = 150
  /\ minReplicaTopicIndex Ex.broker5
       (set_heap (<[1%positive := set_replica_index 10 Ex.replicaA]>
                    (heap Ex.world5)) Ex.world5) 3 = 10.
Proof.
  destruct (C10_heartbeat_sets_index_exactly Ex.broker5 Ex.world5 1 10
              1%positive Ex.replicaA) as (H1 & _ & H3).
  - reflexivity.
  - vm_compute. reflexivity.
  - vm_compute. reflexivity.
  - split; [exact H1|]. split; [vm_compute; reflexivity|].
    apply H3.
    + vm_compute. set_solver.
    + vm_compute. reflexivity.
Defined.

(** Applying CreateReplica{10, tcp://b} to a broker whose replica 10 is at
    tcp://a, subscribed to topics 0 and 1, with index 5, and listed by
    topic 1: the leader-side call refuses the id, but the applier changes
    the replica map.  Replica 10 is afterwards a new object at tcp://b,
    subscribed to topic 0 only, with index 0; the old object is still on
    the heap as it was and topic 1 still lists it under the id 10. *)
Lemma C3_apply_is_not_a_noop :
  exists b' w',
    @mustApplyCreateReplica Wire.external Ex.msg_create (Ex.broker3, Ex.world3)
      = Ret (tt, (b', w'))
    /\ is_Some (broker_replicas Ex.broker3 !! 10)
    /\ @CreateReplica Wire.external 10 "tcp://b" Ex.broker3 = inl ErrReplicaExists
    /\ broker_replicas b' <> broker_replicas Ex.broker3
    /\ replica_of Ex.broker3 Ex.world3 10 = Some Ex.replica10
    /\ (replica_URL <$> replica_of b' w' 10) = Some "tcp://b"%string
    /\ (replica_index <$> replica_of b' w' 10) = Some 0
    /\ (elements ∘ replica_topics <$> replica_of b' w' 10) = Some [0]
    /\ broker_replicas Ex.broker3 !! 10 = Some 1%positive
    /\ broker_replicas b' !! 10 = Some 2%positive
    /\ heap w' !! 1%positive = Some Ex.replica10
    /\ (exists t1, broker_topics b' !! 1 = Some t1
                   /\ topic_replicas t1 !! 10 = Some 1%positive).
Proof.
  eexists. eexists. split; [vm_compute; reflexivity|].
  split; [eexists; vm_compute; reflexivity|].
  split; [vm_compute; reflexivity|].
  split.
  { intros E. apply (f_equal (fun m => m !! 10)) in E. vm_compute in E. discriminate. }
  do 7 (split; [vm_compute; reflexivity|]).
  eexists. split; vm_compute; reflexivity.
Qed.

Lemma C3_apply_witness :
  exists b' w',
    @mustApplyCreateReplica Wire.external Ex.msg_create (Ex.broker3, Ex.world3)
      = Ret (tt, (b', w'))
    /\ broker_replicas b' = <[10 := 2%positive]> (broker_replicas Ex.broker3)
    /\ heap w' = <[2%positive := mkReplica "tcp://b" 10 0 None {[BroadcastTopicID]}]>
                   (heap Ex.world3)
    /\ heap Ex.world3 !! 2%positive = None
    /\ heap w' !! 1%positive = Some Ex.replica10
    /\ broker_topics b' !! 1 = Some Ex.topic1.
Proof.
  destruct (@C3_apply_create_replica_replaces Wire.external Ex.msg_create
              (mkCreateReplicaCommand 10 "tcp://b") "tcp://b" Ex.broker3 Ex.world3)
    as ((b' & w' & E & Hr & Hh & Hn & Hold) & _).
  - vm_compute. reflexivity.
  - reflexivity.
  - destruct (Hold 1%positive Ex.replica10) as (_ & Hobj & Htop);
      [vm_compute; reflexivity..|].
    exists b', w'. split; [exact E|]. split; [exact Hr|]. split; [exact Hh|].
    split; [exact Hn|]. split; [exact Hobj|].
    apply Htop; vm_compute; reflexivity.
Defined.

(** A snapshot stream whose header lists topic 1 with one empty segment
    starting at 0, restored into an empty broker. *)
Lemma C5_restore_witness :
  exists b' w',
    @Restore Wire.external Ex.snapshot_stream (Ex.broker_empty, Ex.world_empty)
      = Ret (Some (Errorf "open segment" ErrNotExist), (b', w')).
Proof.
  apply (@C5_restore_fails_on_any_segment Wire.external Ex.snapshot_stream
           Ex.broker_empty Ex.world_empty
           (Wire.sHeader Ex.snapshot_header) [] Ex.snapshot_header).
  - vm_compute. reflexivity.
  - vm_compute. reflexivity.
  - vm_compute. reflexivity.
  - apply Exists_cons_hd. cbn. discriminate.
  - intros id r Hr. vm_compute in Hr. discriminate.
Defined.

(** The broker of the truncation scenario: applied index 250, segments
    starting at 0, 100 and 200.  [Snapshot] returns 200. *)
Lemma C9_snapshot_witness :
  exists out index,
    @Snapshot Wire.external Ex.broker5 Ex.world5 = (out, index, None)
    /\ index = 200 /\ broker_index Ex.broker5 = 250.
Proof.
  destruct (@C9_snapshot_index_is_max_segment_start Wire.external
              Ex.broker5 Ex.world5) as (out & index & E & Hub & Hatt & _).
  - intros s (id & t & Ht & Hs).
    destruct (decide (id = 3)) as [->|Hne].
    + vm_compute in Ht. injection Ht as <-.
      cbn in Hs. rewrite !elem_of_cons in Hs.
      destruct Hs as [->|[->|[->|Hs]]]; [eexists; vm_compute; reflexivity..|].
      inversion Hs.
    + unfold Ex.broker5 in Ht. cbn in Ht.
      rewrite lookup_insert_ne, lookup_empty in Ht by congruence. discriminate.
  - exists out, index. split; [exact E|]. split; [|reflexivity].
    vm_compute in E. congruence.
Defined.

Lemma C6_catchup_witness :
  exists w',
    writeTo Ex.topic7 3%positive Ex.world7 = Ret (None, w')
    /\ sent Ex.world7 3%positive Ex.replica30 [] (MarshalBinary Ex.msg6) w'.
Proof.
  destruct (C6_catchup_writes_messages_after_index Ex.topic7 3%positive Ex.world7
              Ex.replica30 [] [[]; [Ex.msg5; Ex.msg6]]) as ((w' & E & Hs) & _).
  - split; reflexivity.
  - constructor; [|constructor; [|constructor]].
    + split; [constructor|]. right. split; [vm_compute; reflexivity|reflexivity].
    + split.
      * repeat constructor; cbn; lia.
      * left. vm_compute. reflexivity.
  - cbn. repeat split; constructor.
  - exists w'. split; [exact E|]. exact Hs.
Defined.

Lemma broker3_topics id t :
  broker_topics Ex.broker3 !! id = Some t ->
  (id = 0 /\ t = Ex.topic0) \/ (id = 1 /\ t = Ex.topic1).
Proof.
  unfold Ex.broker3. cbn [broker_topics]. intros Ht.
  destruct (decide (id = 0)) as [->|H0].
  { rewrite lookup_insert_eq in Ht. injection Ht as <-. auto. }
  rewrite lookup_insert_ne in Ht by congruence.
  destruct (decide (id = 1)) as [->|H1].
  { rewrite lookup_insert_eq in Ht. injection Ht as <-. auto. }
  rewrite lookup_insert_ne, lookup_empty in Ht by congruence. discriminate.
Qed.

Lemma broker3_opened : broker_opened Ex.broker3 Ex.world3.
Proof.
  split; [discriminate|].
  intros id r Hr. destruct (decide (id = 10)) as [->|Hne].
  - vm_compute in Hr. injection Hr as <-. eexists. vm_compute. reflexivity.
  - unfold Ex.broker3 in Hr. cbn in Hr.
    rewrite lookup_insert_ne, lookup_empty in Hr by congruence. discriminate.
Qed.

Lemma broker_full_topics id t :
  broker_topics Ex.broker_full !! id = Some t -> id = 3 /\ t = Ex.topic_full.
Proof.
  unfold Ex.broker_full. cbn [broker_topics]. intros Ht.
  destruct (decide (id = 3)) as [->|Hne].
  - rewrite lookup_insert_eq in Ht. injection Ht as <-. auto.
  - rewrite lookup_insert_ne, lookup_empty in Ht by congruence. discriminate.
Qed.

Lemma broker_full_opened : broker_opened Ex.broker_full Ex.world0.
Proof. split; [discriminate|]. intros id r Hr. vm_compute in Hr. discriminate. Qed.

(** The entry of a message published to topic 3, applied to the broker
    whose topic 3 was reloaded with an active segment one byte over
    [MaxSegmentSize]: whatever is on disk, [MustApply] panics. *)
Lemma C4_apply_panics_on_reloaded_topic (w : World) :
  @MustApply Wire.external Ex.entry_publish (Ex.broker_full, w)
    = Panic NilDereference.
Proof. vm_compute. reflexivity. Qed.

(** The entry of CreateReplica{10, tcp://b} at index 6 is applied to the
    broker with applied index 5.  On the broker restarted with topic 3 over
    the limit, the entry of a message published to topic 3 panics, and an
    internal entry, which goes to topic 0, is applied. *)
Lemma C4_apply_witness :
  (exists b' w' t',
      @MustApply Wire.external Ex.entry_create (Ex.broker3, Ex.world3)
        = Ret (tt, (b', w'))
      /\ broker_topics b' !! 0 = Some t' /\ topic_index t' = 6
      /\ broker_index b' = 6)
  /\ @MustApply Wire.external Ex.entry_publish (Ex.broker_full, Ex.world0)
       = Panic NilDereference
  /\ (exists b' w' t',
        @MustApply Wire.external Ex.entry_internal8 (Ex.broker_full, Ex.world0)
          = Ret (tt, (b', w'))
        /\ broker_topics b' !! 0 = Some t' /\ topic_index t' = 8
        /\ broker_index b' = 8).
Proof.
  split; [|split].
  - destruct (proj2 (@C4_apply_appends_or_dereferences_nil Wire.external
                       Ex.entry_create Ex.broker3 Ex.world3)
                (mkMessage CreateReplicaMessageType 0 6 (Data Ex.msg_create)))
      as (Hok & _).
    + split; [reflexivity|]. split; [discriminate|].
      intros _. eexists. split; [vm_compute; reflexivity|]. repeat split.
    + exact broker3_opened.
    + intros t Ht. apply broker3_topics in Ht.
      destruct Ht as [[_ ->]|[Hid _]]; [|discriminate].
      split; [eexists; split; [reflexivity|]; right; cbn; set_solver|].
      intros id r Hr. vm_compute in Hr. discriminate.
    + intros id t Ht. apply broker3_topics in Ht.
      destruct Ht as [[-> ->]|[-> ->]]; vm_compute; discriminate.
    + vm_compute. split; [discriminate|reflexivity].
    + intros _ m0 Hm0. vm_compute in Hm0. injection Hm0 as <-.
      split; [|split; [|split]]; try (vm_compute; discriminate).
      intros _. do 2 eexists. split; [vm_compute; reflexivity|reflexivity].
    + destruct Hok as (b' & w' & t' & s & h & E & Ht & Hti & _ & _ & _ & Hbi & _).
      { vm_compute. discriminate. }
      exists b', w', t'. auto.
  - apply (proj2 (@C4_apply_appends_or_dereferences_nil Wire.external
                    Ex.entry_publish Ex.broker_full Ex.world0)
             (mkMessage 1 3 8 (Data Ex.msg8))).
    + split; [reflexivity|]. split; [discriminate|].
      intros _. eexists. split; [vm_compute; reflexivity|]. repeat split.
    + exact broker_full_opened.
    + intros t Ht. apply broker_full_topics in Ht. destruct Ht as [_ ->].
      split; [eexists; split; [reflexivity|]; right; cbn; set_solver|].
      intros id r Hr. vm_compute in Hr. discriminate.
    + intros id t Ht. apply broker_full_topics in Ht. destruct Ht as [-> ->].
      vm_compute. discriminate.
    + vm_compute. split; [discriminate|reflexivity].
    + intros _ m0 Hm0. vm_compute in Hm0. injection Hm0 as <-.
      split; [|split; [|split]]; intros Hty; vm_compute in Hty; discriminate.
    + vm_compute. reflexivity.
  - destruct (proj2 (@C4_apply_appends_or_dereferences_nil Wire.external
                       Ex.entry_internal8 Ex.broker_full Ex.world0)
                (mkMessage InternalMessageType BroadcastTopicID 8 []))
      as (Hok & _).
    + split; [reflexivity|]. split; [intros _; repeat split|discriminate].
    + exact broker_full_opened.
    + intros t Ht. apply broker_full_topics in Ht. destruct Ht as [Hid _]. discriminate.
    + intros id t Ht. apply broker_full_topics in Ht. destruct Ht as [-> ->].
      vm_compute. discriminate.
    + vm_compute. split; [discriminate|reflexivity].
    + intros Hty. vm_compute in Hty. discriminate.
    + destruct Hok as (b' & w' & t' & s & h & E & Ht & Hti & _ & _ & _ & Hbi & _).
      { vm_compute. discriminate. }
      exists b', w', t'. auto.
Defined.

(** * Instances for the further properties *)

Lemma X1_Decode_witness :
  Decode emptyMessage [Byte.x80; Byte.x00] =
    Ret ((emptyMessage, Some ErrUnexpectedEOF), [])
  /\ Decode emptyMessage (marshalHeader Ex.msg5) = Ret ((headerOnly Ex.msg5, Some EOF), []).
Proof.
  destruct (X1_Decode_short_reads emptyMessage) as (_ & Hshort & Hhdr & _). split.
  - apply Hshort; [discriminate|cbn; lia].
  - apply Hhdr; [unfold wf_Message; cbn; lia|discriminate].
Defined.

Lemma X2_UnmarshalBinary_witness :
  UnmarshalBinary (MarshalBinary Ex.msg8 ++ [Byte.xff]) = Ret (Ex.msg8, None)
  /\ UnmarshalBinary [Byte.x80; Byte.x00] = Panic SliceOutOfRange
  /\ UnmarshalBinary (marshalHeader Ex.msg8 ++ [Byte.x68]) =
       Ret (headerOnly Ex.msg8, Some ErrMessageDataTooShort).
Proof.
  destruct X2_UnmarshalBinary_roundtrip as (Hrt & Hpanic & Hshort & _).
  split; [|split].
  - apply Hrt. unfold wf_Message. cbn. lia.
  - apply Hpanic. cbn. lia.
  - apply Hshort; [unfold wf_Message; cbn; lia|cbn; lia].
Defined.

Lemma X3_loadIndex_witness :
  topic_loadIndex (set_topic_index 0 Ex.topic7) Ex.world7 = Ret ((Ex.topic7, None), Ex.world7)
  /\ topic_loadIndex (set_topic_index 0 Ex.topic7) Ex.world7_torn =
       Ret ((Ex.topic7, Some (Errorf "decode" ErrUnexpectedEOF)), Ex.world7_torn).
Proof.
  destruct (X3_topic_loadIndex_last_message (set_topic_index 0 Ex.topic7)
              (mkSegment 5 (7, 5) 0 None) Ex.world7 eq_refl) as (_ & Hok & _).
  destruct (X3_topic_loadIndex_last_message (set_topic_index 0 Ex.topic7)
              (mkSegment 5 (7, 5) 0 None) Ex.world7_torn eq_refl) as (_ & _ & Htorn).
  split.
  - apply (Hok [Ex.msg5; Ex.msg6]).
    + repeat constructor; cbn; lia.
    + vm_compute. reflexivity.
  - apply (Htorn [Ex.msg5; Ex.msg6] [Byte.x00; Byte.x01; Byte.x00]).
    + repeat constructor; cbn; lia.
    + discriminate.
    + cbn. lia.
    + vm_compute. reflexivity.
Defined.

Lemma X4_loadIndex_witness :
  exists err b',
    loadIndex (Ex.broker7, Ex.world7) = Ret (err, (b', Ex.world7))
    /\ (err = None ->
        broker_index Ex.broker7 <= broker_index b'
        /\ (forall id t', broker_topics b' !! id = Some t' ->
              topic_index t' <= broker_index b')
        /\ (broker_index b' = broker_index Ex.broker7
            \/ exists id t', broker_topics b' !! id = Some t'
                             /\ topic_index t' = broker_index b')).
Proof.
  apply (X4_loadIndex_highest_topic_index Ex.broker7 Ex.world7).
  intros id t Ht. destruct (decide (id = 7)) as [->|Hne].
  - vm_compute in Ht. injection Ht as <-. discriminate.
  - unfold Ex.broker7 in Ht. cbn in Ht.
    rewrite lookup_insert_ne, lookup_empty in Ht by congruence. discriminate.
Defined.

Lemma X5_open_witness :
  exists segs,
    topic_open Ex.topic7_closed Ex.world7 =
      Ret ((set_topic_segments segs Ex.topic7_closed, None),
           set_dirs ({[7]} ∪ dirs Ex.world7) Ex.world7)
    /\ segs <> []
    /\ StronglySorted segment_le segs
    /\ NoDup (map seg_index segs)
    /\ ((forall i, files Ex.world7 !! (7, i) = None) ->
          segs = [mkSegment 0 (7, 0) 0 None])
    /\ ((exists i, files Ex.world7 !! (7, i) <> None) ->
          forall s, s ∈ segs <->
            exists c, files Ex.world7 !! (7, seg_index s) = Some c
                      /\ s = fileSegment 7 (seg_index s) c).
Proof.
  apply (proj2 (X5_open_lists_files_in_order Ex.topic7_closed Ex.world7)).
  reflexivity.
Defined.

Lemma X6_truncate_witness :
  replicated 150 (topic_segments Ex.topic3) (Ex.seg 0) = true
  /\ exists w',
      Truncate_topic (3, Ex.topic3) (Ex.broker5, Ex.world5) =
        Ret (tt, (set_broker_topics
                    (<[3 := set_topic_segments
                              (map (truncated
                                      (minReplicaTopicIndex Ex.broker5 Ex.world5 3)
                                      (topic_segments Ex.topic3))
                                 (topic_segments Ex.topic3)) Ex.topic3]>
                       (broker_topics Ex.broker5)) Ex.broker5, w'))
      /\ files w' !! (3, 0) = None
      /\ files w' !! (3, 100) = Some [Byte.x02].
Proof.
  split; [reflexivity|].
  destruct (X6_truncate_removes_replicated_segments 3 Ex.topic3 Ex.broker5 Ex.world5)
    as (w' & E & _ & _ & _ & Hgone & Hkept & _).
  - repeat constructor; unfold segment_le; cbn; lia.
  - cbn. repeat (apply NoDup_cons; split; [rewrite ?elem_of_cons, elem_of_nil; lia|]).
    apply NoDup_nil_2.
  - exists w'. split; [exact E|]. split.
    + apply (Hgone (Ex.seg 0)); [apply list_elem_of_here|reflexivity].
    + rewrite (Hkept (3, 100)); [reflexivity|].
      intros s Hs Hr. cbn in Hs. rewrite !elem_of_cons in Hs.
      destruct Hs as [->|[->|[->|Hs]]]; [discriminate..|inversion Hs].
Defined.

Lemma broker5_segments s :
  broker_segment Ex.broker5 s -> s = Ex.seg 0 \/ s = Ex.seg 100 \/ s = Ex.seg 200.
Proof.
  intros (id & t & Ht & Hs). destruct (decide (id = 3)) as [->|Hne].
  - vm_compute in Ht. injection Ht as <-. cbn in Hs. rewrite !elem_of_cons in Hs.
    destruct Hs as [->|[->|[->|Hs]]]; auto. inversion Hs.
  - unfold Ex.broker5 in Ht. cbn in Ht.
    rewrite lookup_insert_ne, lookup_empty in Ht by congruence. discriminate.
Qed.

Lemma X7_snapshot_witness :
  exists index,
    @Snapshot Wire.external Ex.broker5 Ex.world5 =
      (@snapshot_frame Wire.external Ex.broker5 Ex.world5
         ++ concat (map (segment_content Ex.world5) (all_segments Ex.broker5)),
       index, None).
Proof.
  apply (@X7_snapshot_streams_header_then_files Wire.external Ex.broker5 Ex.world5).
  intros s Hs. apply broker5_segments in Hs.
  destruct Hs as [-> | [-> | ->] ]; eexists; vm_compute; reflexivity.
Defined.

Lemma X8_snapshot_witness :
  @Snapshot Wire.external Ex.broker7 Ex.world7 =
    (@snapshot_frame Wire.external Ex.broker7 Ex.world7 ++ [], 0, Some ErrNotExist).
Proof.
  apply (@X8_snapshot_fails_on_missing_file Wire.external Ex.broker7 Ex.world7
           [] [mkSegment 5 (7, 5) 0 None] (mkSegment 0 (7, 0) 0 None)).
  - vm_compute. reflexivity.
  - constructor.
  - vm_compute. reflexivity.
Defined.

Lemma X9_truncate_snapshot_witness :
  exists b' w' out,
    Truncate (Ex.broker5, Ex.world5) = Ret (None, (b', w'))
    /\ files w' !! seg_path (Ex.seg 0) = None
    /\ @Snapshot Wire.external b' w' =
         (@snapshot_frame Wire.external b' w' ++ out, 0, Some ErrNotExist).
Proof.
  apply (@X9_snapshot_after_truncation_fails Wire.external Ex.broker5 Ex.world5
           3 Ex.topic3 0%nat (Ex.seg 0) (Ex.seg 100)).
  - vm_compute. reflexivity.
  - reflexivity.
  - reflexivity.
  - vm_compute. discriminate.
Defined.

Lemma X10_closed_broker_witness :
  @createTopicIfNotExists Wire.external 4 (Ex.broker_closed, Ex.world_empty) =
    Ret ((None, Some (Errorf "save" ErrClosed)),
         (set_broker_topics (<[4 := mkTopic 4 0 4 [] ∅]> ∅) Ex.broker_closed,
          Ex.world_empty))
  /\ encode Ex.msg8 (mkTopic 4 0 4 [] ∅) Ex.world_empty = Panic NilDereference.
Proof.
  destruct (@X10_failed_create_leaves_unopened_topic Wire.external 4
              Ex.broker_closed Ex.world_empty Ex.msg8) as (H1 & _ & _ & H4 & _).
  - reflexivity.
  - reflexivity.
  - split; [exact H1|]. apply H4. cbn. lia.
Defined.

Lemma X11_heartbeat_witness :
  Heartbeat 1 10 (Ex.broker_empty, Ex.world_empty) =
    Ret (Some ErrNotLeader, (Ex.broker_empty, Ex.world_empty))
  /\ Heartbeat 9 10 (Ex.broker5, Ex.world5) =
       Ret (Some ErrReplicaNotFound, (Ex.broker5, Ex.world5))
  /\ ReplicaIndex 2 (Ex.broker5, Ex.world5) = Ret ((210, None), (Ex.broker5, Ex.world5)).
Proof.
  split; [|split].
  - apply (X11_heartbeat_errors_and_replica_index Ex.broker_empty Ex.world_empty 1 10).
    discriminate.
  - apply (X11_heartbeat_errors_and_replica_index Ex.broker5 Ex.world5 9 10);
      vm_compute; reflexivity.
  - apply (proj1 (proj2 (proj2 (X11_heartbeat_errors_and_replica_index
                                   Ex.broker5 Ex.world5 2 0)) 2%positive Ex.replicaB
                    eq_refl eq_refl)).
Defined.

Lemma X12_delete_witness :
  exists b' mt,
    @mustApplyDeleteReplica Wire.external Ex.msg_delete (Ex.broker3, Ex.world3) =
      Ret (tt, (b', set_meta mt
                      (set_heap (<[1%positive := set_replica_writer None
                                                   (set_replica_topics ∅ Ex.replica10)]>
                                   (heap Ex.world3)) Ex.world3)))
    /\ broker_replicas b' = delete 10 (broker_replicas Ex.broker3)
    /\ (topic_replicas <$> broker_topics b' !! 1) = Some ∅.
Proof.
  destruct (@X12_apply_delete_replica Wire.external Ex.msg_delete
              (mkDeleteReplicaCommand 10) Ex.broker3 Ex.world3 eq_refl) as (_ & H2).
  destruct (H2 1%positive Ex.replica10 eq_refl eq_refl) as (b' & mt & E & Hr & _ & _ & Ht).
  exists b', mt. split; [exact E|]. split; [exact Hr|].
  rewrite Ht. vm_compute. reflexivity.
Defined.

Lemma X13_subscribe_witness :
  exists b' w',
    @mustApplySubscribe Wire.external Ex.msg_subscribe (Ex.broker3, Ex.world3) =
      Ret (tt, (b', w'))
    /\ @mustApplySubscribe Wire.external Ex.msg_subscribe (b', w') = Ret (tt, (b', w'))
    /\ is_Some (broker_topics b' !! 2).
Proof.
  destruct (@mustApplySubscribe Wire.external Ex.msg_subscribe (Ex.broker3, Ex.world3))
    as [[[] [b' w']]|p] eqn:E.
  - exists b', w'. split; [reflexivity|].
    destruct (@X13_apply_subscribe_is_idempotent Wire.external Ex.msg_subscribe
                Ex.broker3 b' Ex.world3 w' E) as (H1 & c & Hc & _ & H3).
    split; [exact H1|].
    vm_compute in Hc. injection Hc as <-.
    apply (H3 1%positive). reflexivity.
  - vm_compute in E. discriminate.
Defined.

Lemma X14_unsubscribe_witness :
  exists b' w',
    @mustApplyUnsubscribe Wire.external Ex.msg_unsubscribe (Ex.broker3, Ex.world3) =
      Ret (tt, (b', w'))
    /\ heap w' !! 1%positive = Some (set_replica_topics ({[0; 1]} ∖ {[1]}) Ex.replica10)
    /\ (topic_replicas <$> broker_topics b' !! 1) = Some (delete 10 (<[10 := 1%positive]> ∅)).
Proof.
  destruct (@X14_apply_unsubscribe_removes_both_sides Wire.external Ex.msg_unsubscribe
              (mkUnsubscribeCommand 10 1) Ex.broker3 Ex.world3 eq_refl)
    as (b' & w' & E & _ & _ & _ & Hh & _ & Ht & _).
  - intros r Hr. vm_compute in Hr. injection Hr as <-. eexists. vm_compute. reflexivity.
  - exists b', w'. split; [exact E|]. split.
    + rewrite (Hh 1%positive Ex.replica10 eq_refl eq_refl). cbn. apply lookup_insert_eq.
    + rewrite (Ht Ex.topic1 eq_refl). cbn. rewrite lookup_insert_eq. reflexivity.
Defined.

Lemma X15_fanout_witness :
  exists t' w',
    encode Ex.msg7 Ex.topic7_tailed Ex.world7 = Ret ((t', None), w')
    /\ heap w' !! 3%positive =
         Some (set_replica_writer
                 (Some (mkSink (MarshalBinary Ex.msg7) None)) Ex.replica30).
Proof.
  destruct (X15_append_reaches_tailing_replicas Ex.msg7 Ex.topic7_tailed Ex.world7
              (mkSegment 5 (7, 5) 0 None)) as (t' & w' & E & Hin & _).
  - cbn. lia.
  - reflexivity.
  - vm_compute. discriminate.
  - right. cbn. apply elem_of_singleton. reflexivity.
  - intros id r Hr. cbn in Hr. destruct (decide (id = 30)) as [->|Hne].
    + rewrite lookup_insert_eq in Hr. injection Hr as <-. eexists. vm_compute. reflexivity.
    + rewrite lookup_insert_ne, lookup_empty in Hr by congruence. discriminate.
  - vm_compute. apply NoDup_singleton.
  - exists t', w'. split; [exact E|].
    etransitivity; [apply (Hin 3%positive); vm_compute; apply list_elem_of_here|].
    vm_compute. reflexivity.
Defined.

Lemma X16_reload_witness :
  exists t' w',
    encode Ex.msg7 Ex.topic7 Ex.world7 = Ret ((t', None), w')
    /\ topic_index t' = 7
    /\ topic_loadIndex (set_topic_index 0 t') w' = Ret ((t', None), w').
Proof.
  destruct (X16_append_then_loadIndex Ex.msg7 Ex.topic7 Ex.world7
              (mkSegment 5 (7, 5) 0 None) [Ex.msg5; Ex.msg6])
    as (t' & w' & s' & E & Hidx & _ & _ & Hload).
  - cbn. lia.
  - reflexivity.
  - vm_compute. discriminate.
  - right. split; [reflexivity|]. cbn. apply elem_of_singleton. reflexivity.
  - intros id r Hr. cbn in Hr. rewrite lookup_empty in Hr. discriminate.
  - unfold wf_Message. cbn. lia.
  - split.
    + repeat constructor; cbn; lia.
    + left. vm_compute. reflexivity.
  - exists t', w'. split; [exact E|]. split; [exact Hidx|apply Hload].
Defined.

Lemma X17_append_witness :
  exists t' w',
    encode Ex.msg7 Ex.topic7 Ex.world7 = Ret ((t', None), w')
    /\ segment_starts t' = [0; 5]
    /\ map seg_size (topic_segments t') = [0; 0]
    /\ (length <$> files w' !! (7, 5)) = Some 69%nat.
Proof.
  destruct (X17_append_never_updates_segment_size Ex.msg7 Ex.topic7 Ex.world7
              (mkSegment 5 (7, 5) 0 None)) as (t' & w' & E & _ & Hst & Hsz & Hlen & _).
  - cbn. lia.
  - reflexivity.
  - vm_compute. discriminate.
  - right. cbn. apply elem_of_singleton. reflexivity.
  - intros id r Hr. cbn in Hr. rewrite lookup_empty in Hr. discriminate.
  - exists t', w'. split; [exact E|]. split; [exact Hst|]. split; [exact Hsz|].
    exact Hlen.
Defined.

Lemma broker3_live : replicas_live (broker_replicas Ex.broker3) Ex.world3.
Proof.
  intros id r Hr. cbn in Hr. destruct (decide (id = 10)) as [->|Hne].
  - rewrite lookup_insert_eq in Hr. injection Hr as <-. eexists. vm_compute. reflexivity.
  - rewrite lookup_insert_ne, lookup_empty in Hr by congruence. discriminate.
Qed.

Lemma X18_close_witness :
  exists b' w',
    close (Ex.broker3, Ex.world3) = Ret (None, (b', w'))
    /\ broker_path b' = EmptyString
    /\ broker_index b' = 5
    /\ close (b', w') = Ret (Some ErrClosed, (b', w')).
Proof.
  destruct (proj2 (@X18_close_clears_the_broker Wire.external Ex.broker3 Ex.world3))
    as (b' & w' & E & Hp & _ & _ & Hi & _ & _ & _ & _ & _ & Hc & _).
  - discriminate.
  - exact broker3_live.
  - exists b', w'. split; [exact E|]. split; [exact Hp|]. split; [exact Hi|exact Hc].
Defined.

Lemma X19_open_witness :
  @Open Wire.external (fun _ => ret None) EmptyString (Some "tcp://a"%string)
     (Ex.broker_closed, Ex.world_empty) =
    Ret (ErrPathRequired, (Ex.broker_closed, Ex.world_empty))
  /\ @Open Wire.external (fun _ => ret None) "/data" None
        (Ex.broker_closed, Ex.world_empty) =
       Ret (ErrConnectionAddressRequired,
            (set_broker_path "/data" Ex.broker_closed, Ex.world_empty))
  /\ exists b' w',
       close (set_broker_path "/data" Ex.broker_closed, Ex.world_empty) = Ret (None, (b', w'))
       /\ broker_path b' = EmptyString.
Proof.
  split; [|split].
  - apply (@X19_open_checks_its_arguments Wire.external). reflexivity.
  - apply (@X19_open_checks_its_arguments Wire.external); [discriminate|reflexivity].
  - destruct (proj1 (proj2 (@X19_open_checks_its_arguments Wire.external
                              (fun _ => ret None) "/data" None
                              Ex.broker_closed Ex.world_empty)))
      as (_ & Hc); [discriminate|reflexivity|].
    destruct Hc as (b' & w' & E & Hp & _).
    + intros id r Hr. cbn in Hr. rewrite lookup_empty in Hr. discriminate.
    + exists b', w'. split; [exact E|exact Hp].
Defined.

Lemma X20_load_witness :
  exists err b' w' i r,
    @Broker_load Wire.external (Ex.broker_new, Ex.world_meta) = Ret (err, (b', w'))
    /\ broker_topics b' !! 7 = Some (set_topic_index i (openedTopic 7 Ex.world_meta))
    /\ broker_replicas b' !! 30 = Some r
    /\ heap w' !! r = Some (mkReplica "tcp://c" 30 0 None (list_to_set [0; 7])).
Proof.
  destruct (proj2 (@X20_load_rebuilds_topics_and_replicas Wire.external
                     Ex.broker_new Ex.world_meta)
              (Wire.sHeader Ex.meta_header) Ex.meta_header)
    as (err & b' & w' & E & _ & _ & Ht & Hr & _).
  - discriminate.
  - reflexivity.
  - vm_compute. reflexivity.
  - intros id t Ht. cbn in Ht. rewrite lookup_empty in Ht. discriminate.
  - cbn. apply NoDup_singleton.
  - repeat constructor. eexists. reflexivity.
  - destruct (Ht (mkSnapshotTopic 7 [])) as (i & Hi); [apply list_elem_of_here|].
    destruct (Hr (mkSnapshotReplica 30 [0; 7] "tcp://c")) as (r & u & Hu & Hr' & Hh);
      [apply list_elem_of_here|].
    injection Hu as <-.
    exists err, b', w', i, r. split; [exact E|]. split; [exact Hi|]. split; [exact Hr'|exact Hh].
Defined.

Lemma X21_restore_witness :
  exists b' w',
    @Restore Wire.external
       (putBE 4 (Z.of_nat (length (Wire.sHeader Ex.meta_header)))
          ++ Wire.sHeader Ex.meta_header ++ [Byte.x00])
       (Ex.broker3, Ex.world3) = Ret (None, (b', w'))
    /\ broker_index b' = 5
    /\ broker_topics b' !! 7 = Some (mkTopic 7 0 7 [mkSegment 0 (7, 0) 0 None] ∅)
    /\ broker_topics b' !! 1 = None.
Proof.
  destruct (@X21_restore_without_segments Wire.external _ Ex.broker3 Ex.world3
              (Wire.sHeader Ex.meta_header) [Byte.x00] Ex.meta_header eq_refl)
    as (b' & w' & E & Hi & Ht & _).
  - vm_compute. reflexivity.
  - vm_compute. reflexivity.
  - repeat constructor.
  - exact broker3_live.
  - cbn. apply NoDup_singleton.
  - repeat constructor. eexists. reflexivity.
  - exists b', w'. split; [exact E|]. split; [exact Hi|]. split.
    + rewrite (Ht 7). apply decide_True. cbn. apply list_elem_of_here.
    + rewrite (Ht 1). apply decide_False. cbn. intros Hin.
      apply elem_of_cons in Hin. destruct Hin as [Hin|Hin]; [discriminate|inversion Hin].
Defined.

Lemma X22_save_load_witness :
  exists w1 err b' w' r',
    @save Wire.external (Ex.broker3, Ex.world3) = Ret (None, (Ex.broker3, w1))
    /\ @Broker_load Wire.external (mkBroker "/data" 0 Leader ∅ ∅, w1) = Ret (err, (b', w'))
    /\ is_Some (broker_topics b' !! 1)
    /\ broker_replicas b' !! 10 = Some r'
    /\ heap w' !! r' = Some (mkReplica "tcp://a" 10 0 None {[0; 1]}).
Proof.
  destruct (@X22_save_then_load Wire.external Ex.broker3 Ex.world3
              (default (mkSnapshotHeader [] [] 0)
                 (Wire.run Wire.pHeader
                    (Wire.sHeader (createSnapshotHeader Ex.broker3 Ex.world3)))))
    as (w1 & err & b' & w' & Es & El & _ & Ht & _ & Hr).
  - discriminate.
  - intros id t Ht. apply broker3_topics in Ht. destruct Ht as [[-> ->]|[-> ->]]; reflexivity.
  - intros id r Hr. cbn in Hr. destruct (decide (id = 10)) as [->|Hne].
    + rewrite lookup_insert_eq in Hr. injection Hr as <-.
      exists Ex.replica10. split; [vm_compute; reflexivity|].
      split; [reflexivity|]. eexists. reflexivity.
    + rewrite lookup_insert_ne, lookup_empty in Hr by congruence. discriminate.
  - vm_compute. reflexivity.
  - vm_compute. reflexivity.
  - vm_compute. reflexivity.
  - destruct (Hr 10 1%positive Ex.replica10 eq_refl eq_refl) as (r' & u & Hu & Hr' & Hh).
    injection Hu as <-.
    exists w1, err, b', w', r'. split; [exact Es|]. split; [exact El|].
    split; [apply Ht; eexists; vm_compute; reflexivity|]. split; [exact Hr'|exact Hh].
Defined.

Lemma X23_WriteTo_witness :
  exists b' w',
    Replica_WriteTo 3%positive (mkSink [] None) (Ex.broker30, Ex.world7) =
      Ret (None, (b', w'))
    /\ heap w' !! 3%positive =
         Some (set_replica_writer (Some (mkSink (MarshalBinary Ex.msg6) None)) Ex.replica30)
    /\ (topic_replicas <$> broker_topics b' !! 7) = Some (<[30 := 3%positive]> ∅).
Proof.
  destruct (X23_WriteTo_catches_up_in_topic_order 3%positive [] Ex.broker30 Ex.world7
              Ex.replica30 eq_refl) as (_ & _ & _ & H).
  destruct (H Ex.stored) as (b' & w' & E & _ & _ & _ & Hh & _ & Ht).
  - intros id Hin. cbn in Hin. apply elem_of_union in Hin.
    destruct Hin as [Hin|Hin]; apply elem_of_singleton in Hin; subst id.
    + exists Ex.topic0_empty. split; [reflexivity|]. split.
      * constructor; [|constructor]. split; [constructor|]. right.
        split; [vm_compute; reflexivity|reflexivity].
      * cbn. auto.
    + exists Ex.topic7. split; [vm_compute; reflexivity|]. split.
      * constructor; [|constructor; [|constructor]].
        -- split; [constructor|]. right. split; [vm_compute; reflexivity|reflexivity].
        -- split; [repeat constructor; cbn; lia|]. left. vm_compute. reflexivity.
      * cbn. repeat split; constructor.
  - exists b', w'. split; [exact E|]. split.
    + rewrite Hh, lookup_insert_eq. vm_compute. reflexivity.
    + rewrite (Ht 7). vm_compute. reflexivity.
Defined.

Lemma X24_restore_witness :
  @Restore Wire.external [] (Ex.broker3, Ex.world3) =
    Ret (Some (Errorf "read header size" EOF), (Ex.broker3, Ex.world3))
  /\ @Restore Wire.external [Byte.x00; Byte.x00] (Ex.broker3, Ex.world3) =
       Ret (Some (Errorf "read header size" ErrUnexpectedEOF), (Ex.broker3, Ex.world3)).
Proof.
  split.
  - apply (@X24_restore_rejects_bad_header Wire.external). reflexivity.
  - apply (@X24_restore_rejects_bad_header Wire.external); [discriminate|cbn; lia].
Defined.

Lemma X25_apply_witness :
  @MustApply Wire.external Ex.entry_short (Ex.broker3, Ex.world3) = Panic SliceOutOfRange.
Proof.
  apply (@X25_apply_rejects_malformed_entries Wire.external Ex.entry_short
           Ex.broker3 Ex.world3 eq_refl).
  cbn. lia.
Defined.

Lemma X27_detached_witness :
  writeTo Ex.topic7 3%positive Ex.world7_detached =
    Ret (Some (Errorf "write segment" (Errorf "write to" errReplicaUnavailable)),
         Ex.world7_detached).
Proof.
  apply (X27_catch_up_without_writer Ex.topic7 3%positive Ex.world7_detached
           (set_replica_writer None Ex.replica30) [[]; [Ex.msg5; Ex.msg6]]).
  - reflexivity.
  - reflexivity.
  - split.
    + constructor; [|constructor; [|constructor]].
      * split; [constructor|]. right. split; [vm_compute; reflexivity|reflexivity].
      * split; [repeat constructor; cbn; lia|]. left. vm_compute. reflexivity.
    + cbn. repeat split; constructor.
Defined.

Lemma X28_append_witness :
  encode Ex.msg7 Ex.topic0_empty Ex.world7 =
    Ret ((Ex.topic0_empty, Some (Errorf "open segment" ErrNotExist)), Ex.world7).
Proof.
  apply (@X28_append_fails_without_directory Wire.external Ex.msg7 Ex.topic0_empty
           Ex.world7 (mkSegment 0 (0, 0) 0 None)).
  - cbn. lia.
  - reflexivity.
  - vm_compute. discriminate.
  - reflexivity.
  - cbn. intros Hin. apply elem_of_singleton in Hin. discriminate.
Defined.
